(** * A shallow embedding of the MNIST neural-network engine

    The development follows the two implementations of the repository:
    the templated engine of [Network.hpp] (module-level definitions of the
    section [Engine]) and the earlier fixed engine of [main4.cpp] (module
    [Main4]).  Machine integers are [Z] with the 32-bit wrap-around written
    out, arrays are lists with the bounds behaviour of their C++ container,
    fallible code lives in the error monad [result], and mutation is
    explicit passing of the network [Store]. *)

From Stdlib Require Import ZArith QArith Lia Bool.
From stdpp Require Import base list.

Open Scope Z_scope.

(** ** Outcomes of a call *)

(** [Fatal] is a halt of the process ([__builtin_trap], a failed [assert],
    an uncaught [std::out_of_range]); [Undefined] is undefined behaviour
    ([__builtin_unreachable], an unchecked out-of-bounds access, a division
    by zero); [OutOfFuel] is a forwarding chain that does not end. *)
Inductive result (A : Type) : Type :=
| Ok (a : A)
| Fatal
| Undefined
| OutOfFuel.

Arguments Ok {A} a.
Arguments Fatal {A}.
Arguments Undefined {A}.
Arguments OutOfFuel {A}.

Definition bind {A B : Type} (m : result A) (k : A -> result B) : result B :=
  match m with
  | Ok a => k a
  | Fatal => Fatal
  | Undefined => Undefined
  | OutOfFuel => OutOfFuel
  end.

Notation "'let*' x ':=' e 'in' k" := (bind e (fun x => k))
  (at level 10, x pattern, e at level 100, k at level 200).

(** A loop with an accumulator: [for (x : l) acc = body(acc, x)]. *)
Fixpoint foldM {A S : Type} (body : S -> A -> result S) (l : list A) (s : S)
  : result S :=
  match l with
  | [] => Ok s
  | x :: l' => let* s' := body s x in foldM body l' s'
  end.

(** ** 32-bit [unsigned] arithmetic *)

Definition UINT_MODULUS : Z := 2 ^ 32.

Definition wrap (z : Z) : Z := z mod UINT_MODULUS.
Definition uadd (a b : Z) : Z := wrap (a + b).
Definition usub (a b : Z) : Z := wrap (a - b).
Definition umul (a b : Z) : Z := wrap (a * b).
Definition udiv (a b : Z) : result Z :=
  if b =? 0 then Undefined else Ok (a / b).
Definition umod (a b : Z) : result Z :=
  if b =? 0 then Undefined else Ok (a mod b).

Definition is_unsigned (z : Z) : Prop := 0 <= z < UINT_MODULUS.

(** [for (unsigned i = 0; i < n; ++i)] visits [urange n]. *)
Definition urange (n : Z) : list Z := map Z.of_nat (seq 0 (Z.to_nat n)).

(** ** Conversions between 1-D and 3-D coordinates (Network.hpp:62-74) *)

Definition getX (index dimX : Z) : result Z := umod index dimX.

Definition getY (index dimX dimY : Z) : result Z :=
  let* q := udiv index dimX in umod q dimY.

Definition getZ (index dimX dimY : Z) : result Z :=
  udiv index (umul dimX dimY).

Definition getIndex (x y z dimX dimY : Z) : Z :=
  uadd (uadd (umul (umul dimX dimY) z) (umul dimX y)) x.

(** ** Single-precision arithmetic as an interface

    The engine only combines floats through the operations below; the
    properties proved here are about which operations are applied to which
    operands, so the operations stay abstract.  [fmul_comm] is the one law used (IEEE
    multiplication is commutative). *)
Class FloatOps (F : Type) : Type := {
  f0 : F;                          (* 0.0f *)
  f1 : F;                          (* 1.0f *)
  f2 : F;                          (* 2.0f *)
  FLT_MIN : F;                     (* std::numeric_limits<float>::min() *)
  fadd : F -> F -> F;
  fsub : F -> F -> F;
  fmul : F -> F -> F;
  fdiv : F -> F -> F;
  flt : F -> F -> bool;            (* operator< *)
  fexp : F -> F;                   (* std::exp *)
  fsqrt : F -> F;                  (* std::sqrt *)
  fpow : F -> F -> F;              (* std::pow *)
  of_unsigned : Z -> F;            (* conversion unsigned -> float *)
  fmul_comm : forall a b, fmul a b = fmul b a
}.

(** [std::max(a, b)] is [(a < b) ? b : a]. *)
Definition fmax {F} `{FloatOps F} (a b : F) : F := if flt a b then b else a.

(** Left-to-right summation starting from [0.0f], the order of every
    accumulation loop of the engine. *)
Definition fsum {F} `{FloatOps F} (l : list F) : F := fold_left fadd l f0.

(** [std::default_random_engine] and [std::normal_distribution<float>]:
    both are objects with state, and a draw advances both. *)
Class RandomOps (F : Type) : Type := {
  default_random_engine : Type;
  engine_seed : Z -> default_random_engine;
  normal_distribution : Type;
  normal_new : normal_distribution;
  normal_draw : normal_distribution -> default_random_engine ->
                F * normal_distribution * default_random_engine
}.

(** ** Containers *)

Definition in_bounds (i n : Z) : bool := (0 <=? i) && (i <? n).

(** A C array or a [std::vector] read with [operator[]]: no check. *)
Definition arr_get {T} (a : list T) (i : Z) : result T :=
  if in_bounds i (Z.of_nat (length a)) then
    match a !! Z.to_nat i with Some v => Ok v | None => Undefined end
  else Undefined.

Definition arr_set {T} (a : list T) (i : Z) (v : T) : result (list T) :=
  if in_bounds i (Z.of_nat (length a)) then Ok (<[Z.to_nat i := v]> a)
  else Undefined.

(** [std::vector::at]: throws [std::out_of_range], which nothing catches. *)
Definition vec_at {T} (a : list T) (i : Z) : result T :=
  if in_bounds i (Z.of_nat (length a)) then
    match a !! Z.to_nat i with Some v => Ok v | None => Fatal end
  else Fatal.

(** [boost::multi_array]: extents and the elements in row-major order. *)
Record multi_array (T : Type) : Type := mkArray {
  shape : list Z;
  elements : list T
}.
Arguments mkArray {T} shape elements.
Arguments shape {T} m.
Arguments elements {T} m.

Definition num_elements {T} (a : multi_array T) : Z :=
  fold_right Z.mul 1 (shape a).

Definition extent {T} (a : multi_array T) (d : nat) : Z := nth d (shape a) 0.

Definition ma_with_elements {T} (a : multi_array T) (l : list T)
  : multi_array T := mkArray (shape a) l.

Definition tabulate3 {T} (d0 d1 d2 : Z) (f : Z -> Z -> Z -> T) : list T :=
  flat_map (fun i => flat_map (fun j => map (f i j) (urange d2)) (urange d1))
           (urange d0).

(** ** The gradient step of a fully-connected neuron

    [FullyConnectedNeuron::endBatch] is the same code in Network.hpp
    (223-246) and in main4.cpp (284-308): a loop over the weights and a
    loop for the bias.  [input i j] is the read
    [inputs->getNeuron(i).activations[j]], [rate] is
    [learningRate / mbSize] and [reg] the decay factor. *)

Definition regularisation {F : Type} {FO : FloatOps F}
    (learningRate lambda : F) (numTrainingImages : Z) : F :=
  fsub f1 (fmul learningRate (fdiv lambda (of_unsigned numTrainingImages))).

Definition batchRate {F : Type} {FO : FloatOps F}
    (mbSize : Z) (learningRate : F) : F :=
  fdiv learningRate (of_unsigned mbSize).

Definition endBatch_weights {F : Type} {FO : FloatOps F}
    (input : Z -> Z -> result F) (errors : list F) (rate reg : F)
    (mbSize size : Z) (weights : list F) : result (list F) :=
  foldM (fun weights i =>
           let* weightDelta :=
             foldM (fun delta j =>
                      let* a := input i j in
                      let* e := arr_get errors j in
                      Ok (fadd delta (fmul a e)))
                   (urange mbSize) f0 in
           let weightDelta := fmul weightDelta rate in
           let* w := arr_get weights i in
           let* weights := arr_set weights i (fmul w reg) in
           let* w := arr_get weights i in
           arr_set weights i (fsub w weightDelta))
        (urange size) weights.

Definition endBatch_bias {F : Type} {FO : FloatOps F}
    (errors : list F) (rate : F) (mbSize : Z) (bias : F) : result F :=
  let* biasDelta :=
    foldM (fun delta j => let* e := arr_get errors j in Ok (fadd delta e))
          (urange mbSize) f0 in
  let biasDelta := fmul biasDelta rate in
  Ok (fsub bias biasDelta).

(** * The templated engine of Network.hpp *)

Section Engine.

Context {F : Type} {FO : FloatOps F} {RO : RandomOps F}.

(** Build mode ([-DNDEBUG]) and the mini-batch size template parameter. *)
Variable NDEBUG : bool.
Variable mbSize : Z.

(** The content of float storage that no constructor initialises. *)
Variable indeterminate : F.

(** Network.hpp:23-27. *)
Definition UNREACHABLE {A : Type} : result A :=
  if NDEBUG then Undefined else Fatal.

(** [assert(c)] of <cassert>: compiled out under NDEBUG. *)
Definition assert (c : bool) : result unit :=
  if NDEBUG then Ok tt else if c then Ok tt else Fatal.

(** The range check of [multi_array::operator[]] ([BOOST_ASSERT]); without
    it an index out of range is an access out of bounds. *)
Definition BOOST_ASSERT (c : bool) : result unit :=
  if c then Ok tt else if NDEBUG then Undefined else Fatal.

Fixpoint ma_offset (exts idxs : list Z) (acc : Z) : result Z :=
  match exts, idxs with
  | [], [] => Ok acc
  | e :: exts', i :: idxs' =>
      let* _ := BOOST_ASSERT (in_bounds i e) in
      ma_offset exts' idxs' (acc * e + i)
  | _, _ => Undefined
  end.

Definition ma_get {T} (a : multi_array T) (idxs : list Z) : result T :=
  let* off := ma_offset (shape a) idxs 0 in arr_get (elements a) off.

Definition ma_set {T} (a : multi_array T) (idxs : list Z) (v : T)
  : result (multi_array T) :=
  let* off := ma_offset (shape a) idxs 0 in
  let* l := arr_set (elements a) off v in
  Ok (ma_with_elements a l).

(** A [multi_array] of floats is value-initialised. *)
Definition ma_zero (exts : list Z) : multi_array F :=
  mkArray exts (repeat f0 (Z.to_nat (fold_right Z.mul 1 exts))).

(** ** Neurons (Network.hpp:76-87) *)

Record Neuron : Type := mkNeuron {
  n_index : Z;
  n_x : Z;
  n_y : Z;
  n_z : Z;
  weightedInputs : list F;
  activations : list F;
  errors : list F
}.

Definition scratch : list F := repeat indeterminate (Z.to_nat mbSize).

(** [Neuron(index)] and [Neuron(x, y, z)]; the coordinates a constructor
    does not set are never read. *)
Definition Neuron_index (index : Z) : Neuron :=
  mkNeuron index 0 0 0 scratch scratch scratch.
Definition Neuron_xyz (x y z : Z) : Neuron :=
  mkNeuron 0 x y z scratch scratch scratch.

Definition set_weightedInput (n : Neuron) (mb : Z) (v : F) : result Neuron :=
  let* a := arr_set (weightedInputs n) mb v in
  Ok (mkNeuron (n_index n) (n_x n) (n_y n) (n_z n) a (activations n) (errors n)).
Definition set_activation (n : Neuron) (mb : Z) (v : F) : result Neuron :=
  let* a := arr_set (activations n) mb v in
  Ok (mkNeuron (n_index n) (n_x n) (n_y n) (n_z n) (weightedInputs n) a (errors n)).
Definition set_error (n : Neuron) (mb : Z) (v : F) : result Neuron :=
  let* a := arr_set (errors n) mb v in
  Ok (mkNeuron (n_index n) (n_x n) (n_y n) (n_z n)
               (weightedInputs n) (activations n) a).

(** A [Layer<mbSize>*]: null, the network's input layer, or the layer
    object held at a position of the network's [layers] vector. *)
Inductive ptr : Type :=
| Null
| PInput
| PLayer (i : nat).

(** Network.hpp:178-191. *)
Record FullyConnectedNeuron : Type := mkFCN {
  fcn_base : Neuron;
  fcn_learningRate : F;
  fcn_lambda : F;
  fcn_inputs : ptr;
  fcn_outputs : ptr;
  weights : list F;
  bias : F
}.

Definition FullyConnectedNeuron_new (index : Z) (learningRate lambda : F)
  : FullyConnectedNeuron :=
  mkFCN (Neuron_index index) learningRate lambda Null Null [] indeterminate.

Definition fcn_with_base (n : FullyConnectedNeuron) (b : Neuron) :=
  mkFCN b (fcn_learningRate n) (fcn_lambda n) (fcn_inputs n) (fcn_outputs n)
        (weights n) (bias n).
Definition fcn_with_weights (n : FullyConnectedNeuron) (w : list F) (b : F) :=
  mkFCN (fcn_base n) (fcn_learningRate n) (fcn_lambda n) (fcn_inputs n)
        (fcn_outputs n) w b.
Definition fcn_with_inputs (n : FullyConnectedNeuron) (p : ptr) :=
  mkFCN (fcn_base n) (fcn_learningRate n) (fcn_lambda n) p (fcn_outputs n)
        (weights n) (bias n).
Definition fcn_with_outputs (n : FullyConnectedNeuron) (p : ptr) :=
  mkFCN (fcn_base n) (fcn_learningRate n) (fcn_lambda n) (fcn_inputs n) p
        (weights n) (bias n).

(** Network.hpp:545-553. *)
Record ConvNeuron : Type := mkCN {
  cn_base : Neuron;
  cn_inputs : ptr;
  cn_outputs : ptr;
  cn_dimX : Z;
  cn_dimY : Z
}.

Definition ConvNeuron_new (x y z dimX dimY : Z) : ConvNeuron :=
  mkCN (Neuron_xyz x y z) Null Null dimX dimY.
Definition cn_with_base (n : ConvNeuron) (b : Neuron) :=
  mkCN b (cn_inputs n) (cn_outputs n) (cn_dimX n) (cn_dimY n).
Definition cn_with_inputs (n : ConvNeuron) (p : ptr) :=
  mkCN (cn_base n) p (cn_outputs n) (cn_dimX n) (cn_dimY n).
Definition cn_with_outputs (n : ConvNeuron) (p : ptr) :=
  mkCN (cn_base n) (cn_inputs n) p (cn_dimX n) (cn_dimY n).

(** ** Layers *)

(** Network.hpp:113-125. *)
Record InputLayer : Type := mkInputLayer {
  il_imageX : Z;
  il_imageY : Z;
  il_neurons : multi_array Neuron               (* [x][y][0] *)
}.

(** Network.hpp:262-277; [activationFn] and [activationFnDeriv] are the
    template arguments of the layer's neurons. *)
Record FullyConnectedLayer : Type := mkFCL {
  fcl_activationFn : F -> F;
  fcl_activationFnDeriv : F -> F;
  fcl_inputs : ptr;
  fcl_outputs : ptr;
  fcl_neurons : list FullyConnectedNeuron;
  fcl_bwdErrors : multi_array F                 (* [mb][i] *)
}.

(** Network.hpp:407-420. *)
Record SoftMaxLayer : Type := mkSML {
  sml_costFn : F -> F -> F;
  sml_costDelta : F -> F -> F -> F;
  sml_inputs : ptr;
  sml_outputs : ptr;
  sml_neurons : list FullyConnectedNeuron;
  sml_bwdErrors : multi_array F                 (* [mb][i] *)
}.

(** Network.hpp:610-639. *)
Record ConvLayer : Type := mkCL {
  cl_inputX : Z;
  cl_inputY : Z;
  cl_inputZ : Z;
  cl_numFMs : Z;
  cl_activationFn : F -> F;
  cl_activationFnDeriv : F -> F;
  cl_learningRate : F;
  cl_lambda : F;
  cl_inputs : ptr;
  cl_outputs : ptr;
  cl_bias : multi_array F;                      (* [fm] *)
  cl_weights : multi_array F;                   (* [fm][x][y][z] *)
  cl_neurons : multi_array ConvNeuron;          (* [fm][x][y] *)
  cl_bwdErrors : multi_array F                  (* [mb][x][y][z] *)
}.

(** Network.hpp:802-820. *)
Record MaxPoolLayer : Type := mkMPL {
  mp_poolX : Z;
  mp_poolY : Z;
  mp_inputs : ptr;
  mp_outputs : ptr;
  mp_neurons : multi_array Neuron               (* [x][y][z] *)
}.

(** The closed set of classes derived from [Layer<mbSize>]. *)
Inductive Layer : Type :=
| LInput (l : InputLayer)
| LFullyConnected (l : FullyConnectedLayer)
| LSoftMax (l : SoftMaxLayer)
| LConv (l : ConvLayer)
| LMaxPool (l : MaxPoolLayer).

(** Params.hpp is not part of the sources; these are the fields the
    engine reads. *)
Record Params : Type := mkParams {
  learningRate : F;
  lambda : F;
  seed : Z;
  numEpochs : Z;
  monitorInterval : Z
}.

(** The members of [Network] together with the layer objects they point
    to (Network.hpp:911-915). *)
Record Store : Type := mkStore {
  params : Params;
  inputLayer : InputLayer;
  layers : list Layer;
  generator : default_random_engine
}.

Definition with_inputLayer (s : Store) (l : InputLayer) : Store :=
  mkStore (params s) l (layers s) (generator s).
Definition with_layers (s : Store) (ls : list Layer) : Store :=
  mkStore (params s) (inputLayer s) ls (generator s).
Definition with_generator (s : Store) (g : default_random_engine) : Store :=
  mkStore (params s) (inputLayer s) (layers s) g.

Definition deref (s : Store) (p : ptr) : result Layer :=
  match p with
  | Null => Undefined
  | PInput => Ok (LInput (inputLayer s))
  | PLayer i =>
      match layers s !! i with Some l => Ok l | None => Undefined end
  end.

(** Writing back the object [this] points to. *)
Definition put_layer (s : Store) (this : nat) (l : Layer) : Store :=
  with_layers s (<[this := l]> (layers s)).

(** The object behind a [this] pointer of static type [C*] is a [C]. *)
Definition this_FullyConnected (s : Store) (this : nat)
  : result FullyConnectedLayer :=
  match layers s !! this with Some (LFullyConnected l) => Ok l | _ => Undefined end.
Definition this_SoftMax (s : Store) (this : nat) : result SoftMaxLayer :=
  match layers s !! this with Some (LSoftMax l) => Ok l | _ => Undefined end.
Definition this_Conv (s : Store) (this : nat) : result ConvLayer :=
  match layers s !! this with Some (LConv l) => Ok l | _ => Undefined end.
Definition this_MaxPool (s : Store) (this : nat) : result MaxPoolLayer :=
  match layers s !! this with Some (LMaxPool l) => Ok l | _ => Undefined end.

(** ** The reading half of the [Layer] interface *)

Definition InputLayer_getNeuron1 (l : InputLayer) (i : Z) : result Neuron :=
  let* _ := assert (i <? num_elements (il_neurons l)) in
  let* x := umod i (il_imageX l) in
  let* y := udiv i (il_imageX l) in
  ma_get (il_neurons l) [x; y; 0].

Definition InputLayer_getNeuron3 (l : InputLayer) (x y z : Z) : result Neuron :=
  let* _ := assert (z =? 0) in
  ma_get (il_neurons l) [x; y; z].

Definition FullyConnectedLayer_getNeuron1 (l : FullyConnectedLayer) (index : Z)
  : result Neuron :=
  let* n := vec_at (fcl_neurons l) index in Ok (fcn_base n).

Definition SoftMaxLayer_getNeuron1 (l : SoftMaxLayer) (index : Z)
  : result Neuron :=
  let* n := vec_at (sml_neurons l) index in Ok (fcn_base n).

Definition ConvLayer_getNeuron3 (l : ConvLayer) (x y z : Z) : result Neuron :=
  let* n := ma_get (cl_neurons l) [z; x; y] in Ok (cn_base n).

Definition ConvLayer_getNeuron1 (l : ConvLayer) (index : Z) : result Neuron :=
  let dimX := wrap (extent (cl_neurons l) 1) in
  let dimY := wrap (extent (cl_neurons l) 2) in
  let* x := getX index dimX in
  let* y := getY index dimX dimY in
  let* z := getZ index dimX dimY in
  ConvLayer_getNeuron3 l x y z.

Definition MaxPoolLayer_getNeuron3 (l : MaxPoolLayer) (x y z : Z)
  : result Neuron :=
  ma_get (mp_neurons l) [x; y; z].

Definition MaxPoolLayer_getNeuron1 (l : MaxPoolLayer) (index : Z)
  : result Neuron :=
  let dimX := wrap (extent (mp_neurons l) 0) in
  let dimY := wrap (extent (mp_neurons l) 1) in
  let* x := getX index dimX in
  let* y := getY index dimX dimY in
  let* z := getZ index dimX dimY in
  MaxPoolLayer_getNeuron3 l x y z.

(** [layer->size()], [layer->getNumDims()], [layer->getNeuron(..)]:
    virtual calls through a pointer. *)
Definition Layer_size (s : Store) (p : ptr) : result Z :=
  let* l := deref s p in
  match l with
  | LInput l => Ok (wrap (num_elements (il_neurons l)))
  | LFullyConnected l => Ok (wrap (Z.of_nat (length (fcl_neurons l))))
  | LSoftMax l => Ok (wrap (Z.of_nat (length (sml_neurons l))))
  | LConv l => Ok (wrap (num_elements (cl_neurons l)))
  | LMaxPool l => Ok (wrap (num_elements (mp_neurons l)))
  end.

Definition Layer_getNumDims (s : Store) (p : ptr) : result Z :=
  let* l := deref s p in
  match l with
  | LInput _ => Ok 3
  | LFullyConnected _ => Ok 1
  | LSoftMax _ => Ok 1
  | LConv _ => Ok 3
  | LMaxPool _ => Ok 3
  end.

Definition Layer_getNeuron1 (s : Store) (p : ptr) (index : Z) : result Neuron :=
  let* l := deref s p in
  match l with
  | LInput l => InputLayer_getNeuron1 l index
  | LFullyConnected l => FullyConnectedLayer_getNeuron1 l index
  | LSoftMax l => SoftMaxLayer_getNeuron1 l index
  | LConv l => ConvLayer_getNeuron1 l index
  | LMaxPool l => MaxPoolLayer_getNeuron1 l index
  end.

Definition Layer_getNeuron3 (s : Store) (p : ptr) (x y z : Z) : result Neuron :=
  let* l := deref s p in
  match l with
  | LInput l => InputLayer_getNeuron3 l x y z
  | LFullyConnected _ => UNREACHABLE
  | LSoftMax _ => UNREACHABLE
  | LConv l => ConvLayer_getNeuron3 l x y z
  | LMaxPool l => MaxPoolLayer_getNeuron3 l x y z
  end.

(** [getBwdError(index, mb)] (Network.hpp:329, 513, 764, 866). *)
Definition Layer_getBwdError1 (s : Store) (p : ptr) (index mb : Z) : result F :=
  let* l := deref s p in
  match l with
  | LInput _ => UNREACHABLE
  | LFullyConnected l => ma_get (fcl_bwdErrors l) [mb; index]
  | LSoftMax l => ma_get (sml_bwdErrors l) [mb; index]
  | LConv _ => UNREACHABLE
  | LMaxPool _ => UNREACHABLE
  end.

(** Network.hpp:850-862; [successor3] is the virtual call
    [outputs->getBwdError(x, y, z, mb)]. *)
Definition MaxPoolLayer_getBwdError
    (successor3 : ptr -> Z -> Z -> Z -> Z -> result F)
    (s : Store) (l : MaxPoolLayer) (x y z mb : Z) : result F :=
  let* nX := udiv x (mp_poolX l) in
  let* nY := udiv y (mp_poolY l) in
  let nZ := z in
  let dimX := wrap (extent (mp_neurons l) 0) in
  let dimY := wrap (extent (mp_neurons l) 1) in
  let index := getIndex nX nY nZ dimX dimY in
  let* dims := Layer_getNumDims s (mp_outputs l) in
  if dims =? 1 then Layer_getBwdError1 s (mp_outputs l) index mb
  else successor3 (mp_outputs l) nX nY nZ mb.

(** [getBwdError(x, y, z, mb)] (Network.hpp:156, 333, 517, 746, 850).  A
    pooling layer forwards to its successor, so the call follows the
    [outputs] pointers; [fuel] bounds the number of pooling layers passed. *)
Fixpoint Layer_getBwdError3 (fuel : nat) (s : Store) (p : ptr) (x y z mb : Z)
  : result F :=
  let* l := deref s p in
  match l with
  | LInput _ => UNREACHABLE
  | LFullyConnected _ => UNREACHABLE
  | LSoftMax _ => UNREACHABLE
  | LConv l => ma_get (cl_bwdErrors l) [mb; x; y; z]
  | LMaxPool l =>
      match fuel with
      | O => OutOfFuel
      | S fuel' =>
          MaxPoolLayer_getBwdError (Layer_getBwdError3 fuel' s) s l x y z mb
      end
  end.

(** Every chain of pooling layers of a network is shorter than the
    number of its layers. *)
Definition chain_fuel (s : Store) : nat := length (layers s).

(** ** Input layer (Network.hpp:126-131) *)

Definition InputLayer_new (imageX imageY : Z) : InputLayer :=
  mkInputLayer imageX imageY
    (mkArray [imageX; imageY; 1]
             (tabulate3 imageX imageY 1 (fun x y _ => Neuron_xyz x y 0))).

Definition InputLayer_setImage (l : InputLayer) (image : list F) (mb : Z)
  : result InputLayer :=
  let size := Z.of_nat (length image) in
  let* _ := assert (size =? num_elements (il_neurons l)) in
  foldM (fun l i =>
           let* pixel := arr_get image i in
           let* x := umod i (il_imageX l) in
           let* y := udiv i (il_imageX l) in
           let* n := ma_get (il_neurons l) [x; y; 0] in
           let* n' := set_activation n mb pixel in
           let* ns := ma_set (il_neurons l) [x; y; 0] n' in
           Ok (mkInputLayer (il_imageX l) (il_imageY l) ns))
        (urange size) l.

(** ** Fully-connected neuron (Network.hpp:193-252) *)

Definition FullyConnectedNeuron_initialiseDefaultWeights
    (s : Store) (n : FullyConnectedNeuron) (gen : default_random_engine)
  : result (FullyConnectedNeuron * default_random_engine) :=
  let distribution := normal_new in
  let* size := Layer_size s (fcn_inputs n) in
  let* (w, distribution, gen) :=
    foldM (fun '(w, d, g) (_ : Z) =>
             let '(r, d, g) := normal_draw d g in
             Ok (w ++ [fdiv r (fsqrt (of_unsigned size))], d, g))
          (urange size) (weights n, distribution, gen) in
  let '(b, _, gen) := normal_draw distribution gen in
  Ok (fcn_with_weights n w b, gen).

(** The accumulation loop shared by [FullyConnectedNeuron::feedForward] and
    [SoftMaxNeuron::feedForward], bias included. *)
Definition weightedInput_of (s : Store) (n : FullyConnectedNeuron) (mb : Z)
  : result F :=
  let* size := Layer_size s (fcn_inputs n) in
  let* weightedInput :=
    foldM (fun acc i =>
             let* input := Layer_getNeuron1 s (fcn_inputs n) i in
             let* a := arr_get (activations input) mb in
             let* w := arr_get (weights n) i in
             Ok (fadd acc (fmul a w)))
          (urange size) f0 in
  Ok (fadd weightedInput (bias n)).

Definition FullyConnectedNeuron_feedForward (activationFn : F -> F)
    (s : Store) (n : FullyConnectedNeuron) (mb : Z)
  : result FullyConnectedNeuron :=
  let* weightedInput := weightedInput_of s n mb in
  let* b := set_weightedInput (fcn_base n) mb weightedInput in
  let* b := set_activation b mb (activationFn weightedInput) in
  Ok (fcn_with_base n b).

Definition FullyConnectedNeuron_backPropogate (activationFnDeriv : F -> F)
    (s : Store) (n : FullyConnectedNeuron) (mb : Z)
  : result FullyConnectedNeuron :=
  let* error :=
    Layer_getBwdError1 s (fcn_outputs n) (n_index (fcn_base n)) mb in
  let* z := arr_get (weightedInputs (fcn_base n)) mb in
  let error := fmul error (activationFnDeriv z) in
  let* b := set_error (fcn_base n) mb error in
  Ok (fcn_with_base n b).

(** Network.hpp:223-246. *)
Definition FullyConnectedNeuron_endBatch
    (s : Store) (n : FullyConnectedNeuron) (numTrainingImages : Z)
  : result FullyConnectedNeuron :=
  let* size := Layer_size s (fcn_inputs n) in
  let* w :=
    endBatch_weights
      (fun i j =>
         let* input := Layer_getNeuron1 s (fcn_inputs n) i in
         arr_get (activations input) j)
      (errors (fcn_base n))
      (batchRate mbSize (fcn_learningRate n))
      (regularisation (fcn_learningRate n) (fcn_lambda n) numTrainingImages)
      mbSize size (weights n) in
  let* b :=
    endBatch_bias (errors (fcn_base n)) (batchRate mbSize (fcn_learningRate n))
                  mbSize (bias n) in
  Ok (fcn_with_weights n w b).

Definition FullyConnectedNeuron_getWeight (n : FullyConnectedNeuron) (i : Z)
  : result F := vec_at (weights n) i.

(** ** Fully-connected layer (Network.hpp:262-353) *)

Definition FullyConnectedLayer_new (layerSize prevSize : Z)
    (activationFn activationFnDeriv : F -> F) (p : Params)
  : FullyConnectedLayer :=
  mkFCL activationFn activationFnDeriv Null Null
        (map (fun i => FullyConnectedNeuron_new i (learningRate p) (lambda p))
             (urange layerSize))
        (ma_zero [mbSize; prevSize]).

Definition fcl_with_neurons (l : FullyConnectedLayer)
    (ns : list FullyConnectedNeuron) :=
  mkFCL (fcl_activationFn l) (fcl_activationFnDeriv l) (fcl_inputs l)
        (fcl_outputs l) ns (fcl_bwdErrors l).
Definition fcl_with_bwdErrors (l : FullyConnectedLayer) (b : multi_array F) :=
  mkFCL (fcl_activationFn l) (fcl_activationFnDeriv l) (fcl_inputs l)
        (fcl_outputs l) (fcl_neurons l) b.

(** [for (auto &neuron : neurons) neuron.method(..)]: each call sees the
    writes of the calls before it. *)
Definition FullyConnectedLayer_for_each
    (method : FullyConnectedLayer -> Store -> FullyConnectedNeuron ->
              result FullyConnectedNeuron)
    (s : Store) (this : nat) : result Store :=
  let* l0 := this_FullyConnected s this in
  foldM (fun s k =>
           let* l := this_FullyConnected s this in
           let* n := arr_get (fcl_neurons l) (Z.of_nat k) in
           let* n' := method l s n in
           Ok (put_layer s this
                 (LFullyConnected
                    (fcl_with_neurons l (<[k := n']> (fcl_neurons l))))))
        (seq 0 (length (fcl_neurons l0))) s.

Definition FullyConnectedLayer_setInputs (s : Store) (this : nat) (layer : ptr)
  : result Store :=
  let* l := this_FullyConnected s this in
  Ok (put_layer s this
        (LFullyConnected
           (mkFCL (fcl_activationFn l) (fcl_activationFnDeriv l) layer
                  (fcl_outputs l)
                  (map (fun n => fcn_with_inputs n layer) (fcl_neurons l))
                  (fcl_bwdErrors l)))).

Definition FullyConnectedLayer_setOutputs (s : Store) (this : nat) (layer : ptr)
  : result Store :=
  let* l := this_FullyConnected s this in
  Ok (put_layer s this
        (LFullyConnected
           (mkFCL (fcl_activationFn l) (fcl_activationFnDeriv l) (fcl_inputs l)
                  layer
                  (map (fun n => fcn_with_outputs n layer) (fcl_neurons l))
                  (fcl_bwdErrors l)))).

(** The generator is the member of [Network] every layer is handed by
    reference. *)
Definition FullyConnectedLayer_initialiseDefaultWeights (s : Store) (this : nat)
  : result Store :=
  let* l0 := this_FullyConnected s this in
  foldM (fun s k =>
           let* l := this_FullyConnected s this in
           let* n := arr_get (fcl_neurons l) (Z.of_nat k) in
           let* (n', gen) :=
             FullyConnectedNeuron_initialiseDefaultWeights s n (generator s) in
           Ok (with_generator
                 (put_layer s this
                    (LFullyConnected
                       (fcl_with_neurons l (<[k := n']> (fcl_neurons l)))))
                 gen))
        (seq 0 (length (fcl_neurons l0))) s.

Definition FullyConnectedLayer_feedForward (s : Store) (this : nat) (mb : Z)
  : result Store :=
  FullyConnectedLayer_for_each
    (fun l s n => FullyConnectedNeuron_feedForward (fcl_activationFn l) s n mb)
    s this.

(** The loop shared by [FullyConnectedLayer::calcBwdError] and
    [SoftMaxLayer::calcBwdError]. *)
Definition calcBwdError_of (size : Z) (neurons : list FullyConnectedNeuron)
    (bwdErrors : multi_array F) (mb : Z) : result (multi_array F) :=
  foldM (fun bwd i =>
           let* error :=
             foldM (fun e n =>
                      let* w := FullyConnectedNeuron_getWeight n i in
                      let* ne := arr_get (errors (fcn_base n)) mb in
                      Ok (fadd e (fmul w ne)))
                   neurons f0 in
           ma_set bwd [mb; i] error)
        (urange size) bwdErrors.

Definition FullyConnectedLayer_calcBwdError (s : Store) (this : nat) (mb : Z)
  : result Store :=
  let* l := this_FullyConnected s this in
  let* size := Layer_size s (fcl_inputs l) in
  let* bwd := calcBwdError_of size (fcl_neurons l) (fcl_bwdErrors l) mb in
  Ok (put_layer s this (LFullyConnected (fcl_with_bwdErrors l bwd))).

Definition FullyConnectedLayer_backPropogate (s : Store) (this : nat) (mb : Z)
  : result Store :=
  FullyConnectedLayer_for_each
    (fun l s n =>
       FullyConnectedNeuron_backPropogate (fcl_activationFnDeriv l) s n mb)
    s this.

Definition FullyConnectedLayer_endBatch (s : Store) (this : nat)
    (numTrainingImages : Z) : result Store :=
  FullyConnectedLayer_for_each
    (fun _ s n => FullyConnectedNeuron_endBatch s n numTrainingImages)
    s this.

(** ** Softmax neuron (Network.hpp:361-397) *)

Definition SoftMaxNeuron_feedForward
    (s : Store) (n : FullyConnectedNeuron) (mb : Z)
  : result FullyConnectedNeuron :=
  let* weightedInput := weightedInput_of s n mb in
  let* b := set_weightedInput (fcn_base n) mb weightedInput in
  Ok (fcn_with_base n b).

Definition SoftMaxNeuron_backPropogate
    (n : FullyConnectedNeuron) (mb : Z) : result FullyConnectedNeuron :=
  UNREACHABLE.

Definition SoftMaxNeuron_computeOutputError (costDelta : F -> F -> F -> F)
    (n : FullyConnectedNeuron) (label mb : Z) : result FullyConnectedNeuron :=
  let y := if label =? n_index (fcn_base n) then f1 else f0 in
  let* z := arr_get (weightedInputs (fcn_base n)) mb in
  let* a := arr_get (activations (fcn_base n)) mb in
  let error := costDelta z a y in
  let* b := set_error (fcn_base n) mb error in
  Ok (fcn_with_base n b).

Definition SoftMaxNeuron_computeOutputCost (costFn : F -> F -> F)
    (n : FullyConnectedNeuron) (label mb : Z) : result F :=
  let* a := arr_get (activations (fcn_base n)) mb in
  Ok (costFn a (of_unsigned label)).

Definition SoftMaxNeuron_sumSquaredWeights (n : FullyConnectedNeuron) : F :=
  fold_left (fun result weight => fadd result (fpow weight f2)) (weights n) f0.

(** ** Softmax layer (Network.hpp:407-537) *)

Definition SoftMaxLayer_new (layerSize prevSize : Z)
    (costFn : F -> F -> F) (costDelta : F -> F -> F -> F)
    (learningRate lambda : F) : SoftMaxLayer :=
  mkSML costFn costDelta Null Null
        (map (fun i => FullyConnectedNeuron_new i learningRate lambda)
             (urange layerSize))
        (ma_zero [mbSize; prevSize]).

Definition sml_with_neurons (l : SoftMaxLayer) (ns : list FullyConnectedNeuron) :=
  mkSML (sml_costFn l) (sml_costDelta l) (sml_inputs l) (sml_outputs l) ns
        (sml_bwdErrors l).
Definition sml_with_bwdErrors (l : SoftMaxLayer) (b : multi_array F) :=
  mkSML (sml_costFn l) (sml_costDelta l) (sml_inputs l) (sml_outputs l)
        (sml_neurons l) b.

Definition SoftMaxLayer_for_each
    (method : SoftMaxLayer -> Store -> FullyConnectedNeuron ->
              result FullyConnectedNeuron)
    (s : Store) (this : nat) : result Store :=
  let* l0 := this_SoftMax s this in
  foldM (fun s k =>
           let* l := this_SoftMax s this in
           let* n := arr_get (sml_neurons l) (Z.of_nat k) in
           let* n' := method l s n in
           Ok (put_layer s this
                 (LSoftMax (sml_with_neurons l (<[k := n']> (sml_neurons l))))))
        (seq 0 (length (sml_neurons l0))) s.

Definition SoftMaxLayer_setInputs (s : Store) (this : nat) (layer : ptr)
  : result Store :=
  let* l := this_SoftMax s this in
  Ok (put_layer s this
        (LSoftMax
           (mkSML (sml_costFn l) (sml_costDelta l) layer (sml_outputs l)
                  (map (fun n => fcn_with_inputs n layer) (sml_neurons l))
                  (sml_bwdErrors l)))).

Definition SoftMaxLayer_setOutputs (s : Store) (this : nat) (layer : ptr)
  : result Store := UNREACHABLE.

Definition SoftMaxLayer_initialiseDefaultWeights (s : Store) (this : nat)
  : result Store :=
  let* l0 := this_SoftMax s this in
  foldM (fun s k =>
           let* l := this_SoftMax s this in
           let* n := arr_get (sml_neurons l) (Z.of_nat k) in
           let* (n', gen) :=
             FullyConnectedNeuron_initialiseDefaultWeights s n (generator s) in
           Ok (with_generator
                 (put_layer s this
                    (LSoftMax
                       (sml_with_neurons l (<[k := n']> (sml_neurons l)))))
                 gen))
        (seq 0 (length (sml_neurons l0))) s.

Definition SoftMaxLayer_feedForward (s : Store) (this : nat) (mb : Z)
  : result Store :=
  let* l0 := this_SoftMax s this in
  let ks := seq 0 (length (sml_neurons l0)) in
  let* (s, sum) :=
    foldM (fun '(s, sum) k =>
             let* l := this_SoftMax s this in
             let* n := arr_get (sml_neurons l) (Z.of_nat k) in
             let* n' := SoftMaxNeuron_feedForward s n mb in
             let* z := arr_get (weightedInputs (fcn_base n')) mb in
             Ok (put_layer s this
                   (LSoftMax
                      (sml_with_neurons l (<[k := n']> (sml_neurons l)))),
                 fadd sum (fexp z)))
          ks (s, f0) in
  foldM (fun s k =>
           let* l := this_SoftMax s this in
           let* n := arr_get (sml_neurons l) (Z.of_nat k) in
           let* z := arr_get (weightedInputs (fcn_base n)) mb in
           let* b := set_activation (fcn_base n) mb (fdiv (fexp z) sum) in
           Ok (put_layer s this
                 (LSoftMax
                    (sml_with_neurons l
                       (<[k := fcn_with_base n b]> (sml_neurons l))))))
        ks s.

Definition SoftMaxLayer_calcBwdError (s : Store) (this : nat) (mb : Z)
  : result Store :=
  let* l := this_SoftMax s this in
  let* size := Layer_size s (sml_inputs l) in
  let* bwd := calcBwdError_of size (sml_neurons l) (sml_bwdErrors l) mb in
  Ok (put_layer s this (LSoftMax (sml_with_bwdErrors l bwd))).

Definition SoftMaxLayer_backPropogate (s : Store) (this : nat) (mb : Z)
  : result Store :=
  SoftMaxLayer_for_each (fun _ _ n => SoftMaxNeuron_backPropogate n mb) s this.

Definition SoftMaxLayer_endBatch (s : Store) (this : nat)
    (numTrainingImages : Z) : result Store :=
  SoftMaxLayer_for_each
    (fun _ s n => FullyConnectedNeuron_endBatch s n numTrainingImages) s this.

Definition SoftMaxLayer_readOutput (l : SoftMaxLayer) (mb : Z) : result Z :=
  let* (result, _) :=
    foldM (fun '(result, max) i =>
             let* n := arr_get (sml_neurons l) i in
             let* output := arr_get (activations (fcn_base n)) mb in
             if flt max output then Ok (i, output) else Ok (result, max))
          (urange (Z.of_nat (length (sml_neurons l)))) (0, FLT_MIN) in
  Ok result.

Definition SoftMaxLayer_computeOutputError (s : Store) (this : nat)
    (label mb : Z) : result Store :=
  SoftMaxLayer_for_each
    (fun l _ n => SoftMaxNeuron_computeOutputError (sml_costDelta l) n label mb)
    s this.

Definition SoftMaxLayer_computeOutputCost (l : SoftMaxLayer) (label mb : Z)
  : result F :=
  let outputCost := f0 in
  let* _ :=
    foldM (fun (_ : unit) n =>
             let* _ := SoftMaxNeuron_computeOutputCost (sml_costFn l) n label mb in
             Ok tt)
          (sml_neurons l) tt in
  Ok outputCost.

Definition SoftMaxLayer_sumSquaredWeights (l : SoftMaxLayer) : F :=
  fold_left (fun result n => fadd result (SoftMaxNeuron_sumSquaredWeights n))
            (sml_neurons l) f0.

(** ** Convolutional neuron (Network.hpp:545-590) *)

(** [for a < n1: for b < n2: for c < n3], in iteration order. *)
Definition loop3 (n1 n2 n3 : Z) : list (Z * Z * Z) :=
  flat_map (fun a => flat_map (fun b => map (fun c => (a, b, c)) (urange n3))
                              (urange n2))
           (urange n1).
Definition loop2 (n1 n2 : Z) : list (Z * Z) :=
  flat_map (fun a => map (fun b => (a, b)) (urange n2)) (urange n1).

Definition ConvNeuron_feedForward (activationFn : F -> F) (s : Store)
    (n : ConvNeuron) (weights bias : multi_array F) (mb : Z)
  : result ConvNeuron :=
  let this := cn_base n in
  let* weightedInput :=
    foldM (fun acc '(a, b, c) =>
             let inputX := uadd (n_x this) a in
             let inputY := uadd (n_y this) b in
             let* inp := Layer_getNeuron3 s (cn_inputs n) inputX inputY c in
             let* input := arr_get (activations inp) mb in
             let* w := ma_get weights [n_z this; a; b; c] in
             Ok (fadd acc (fmul input w)))
          (loop3 (extent weights 1) (extent weights 2) (extent weights 3)) f0 in
  let* b := ma_get bias [n_z this] in
  let weightedInput := fadd weightedInput b in
  let* nb := set_weightedInput this mb weightedInput in
  let* nb := set_activation nb mb (activationFn weightedInput) in
  Ok (cn_with_base n nb).

Definition ConvNeuron_backPropogate (activationFnDeriv : F -> F) (s : Store)
    (n : ConvNeuron) (mb : Z) : result ConvNeuron :=
  let this := cn_base n in
  let index :=
    getIndex (n_x this) (n_y this) (n_z this) (cn_dimX n) (cn_dimY n) in
  let* dims := Layer_getNumDims s (cn_outputs n) in
  let* error :=
    if dims =? 1 then Layer_getBwdError1 s (cn_outputs n) index mb
    else Layer_getBwdError3 (chain_fuel s) s (cn_outputs n)
                            (n_x this) (n_y this) (n_z this) mb in
  let* z := arr_get (weightedInputs this) mb in
  let error := fmul error (activationFnDeriv z) in
  let* nb := set_error this mb error in
  Ok (cn_with_base n nb).

(** ** Convolutional layer (Network.hpp:610-791) *)

(** [None]: the [static_assert] fails and the program is rejected. *)
Definition ConvLayer_new (kernelX kernelY kernelZ inputX inputY inputZ numFMs : Z)
    (activationFn activationFnDeriv : F -> F) (p : Params) : option ConvLayer :=
  if inputZ =? kernelZ then
    let dimX := uadd (usub inputX kernelX) 1 in
    let dimY := uadd (usub inputY kernelY) 1 in
    Some (mkCL inputX inputY inputZ numFMs activationFn activationFnDeriv
               (learningRate p) (lambda p) Null Null
               (ma_zero [numFMs])
               (ma_zero [numFMs; kernelX; kernelY; kernelZ])
               (mkArray [numFMs; dimX; dimY]
                  (tabulate3 numFMs dimX dimY
                     (fun fm x y => ConvNeuron_new x y fm dimX dimY)))
               (ma_zero [mbSize; inputX; inputY; inputZ]))
  else None.

Definition cl_with_neurons (l : ConvLayer) (ns : multi_array ConvNeuron) :=
  mkCL (cl_inputX l) (cl_inputY l) (cl_inputZ l) (cl_numFMs l)
       (cl_activationFn l) (cl_activationFnDeriv l) (cl_learningRate l)
       (cl_lambda l) (cl_inputs l) (cl_outputs l) (cl_bias l) (cl_weights l)
       ns (cl_bwdErrors l).
Definition cl_with_bwdErrors (l : ConvLayer) (b : multi_array F) :=
  mkCL (cl_inputX l) (cl_inputY l) (cl_inputZ l) (cl_numFMs l)
       (cl_activationFn l) (cl_activationFnDeriv l) (cl_learningRate l)
       (cl_lambda l) (cl_inputs l) (cl_outputs l) (cl_bias l) (cl_weights l)
       (cl_neurons l) b.
Definition cl_with_weights (l : ConvLayer) (w b : multi_array F) :=
  mkCL (cl_inputX l) (cl_inputY l) (cl_inputZ l) (cl_numFMs l)
       (cl_activationFn l) (cl_activationFnDeriv l) (cl_learningRate l)
       (cl_lambda l) (cl_inputs l) (cl_outputs l) b w
       (cl_neurons l) (cl_bwdErrors l).
Definition cl_with_pointers (l : ConvLayer) (i o : ptr)
    (ns : multi_array ConvNeuron) :=
  mkCL (cl_inputX l) (cl_inputY l) (cl_inputZ l) (cl_numFMs l)
       (cl_activationFn l) (cl_activationFnDeriv l) (cl_learningRate l)
       (cl_lambda l) i o (cl_bias l) (cl_weights l) ns (cl_bwdErrors l).

Definition ConvLayer_initialiseDefaultWeights (s : Store) (this : nat)
  : result Store :=
  let* l := this_Conv s this in
  let distribution := normal_new in
  let w0 := cl_weights l in
  let scale :=
    fsqrt (of_unsigned (extent w0 1 * extent w0 2 * extent w0 3)) in
  let* (weights, bias, _, gen) :=
    foldM (fun '(weights, bias, d, g) fm =>
             let* (weights, d, g) :=
               foldM (fun '(weights, d, g) '(a, b, c) =>
                        let '(r, d, g) := normal_draw d g in
                        let* weights :=
                          ma_set weights [fm; a; b; c] (fdiv r scale) in
                        Ok (weights, d, g))
                     (loop3 (extent w0 1) (extent w0 2) (extent w0 3))
                     (weights, d, g) in
             let '(r, d, g) := normal_draw d g in
             let* bias := ma_set bias [fm] r in
             Ok (weights, bias, d, g))
          (urange (extent w0 0)) (w0, cl_bias l, distribution, generator s) in
  Ok (with_generator (put_layer s this (LConv (cl_with_weights l weights bias)))
                     gen).

(** [neurons[fm][x][y]->method(..)] for every neuron, in loop order. *)
Definition ConvLayer_for_each
    (method : ConvLayer -> Store -> ConvNeuron -> result ConvNeuron)
    (s : Store) (this : nat) : result Store :=
  let* l0 := this_Conv s this in
  let ns := cl_neurons l0 in
  foldM (fun s '(fm, x, y) =>
           let* l := this_Conv s this in
           let* n := ma_get (cl_neurons l) [fm; x; y] in
           let* n' := method l s n in
           let* ns' := ma_set (cl_neurons l) [fm; x; y] n' in
           Ok (put_layer s this (LConv (cl_with_neurons l ns'))))
        (loop3 (extent ns 0) (extent ns 1) (extent ns 2)) s.

Definition ConvLayer_feedForward (s : Store) (this : nat) (mb : Z)
  : result Store :=
  ConvLayer_for_each
    (fun l s n =>
       ConvNeuron_feedForward (cl_activationFn l) s n (cl_weights l) (cl_bias l) mb)
    s this.

Definition ConvLayer_calcBwdError (s : Store) (this : nat) (mb : Z)
  : result Store :=
  let* l := this_Conv s this in
  let weights := cl_weights l in
  let neurons := cl_neurons l in
  let* bwd :=
    foldM (fun bwd '(x, y, z) =>
             let* error :=
               foldM (fun error '(fm, a, b) =>
                        if (a <=? x) && (b <=? y)
                           && (usub x a <? extent neurons 1)
                           && (usub y b <? extent neurons 2)
                        then
                          let* n := ma_get neurons [fm; usub x a; usub y b] in
                          let* ne := arr_get (errors (cn_base n)) mb in
                          let* w := ma_get weights [fm; a; b; z] in
                          Ok (fadd error (fmul w ne))
                        else Ok error)
                     (loop3 (cl_numFMs l) (extent weights 1) (extent weights 2))
                     f0 in
             ma_set bwd [mb; x; y; z] error)
          (loop3 (cl_inputX l) (cl_inputY l) (cl_inputZ l)) (cl_bwdErrors l) in
  Ok (put_layer s this (LConv (cl_with_bwdErrors l bwd))).

Definition ConvLayer_backPropogate (s : Store) (this : nat) (mb : Z)
  : result Store :=
  ConvLayer_for_each
    (fun l s n => ConvNeuron_backPropogate (cl_activationFnDeriv l) s n mb)
    s this.

Definition ConvLayer_endBatch (s : Store) (this : nat) (numTrainingImages : Z)
  : result Store :=
  let* l := this_Conv s this in
  let neurons := cl_neurons l in
  let w0 := cl_weights l in
  let* (weights, bias) :=
    foldM (fun '(weights, bias) fm =>
             let* weights :=
               foldM (fun weights '(a, b, c) =>
                        let* weightDelta :=
                          foldM (fun delta '(mb, x, y) =>
                                   let* inp :=
                                     Layer_getNeuron3 s (cl_inputs l)
                                       (uadd x a) (uadd y b) c in
                                   let* i := arr_get (activations inp) mb in
                                   let* n := ma_get neurons [fm; x; y] in
                                   let* e := arr_get (errors (cn_base n)) mb in
                                   Ok (fadd delta (fmul i e)))
                                (loop3 mbSize (extent neurons 1)
                                       (extent neurons 2)) f0 in
                        let weightDelta :=
                          fmul weightDelta (batchRate mbSize (cl_learningRate l)) in
                        let reg :=
                          regularisation (cl_learningRate l) (cl_lambda l)
                                         numTrainingImages in
                        let* w := ma_get weights [fm; a; b; c] in
                        let* weights := ma_set weights [fm; a; b; c] (fmul w reg) in
                        let* w := ma_get weights [fm; a; b; c] in
                        ma_set weights [fm; a; b; c] (fsub w weightDelta))
                     (loop3 (extent w0 1) (extent w0 2) (extent w0 3))
                     weights in
             let* biasDelta :=
               foldM (fun delta '(mb, x, y) =>
                        let* n := ma_get neurons [fm; x; y] in
                        let* e := arr_get (errors (cn_base n)) mb in
                        Ok (fadd delta e))
                     (loop3 mbSize (extent neurons 1) (extent neurons 2)) f0 in
             let biasDelta := fmul biasDelta (batchRate mbSize (cl_learningRate l)) in
             let* b := ma_get bias [fm] in
             let* bias := ma_set bias [fm] (fsub b biasDelta) in
             Ok (weights, bias))
          (urange (cl_numFMs l)) (w0, cl_bias l) in
  Ok (put_layer s this (LConv (cl_with_weights l weights bias))).

Definition ConvLayer_setInputs (s : Store) (this : nat) (layer : ptr)
  : result Store :=
  let* l := this_Conv s this in
  let* size := Layer_size s layer in
  let* _ :=
    assert (size =? umul (umul (cl_inputX l) (cl_inputY l)) (cl_inputZ l)) in
  let ns := cl_neurons l in
  Ok (put_layer s this
        (LConv (cl_with_pointers l layer (cl_outputs l)
                  (ma_with_elements ns
                     (map (fun n => cn_with_inputs n layer) (elements ns)))))).

Definition ConvLayer_setOutputs (s : Store) (this : nat) (layer : ptr)
  : result Store :=
  let* l := this_Conv s this in
  let ns := cl_neurons l in
  Ok (put_layer s this
        (LConv (cl_with_pointers l (cl_inputs l) layer
                  (ma_with_elements ns
                     (map (fun n => cn_with_outputs n layer) (elements ns)))))).

(** ** Max-pooling layer (Network.hpp:802-895) *)

(** [None]: a [static_assert] fails (or [poolX], [poolY] is zero in it). *)
Definition MaxPoolLayer_new (poolX poolY inputX inputY inputZ : Z)
  : option MaxPoolLayer :=
  if negb (poolX =? 0) && negb (poolY =? 0)
     && (inputX mod poolX =? 0) && (inputY mod poolY =? 0)
  then
    let dimX := inputX / poolX in
    let dimY := inputY / poolY in
    Some (mkMPL poolX poolY Null Null
                (mkArray [dimX; dimY; inputZ]
                         (tabulate3 dimX dimY inputZ Neuron_xyz)))
  else None.

Definition mp_with_neurons (l : MaxPoolLayer) (ns : multi_array Neuron) :=
  mkMPL (mp_poolX l) (mp_poolY l) (mp_inputs l) (mp_outputs l) ns.

Definition MaxPoolLayer_feedForward (s : Store) (this : nat) (mb : Z)
  : result Store :=
  let* l0 := this_MaxPool s this in
  let ns := mp_neurons l0 in
  foldM (fun s '(x, y, z) =>
           let weightedInput := FLT_MIN in
           foldM (fun s '(a, b) =>
                    let* l := this_MaxPool s this in
                    let nX := uadd (umul x (mp_poolX l)) a in
                    let nY := uadd (umul y (mp_poolY l)) b in
                    let* inp := Layer_getNeuron3 s (mp_inputs l) nX nY z in
                    let* input := arr_get (activations inp) mb in
                    let max := fmax weightedInput input in
                    let* n := ma_get (mp_neurons l) [x; y; z] in
                    let* n' := set_activation n mb max in
                    let* ns' := ma_set (mp_neurons l) [x; y; z] n' in
                    Ok (put_layer s this (LMaxPool (mp_with_neurons l ns'))))
                 (loop2 (mp_poolX l0) (mp_poolY l0)) s)
        (loop3 (extent ns 0) (extent ns 1) (extent ns 2)) s.

Definition MaxPoolLayer_setInputs (s : Store) (this : nat) (layer : ptr)
  : result Store :=
  let* l := this_MaxPool s this in
  let* size := Layer_size s layer in
  let* _ :=
    assert (size =? umul (mp_poolX l) (mp_poolY l) * num_elements (mp_neurons l)) in
  Ok (put_layer s this
        (LMaxPool (mkMPL (mp_poolX l) (mp_poolY l) layer (mp_outputs l)
                         (mp_neurons l)))).

Definition MaxPoolLayer_setOutputs (s : Store) (this : nat) (layer : ptr)
  : result Store :=
  let* l := this_MaxPool s this in
  Ok (put_layer s this
        (LMaxPool (mkMPL (mp_poolX l) (mp_poolY l) (mp_inputs l) layer
                         (mp_neurons l)))).

(** ** The writing half of the [Layer] interface: virtual dispatch *)

Definition dispatch {A : Type} (s : Store) (this : ptr)
    (input : result A)
    (fullyConnected softMax conv maxPool : nat -> result A) : result A :=
  match this with
  | Null => Undefined
  | PInput => input
  | PLayer i =>
      match layers s !! i with
      | Some (LInput _) => input
      | Some (LFullyConnected _) => fullyConnected i
      | Some (LSoftMax _) => softMax i
      | Some (LConv _) => conv i
      | Some (LMaxPool _) => maxPool i
      | None => Undefined
      end
  end.

Definition Layer_initialiseDefaultWeights (s : Store) (this : ptr)
  : result Store :=
  dispatch s this UNREACHABLE
    (FullyConnectedLayer_initialiseDefaultWeights s)
    (SoftMaxLayer_initialiseDefaultWeights s)
    (ConvLayer_initialiseDefaultWeights s)
    (fun _ => Ok s).

Definition Layer_feedForward (s : Store) (this : ptr) (mb : Z) : result Store :=
  dispatch s this UNREACHABLE
    (fun i => FullyConnectedLayer_feedForward s i mb)
    (fun i => SoftMaxLayer_feedForward s i mb)
    (fun i => ConvLayer_feedForward s i mb)
    (fun i => MaxPoolLayer_feedForward s i mb).

Definition Layer_calcBwdError (s : Store) (this : ptr) (mb : Z) : result Store :=
  dispatch s this UNREACHABLE
    (fun i => FullyConnectedLayer_calcBwdError s i mb)
    (fun i => SoftMaxLayer_calcBwdError s i mb)
    (fun i => ConvLayer_calcBwdError s i mb)
    (fun _ => Ok s).

Definition Layer_backPropogate (s : Store) (this : ptr) (mb : Z) : result Store :=
  dispatch s this UNREACHABLE
    (fun i => FullyConnectedLayer_backPropogate s i mb)
    (fun i => SoftMaxLayer_backPropogate s i mb)
    (fun i => ConvLayer_backPropogate s i mb)
    (fun _ => Ok s).

Definition Layer_endBatch (s : Store) (this : ptr) (numTrainingImages : Z)
  : result Store :=
  dispatch s this UNREACHABLE
    (fun i => FullyConnectedLayer_endBatch s i numTrainingImages)
    (fun i => SoftMaxLayer_endBatch s i numTrainingImages)
    (fun i => ConvLayer_endBatch s i numTrainingImages)
    (fun _ => Ok s).

Definition Layer_setInputs (s : Store) (this layer : ptr) : result Store :=
  dispatch s this UNREACHABLE
    (fun i => FullyConnectedLayer_setInputs s i layer)
    (fun i => SoftMaxLayer_setInputs s i layer)
    (fun i => ConvLayer_setInputs s i layer)
    (fun i => MaxPoolLayer_setInputs s i layer).

Definition Layer_setOutputs (s : Store) (this layer : ptr) : result Store :=
  dispatch s this UNREACHABLE
    (fun i => FullyConnectedLayer_setOutputs s i layer)
    (fun i => SoftMaxLayer_setOutputs s i layer)
    (fun i => ConvLayer_setOutputs s i layer)
    (fun i => MaxPoolLayer_setOutputs s i layer).

(** ** The network (Network.hpp:907-957) *)

(** [softMaxLayer] points to the object pushed last onto [layers]. *)
Definition softMaxLayer (s : Store) : nat := Nat.pred (length (layers s)).

Definition Network_new (inputX inputY softMaxSize lastLayerSize : Z)
    (costFn : F -> F -> F) (costDelta : F -> F -> F -> F)
    (p : Params) (layers_ : list Layer) : result Store :=
  let softMax :=
    SoftMaxLayer_new softMaxSize lastLayerSize costFn costDelta
                     (learningRate p) (lambda p) in
  let s := mkStore p (InputLayer_new inputX inputY)
                   (layers_ ++ [LSoftMax softMax]) (engine_seed (seed p)) in
  let size := length (layers s) in
  let* s := Layer_setInputs s (PLayer 0) PInput in
  let* s := Layer_initialiseDefaultWeights s (PLayer 0) in
  let* s :=
    foldM (fun s i =>
             let* s := Layer_setInputs s (PLayer i) (PLayer (i - 1)) in
             Layer_initialiseDefaultWeights s (PLayer i))
          (seq 1 (size - 1)) s in
  foldM (fun s i => Layer_setOutputs s (PLayer i) (PLayer (i + 1)))
        (seq 0 (size - 1)) s.

Definition Network_feedForward (s : Store) (mb : Z) : result Store :=
  foldM (fun s i => Layer_feedForward s (PLayer i) mb)
        (seq 0 (length (layers s))) s.

Definition Network_backPropogate (s : Store) (image : list F) (label mb : Z)
  : result Store :=
  let* il := InputLayer_setImage (inputLayer s) image mb in
  let s := with_inputLayer s il in
  let* s := Network_feedForward s mb in
  let* s := SoftMaxLayer_computeOutputError s (softMaxLayer s) label mb in
  let* s := SoftMaxLayer_calcBwdError s (softMaxLayer s) mb in
  let* s :=
    foldM (fun s i =>
             let* s := Layer_backPropogate s (PLayer i) mb in
             Layer_calcBwdError s (PLayer i) mb)
          (rev (seq 1 (length (layers s) - 2))) s in
  Layer_backPropogate s (PLayer 0) mb.

(** The gradient-descent half of [updateMiniBatch] (Network.hpp:968-970). *)
Definition Network_endBatch (s : Store) (numTrainingImages : Z) : result Store :=
  foldM (fun s i => Layer_endBatch s (PLayer i) numTrainingImages)
        (rev (seq 0 (length (layers s)))) s.

Definition Network_imageCost (s : Store) (image : list F)
    (label numImages : Z) (regularisation : F) (mb : Z) : result (F * Store) :=
  let* il := InputLayer_setImage (inputLayer s) image mb in
  let s := with_inputLayer s il in
  let* s := Network_feedForward s mb in
  let* l := this_SoftMax s (softMaxLayer s) in
  let* c := SoftMaxLayer_computeOutputCost l label mb in
  let cost := fdiv c (of_unsigned numImages) in
  Ok (fadd cost regularisation, s).

End Engine.

(** * The fixed engine of main4.cpp

    The classes of main4.cpp repeat those of Network.hpp with run-time
    dimensions and global constants.  The parts modelled are those the
    properties below are about; a neighbouring layer is the table of the
    virtual methods called on it. *)

Module Main4.
Section Main4.

Context {F : Type} {FO : FloatOps F} {RO : RandomOps F}.
Variable NDEBUG : bool.
Variable indeterminate : F.

(** main4.cpp:49-57. *)
Definition mbSize : Z := 10.

(** main4.cpp:16: [assert(0 && "invalid call")], then the function goes
    on to its [return]. *)
Definition DO_NOT_USE : result unit := assert NDEBUG false.

(** [struct Layer] (main4.cpp:139-159), as seen by a caller. *)
Record Layer : Type := mkLayer {
  size : result Z;
  getNumDims : result Z;
  getNeuron1 : Z -> result (@Neuron F);
  getNeuron3 : Z -> Z -> Z -> result (@Neuron F);
  getBwdError1 : Z -> Z -> result F;
  getBwdError3 : Z -> Z -> Z -> Z -> result F
}.

(** ** Input layer (main4.cpp:164-237) *)

Definition InputLayer_new (imageX imageY : Z) : multi_array (@Neuron F) :=
  mkArray [imageX; imageY; 1]
          (tabulate3 imageX imageY 1
             (fun x y _ => Neuron_xyz mbSize indeterminate x y 0)).

Definition InputLayer_setImage (neurons : multi_array (@Neuron F))
    (image : list F) (mbIndex : Z) : result (multi_array (@Neuron F)) :=
  let size := Z.of_nat (length image) in
  let* _ := assert NDEBUG (size =? num_elements neurons) in
  let imageX := wrap (extent neurons 0) in
  foldM (fun neurons i =>
           let* pixel := arr_get image i in
           let* x := umod i imageX in
           let* y := udiv i imageX in
           let* n := ma_get NDEBUG neurons [x; y; 0] in
           let* n' := set_activation n mbIndex pixel in
           ma_set NDEBUG neurons [x; y; 0] n')
        (urange size) neurons.

Definition InputLayer_initialiseDefaultWeights : result unit := DO_NOT_USE.
Definition InputLayer_calcBwdError (mbIndex : Z) : result unit := DO_NOT_USE.
Definition InputLayer_feedForward (mbIndex : Z) : result unit := DO_NOT_USE.
Definition InputLayer_backPropogate (mbIndex : Z) : result unit := DO_NOT_USE.
Definition InputLayer_endBatch (n : Z) : result unit := DO_NOT_USE.
Definition InputLayer_computeOutputError (label mbIndex : Z) : result unit :=
  DO_NOT_USE.
Definition InputLayer_computeOutputCost (label mbIndex : Z) : result F :=
  let* _ := DO_NOT_USE in Ok f0.
Definition InputLayer_sumSquaredWeights : result F :=
  let* _ := DO_NOT_USE in Ok f0.
Definition InputLayer_setInputs (layer : Layer) : result unit := DO_NOT_USE.
Definition InputLayer_setOutputs (layer : Layer) : result unit := DO_NOT_USE.
Definition InputLayer_readOutput : result Z :=
  let* _ := DO_NOT_USE in Ok 0.
Definition InputLayer_getBwdError1 (index mbIndex : Z) : result F :=
  let* _ := DO_NOT_USE in Ok f0.
Definition InputLayer_getBwdError3 (x y z mbIndex : Z) : result F :=
  let* _ := DO_NOT_USE in Ok f0.

Definition InputLayer_as_Layer (neurons : multi_array (@Neuron F)) : Layer :=
  mkLayer (Ok (wrap (num_elements neurons)))
          (Ok 2)
          (fun i =>
             let* _ := assert NDEBUG (i <? num_elements neurons) in
             let imageX := wrap (extent neurons 0) in
             let* x := umod i imageX in
             let* y := udiv i imageX in
             ma_get NDEBUG neurons [x; y; 0])
          (fun x y z => ma_get NDEBUG neurons [x; y; z])
          InputLayer_getBwdError1
          InputLayer_getBwdError3.

(** ** Fully-connected neuron and layer (main4.cpp:242-458) *)

Record FullyConnectedNeuron : Type := mkFCN {
  fcn_base : @Neuron F;
  weights : list F;
  bias : F
}.

Definition FullyConnectedNeuron_new (index : Z) : FullyConnectedNeuron :=
  mkFCN (Neuron_index mbSize indeterminate index) [] indeterminate.

(** A function-local [static] generator: constructed from
    [std::time(nullptr)] by the first call that reaches it, kept after. *)
Definition static_generator (g : option default_random_engine) (now : Z)
  : default_random_engine :=
  match g with Some g => g | None => engine_seed now end.

(** main4.cpp:252-263; [now] is the clock the call would read,
    [inputs_size] is [inputs->size()]. *)
Definition FullyConnectedNeuron_initialiseDefaultWeights
    (generator : option default_random_engine) (now : Z)
    (inputs_size : Z) (n : FullyConnectedNeuron)
  : FullyConnectedNeuron * option default_random_engine :=
  let g := static_generator generator now in
  let '(w, d, g) :=
    fold_left (fun '(w, d, g) (_ : Z) =>
                 let '(r, d, g) := normal_draw d g in
                 (w ++ [fdiv r (fsqrt (of_unsigned inputs_size))], d, g))
              (urange inputs_size) (weights n, normal_new, g) in
  let '(b, _, g) := normal_draw d g in
  (mkFCN (fcn_base n) w b, Some g).

(** main4.cpp:53-54. *)
Definition learningRate : F := f1.
Definition lambda : F := of_unsigned 5.

(** main4.cpp:284-308. *)
Definition FullyConnectedNeuron_endBatch (inputs : Layer)
    (n : FullyConnectedNeuron) (numTrainingImages : Z)
  : result FullyConnectedNeuron :=
  let* size := size inputs in
  let* w :=
    endBatch_weights
      (fun i j =>
         let* input := getNeuron1 inputs i in arr_get (activations input) j)
      (errors (fcn_base n))
      (batchRate mbSize learningRate)
      (regularisation learningRate lambda numTrainingImages)
      mbSize size (weights n) in
  let* b :=
    endBatch_bias (errors (fcn_base n)) (batchRate mbSize learningRate)
                  mbSize (bias n) in
  Ok (mkFCN (fcn_base n) w b).

(** main4.cpp:62, 318-320: the global [costFn]. *)
Definition FullyConnectedNeuron_computeOutputCost (costFn : F -> F -> F)
    (n : FullyConnectedNeuron) (label mbIndex : Z) : result F :=
  let* a := arr_get (activations (fcn_base n)) mbIndex in
  Ok (costFn a (of_unsigned label)).

(** main4.cpp:431-437. *)
Definition FullyConnectedLayer_computeOutputCost (costFn : F -> F -> F)
    (neurons : list FullyConnectedNeuron) (label mbIndex : Z) : result F :=
  let outputCost := f0 in
  let* _ :=
    foldM (fun (_ : unit) n =>
             let* _ := FullyConnectedNeuron_computeOutputCost costFn n label
                                                              mbIndex in
             Ok tt)
          neurons tt in
  Ok outputCost.

(** ** Convolutional layer (main4.cpp:511-563, 674-679) *)

Record ConvLayer : Type := mkCL {
  cl_inputX : Z;
  cl_inputY : Z;
  cl_inputZ : Z;
  numFeatureMaps : Z;
  cl_bias : multi_array F;
  cl_weights : multi_array F;                 (* [x][y][z][fm] *)
  cl_neurons : multi_array (@ConvNeuron F);   (* [x][y][fm] *)
  cl_bwdErrors : multi_array F                (* [x][y][z][mb] *)
}.

(** The constructor names [weights], [neurons] and [bwdErrors] in its
    initialiser list; [bias] is default-constructed: no extent, no
    element. *)
Definition ConvLayer_new (kernelX kernelY kernelZ inputX inputY inputZ
                          numFeatureMaps : Z) : result ConvLayer :=
  let shape0 := uadd (usub inputX kernelX) 1 in
  let shape1 := uadd (usub inputY kernelY) 1 in
  let neurons :=
    mkArray [shape0; shape1; numFeatureMaps]
      (tabulate3 shape0 shape1 numFeatureMaps
         (fun x y z => ConvNeuron_new mbSize indeterminate x y z
                                      shape0 shape0)) in
  let* _ := assert NDEBUG (inputZ =? kernelZ) in
  Ok (mkCL inputX inputY inputZ numFeatureMaps
           (mkArray [0] [])
           (ma_zero [kernelX; kernelY; kernelZ; numFeatureMaps])
           neurons
           (ma_zero [inputX; inputY; inputZ; mbSize])).

Definition ConvLayer_initialiseDefaultWeights
    (generator : option default_random_engine) (now : Z)
    (inputs : Layer) (l : ConvLayer)
  : result (ConvLayer * option default_random_engine) :=
  let g := static_generator generator now in
  let w0 := cl_weights l in
  let* (weights, bias, _, g) :=
    foldM (fun '(weights, bias, d, g) z =>
             let* (weights, d, g) :=
               foldM (fun '(weights, d, g) '(a, b, c) =>
                        let '(r, d, g) := normal_draw d g in
                        let* n := size inputs in
                        let* weights :=
                          ma_set NDEBUG weights [a; b; c; z]
                                 (fdiv r (fsqrt (of_unsigned n))) in
                        Ok (weights, d, g))
                     (loop3 (extent w0 0) (extent w0 1) (extent w0 2))
                     (weights, d, g) in
             let '(r, d, g) := normal_draw d g in
             let* bias := ma_set NDEBUG bias [z] r in
             Ok (weights, bias, d, g))
          (urange (numFeatureMaps l)) (w0, cl_bias l, normal_new, g) in
  Ok (mkCL (cl_inputX l) (cl_inputY l) (cl_inputZ l) (numFeatureMaps l)
           bias weights (cl_neurons l) (cl_bwdErrors l),
      Some g).

(** ** Max-pooling layer (main4.cpp:723-783) *)

Record MaxPoolLayer : Type := mkMPL {
  poolX : Z;
  poolY : Z;
  mp_neurons : multi_array (@Neuron F)        (* [x][y][z] *)
}.

Definition MaxPoolLayer_new (poolX poolY inputX inputY inputZ : Z)
  : result MaxPoolLayer :=
  let* dimX := udiv inputX poolX in
  let* dimY := udiv inputY poolY in
  let* _ := assert NDEBUG (inputX mod poolX =? 0) in
  let* _ := assert NDEBUG (inputY mod poolY =? 0) in
  Ok (mkMPL poolX poolY
            (mkArray [dimX; dimY; inputZ]
               (tabulate3 dimX dimY inputZ (Neuron_xyz mbSize indeterminate)))).

Definition MaxPoolLayer_feedForward (inputs : Layer) (l : MaxPoolLayer)
    (mbIndex : Z) : result MaxPoolLayer :=
  let ns := mp_neurons l in
  let* neurons :=
    foldM (fun neurons '(x, y, z) =>
             let weightedInput := FLT_MIN in
             foldM (fun neurons '(a, b) =>
                      let nX := uadd (umul x (poolX l)) a in
                      let nY := uadd (umul y (poolY l)) b in
                      let nZ := z in
                      let* inp := getNeuron3 inputs nX nY nZ in
                      let* input := arr_get (activations inp) mbIndex in
                      let max := fmax weightedInput input in
                      let* n := ma_get NDEBUG neurons [x; y; z] in
                      let* n' := set_activation n mbIndex max in
                      ma_set NDEBUG neurons [x; y; z] n')
                   (loop2 (poolX l) (poolY l)) neurons)
          (loop3 (extent ns 0) (extent ns 1) (extent ns 2)) ns in
  Ok (mkMPL (poolX l) (poolY l) neurons).

Definition MaxPoolLayer_getBwdError (outputs : Layer) (l : MaxPoolLayer)
    (x y z mbIndex : Z) : result F :=
  let* nX := udiv x (poolX l) in
  let* nY := udiv y (poolY l) in
  let nZ := z in
  let shape0 := extent (mp_neurons l) 0 in
  let shape1 := extent (mp_neurons l) 1 in
  let* dims := getNumDims outputs in
  if dims =? 1
  then getBwdError1 outputs (wrap (shape0 * shape1 * nZ + shape0 * nY + nX))
                    mbIndex
  else getBwdError3 outputs x y z mbIndex.

(** ** Calls answered with [DO_NOT_USE] by the other classes
    (main4.cpp:442-451, 687-709, 788-818) *)

Definition FullyConnectedLayer_getBwdError3 (x y z mbIndex : Z) : result F :=
  let* _ := DO_NOT_USE in Ok f0.
Definition FullyConnectedLayer_getNeuron3 (x y z : Z) : result (@Neuron F) :=
  let* _ := DO_NOT_USE in Ok (Neuron_index mbSize indeterminate 0).
Definition ConvLayer_getBwdError1 (index mbIndex : Z) : result F :=
  let* _ := DO_NOT_USE in Ok f0.
Definition ConvLayer_computeOutputCost (label mbIndex : Z) : result F :=
  let* _ := DO_NOT_USE in Ok f0.
Definition ConvLayer_computeOutputError (label mbIndex : Z) : result unit :=
  DO_NOT_USE.
Definition ConvLayer_readOutput : result Z :=
  let* _ := DO_NOT_USE in Ok 0.
Definition ConvLayer_getNeuron1 (index : Z) : result (@Neuron F) :=
  let* _ := DO_NOT_USE in Ok (Neuron_index mbSize indeterminate 0).
Definition MaxPoolLayer_getBwdError1 (index mbIndex : Z) : result F :=
  let* _ := DO_NOT_USE in Ok f0.
Definition MaxPoolLayer_computeOutputError (label mbIndex : Z) : result unit :=
  DO_NOT_USE.
Definition MaxPoolLayer_computeOutputCost (label mbIndex : Z) : result F :=
  let* _ := DO_NOT_USE in Ok f0.
Definition MaxPoolLayer_readOutput : result Z :=
  let* _ := DO_NOT_USE in Ok 0.
Definition MaxPoolLayer_getNeuron1 (index : Z) : result (@Neuron F) :=
  let* _ := DO_NOT_USE in Ok (Neuron_index mbSize indeterminate 0).

(** A convolutional layer as the successor of another layer
    (main4.cpp:655-658, 687-690, 706-717). *)
Definition ConvLayer_as_Layer (l : ConvLayer) : Layer :=
  mkLayer (Ok (wrap (num_elements (cl_neurons l))))
          (Ok 3)
          ConvLayer_getNeuron1
          (fun x y z =>
             let* n := ma_get NDEBUG (cl_neurons l) [x; y; z] in Ok (cn_base n))
          ConvLayer_getBwdError1
          (fun x y z mbIndex => ma_get NDEBUG (cl_bwdErrors l) [x; y; z; mbIndex]).

End Main4.
End Main4.

(** * Concrete interpretations, used to run the model

    Exact rational arithmetic (kept in lowest terms) interprets the float
    interface; [fexp], [fsqrt] and [fpow] have no rational counterpart and
    are stand-ins.  The generator is the minimal-standard linear
    congruential engine, with a stand-in for the shaping of a draw. *)

Definition Q_lt_bool (a b : Q) : bool := negb (Qle_bool b a).

#[export] Instance Q_FloatOps : FloatOps Q := {|
  f0 := 0%Q;
  f1 := 1%Q;
  f2 := 2%Q;
  FLT_MIN := Qmake 1 (2 ^ 126);
  fadd := fun a b => Qred (Qplus a b);
  fsub := fun a b => Qred (Qminus a b);
  fmul := fun a b => Qred (Qmult a b);
  fdiv := fun a b => Qred (Qdiv a b);
  flt := Q_lt_bool;
  fexp := fun x => Qred (Qplus 1 (Qmult x x));
  fsqrt := fun x => x;
  fpow := fun x _ => Qred (Qmult x x);
  of_unsigned := inject_Z;
  fmul_comm := ltac:(intros [an ad] [bn bd]; unfold Qmult; cbn;
                     rewrite (Z.mul_comm an bn), (Pos.mul_comm ad bd);
                     reflexivity)
|}.

#[export] Instance minstd_RandomOps : RandomOps Q := {|
  default_random_engine := Z;
  engine_seed := fun z => z;
  normal_distribution := unit;
  normal_new := tt;
  normal_draw := fun d g =>
    let g' := (16807 * g) mod 2147483647 in
    (Qmake (g' mod 201 - 100) 100, d, g')
|}.

(** Rectified linear activation, the quadratic cost and the cross-entropy
    delta, over the rationals (Network.hpp:36-59). *)
Definition Q_ReLU_compute (z : Q) : Q := fmax 0%Q z.
Definition Q_ReLU_deriv (z : Q) : Q := if Q_lt_bool 0 z then 1%Q else 0%Q.
Definition Q_Quadratic_compute (activation label : Q) : Q :=
  fmul (1 # 2)%Q (fmul (fsub activation label) (fsub activation label)).
Definition Q_CrossEntropy_delta (z activation label : Q) : Q :=
  fsub activation label.

(** * Operations a layer class does not support

    The calls whose body is [UNREACHABLE()] in Network.hpp or starts with
    [DO_NOT_USE] in main4.cpp, and what invoking one does. *)

Section Unsupported.

Context {F : Type} {FO : FloatOps F} {RO : RandomOps F}.
Variable NDEBUG : bool.
Variable mbSize : Z.
Variable indeterminate : F.

Inductive unsupported_call : Type :=
(* Network.hpp, InputLayer (132-158) *)
| Input_initialiseDefaultWeights
| Input_calcBwdError (mb : Z)
| Input_feedForward (mb : Z)
| Input_backPropogate (mb : Z)
| Input_endBatch (numTrainingImages : Z)
| Input_setInputs (layer : @ptr)
| Input_setOutputs (layer : @ptr)
| Input_getBwdError1 (index mb : Z)
| Input_getBwdError3 (x y z mb : Z)
(* Network.hpp, FullyConnectedLayer (333, 341) *)
| FullyConnected_getBwdError3 (this : nat) (x y z mb : Z)
| FullyConnected_getNeuron3 (this : nat) (x y z : Z)
(* Network.hpp, SoftMaxLayer (429, 517, 525) and SoftMaxNeuron (378) *)
| SoftMax_setOutputs (this : nat) (layer : @ptr)
| SoftMax_getBwdError3 (this : nat) (x y z mb : Z)
| SoftMax_getNeuron3 (this : nat) (x y z : Z)
| SoftMaxNeuron_backPropogate_ (n : @FullyConnectedNeuron F) (mb : Z)
(* Network.hpp, ConvLayer (764) and MaxPoolLayer (866) *)
| Conv_getBwdError1 (this : nat) (index mb : Z)
| MaxPool_getBwdError1 (this : nat) (index mb : Z)
(* main4.cpp, InputLayer (182-225) *)
| Main4_Input_initialiseDefaultWeights
| Main4_Input_calcBwdError (mb : Z)
| Main4_Input_feedForward (mb : Z)
| Main4_Input_backPropogate (mb : Z)
| Main4_Input_endBatch (numTrainingImages : Z)
| Main4_Input_computeOutputError (label mb : Z)
| Main4_Input_computeOutputCost (label mb : Z)
| Main4_Input_sumSquaredWeights
| Main4_Input_setInputs (layer : @Main4.Layer F)
| Main4_Input_setOutputs (layer : @Main4.Layer F)
| Main4_Input_readOutput
| Main4_Input_getBwdError1 (index mb : Z)
| Main4_Input_getBwdError3 (x y z mb : Z)
(* main4.cpp, FullyConnectedLayer (442-451) *)
| Main4_FullyConnected_getBwdError3 (x y z mb : Z)
| Main4_FullyConnected_getNeuron3 (x y z : Z)
(* main4.cpp, ConvLayer (687-709) *)
| Main4_Conv_getBwdError1 (index mb : Z)
| Main4_Conv_computeOutputCost (label mb : Z)
| Main4_Conv_computeOutputError (label mb : Z)
| Main4_Conv_readOutput
| Main4_Conv_getNeuron1 (index : Z)
(* main4.cpp, MaxPoolLayer (788-818) *)
| Main4_MaxPool_getBwdError1 (index mb : Z)
| Main4_MaxPool_computeOutputError (label mb : Z)
| Main4_MaxPool_computeOutputCost (label mb : Z)
| Main4_MaxPool_readOutput
| Main4_MaxPool_getNeuron1 (index : Z).

(** The receiver of the call is an object of the class named. *)
Definition receiver_ok (s : @Store F RO) (c : unsupported_call) : Prop :=
  match c with
  | FullyConnected_getBwdError3 this _ _ _ _
  | FullyConnected_getNeuron3 this _ _ _ =>
      exists l, layers s !! this = Some (LFullyConnected l)
  | SoftMax_setOutputs this _
  | SoftMax_getBwdError3 this _ _ _ _
  | SoftMax_getNeuron3 this _ _ _ =>
      exists l, layers s !! this = Some (LSoftMax l)
  | Conv_getBwdError1 this _ _ => exists l, layers s !! this = Some (LConv l)
  | MaxPool_getBwdError1 this _ _ =>
      exists l, layers s !! this = Some (LMaxPool l)
  | _ => True
  end.

Definition outcome {A : Type} (r : result A) : result unit :=
  let* _ := r in Ok tt.

Definition invoke (s : @Store F RO) (c : unsupported_call) : result unit :=
  match c with
  | Input_initialiseDefaultWeights =>
      outcome (Layer_initialiseDefaultWeights NDEBUG s PInput)
  | Input_calcBwdError mb => outcome (Layer_calcBwdError NDEBUG s PInput mb)
  | Input_feedForward mb => outcome (Layer_feedForward NDEBUG s PInput mb)
  | Input_backPropogate mb => outcome (Layer_backPropogate NDEBUG s PInput mb)
  | Input_endBatch n => outcome (Layer_endBatch NDEBUG mbSize s PInput n)
  | Input_setInputs layer => outcome (Layer_setInputs NDEBUG s PInput layer)
  | Input_setOutputs layer => outcome (Layer_setOutputs NDEBUG s PInput layer)
  | Input_getBwdError1 index mb =>
      outcome (Layer_getBwdError1 NDEBUG s PInput index mb)
  | Input_getBwdError3 x y z mb =>
      outcome (Layer_getBwdError3 NDEBUG (chain_fuel s) s PInput x y z mb)
  | FullyConnected_getBwdError3 this x y z mb
  | SoftMax_getBwdError3 this x y z mb =>
      outcome (Layer_getBwdError3 NDEBUG (chain_fuel s) s (PLayer this) x y z mb)
  | FullyConnected_getNeuron3 this x y z
  | SoftMax_getNeuron3 this x y z =>
      outcome (Layer_getNeuron3 NDEBUG s (PLayer this) x y z)
  | SoftMax_setOutputs this layer =>
      outcome (Layer_setOutputs NDEBUG s (PLayer this) layer)
  | SoftMaxNeuron_backPropogate_ n mb =>
      outcome (SoftMaxNeuron_backPropogate NDEBUG n mb)
  | Conv_getBwdError1 this index mb
  | MaxPool_getBwdError1 this index mb =>
      outcome (Layer_getBwdError1 NDEBUG s (PLayer this) index mb)
  | Main4_Input_initialiseDefaultWeights =>
      outcome (Main4.InputLayer_initialiseDefaultWeights NDEBUG)
  | Main4_Input_calcBwdError mb => outcome (Main4.InputLayer_calcBwdError NDEBUG mb)
  | Main4_Input_feedForward mb => outcome (Main4.InputLayer_feedForward NDEBUG mb)
  | Main4_Input_backPropogate mb =>
      outcome (Main4.InputLayer_backPropogate NDEBUG mb)
  | Main4_Input_endBatch n => outcome (Main4.InputLayer_endBatch NDEBUG n)
  | Main4_Input_computeOutputError label mb =>
      outcome (Main4.InputLayer_computeOutputError NDEBUG label mb)
  | Main4_Input_computeOutputCost label mb =>
      outcome (Main4.InputLayer_computeOutputCost (F := F) NDEBUG label mb)
  | Main4_Input_sumSquaredWeights =>
      outcome (Main4.InputLayer_sumSquaredWeights (F := F) NDEBUG)
  | Main4_Input_setInputs layer =>
      outcome (Main4.InputLayer_setInputs NDEBUG layer)
  | Main4_Input_setOutputs layer =>
      outcome (Main4.InputLayer_setOutputs NDEBUG layer)
  | Main4_Input_readOutput => outcome (Main4.InputLayer_readOutput NDEBUG)
  | Main4_Input_getBwdError1 index mb =>
      outcome (Main4.InputLayer_getBwdError1 (F := F) NDEBUG index mb)
  | Main4_Input_getBwdError3 x y z mb =>
      outcome (Main4.InputLayer_getBwdError3 (F := F) NDEBUG x y z mb)
  | Main4_FullyConnected_getBwdError3 x y z mb =>
      outcome (Main4.FullyConnectedLayer_getBwdError3 (F := F) NDEBUG x y z mb)
  | Main4_FullyConnected_getNeuron3 x y z =>
      outcome (Main4.FullyConnectedLayer_getNeuron3 NDEBUG indeterminate x y z)
  | Main4_Conv_getBwdError1 index mb =>
      outcome (Main4.ConvLayer_getBwdError1 (F := F) NDEBUG index mb)
  | Main4_Conv_computeOutputCost label mb =>
      outcome (Main4.ConvLayer_computeOutputCost (F := F) NDEBUG label mb)
  | Main4_Conv_computeOutputError label mb =>
      outcome (Main4.ConvLayer_computeOutputError NDEBUG label mb)
  | Main4_Conv_readOutput => outcome (Main4.ConvLayer_readOutput NDEBUG)
  | Main4_Conv_getNeuron1 index =>
      outcome (Main4.ConvLayer_getNeuron1 NDEBUG indeterminate index)
  | Main4_MaxPool_getBwdError1 index mb =>
      outcome (Main4.MaxPoolLayer_getBwdError1 (F := F) NDEBUG index mb)
  | Main4_MaxPool_computeOutputError label mb =>
      outcome (Main4.MaxPoolLayer_computeOutputError NDEBUG label mb)
  | Main4_MaxPool_computeOutputCost label mb =>
      outcome (Main4.MaxPoolLayer_computeOutputCost (F := F) NDEBUG label mb)
  | Main4_MaxPool_readOutput => outcome (Main4.MaxPoolLayer_readOutput NDEBUG)
  | Main4_MaxPool_getNeuron1 index =>
      outcome (Main4.MaxPoolLayer_getNeuron1 NDEBUG indeterminate index)
  end.

End Unsupported.

(** * Concrete networks

    The configurations on which the model is run below. *)

Definition value {A : Type} (r : result A) (default : A) : A :=
  match r with Ok a => a | _ => default end.

(** A small store over the rationals: a 2x2 input layer followed by one
    layer of each class. *)
Definition demo_params : Params := mkParams (1 # 2)%Q 5%Q 42 1 1.

Definition demo_fc : @FullyConnectedLayer Q :=
  FullyConnectedLayer_new 2 0%Q 2 4 Q_ReLU_compute Q_ReLU_deriv demo_params.

(** [ConvLayer<2, 1, 1, 1, 2, 2, 1, 1>] as its constructor leaves it. *)
Definition demo_conv : @ConvLayer Q :=
  mkCL 2 2 1 1 Q_ReLU_compute Q_ReLU_deriv (1 # 2)%Q 5%Q Null Null
       (ma_zero [1]) (ma_zero [1; 1; 1; 1])
       (mkArray [1; 2; 2]
                (tabulate3 1 2 2 (fun fm x y => ConvNeuron_new 2 0%Q x y fm 2 2)))
       (ma_zero [2; 2; 2; 1]).

Definition demo_layers : list (@Layer Q) :=
  [LFullyConnected demo_fc;
   LSoftMax
     (SoftMaxLayer_new 2 0%Q 2 2 Q_Quadratic_compute Q_CrossEntropy_delta
                       (1 # 2)%Q 5%Q);
   LConv demo_conv;
   LMaxPool
     (mkMPL 2 2 Null Null
            (mkArray [1; 1; 1] (tabulate3 1 1 1 (Neuron_xyz 2 0%Q))))].

Definition demo_store : @Store Q minstd_RandomOps :=
  mkStore demo_params (InputLayer_new 2 0%Q 2 2) demo_layers 42.


(** ** main4.cpp: the first layer of [main] and a pooling layer in front of
    a volumetric layer *)

(** [ConvLayer(5, 5, 1, imageHeight, imageWidth, 1, 1)] (main4.cpp:1024)
    and the 28x28 input layer it is wired to. *)
Definition main4_Conv1 (NDEBUG : bool) : result (@Main4.ConvLayer Q) :=
  Main4.ConvLayer_new NDEBUG 0%Q 5 5 1 28 28 1 1.

Definition main4_inputLayer (NDEBUG : bool) : @Main4.Layer Q :=
  Main4.InputLayer_as_Layer NDEBUG (Main4.InputLayer_new 0%Q 28 28).

(** [MaxPoolLayer(2, 2, 4, 4, 1)] followed by a convolutional layer with a
    2x2x1 input volume, whose backward-error buffer holds forty distinct
    values ([bwdErrors[x][y][z][mb]] is [20x + 10y + 10z + mb]). *)
Definition main4_pool (NDEBUG : bool) : @Main4.MaxPoolLayer Q :=
  value (Main4.MaxPoolLayer_new NDEBUG 0%Q 2 2 4 4 1)
        (Main4.mkMPL 2 2 (mkArray [] [])).

Definition main4_successor : @Main4.ConvLayer Q :=
  Main4.mkCL 2 2 1 1 (mkArray [0] []) (ma_zero [1; 1; 1; 1])
    (mkArray [2; 2; 1]
       (tabulate3 2 2 1
          (fun x y z => ConvNeuron_new Main4.mbSize 0%Q x y z 2 2)))
    (mkArray [2; 2; 1; 10] (map inject_Z (urange 40))).

(** ** Network.hpp: small networks on a 2x2 image *)

(** [inputs->getNeuron(x, y, z).activations[mb]] as a caller reads it. *)
Definition activation_at {F : Type} {FO : FloatOps F} {RO : RandomOps F}
    (NDEBUG : bool) (s : @Store F RO) (p : ptr) (x y z mb : Z) : result F :=
  let* n := Layer_getNeuron3 NDEBUG s p x y z in arr_get (activations n) mb.

Definition load_image (NDEBUG : bool) (s : @Store Q minstd_RandomOps)
    (image : list Q) (mb : Z) : result (@Store Q minstd_RandomOps) :=
  let* il := InputLayer_setImage NDEBUG (inputLayer s) image mb in
  Ok (with_inputLayer s il).

(** A 2x2 pooling layer over the whole image, then the softmax layer. *)
Definition pool_network : result (@Store Q minstd_RandomOps) :=
  Network_new false 2 0%Q 2 2 2 1 Q_Quadratic_compute Q_CrossEntropy_delta
    demo_params
    (match MaxPoolLayer_new 2 0%Q 2 2 2 2 1 with
     | Some l => [LMaxPool l]
     | None => []
     end).

(** The pooling layer's forward pass on slot 0 of an image. *)
Definition pool_forward (image : list Q) : result (@Store Q minstd_RandomOps) :=
  let* s := pool_network in
  let* s := load_image false s image 0 in
  Layer_feedForward false s (PLayer 0) 0.

(** A fully-connected layer of two neurons with [prevSize] declared
    inputs, then the softmax layer. *)
Definition fc_network_of (p : Params) (NDEBUG : bool) (prevSize : Z)
  : result (@Store Q minstd_RandomOps) :=
  Network_new NDEBUG 2 0%Q 2 2 2 2 Q_Quadratic_compute Q_CrossEntropy_delta p
    [LFullyConnected
       (FullyConnectedLayer_new 2 0%Q 2 prevSize Q_ReLU_compute Q_ReLU_deriv p)].

Definition fc_network : bool -> Z -> result (@Store Q minstd_RandomOps) :=
  fc_network_of demo_params.

Definition fc_image : list Q := [1; 1 # 2; 0; 1 # 4]%Q.

Definition fc_forward : result (@Store Q minstd_RandomOps) :=
  let* s := fc_network false 4 in
  let* s := load_image false s fc_image 0 in
  Network_feedForward false s 0.

(** A convolutional layer declaring a 3x3x1 input volume, wired to the
    2x2 input layer. *)
Definition conv_network (NDEBUG : bool) : result (@Store Q minstd_RandomOps) :=
  Network_new NDEBUG 2 0%Q 2 2 2 4 Q_Quadratic_compute Q_CrossEntropy_delta
    demo_params
    (match ConvLayer_new 2 0%Q 2 2 1 3 3 1 1 Q_ReLU_compute Q_ReLU_deriv
                         demo_params with
     | Some l => [LConv l]
     | None => []
     end).

(** The per-sample cost in the words of the specification: the sum over
    the output neurons of the cost function applied to the neuron's
    activation and its one-hot target. *)
Definition claimed_outputCost {F : Type} {FO : FloatOps F}
    (l : @SoftMaxLayer F) (label mb : Z) : result F :=
  foldM (fun cost n =>
           let* a := arr_get (activations (fcn_base n)) mb in
           let target := if label =? n_index (fcn_base n) then f1 else f0 in
           Ok (fadd cost (sml_costFn l a target)))
        (sml_neurons l) f0.

(** [inputs->getNeuron(i).activations[j]] as a caller reads it. *)
Definition input_activation {F : Type} {FO : FloatOps F} {RO : RandomOps F}
    (NDEBUG : bool) (s : @Store F RO) (p : ptr) (i j : Z) : result F :=
  let* n := Layer_getNeuron1 NDEBUG s p i in arr_get (activations n) j.

(** The 4-2-2 network seeded with 6, after one backward pass on slot 0,
    and the first neuron of its fully-connected layer with what
    [endBatch] reads. *)
Definition fc_trained : @Store Q minstd_RandomOps :=
  value (let* s := fc_network_of (mkParams (1 # 2)%Q 5%Q 6 1 1) false 4 in
         Network_backPropogate false s fc_image 1 0) demo_store.

Definition fc_neuron : @FullyConnectedNeuron Q :=
  value (let* l := this_FullyConnected fc_trained 0 in
         arr_get (fcl_neurons l) 0)
        (FullyConnectedNeuron_new 2 0%Q 0 0%Q 0%Q).

Definition fc_a (i j : Z) : Q :=
  value (input_activation false fc_trained (fcn_inputs fc_neuron) i j) 0%Q.
Definition fc_e (j : Z) : Q :=
  value (arr_get (errors (fcn_base fc_neuron)) j) 0%Q.
Definition fc_w (i : Z) : Q := value (arr_get (weights fc_neuron) i) 0%Q.

(** * What one sample slot leaves untouched

    [erase_slot mb s] is the store [s] with slot [mb] blanked: entry [mb]
    of every neuron's three scratch arrays and row [mb] of every
    backward-error buffer are overwritten with [0.0f]; weights, biases,
    pointers, shapes and the generator stay.  Two stores with the same
    image under [erase_slot mb] differ at most in slot [mb]. *)

Section Erase.

Context {F : Type} {FO : FloatOps F} {RO : RandomOps F}.
Variable mb : Z.

Definition erase_arr (a : list F) : list F :=
  if 0 <=? mb then <[Z.to_nat mb := f0]> a else a.

Definition erase_neuron (n : @Neuron F) : @Neuron F :=
  mkNeuron (n_index n) (n_x n) (n_y n) (n_z n)
           (erase_arr (weightedInputs n)) (erase_arr (activations n))
           (erase_arr (errors n)).

Definition erase_fcn (n : @FullyConnectedNeuron F) : @FullyConnectedNeuron F :=
  fcn_with_base n (erase_neuron (fcn_base n)).

Definition erase_cn (n : @ConvNeuron F) : @ConvNeuron F :=
  cn_with_base n (erase_neuron (cn_base n)).

Definition ma_map {A B : Type} (f : A -> B) (a : multi_array A)
  : multi_array B := mkArray (shape a) (map f (elements a)).

(** The first index of a backward-error buffer is the slot; an element at
    offset [off] lies in row [off / row_size]. *)
Definition row_size (exts : list Z) : Z := fold_right Z.mul 1 (tail exts).

Definition erase_rows (b : multi_array F) : multi_array F :=
  mkArray (shape b)
          (imap (fun off v =>
                   if Z.of_nat off / row_size (shape b) =? mb then f0 else v)
                (elements b)).

Definition erase_layer (l : @Layer F) : @Layer F :=
  match l with
  | LInput l =>
      LInput (mkInputLayer (il_imageX l) (il_imageY l)
                           (ma_map erase_neuron (il_neurons l)))
  | LFullyConnected l =>
      LFullyConnected
        (mkFCL (fcl_activationFn l) (fcl_activationFnDeriv l) (fcl_inputs l)
               (fcl_outputs l) (map erase_fcn (fcl_neurons l))
               (erase_rows (fcl_bwdErrors l)))
  | LSoftMax l =>
      LSoftMax
        (mkSML (sml_costFn l) (sml_costDelta l) (sml_inputs l) (sml_outputs l)
               (map erase_fcn (sml_neurons l)) (erase_rows (sml_bwdErrors l)))
  | LConv l =>
      LConv
        (cl_with_bwdErrors
           (cl_with_neurons l (ma_map erase_cn (cl_neurons l)))
           (erase_rows (cl_bwdErrors l)))
  | LMaxPool l =>
      LMaxPool (mp_with_neurons l (ma_map erase_neuron (mp_neurons l)))
  end.

Definition erase_slot (s : @Store F RO) : @Store F RO :=
  mkStore (params s)
          (mkInputLayer (il_imageX (inputLayer s)) (il_imageY (inputLayer s))
                        (ma_map erase_neuron (il_neurons (inputLayer s))))
          (map erase_layer (layers s))
          (generator s).

End Erase.

(** The weights and the biases of a layer. *)
Definition layer_parameters {F : Type} (l : @Layer F) : list (list F) :=
  match l with
  | LInput _ => []
  | LFullyConnected l => map (fun n => bias n :: weights n) (fcl_neurons l)
  | LSoftMax l => map (fun n => bias n :: weights n) (sml_neurons l)
  | LConv l => [elements (cl_bias l); elements (cl_weights l)]
  | LMaxPool _ => []
  end.

(** A 4x4 image through a 3x3 convolution with one feature map, a 2x2
    pooling layer and the softmax layer. *)
Definition cp_chain : list (@Layer Q) :=
  match ConvLayer_new 2 0%Q 3 3 1 4 4 1 1 Q_ReLU_compute Q_ReLU_deriv
                      demo_params,
        MaxPoolLayer_new 2 0%Q 2 2 2 2 1 with
  | Some c, Some p => [LConv c; LMaxPool p]
  | _, _ => []
  end.

Definition cp_network : result (@Store Q minstd_RandomOps) :=
  Network_new false 2 0%Q 4 4 2 1 Q_Quadratic_compute Q_CrossEntropy_delta
              demo_params cp_chain.

Definition cp_store : @Store Q minstd_RandomOps := value cp_network demo_store.

Definition cp_image : list Q := map (fun i => Qmake i 16) (urange 16).

(** The state after a backward pass on slot 1. *)
Definition cp_after : @Store Q minstd_RandomOps :=
  value (Network_backPropogate false cp_store cp_image 1 1) cp_store.

(** * What initialisation depends on

    [strip_rates s] is the store [s] without the hyper-parameters: the
    learning rate and the decay coefficient held by every neuron and
    convolutional layer, and the [Params] bundle, are blanked.  Layer
    lists with the same image under [strip_layer] are the same topology. *)

Section Strip.

Context {F : Type} {FO : FloatOps F} {RO : RandomOps F}.




End Strip.



(** ** Arrays as their constructor leaves them

    An array holds as many elements as its extents say. *)
Definition well_formed {T : Type} (a : multi_array T) : Prop :=
  length (elements a) = Z.to_nat (num_elements a).

(** ** What the size checks of construction compare

    [size_of l] is what [l.size()] returns; [declared_input_size l] is the
    right-hand side of the [assert] in [l.setInputs] (Network.hpp:751 and
    871): [FullyConnectedLayer::setInputs] and [SoftMaxLayer::setInputs]
    compare nothing.  [predecessor_size] is the [size()] of the layer before
    position [i] of the chain, the input layer before position 0. *)

Definition size_of {F : Type} (l : @Layer F) : Z :=
  match l with
  | LInput l => wrap (num_elements (il_neurons l))
  | LFullyConnected l => wrap (Z.of_nat (length (fcl_neurons l)))
  | LSoftMax l => wrap (Z.of_nat (length (sml_neurons l)))
  | LConv l => wrap (num_elements (cl_neurons l))
  | LMaxPool l => wrap (num_elements (mp_neurons l))
  end.

Definition declared_input_size {F : Type} (l : @Layer F) : option Z :=
  match l with
  | LConv l => Some (umul (umul (cl_inputX l) (cl_inputY l)) (cl_inputZ l))
  | LMaxPool l =>
      Some (umul (mp_poolX l) (mp_poolY l) * num_elements (mp_neurons l))
  | _ => None
  end.

Definition predecessor_size {F : Type} (input : @InputLayer F)
    (chain : list (@Layer F)) (i : nat) : option Z :=
  match i with
  | O => Some (size_of (LInput input))
  | S j => option_map size_of (chain !! j)
  end.

Definition layer_geometry {F : Type} (l : @Layer F) : Z * option Z :=
  (size_of l, declared_input_size l).

(** Two stores with the same input layer and, position by position, layers
    of the same geometry. *)
Definition same_geometry {F : Type} {RO : RandomOps F} (s s' : @Store F RO)
  : Prop :=
  inputLayer s' = inputLayer s /\
  map layer_geometry (layers s') = map layer_geometry (layers s).

(** ** The fuel of the backward-error lookup

    [fueled r] says that [r] is an outcome of the program and not the
    exhaustion of the model's fuel; [pooling_chain_wired s] says that every
    pooling layer of [s] points to the next position of [layers]. *)

Definition fueled {A : Type} (r : result A) : Prop := r <> OutOfFuel.

Definition pooling_chain_wired {F : Type} {RO : RandomOps F} (s : @Store F RO)
  : Prop :=
  forall i l, layers s !! i = Some (LMaxPool l) -> mp_outputs l = PLayer (S i).

(** * Further definitions *)

(** ** The input layer as its constructor and [setImage] leave it

    The neurons form an [imageX] x [imageY] x 1 array with all its elements,
    and every neuron has its [mbSize] activation slots. *)
Definition InputLayer_ok {F : Type} (mbSize : Z) (l : @InputLayer F) : Prop :=
  shape (il_neurons l) = [il_imageX l; il_imageY l; 1] /\
  well_formed (il_neurons l) /\
  forall n, In n (elements (il_neurons l)) ->
            Z.of_nat (length (activations n)) = mbSize.

(** [getNeuron(i).activations[mb]] and [getNeuron(x, y, z).activations[mb]]
    as a successor layer reads them. *)
Definition InputLayer_activation1 {F : Type} {FO : FloatOps F}
    (NDEBUG : bool) (l : @InputLayer F) (i mb : Z) : result F :=
  let* n := InputLayer_getNeuron1 NDEBUG l i in arr_get (activations n) mb.

Definition InputLayer_activation3 {F : Type} {FO : FloatOps F}
    (NDEBUG : bool) (l : @InputLayer F) (x y z mb : Z) : result F :=
  let* n := InputLayer_getNeuron3 NDEBUG l x y z in arr_get (activations n) mb.

(** The activation held in slot [mb] by the neuron at [neurons[x][y][0]]. *)
Definition InputLayer_pixel {F : Type} {FO : FloatOps F}
    (NDEBUG : bool) (l : @InputLayer F) (x y mb : Z) : result F :=
  let* n := ma_get NDEBUG (il_neurons l) [x; y; 0] in arr_get (activations n) mb.

(** ** The pointers of a layer

    The [inputs] and [outputs] members of a layer object, followed by those
    of each of its neurons; [predecessor i] is what [Network::Network] hands
    to [layers[i]->setInputs]. *)
Definition Layer_pointers {F : Type} (l : @Layer F) : list (ptr * ptr) :=
  match l with
  | LInput _ => []
  | LFullyConnected l =>
      (fcl_inputs l, fcl_outputs l)
      :: map (fun n => (fcn_inputs n, fcn_outputs n)) (fcl_neurons l)
  | LSoftMax l =>
      (sml_inputs l, sml_outputs l)
      :: map (fun n => (fcn_inputs n, fcn_outputs n)) (sml_neurons l)
  | LConv l =>
      (cl_inputs l, cl_outputs l)
      :: map (fun n => (cn_inputs n, cn_outputs n)) (elements (cl_neurons l))
  | LMaxPool l => [(mp_inputs l, mp_outputs l)]
  end.

Definition predecessor (i : nat) : ptr :=
  match i with O => PInput | S j => PLayer j end.

(** The pointers of a store, one row per layer; a row with its first or its
    second components replaced. *)
Definition pointer_table {F : Type} {RO : RandomOps F} (s : @Store F RO)
  : list (list (ptr * ptr)) := map Layer_pointers (layers s).

Definition with_first (p : ptr) (row : list (ptr * ptr)) : list (ptr * ptr) :=
  map (fun pq => (p, snd pq)) row.
Definition with_second (p : ptr) (row : list (ptr * ptr)) : list (ptr * ptr) :=
  map (fun pq => (fst pq, p)) row.

(** The rows below position [k] hold the predecessor, or the successor, of
    their layer. *)
Definition inputs_wired (k : nat) (t : list (list (ptr * ptr))) : Prop :=
  forall j row, t !! j = Some row -> (j < k)%nat ->
                Forall (fun pq => fst pq = predecessor j) row.
Definition outputs_wired (k : nat) (t : list (list (ptr * ptr))) : Prop :=
  forall j row, t !! j = Some row -> (j < k)%nat ->
                Forall (fun pq => snd pq = PLayer (S j)) row.

(** ** What a gradient step may change

    [blank_parameters s] is the store [s] with every weight and every bias
    overwritten with [0.0f], the number of weights kept: two stores with the
    same image differ at most in the values of weights and biases. *)
Section Blank.

Context {F : Type} {FO : FloatOps F} {RO : RandomOps F}.

Definition blank_fcn (n : @FullyConnectedNeuron F) : @FullyConnectedNeuron F :=
  fcn_with_weights n (map (fun _ => f0) (weights n)) f0.

Definition blank_layer (l : @Layer F) : @Layer F :=
  match l with
  | LInput l => LInput l
  | LFullyConnected l =>
      LFullyConnected (fcl_with_neurons l (map blank_fcn (fcl_neurons l)))
  | LSoftMax l => LSoftMax (sml_with_neurons l (map blank_fcn (sml_neurons l)))
  | LConv l =>
      LConv (cl_with_weights l (ma_map (fun _ => f0) (cl_weights l))
                             (ma_map (fun _ => f0) (cl_bias l)))
  | LMaxPool l => LMaxPool l
  end.

Definition blank_parameters (s : @Store F RO) : @Store F RO :=
  with_layers s (map blank_layer (layers s)).

End Blank.

(** The trained network of the fully-connected example after its gradient
    step. *)
Definition fc_updated : @Store Q minstd_RandomOps :=
  value (Network_endBatch false 2 fc_trained 100) fc_trained.

(** ** Reading the classification

    [neurons[i].activations[mb]] as [readOutput] reads it. *)
Definition SoftMaxLayer_activation {F : Type} (l : @SoftMaxLayer F) (i mb : Z)
  : result F :=
  let* n := arr_get (sml_neurons l) i in arr_get (activations (fcn_base n)) mb.

(** main4.cpp:349-360: [FullyConnectedLayer::readOutput()] compares with
    [0.0f] and reads slot 0. *)
Definition Main4_FullyConnectedLayer_readOutput {F : Type} {FO : FloatOps F}
    (neurons : list (@Main4.FullyConnectedNeuron F)) : result Z :=
  let* (result, _) :=
    foldM (fun '(result, max) i =>
             let* n := arr_get neurons i in
             let* output := arr_get (activations (Main4.fcn_base n)) 0 in
             if flt max output then Ok (i, output) else Ok (result, max))
          (urange (Z.of_nat (length neurons))) (0, f0) in
  Ok result.

(** The comparison loop of both, from the threshold [init]. *)
Definition argmax_loop {F : Type} {FO : FloatOps F}
    (get : Z -> result F) (n : Z) (init : F) : result (Z * F) :=
  foldM (fun '(result, max) i =>
           let* output := get i in
           if flt max output then Ok (i, output) else Ok (result, max))
        (urange n) (0, init).

(** The softmax layer of the fully-connected example after its forward
    pass, and three output neurons of main4.cpp with activations in slot
    0. *)
Definition fc_softmax : @SoftMaxLayer Q :=
  value (let* s := fc_forward in this_SoftMax s 1)
        (SoftMaxLayer_new 2 0%Q 2 2 Q_Quadratic_compute Q_CrossEntropy_delta
                          0%Q 0%Q).
Definition fc_out (i : Z) : Q := value (SoftMaxLayer_activation fc_softmax i 0) 0%Q.

Definition main4_outputs : list (@Main4.FullyConnectedNeuron Q) :=
  map (fun a => Main4.mkFCN (mkNeuron 0 0 0 0 [] [a; 1%Q] []) [] 0%Q)
      [(1 # 4)%Q; (3 # 4)%Q; (1 # 2)%Q].
Definition main4_out (i : Z) : Q :=
  value (let* n := arr_get main4_outputs i in
         arr_get (activations (Main4.fcn_base n)) 0) 0%Q.

(** ** The weighted input of a neuron

    [weighted_sum a w size b] is the accumulation
    [0.0f + a 0 * w 0 + ... + a (size-1) * w (size-1)], then [+ b], in
    that order. *)
Definition weighted_sum {F : Type} {FO : FloatOps F}
    (a w : Z -> F) (size : Z) (b : F) : F :=
  fadd (fsum (map (fun i => fmul (a i) (w i)) (urange size))) b.

(** The fully-connected example with its image loaded in slot 0, its first
    layer, and what that layer's forward pass reads. *)
Definition fc_loaded : @Store Q minstd_RandomOps :=
  value (let* s := fc_network false 4 in load_image false s fc_image 0)
        demo_store.
Definition fc_layer0 : @FullyConnectedLayer Q :=
  value (this_FullyConnected fc_loaded 0) demo_fc.
Definition fc_in (i : Z) : Q :=
  value (input_activation false fc_loaded PInput i 0) 0%Q.
Definition fc_weight (k : nat) (i : Z) : Q :=
  value (let* n := arr_get (fcl_neurons fc_layer0) (Z.of_nat k) in
         arr_get (weights n) i) 0%Q.

(** The first layer of the trained fully-connected example, and what its
    [calcBwdError] reads. *)
Definition fc_trained_layer0 : @FullyConnectedLayer Q :=
  value (this_FullyConnected fc_trained 0) demo_fc.
Definition fc_trained_weight (n : @FullyConnectedNeuron Q) (i : Z) : Q :=
  value (FullyConnectedNeuron_getWeight n i) 0%Q.
Definition fc_trained_error (n : @FullyConnectedNeuron Q) : Q :=
  value (arr_get (errors (fcn_base n)) 0) 0%Q.

(** The fully-connected example as constructed, and the cost [imageCost]
    reports for its image, with label 1 among 100 images, with the state
    the call leaves. *)
Definition fc_fresh : @Store Q minstd_RandomOps :=
  value (fc_network false 4) demo_store.
Definition fc_imageCost : Q * @Store Q minstd_RandomOps :=
  value (Network_imageCost false fc_fresh fc_image 1 100 (3 # 7)%Q 0)
        (0%Q, demo_store).

(** [MaxPoolLayer<2, 2, 2, 4, 4, 1>] as its constructor leaves it. *)
Definition demo_pool : @MaxPoolLayer Q :=
  mkMPL 2 2 Null Null
        (mkArray [2; 2; 1] (tabulate3 2 2 1 (Neuron_xyz 2 0%Q))).

(** * Loading the MNIST files (main4.cpp:64-118)

    A file is the list of its bytes, or [None] when it cannot be opened.
    [read] extracts from what is left of the stream; a read that finds too
    few bytes leaves its destination indeterminate.  The four-byte reads go
    into a [uint32_t] of a little-endian host ([load32]), which
    [__builtin_bswap32] then reverses.  What the functions print is left
    out. *)

From Stdlib Require Strings.Byte.

Inductive io (A : Type) : Type :=
| Exited (code : Z)                       (* std::exit(code) *)
| Returned (r : result A).
Arguments Exited {A} code.
Arguments Returned {A} r.

Definition byte_value (b : Byte.byte) : Z := Z.of_N (Byte.to_N b).

Definition load32 (b0 b1 b2 b3 : Byte.byte) : Z :=
  byte_value b0 + 2 ^ 8 * byte_value b1 + 2 ^ 16 * byte_value b2
  + 2 ^ 24 * byte_value b3.

Definition bswap32 (v : Z) : Z :=
  2 ^ 24 * (v mod 2 ^ 8) + 2 ^ 16 * ((v / 2 ^ 8) mod 2 ^ 8)
  + 2 ^ 8 * ((v / 2 ^ 16) mod 2 ^ 8) + (v / 2 ^ 24) mod 2 ^ 8.

(** [file.read(&word, 4)] followed by the use of [word]: with fewer than
    four bytes left the value used is indeterminate. *)
Definition read32 (stream : list Byte.byte) : result (Z * list Byte.byte) :=
  match stream with
  | b0 :: b1 :: b2 :: b3 :: rest => Ok (load32 b0 b1 b2 b3, rest)
  | _ => Undefined
  end.

(** main4.cpp:64-84.  A label read at the end of the stream is pushed as
    it is, indeterminate: [None]. *)
Definition readLabels (file : option (list Byte.byte))
    (labels : list (option Byte.byte)) : io (list (option Byte.byte)) :=
  match file with
  | None => Exited 1
  | Some stream =>
      Returned
        (let* (magicNumber, stream) := read32 stream in
         let* (numItems, stream) := read32 stream in
         let magicNumber := bswap32 magicNumber in
         let numItems := bswap32 numItems in
         let* (_, labels) :=
           foldM (fun '(stream, labels) (_ : Z) =>
                    match stream with
                    | label :: stream => Ok (stream, labels ++ [Some label])
                    | [] => Ok ([], labels ++ [None])
                    end)
                 (urange numItems) (stream, labels) in
         Ok labels)
  end.

Definition imageHeight : Z := 28.
Definition imageWidth : Z := 28.

(** main4.cpp:86-118.  [pixel_value] is
    [static_cast<float>(pixel) / 255.0], a division in double precision
    narrowed to [float]; converting a pixel read at the end of the stream
    reads an indeterminate value. *)
Definition readImages {F : Type} {FO : FloatOps F} (NDEBUG : bool)
    (pixel_value : Z -> F)
    (file : option (list Byte.byte)) (images : list (list F))
  : io (list (list F)) :=
  match file with
  | None => Exited 1
  | Some stream =>
      Returned
        (let* (magicNumber, stream) := read32 stream in
         let* (numImages, stream) := read32 stream in
         let* (numRows, stream) := read32 stream in
         let* (numCols, stream) := read32 stream in
         let magicNumber := bswap32 magicNumber in
         let numImages := bswap32 numImages in
         let numRows := bswap32 numRows in
         let numCols := bswap32 numCols in
         let* _ :=
           assert NDEBUG ((numRows =? imageHeight) && (numCols =? imageWidth)) in
         let* (_, images) :=
           foldM (fun '(stream, images) (_ : Z) =>
                    let image := repeat f0 (Z.to_nat (umul numRows numCols)) in
                    let* (stream, image) :=
                      foldM (fun '(stream, image) '(j, k) =>
                               match stream with
                               | pixel :: stream =>
                                   let value := pixel_value (byte_value pixel) in
                                   let* image :=
                                     arr_set image (uadd (umul j numRows) k)
                                             value in
                                   Ok (stream, image)
                               | [] => Undefined
                               end)
                            (loop2 numRows numCols) (stream, image) in
                    Ok (stream, images ++ [image]))
                 (urange numImages) (stream, images) in
         Ok images)
  end.

(** The four bytes of a header word, most significant first. *)
Definition be32 (b0 b1 b2 b3 : Byte.byte) : Z :=
  2 ^ 24 * byte_value b0 + 2 ^ 16 * byte_value b1 + 2 ^ 8 * byte_value b2
  + byte_value b3.

(** The float a pixel byte becomes. *)
Definition byte_pixel {F : Type} (pixel_value : Z -> F) (b : Byte.byte) : F :=
  pixel_value (byte_value b).

(** ** The softmax forward pass

    [softmax_sum zs] is [0.0f + exp (z 0) + exp (z 1) + ...], in this
    order; [softmax_inputs a w size ns] are the weighted inputs of the
    neurons [ns] on the activations [a].  [fc_fed] is the fully-connected
    example after the forward pass of its first layer, and what its
    softmax layer then reads. *)
Definition softmax_sum {F : Type} {FO : FloatOps F} (zs : list F) : F :=
  fold_left (fun sum z => fadd sum (fexp z)) zs f0.

Definition softmax_inputs {F : Type} {FO : FloatOps F}
    (a : Z -> F) (w : nat -> Z -> F) (size : Z)
    (ns : list (@FullyConnectedNeuron F)) : list F :=
  imap (fun k n => weighted_sum a (w k) size (bias n)) ns.

Definition fc_fed : @Store Q minstd_RandomOps :=
  value (let* s := fc_network false 4 in
         let* s := load_image false s fc_image 0 in
         Layer_feedForward false s (PLayer 0) 0)
        demo_store.
Definition fc_fed_softmax : @SoftMaxLayer Q :=
  value (this_SoftMax fc_fed 1)
        (SoftMaxLayer_new 2 0%Q 2 2 Q_Quadratic_compute Q_CrossEntropy_delta
                          0%Q 0%Q).
Definition fc_hidden (i : Z) : Q :=
  value (input_activation false fc_fed (PLayer 0) i 0) 0%Q.
Definition fc_fed_weight (k : nat) (i : Z) : Q :=
  value (let* n := arr_get (sml_neurons fc_fed_softmax) (Z.of_nat k) in
         arr_get (weights n) i) 0%Q.

(** The fully-connected example after its forward pass, and the weighted
    input and activation of its output neuron [k] in slot 0. *)
Definition fc_forwarded : @Store Q minstd_RandomOps := value fc_forward demo_store.
Definition fc_z (k : nat) : Q :=
  value (let* m := arr_get (sml_neurons fc_softmax) (Z.of_nat k) in
         arr_get (weightedInputs (fcn_base m)) 0) 0%Q.
Definition fc_act (k : nat) : Q := fc_out (Z.of_nat k).

(** ** The pooling forward pass

    [pool_state s this l mb s1]: [s1] is [s] with other neurons in the
    pooling layer [l] at position [this], every one of them with a slot
    [mb]; [pooled_at s this c mb v]: the neuron at coordinates [c] of the
    pooling layer at [this] holds [v] as activation in slot [mb].
    [pool_loaded] is the pooling example with an image in slot 0. *)
Definition pool_state {F : Type} {FO : FloatOps F} {RO : RandomOps F}
    (s : @Store F RO) (this : nat) (l : @MaxPoolLayer F) (mb : Z)
    (s1 : @Store F RO) : Prop :=
  exists ns1,
    s1 = put_layer s this (LMaxPool (mp_with_neurons l ns1)) /\
    shape ns1 = shape (mp_neurons l) /\ well_formed ns1 /\
    forall n, In n (elements ns1) ->
      0 <= mb < Z.of_nat (length (activations n)).

Definition pooled_at {F : Type} {FO : FloatOps F} {RO : RandomOps F}
    (NDEBUG : bool) (s : @Store F RO) (this : nat) (c : list Z) (mb : Z)
    (v : F) : Prop :=
  exists l n,
    layers s !! this = Some (LMaxPool l) /\
    ma_get NDEBUG (mp_neurons l) c = Ok n /\
    arr_get (activations n) mb = Ok v.

Definition pool_loaded : @Store Q minstd_RandomOps :=
  value (let* s := pool_network in
         load_image false s [1; 1 # 2; 1 # 4; 1 # 8]%Q 0)
        demo_store.
Definition pool_layer : @MaxPoolLayer Q :=
  value (this_MaxPool pool_loaded 0) demo_pool.
Definition pool_in (x y z : Z) : Q :=
  value (activation_at false pool_loaded PInput x y z 0) 0%Q.

(** ** The convolutional forward pass

    [conv_sum a w kx ky kz b] is the accumulation of [a ia ib ic * w ia ib
    ic] over the kernel, from [0.0f] and with [ic] running fastest, then
    [+ b].  [conv_state s this l mb s1]: [s1] is [s] with other neurons in
    the convolutional layer [l] at position [this], each of them still at
    its own coordinates, reading the layer's predecessor and holding a
    slot [mb]; [conv_at s this c mb z v]: the neuron at [c] of that layer
    holds weighted input [z] and activation [v] in slot [mb]. *)
Definition conv_sum {F : Type} {FO : FloatOps F}
    (a w : Z -> Z -> Z -> F) (kx ky kz : Z) (b : F) : F :=
  fadd (fsum (map (fun '(ia, ib, ic) => fmul (a ia ib ic) (w ia ib ic))
                  (loop3 kx ky kz)))
       b.

Definition conv_neuron_ready {F : Type} (l : @ConvLayer F) (mb fm x y : Z)
    (n : @ConvNeuron F) : Prop :=
  n_x (cn_base n) = x /\ n_y (cn_base n) = y /\ n_z (cn_base n) = fm /\
  cn_inputs n = cl_inputs l /\
  0 <= mb < Z.of_nat (length (weightedInputs (cn_base n))) /\
  0 <= mb < Z.of_nat (length (activations (cn_base n))).

Definition conv_state {F : Type} {FO : FloatOps F} {RO : RandomOps F}
    (NDEBUG : bool) (s : @Store F RO) (this : nat) (l : @ConvLayer F) (mb : Z)
    (s1 : @Store F RO) : Prop :=
  exists ns1,
    s1 = put_layer s this (LConv (cl_with_neurons l ns1)) /\
    shape ns1 = shape (cl_neurons l) /\ well_formed ns1 /\
    forall fm x y,
      0 <= fm < extent ns1 0 -> 0 <= x < extent ns1 1 ->
      0 <= y < extent ns1 2 ->
      exists n, ma_get NDEBUG ns1 [fm; x; y] = Ok n /\
                conv_neuron_ready l mb fm x y n.

Definition conv_at {F : Type} {FO : FloatOps F} {RO : RandomOps F}
    (NDEBUG : bool) (s : @Store F RO) (this : nat) (c : list Z) (mb : Z)
    (z v : F) : Prop :=
  exists l n,
    layers s !! this = Some (LConv l) /\
    ma_get NDEBUG (cl_neurons l) c = Ok n /\
    arr_get (weightedInputs (cn_base n)) mb = Ok z /\
    arr_get (activations (cn_base n)) mb = Ok v.

(** A convolutional layer with one 2x1x1 kernel over the 2x2 image, then
    the softmax layer; the network with an image in slot 0, its first
    layer and what the forward pass of that layer reads. *)
Definition conv_loaded : @Store Q minstd_RandomOps :=
  value (let* s :=
           Network_new false 2 0%Q 2 2 2 2 Q_Quadratic_compute
             Q_CrossEntropy_delta demo_params
             (match ConvLayer_new 2 0%Q 2 1 1 2 2 1 1 Q_ReLU_compute
                                  Q_ReLU_deriv demo_params with
              | Some l => [LConv l]
              | None => []
              end) in
         load_image false s [1; 1 # 2; 1 # 4; 1 # 8]%Q 0)
        demo_store.
Definition conv_layer : @ConvLayer Q := value (this_Conv conv_loaded 0) demo_conv.
Definition conv_in (x y z : Z) : Q :=
  value (activation_at false conv_loaded PInput x y z 0) 0%Q.
Definition conv_weight (fm a b c : Z) : Q :=
  value (ma_get false (cl_weights conv_layer) [fm; a; b; c]) 0%Q.
Definition conv_bias (fm : Z) : Q :=
  value (ma_get false (cl_bias conv_layer) [fm]) 0%Q.
(** * Properties *)

(** ** Coordinate conversion *)

Lemma wrap_small (z : Z) : 0 <= z < UINT_MODULUS -> wrap z = z.
Proof. intros Hz. unfold wrap. apply Z.mod_small. exact Hz. Qed.

Lemma udiv_ok (a b : Z) : b <> 0 -> udiv a b = Ok (a / b).
Proof.
  intros Hb. unfold udiv. destruct (Z.eqb_spec b 0); [contradiction | reflexivity].
Qed.

Lemma umod_ok (a b : Z) : b <> 0 -> umod a b = Ok (a mod b).
Proof.
  intros Hb. unfold umod. destruct (Z.eqb_spec b 0); [contradiction | reflexivity].
Qed.

Lemma plane_fits (W H D : Z) :
  0 < W -> 0 < H -> 0 < D -> W * H * D < UINT_MODULUS ->
  0 < W * H < UINT_MODULUS.
Proof. intros HW HH HD Hfit. nia. Qed.

Lemma getIndex_exact (W H D x y z : Z) :
  0 < W -> 0 < H -> 0 < D -> W * H * D < UINT_MODULUS ->
  0 <= x < W -> 0 <= y < H -> 0 <= z < D ->
  getIndex x y z W H = W * H * z + W * y + x.
Proof.
  intros HW HH HD Hfit Hx Hy Hz.
  pose proof (plane_fits W H D HW HH HD Hfit) as Hplane.
  assert (Hidx : 0 <= W * H * z + W * y + x < W * H * D) by nia.
  unfold getIndex, uadd, umul.
  rewrite (wrap_small (W * H)) by lia.
  rewrite (wrap_small (W * H * z)) by nia.
  rewrite (wrap_small (W * y)) by nia.
  rewrite (wrap_small (W * H * z + W * y)) by nia.
  apply wrap_small. lia.
Qed.

Lemma index_decompose (W H i : Z) :
  0 < W -> 0 < H -> 0 <= i ->
  W * H * (i / (W * H)) + W * ((i / W) mod H) + i mod W = i.
Proof.
  intros HW HH Hi.
  rewrite <- Z.div_div by lia.
  pose proof (Z.div_mod i W ltac:(lia)) as E1.
  pose proof (Z.div_mod (i / W) H ltac:(lia)) as E2.
  nia.
Qed.

Lemma index_X (W H x y z : Z) :
  0 < W -> 0 <= x < W -> (W * H * z + W * y + x) mod W = x.
Proof.
  intros HW Hx.
  replace (W * H * z + W * y + x) with (x + (H * z + y) * W) by ring.
  rewrite Z.mod_add by lia. apply Z.mod_small. exact Hx.
Qed.

Lemma index_div_W (W H x y z : Z) :
  0 < W -> 0 <= x < W -> (W * H * z + W * y + x) / W = H * z + y.
Proof.
  intros HW Hx.
  replace (W * H * z + W * y + x) with (x + (H * z + y) * W) by ring.
  rewrite Z.div_add by lia. rewrite Z.div_small by exact Hx. ring.
Qed.

Lemma index_Y (W H x y z : Z) :
  0 < W -> 0 < H -> 0 <= x < W -> 0 <= y < H ->
  ((W * H * z + W * y + x) / W) mod H = y.
Proof.
  intros HW HH Hx Hy. rewrite index_div_W by assumption.
  replace (H * z + y) with (y + z * H) by ring.
  rewrite Z.mod_add by lia. apply Z.mod_small. exact Hy.
Qed.

Lemma index_Z (W H x y z : Z) :
  0 < W -> 0 < H -> 0 <= x < W -> 0 <= y < H ->
  (W * H * z + W * y + x) / (W * H) = z.
Proof.
  intros HW HH Hx Hy. rewrite <- Z.div_div by lia.
  rewrite index_div_W by assumption.
  replace (H * z + y) with (y + z * H) by ring.
  rewrite Z.div_add by lia. rewrite Z.div_small by exact Hy. ring.
Qed.

(** C9 (as amended): when the volume [W*H*D] fits in an [unsigned], the
    helpers compute [i mod W], [(i div W) mod H] and [i div (W*H)],
    [getIndex] inverts them on every flat index below [W*H*D], and they
    invert [getIndex] on every in-range coordinate triple. *)
Theorem coordinate_conversion_round_trip (W H D i x y z : Z) :
  0 < W -> 0 < H -> 0 < D -> W * H * D < UINT_MODULUS ->
  0 <= i < W * H * D ->
  0 <= x < W -> 0 <= y < H -> 0 <= z < D ->
  getX i W = Ok (i mod W) /\
  getY i W H = Ok ((i / W) mod H) /\
  getZ i W H = Ok (i / (W * H)) /\
  getIndex (i mod W) ((i / W) mod H) (i / (W * H)) W H = i /\
  getX (getIndex x y z W H) W = Ok x /\
  getY (getIndex x y z W H) W H = Ok y /\
  getZ (getIndex x y z W H) W H = Ok z.
Proof.
  intros HW HH HD Hfit Hi Hx Hy Hz.
  pose proof (plane_fits W H D HW HH HD Hfit) as Hplane.
  assert (HumulWH : umul W H = W * H) by (apply wrap_small; lia).
  assert (Hq : 0 <= i / (W * H) < D).
  { split; [apply Z.div_pos; lia |].
    apply Z.div_lt_upper_bound; [lia | nia]. }
  rewrite (getIndex_exact W H D x y z) by assumption.
  rewrite (getIndex_exact W H D) by
    (try assumption; try (apply Z.mod_pos_bound; lia)).
  unfold getX, getY, getZ. rewrite HumulWH.
  rewrite !umod_ok, !udiv_ok by lia. cbn [bind].
  rewrite !umod_ok by lia.
  rewrite index_decompose, index_X, index_Y, index_Z by lia.
  repeat split; reflexivity.
Qed.

Lemma coordinate_conversion_round_trip_witness :
  getX 1000 28 = Ok (1000 mod 28) /\
  getY 1000 28 28 = Ok ((1000 / 28) mod 28) /\
  getZ 1000 28 28 = Ok (1000 / (28 * 28)) /\
  getIndex (1000 mod 28) ((1000 / 28) mod 28) (1000 / (28 * 28)) 28 28 = 1000 /\
  getX (getIndex 5 7 2 28 28) 28 = Ok 5 /\
  getY (getIndex 5 7 2 28 28) 28 28 = Ok 7 /\
  getZ (getIndex 5 7 2 28 28) 28 28 = Ok 2.
Proof.
  apply (coordinate_conversion_round_trip 28 28 3 1000 5 7 2);
    unfold UINT_MODULUS; lia.
Defined.

(** C9 (as stated) fails once [W*H] overflows: with [W = 65536] and
    [H = 65537] the product wraps to [65536], and [getZ] of the flat index
    [131072 < W*H*D] is [2], not [131072 div (W*H) = 0]. *)
Lemma coordinate_conversion_overflow :
  let W := 65536 in let H := 65537 in let D := 1 in let i := 131072 in
  is_unsigned W /\ is_unsigned H /\ is_unsigned D /\ is_unsigned i /\
  0 < W /\ 0 < H /\ 0 < D /\ i < W * H * D /\
  getZ i W H = Ok 2 /\ i / (W * H) = 0 /\
  getZ i W H <> Ok (i / (W * H)).
Proof.
  cbv zeta. unfold is_unsigned, UINT_MODULUS.
  repeat split; try lia; try reflexivity.
  vm_compute. discriminate.
Qed.

(** ** Unsupported operations *)

(** C6 (as amended): in a build without NDEBUG, invoking an operation that
    a layer class does not support halts the process, for every such
    operation of either engine and whatever the state of the network. *)
Theorem unsupported_call_halts_without_NDEBUG
    {F : Type} {FO : FloatOps F} {RO : RandomOps F}
    (mbSize : Z) (u : F) (s : @Store F RO) (c : unsupported_call) :
  receiver_ok s c -> invoke false mbSize u s c = Fatal.
Proof.
  intros Hrecv. destruct c; cbn in Hrecv; try reflexivity.
  all: unfold invoke, Layer_getNeuron3, Layer_getBwdError1, Layer_setOutputs,
         dispatch.
  all: try (destruct (chain_fuel s); cbn [Layer_getBwdError3]).
  all: unfold deref.
  all: try match type of Hrecv with
           | ex _ => destruct Hrecv as [l Hl]; rewrite Hl
           end.
  all: reflexivity.
Qed.

Lemma unsupported_call_halts_without_NDEBUG_witness :
  invoke false 2 0%Q demo_store (SoftMax_setOutputs 1 PInput) = Fatal.
Proof.
  apply (unsupported_call_halts_without_NDEBUG 2 0%Q demo_store
           (SoftMax_setOutputs 1 PInput)).
  cbn. eexists. reflexivity.
Defined.

(** C6 (as stated) fails under NDEBUG: [UNREACHABLE()] of Network.hpp is
    then undefined behaviour, and [DO_NOT_USE] of main4.cpp is an empty
    statement after which the call returns its default value. *)
Lemma unsupported_call_with_NDEBUG :
  receiver_ok demo_store (Input_feedForward 0) /\
  invoke true 2 0%Q demo_store (Input_feedForward 0) = Undefined /\
  receiver_ok demo_store (Main4_Input_getBwdError3 0 0 0 0) /\
  invoke true 2 0%Q demo_store (Main4_Input_getBwdError3 0 0 0 0) = Ok tt /\
  Main4.InputLayer_getBwdError3 (F := Q) true 0 0 0 0 = Ok 0%Q.
Proof. repeat split. Qed.

(** ** Bounds of the bias array *)

(** The templated engine allocates one bias per feature map. *)
Lemma ConvLayer_new_bias_extent
    {F : Type} {FO : FloatOps F} (mbSize : Z) (u : F)
    (kernelX kernelY kernelZ inputX inputY inputZ numFMs : Z)
    (act deriv : F -> F) (p : Params) (l : ConvLayer) :
  ConvLayer_new mbSize u kernelX kernelY kernelZ inputX inputY inputZ numFMs
                act deriv p = Some l ->
  shape (cl_bias l) = [numFMs].
Proof.
  unfold ConvLayer_new. destruct (inputZ =? kernelZ); [| discriminate].
  intros E. injection E as <-. reflexivity.
Qed.

(** In main4.cpp no index of [bias] is in range, whatever the build. *)
Lemma Main4_bias_has_no_element
    {F : Type} {FO : FloatOps F} (NDEBUG : bool) (u : F)
    (kernelX kernelY kernelZ inputX inputY inputZ numFeatureMaps : Z)
    (l : Main4.ConvLayer) (z : Z) (v : F) :
  Main4.ConvLayer_new NDEBUG u kernelX kernelY kernelZ inputX inputY inputZ
                      numFeatureMaps = Ok l ->
  ma_set NDEBUG (Main4.cl_bias l) [z] v = if NDEBUG then Undefined else Fatal.
Proof.
  unfold Main4.ConvLayer_new. intros E.
  destruct (assert NDEBUG (inputZ =? kernelZ)); try discriminate.
  cbn in E. injection E as <-. unfold ma_set. cbn.
  unfold BOOST_ASSERT, in_bounds.
  destruct (0 <=? z) eqn:E0; destruct (z <? 0) eqn:E1; cbn;
    try (destruct NDEBUG; reflexivity).
  apply Z.leb_le in E0. apply Z.ltb_lt in E1. lia.
Qed.

(** C7: the write [bias[fm]] of convolutional weight initialisation is
    outside the bias array in main4.cpp.  The convolutional layer that
    [main] builds has one feature map and a bias array without elements,
    its constructor never giving [bias] an extent, so the write [bias[0]]
    of [initialiseDefaultWeights] is out of the array's extent: the call
    fails Boost's range check, and is undefined behaviour when the check
    is compiled out. *)
Lemma Main4_ConvLayer_bias_write_out_of_extent :
  exists l,
    main4_Conv1 false = Ok l /\ main4_Conv1 true = Ok l /\
    num_elements (Main4.cl_bias l) = 0 /\
    Main4.numFeatureMaps l = 1 /\
    ma_set false (Main4.cl_bias l) [0] 1%Q = Fatal /\
    ma_set true (Main4.cl_bias l) [0] 1%Q = Undefined /\
    outcome (Main4.ConvLayer_initialiseDefaultWeights
               false None 1700000000 (main4_inputLayer false) l) = Fatal /\
    outcome (Main4.ConvLayer_initialiseDefaultWeights
               true None 1700000000 (main4_inputLayer true) l) = Undefined.
Proof.
  eexists. split; [reflexivity |].
  repeat split; vm_compute; reflexivity.
Qed.

(** In Network.hpp, with assertions compiled out, [getNeuron(4)] of a 2x2
    input layer reads out of range. *)
Lemma InputLayer_getNeuron_unchecked_with_NDEBUG :
  outcome (InputLayer_getNeuron1 true (inputLayer demo_store) 4) = Undefined.
Proof. vm_compute. reflexivity. Qed.

(** ** Backward-error lookup of the pooling layer *)

(** Network.hpp forwards the request to the successor at the downsampled
    coordinate, through the flattened index when the successor is 1-D. *)
Lemma MaxPoolLayer_getBwdError_forwards
    {F : Type} {FO : FloatOps F} {RO : RandomOps F} (NDEBUG : bool)
    (fuel : nat) (s : @Store F RO) (this : nat) (l : MaxPoolLayer)
    (x y z mb dims : Z) :
  layers s !! this = Some (LMaxPool l) ->
  mp_poolX l <> 0 -> mp_poolY l <> 0 ->
  Layer_getNumDims s (mp_outputs l) = Ok dims ->
  Layer_getBwdError3 NDEBUG (S fuel) s (PLayer this) x y z mb =
    if dims =? 1
    then Layer_getBwdError1 NDEBUG s (mp_outputs l)
           (getIndex (x / mp_poolX l) (y / mp_poolY l) z
                     (wrap (extent (mp_neurons l) 0))
                     (wrap (extent (mp_neurons l) 1))) mb
    else Layer_getBwdError3 NDEBUG fuel s (mp_outputs l)
           (x / mp_poolX l) (y / mp_poolY l) z mb.
Proof.
  intros Hl HX HY Hdims. cbn [Layer_getBwdError3 deref]. rewrite Hl.
  cbn [bind]. unfold MaxPoolLayer_getBwdError.
  rewrite !udiv_ok by assumption. cbn [bind]. rewrite Hdims. reflexivity.
Qed.

(** main4.cpp hands a successor that is not 1-D the coordinate it was
    given, not the downsampled one. *)
Lemma Main4_MaxPoolLayer_getBwdError_3D
    {F : Type} {FO : FloatOps F} (outputs : @Main4.Layer F)
    (l : @Main4.MaxPoolLayer F) (x y z mb dims : Z) :
  Main4.poolX l <> 0 -> Main4.poolY l <> 0 ->
  Main4.getNumDims outputs = Ok dims -> dims <> 1 ->
  Main4.MaxPoolLayer_getBwdError outputs l x y z mb =
  Main4.getBwdError3 outputs x y z mb.
Proof.
  intros HX HY Hdims Hne. unfold Main4.MaxPoolLayer_getBwdError.
  rewrite !udiv_ok by assumption. cbn [bind]. rewrite Hdims. cbn [bind].
  destruct (Z.eqb_spec dims 1); [contradiction | reflexivity].
Qed.

(** C4 at the failing input: asked for the error at [(1,1,0)] of its 4x4x1
    input volume, the pooling layer of main4.cpp returns what its 3-D
    successor holds at [(1,1,0)], which is [30], and not what it holds at
    the downsampled coordinate [(0,0,0)], which is [0]; asked at [(3,3,0)]
    it queries the successor outside its 2x2x1 volume instead of at
    [(1,1,0)]. *)
Theorem Main4_MaxPoolLayer_getBwdError_not_downsampled :
  let outputs := Main4.ConvLayer_as_Layer false 0%Q main4_successor in
  Main4.getNumDims outputs = Ok 3 /\
  Main4.MaxPoolLayer_getBwdError outputs (main4_pool false) 1 1 0 0 = Ok 30%Q /\
  Main4.getBwdError3 outputs (1 / 2) (1 / 2) 0 0 = Ok 0%Q /\
  Main4.MaxPoolLayer_getBwdError outputs (main4_pool false) 3 3 0 0 = Fatal /\
  Main4.getBwdError3 outputs (3 / 2) (3 / 2) 0 0 = Ok 30%Q.
Proof. cbv zeta. repeat split; vm_compute; reflexivity. Qed.

(** ** Forward pass of the pooling layer *)

(** C1 at two failing inputs.  On the image [1, 1/2, 1/4, 1/8] the single
    output neuron of a 2x2 pooling layer ends with [1/8], the activation of
    the window element visited last, although the window holds [1]: the
    running maximum is never updated.  On the all-zero image it ends with
    [FLT_MIN], the smallest positive float, which exceeds every element of
    its window. *)
Theorem MaxPoolLayer_feedForward_is_not_the_window_maximum :
  (let* s := pool_forward [1; 1 # 2; 1 # 4; 1 # 8]%Q in
   let* output := activation_at false s (PLayer 0) 0 0 0 0 in
   let* window :=
     foldM (fun acc '(a, b) =>
              let* v := activation_at false s PInput (0 * 2 + a) (0 * 2 + b) 0 0 in
              Ok (acc ++ [v]))
           (loop2 2 2) [] in
   Ok (output, window))
  = Ok ((1 # 8)%Q, [1; 1 # 4; 1 # 2; 1 # 8]%Q) /\
  flt (1 # 8)%Q 1%Q = true /\
  (let* s := pool_forward [0; 0; 0; 0]%Q in
   let* output := activation_at false s (PLayer 0) 0 0 0 0 in
   let* window :=
     foldM (fun acc '(a, b) =>
              let* v := activation_at false s PInput (0 * 2 + a) (0 * 2 + b) 0 0 in
              Ok (acc ++ [v]))
           (loop2 2 2) [] in
   Ok (output, window))
  = Ok (FLT_MIN, [0; 0; 0; 0]%Q) /\
  flt 0%Q FLT_MIN = true.
Proof. repeat split; vm_compute; reflexivity. Qed.

(** The loop of main4.cpp behaves in the same way on the same image. *)
Lemma Main4_pooling_keeps_the_last_window_element :
  (let* image :=
     Main4.InputLayer_setImage false (Main4.InputLayer_new 0%Q 2 2)
       [1; 1 # 2; 1 # 4; 1 # 8]%Q 0 in
   let inputs := Main4.InputLayer_as_Layer false image in
   let* l := Main4.MaxPoolLayer_new false 0%Q 2 2 2 2 1 in
   let* pool := Main4.MaxPoolLayer_feedForward false inputs l 0 in
   let* n := ma_get false (Main4.mp_neurons pool) [0; 0; 0] in
   let* output := arr_get (activations n) 0 in
   let* w := Main4.getNeuron3 inputs 0 0 0 in
   let* first := arr_get (activations w) 0 in
   Ok (output, first))
  = Ok ((1 # 8)%Q, 1%Q).
Proof. vm_compute. reflexivity. Qed.

(** ** Cost of the output layer *)

(** [computeOutputCost] discards every neuron's cost: whenever it returns,
    it returns [0.0f]. *)
Lemma SoftMaxLayer_computeOutputCost_is_zero
    {F : Type} {FO : FloatOps F} (l : @SoftMaxLayer F) (label mb : Z) (c : F) :
  SoftMaxLayer_computeOutputCost l label mb = Ok c -> c = f0.
Proof.
  unfold SoftMaxLayer_computeOutputCost.
  destruct (foldM _ (sml_neurons l) tt); cbn; intros E; try discriminate.
  injection E as <-. reflexivity.
Qed.

(** C3 at the failing input: after a forward pass of a 4-2-2 network on
    slot 0, the per-sample quadratic cost for label 1 is
    [250000/1413721], and [computeOutputCost] returns [0]. *)
Theorem SoftMaxLayer_computeOutputCost_returns_zero :
  (let* s := fc_forward in
   let* l := this_SoftMax s (softMaxLayer s) in
   let* returned := SoftMaxLayer_computeOutputCost l 1 0 in
   let* claimed := claimed_outputCost l 1 0 in
   Ok (returned, claimed))
  = Ok (0%Q, (250000 # 1413721)%Q) /\
  ~ Qeq (250000 # 1413721) 0.
Proof.
  split; [vm_compute; reflexivity |]. intros E. discriminate E.
Qed.

(** main4.cpp has the same loop (main4.cpp:431-437). *)
Lemma Main4_FullyConnectedLayer_computeOutputCost_is_zero
    {F : Type} {FO : FloatOps F} (costFn : F -> F -> F)
    (neurons : list (@Main4.FullyConnectedNeuron F)) (label mb : Z) (c : F) :
  Main4.FullyConnectedLayer_computeOutputCost costFn neurons label mb = Ok c ->
  c = f0.
Proof.
  unfold Main4.FullyConnectedLayer_computeOutputCost.
  destruct (foldM _ neurons tt); cbn; intros E; try discriminate.
  injection E as <-. reflexivity.
Qed.

(** ** Validation of the declared input size *)

(** [FullyConnectedLayer::setInputs] accepts every predecessor. *)
Lemma FullyConnectedLayer_setInputs_accepts
    {F : Type} {FO : FloatOps F} {RO : RandomOps F}
    (s : @Store F RO) (this : nat) (l : FullyConnectedLayer) (layer : ptr) :
  layers s !! this = Some (LFullyConnected l) ->
  exists s', FullyConnectedLayer_setInputs s this layer = Ok s'.
Proof.
  intros Hl. unfold FullyConnectedLayer_setInputs, this_FullyConnected.
  rewrite Hl. cbn. eexists. reflexivity.
Qed.

(** C5: construction does not check the declared input size of a
    fully-connected layer.  A network whose first layer is a
    [FullyConnectedLayer] declaring [prevSize = 3] is built on the 2x2
    input layer of four neurons: construction completes, with assertions
    compiled in and with assertions compiled out, and leaves the layer
    wired to a predecessor of [size() = 4] with a backward-error buffer of
    three columns.  [ConvLayer::setInputs] and [MaxPoolLayer::setInputs]
    compare the two sizes; [FullyConnectedLayer::setInputs] does not. *)
Lemma Network_new_accepts_a_mismatched_FullyConnectedLayer :
  (let* s := fc_network false 3 in
   let* l := this_FullyConnected s 0 in
   let* size := Layer_size s (fcl_inputs l) in
   Ok (fcl_inputs l, size, shape (fcl_bwdErrors l)))
  = Ok (PInput, 4, [2; 3]) /\
  outcome (fc_network true 3) = Ok tt.
Proof. repeat split; vm_compute; reflexivity. Qed.

(** A convolutional layer declaring a 3x3x1 volume on the same input layer
    is accepted when assertions are compiled out. *)
Lemma Network_new_accepts_a_mismatched_ConvLayer_with_NDEBUG :
  outcome (conv_network true) = Ok tt.
Proof. vm_compute. reflexivity. Qed.

(** The same convolutional layer stops construction when assertions are
    compiled in. *)
Lemma Network_new_rejects_a_mismatched_ConvLayer :
  outcome (conv_network false) = Fatal.
Proof. vm_compute. reflexivity. Qed.

(** ** Loops and arrays *)

Lemma foldM_app {A S : Type} (body : S -> A -> result S) (l1 l2 : list A)
    (s : S) :
  foldM body (l1 ++ l2) s = bind (foldM body l1 s) (foldM body l2).
Proof.
  revert s. induction l1 as [| x l1 IH]; intros s; cbn; [reflexivity |].
  destruct (body s x); cbn; auto.
Qed.

Lemma foldM_pure {A S : Type} (body : S -> A -> result S) (g : S -> A -> S)
    (l : list A) (s : S) :
  (forall acc x, In x l -> body acc x = Ok (g acc x)) ->
  foldM body l s = Ok (fold_left g l s).
Proof.
  revert s. induction l as [| x l IH]; intros s Hbody; cbn; [reflexivity |].
  rewrite Hbody by (left; reflexivity). cbn.
  apply IH. intros acc y Hy. apply Hbody. right. exact Hy.
Qed.

(** A loop keeps what every iteration keeps. *)
Lemma foldM_invariant {A S : Type} (P : S -> Prop)
    (body : S -> A -> result S) (l : list A) (s s' : S) :
  (forall s x s', P s -> body s x = Ok s' -> P s') ->
  P s -> foldM body l s = Ok s' -> P s'.
Proof.
  intros Hbody. revert s. induction l as [| x l IH]; intros s HP; cbn.
  - intros E. injection E as <-. exact HP.
  - destruct (body s x) as [s1 | | |] eqn:E1; cbn; try discriminate.
    apply IH. eapply Hbody; eassumption.
Qed.

Lemma urange_succ (n : Z) : 0 <= n -> urange (n + 1) = urange n ++ [n].
Proof.
  intros Hn. unfold urange.
  replace (Z.to_nat (n + 1)) with (S (Z.to_nat n)) by lia.
  rewrite seq_S, map_app. cbn. f_equal. f_equal. lia.
Qed.

Lemma urange_nonpos (n : Z) : n <= 0 -> urange n = [].
Proof.
  intros Hn. unfold urange. replace (Z.to_nat n) with 0%nat by lia. reflexivity.
Qed.

Lemma in_urange (n x : Z) : In x (urange n) <-> 0 <= x < n.
Proof.
  unfold urange. rewrite in_map_iff. split.
  - intros (k & <- & Hk). apply in_seq in Hk. lia.
  - intros Hx. exists (Z.to_nat x). split; [lia |]. apply in_seq. lia.
Qed.

Lemma fold_left_fadd_map {F : Type} {FO : FloatOps F} {A : Type}
    (f : A -> F) (l : list A) (acc : F) :
  fold_left (fun acc x => fadd acc (f x)) l acc = fold_left fadd (map f l) acc.
Proof.
  revert acc. induction l as [| x l IH]; intros acc; cbn; [reflexivity |].
  apply IH.
Qed.

Lemma in_bounds_spec (i n : Z) : in_bounds i n = true <-> 0 <= i < n.
Proof. unfold in_bounds. rewrite andb_true_iff, Z.leb_le, Z.ltb_lt. tauto. Qed.

Lemma in_bounds_false (i n : Z) : in_bounds i n = false <-> ~ 0 <= i < n.
Proof.
  rewrite <- in_bounds_spec. destruct (in_bounds i n); split; congruence.
Qed.

Lemma arr_get_Ok {T : Type} (a : list T) (i : Z) (v : T) :
  arr_get a i = Ok v <->
  in_bounds i (Z.of_nat (length a)) = true /\ a !! Z.to_nat i = Some v.
Proof.
  unfold arr_get. destruct (in_bounds i (Z.of_nat (length a))).
  - destruct (a !! Z.to_nat i) as [x |]; split.
    + intros E. injection E as <-. auto.
    + intros [_ E]. injection E as <-. reflexivity.
    + discriminate.
    + intros [_ E]. discriminate.
  - split; [discriminate | intros [E _]; discriminate].
Qed.

Lemma arr_set_Ok {T : Type} (a a' : list T) (i : Z) (v : T) :
  arr_set a i v = Ok a' <->
  in_bounds i (Z.of_nat (length a)) = true /\ a' = <[Z.to_nat i := v]> a.
Proof.
  unfold arr_set. destruct (in_bounds i (Z.of_nat (length a))); split.
  - intros E. injection E as <-. auto.
  - intros [_ ->]. reflexivity.
  - discriminate.
  - intros [E _]. discriminate.
Qed.

Lemma arr_set_in_bounds {T : Type} (a : list T) (i : Z) (v : T) :
  in_bounds i (Z.of_nat (length a)) = true ->
  arr_set a i v = Ok (<[Z.to_nat i := v]> a).
Proof. intros Hi. unfold arr_set. rewrite Hi. reflexivity. Qed.

Lemma arr_get_insert {T : Type} (a : list T) (i i' : Z) (v : T) :
  in_bounds i (Z.of_nat (length a)) = true ->
  arr_get (<[Z.to_nat i := v]> a) i' =
  if i' =? i then Ok v else arr_get a i'.
Proof.
  intros Hi. pose proof (proj1 (in_bounds_spec _ _) Hi) as Hr.
  unfold arr_get. rewrite length_insert.
  destruct (Z.eqb_spec i' i) as [-> | Hne].
  - rewrite Hi. rewrite list_lookup_insert_eq by lia. reflexivity.
  - destruct (in_bounds i' (Z.of_nat (length a))) eqn:Hi'; [| reflexivity].
    apply in_bounds_spec in Hi'.
    rewrite list_lookup_insert_ne by lia. reflexivity.
Qed.

(** ** Gradient step of a fully-connected neuron *)

Section EndBatchLoops.

Context {F : Type} {FO : FloatOps F}.

(** What the loops read: the predecessor's activations [a i j] through
    [input], the neuron's errors [e j], its weights [w i] before the call. *)
Variable input : Z -> Z -> result F.
Variable errors : list F.
Variable rate reg : F.
Variable mbSize size : Z.
Variable a : Z -> Z -> F.
Variable e : Z -> F.
Variable w : Z -> F.

Hypothesis input_reads :
  forall i j, 0 <= i < size -> 0 <= j < mbSize -> input i j = Ok (a i j).
Hypothesis error_reads :
  forall j, 0 <= j < mbSize -> arr_get errors j = Ok (e j).

(** The value the update rule gives weight [i]. *)
Definition updated_weight (i : Z) : F :=
  fsub (fmul reg (w i))
       (fmul rate (fsum (map (fun j => fmul (a i j) (e j)) (urange mbSize)))).

(** One turn of the loop over the weights. *)
Definition weight_step (ws : list F) (i : Z) : result (list F) :=
  let* weightDelta :=
    foldM (fun delta j =>
             let* x := input i j in
             let* y := arr_get errors j in
             Ok (fadd delta (fmul x y)))
          (urange mbSize) f0 in
  let weightDelta := fmul weightDelta rate in
  let* wi := arr_get ws i in
  let* ws := arr_set ws i (fmul wi reg) in
  let* wi := arr_get ws i in
  arr_set ws i (fsub wi weightDelta).

Lemma weightDelta_sum (i : Z) :
  0 <= i < size ->
  foldM (fun delta j =>
           let* x := input i j in
           let* y := arr_get errors j in
           Ok (fadd delta (fmul x y)))
        (urange mbSize) f0 =
  Ok (fsum (map (fun j => fmul (a i j) (e j)) (urange mbSize))).
Proof.
  intros Hi. unfold fsum. rewrite <- fold_left_fadd_map.
  apply foldM_pure. intros acc j Hj. apply in_urange in Hj.
  rewrite input_reads by assumption. cbn [bind].
  rewrite error_reads by assumption. reflexivity.
Qed.

Lemma endBatch_bias_update (bias : F) :
  endBatch_bias errors rate mbSize bias =
  Ok (fsub bias (fmul rate (fsum (map e (urange mbSize))))).
Proof.
  unfold endBatch_bias.
  replace (foldM _ (urange mbSize) f0) with (Ok (fsum (map e (urange mbSize)))).
  - cbn [bind]. rewrite (fmul_comm rate). reflexivity.
  - symmetry. unfold fsum. rewrite <- fold_left_fadd_map.
    apply foldM_pure. intros acc j Hj. apply in_urange in Hj.
    rewrite error_reads by assumption. reflexivity.
Qed.

Lemma weight_step_spec (ws : list F) (i : Z) :
  0 <= i < size ->
  arr_get ws i = Ok (w i) ->
  exists ws',
    weight_step ws i = Ok ws' /\
    length ws' = length ws /\
    forall i', arr_get ws' i' =
               if i' =? i then Ok (updated_weight i) else arr_get ws i'.
Proof.
  intros Hi Hget. unfold weight_step.
  rewrite weightDelta_sum by assumption. cbn [bind].
  rewrite Hget. cbn [bind].
  apply arr_get_Ok in Hget. destruct Hget as [Hb _].
  rewrite (arr_set_in_bounds ws) by assumption. cbn [bind].
  rewrite arr_get_insert by assumption. rewrite Z.eqb_refl. cbn [bind].
  rewrite arr_set_in_bounds by (rewrite length_insert; assumption).
  eexists. split; [reflexivity |].
  split; [rewrite !length_insert; reflexivity |].
  intros i'. rewrite list_insert_insert_eq.
  rewrite arr_get_insert by assumption.
  destruct (i' =? i); [| reflexivity].
  unfold updated_weight. rewrite (fmul_comm reg), (fmul_comm rate). reflexivity.
Qed.

Lemma weight_loop_spec (ws0 : list F) (k : nat) :
  Z.of_nat k <= size ->
  (forall i, 0 <= i < size -> arr_get ws0 i = Ok (w i)) ->
  exists ws,
    foldM weight_step (urange (Z.of_nat k)) ws0 = Ok ws /\
    length ws = length ws0 /\
    forall i, arr_get ws i =
              if in_bounds i (Z.of_nat k) then Ok (updated_weight i)
              else arr_get ws0 i.
Proof.
  intros Hk Hw. induction k as [| k IH].
  - exists ws0. cbn [Z.of_nat urange Z.to_nat seq map foldM].
    split; [reflexivity |]. split; [reflexivity |].
    intros i. rewrite (proj2 (in_bounds_false _ _)) by lia. reflexivity.
  - destruct IH as (ws & Hfold & Hlen & Hws); [lia |].
    replace (Z.of_nat (S k)) with (Z.of_nat k + 1) by lia.
    rewrite urange_succ by lia. rewrite foldM_app, Hfold. cbn [bind foldM].
    destruct (weight_step_spec ws (Z.of_nat k)) as (ws' & Hstep & Hlen' & Hws').
    + lia.
    + rewrite Hws. rewrite (proj2 (in_bounds_false _ _)) by lia.
      apply Hw. lia.
    + exists ws'. rewrite Hstep. cbn [bind]. split; [reflexivity |].
      split; [congruence |].
      intros i. rewrite Hws', Hws.
      destruct (Z.eqb_spec i (Z.of_nat k)) as [-> | Hne].
      * rewrite (proj2 (in_bounds_spec _ _)) by lia. reflexivity.
      * destruct (in_bounds i (Z.of_nat k)) eqn:E.
        -- apply in_bounds_spec in E.
           rewrite (proj2 (in_bounds_spec _ _)) by lia. reflexivity.
        -- apply in_bounds_false in E.
           rewrite (proj2 (in_bounds_false _ _)) by lia. reflexivity.
Qed.

(** The loop over the weights returns, with the updated value in every
    weight below [size] and the other weights as they were. *)
Lemma endBatch_weights_update (ws0 : list F) :
  (forall i, 0 <= i < size -> arr_get ws0 i = Ok (w i)) ->
  exists ws,
    endBatch_weights input errors rate reg mbSize size ws0 = Ok ws /\
    (forall i, 0 <= i < size -> arr_get ws i = Ok (updated_weight i)) /\
    (forall i, size <= i -> arr_get ws i = arr_get ws0 i).
Proof.
  intros Hw.
  change (endBatch_weights input errors rate reg mbSize size ws0)
    with (foldM weight_step (urange size) ws0).
  destruct (Z.le_gt_cases 0 size) as [Hsize | Hsize].
  - destruct (weight_loop_spec ws0 (Z.to_nat size)) as (ws & Hfold & Hlen & Hws);
      [lia | exact Hw |].
    rewrite Z2Nat.id in Hfold, Hws by lia.
    exists ws. split; [exact Hfold |]. split.
    + intros i Hi. rewrite Hws.
      rewrite (proj2 (in_bounds_spec _ _)) by lia. reflexivity.
    + intros i Hi. rewrite Hws.
      rewrite (proj2 (in_bounds_false _ _)) by lia. reflexivity.
  - rewrite (urange_nonpos size) by lia. exists ws0. cbn [foldM].
    split; [reflexivity |]. split; [intros i Hi; lia | reflexivity].
Qed.

End EndBatchLoops.

(** C2: when the reads it makes are in range, [endBatch] returns, and it
    leaves in weight [i] the decayed weight
    [(1 - learningRate*(lambda/numTrainingImages)) * w i] minus
    [(learningRate/mbSize)] times the sum over the slots [j] of
    [a i j * e j], where [a i j] is the predecessor's activation of input
    [i] at slot [j] and [e j] this neuron's error at slot [j]; it leaves in
    the bias the old bias minus [(learningRate/mbSize)] times the sum of
    the errors, without decay; the scratch arrays and the weights beyond
    the inputs are as before. *)
Theorem FullyConnectedNeuron_endBatch_update
    {F : Type} {FO : FloatOps F} {RO : RandomOps F} (NDEBUG : bool)
    (mbSize : Z) (s : @Store F RO) (n : FullyConnectedNeuron)
    (numTrainingImages size : Z) (a : Z -> Z -> F) (e w : Z -> F) :
  Layer_size s (fcn_inputs n) = Ok size ->
  (forall i j, 0 <= i < size -> 0 <= j < mbSize ->
     input_activation NDEBUG s (fcn_inputs n) i j = Ok (a i j)) ->
  (forall j, 0 <= j < mbSize -> arr_get (errors (fcn_base n)) j = Ok (e j)) ->
  (forall i, 0 <= i < size -> arr_get (weights n) i = Ok (w i)) ->
  exists n',
    FullyConnectedNeuron_endBatch NDEBUG mbSize s n numTrainingImages = Ok n' /\
    (forall i, 0 <= i < size ->
       arr_get (weights n') i =
       Ok (fsub (fmul (fsub f1
                         (fmul (fcn_learningRate n)
                               (fdiv (fcn_lambda n)
                                     (of_unsigned numTrainingImages))))
                      (w i))
                (fmul (fdiv (fcn_learningRate n) (of_unsigned mbSize))
                   (fsum (map (fun j => fmul (a i j) (e j)) (urange mbSize)))))) /\
    (forall i, size <= i -> arr_get (weights n') i = arr_get (weights n) i) /\
    bias n' = fsub (bias n)
                   (fmul (fdiv (fcn_learningRate n) (of_unsigned mbSize))
                         (fsum (map e (urange mbSize)))) /\
    fcn_base n' = fcn_base n.
Proof.
  intros Hsize Ha He Hw.
  set (rate := batchRate mbSize (fcn_learningRate n)).
  set (reg := regularisation (fcn_learningRate n) (fcn_lambda n)
                             numTrainingImages).
  unfold FullyConnectedNeuron_endBatch. rewrite Hsize. cbn [bind].
  destruct (endBatch_weights_update
              (fun i j => input_activation NDEBUG s (fcn_inputs n) i j)
              (errors (fcn_base n)) rate reg mbSize size a e w Ha He
              (weights n) Hw) as (ws & Hws & Hlow & Hhigh).
  unfold input_activation in Hws. fold rate. fold reg. rewrite Hws. cbn [bind].
  rewrite (endBatch_bias_update (errors (fcn_base n)) rate mbSize e He).
  cbn [bind]. eexists. split; [reflexivity |]. cbn.
  split; [exact Hlow |]. split; [exact Hhigh |]. split; reflexivity.
Qed.

Lemma FullyConnectedNeuron_endBatch_update_witness :
  exists n',
    FullyConnectedNeuron_endBatch false 2 fc_trained fc_neuron 100 = Ok n' /\
    (forall i, 0 <= i < 4 ->
       arr_get (weights n') i =
       Ok (fsub (fmul (fsub f1
                         (fmul (fcn_learningRate fc_neuron)
                               (fdiv (fcn_lambda fc_neuron) (of_unsigned 100))))
                      (fc_w i))
                (fmul (fdiv (fcn_learningRate fc_neuron) (of_unsigned 2))
                   (fsum (map (fun j => fmul (fc_a i j) (fc_e j)) (urange 2)))))) /\
    (forall i, 4 <= i -> arr_get (weights n') i = arr_get (weights fc_neuron) i) /\
    bias n' = fsub (bias fc_neuron)
                   (fmul (fdiv (fcn_learningRate fc_neuron) (of_unsigned 2))
                         (fsum (map fc_e (urange 2)))) /\
    fcn_base n' = fcn_base fc_neuron.
Proof.
  apply (FullyConnectedNeuron_endBatch_update
           false 2 fc_trained fc_neuron 100 4 fc_a fc_e fc_w).
  - vm_compute. reflexivity.
  - intros i j Hi Hj.
    assert (Ei : i = 0 \/ i = 1 \/ i = 2 \/ i = 3) by lia.
    assert (Ej : j = 0 \/ j = 1) by lia.
    destruct Ei as [-> | [-> | [-> | ->]]]; destruct Ej as [-> | ->];
      vm_compute; reflexivity.
  - intros j Hj.
    assert (Ej : j = 0 \/ j = 1) by lia.
    destruct Ej as [-> | ->]; vm_compute; reflexivity.
  - intros i Hi.
    assert (Ei : i = 0 \/ i = 1 \/ i = 2 \/ i = 3) by lia.
    destruct Ei as [-> | [-> | [-> | ->]]]; vm_compute; reflexivity.
Defined.

(** The neuron of main4.cpp makes the same update, with the global
    constants [learningRate = 1.0f], [lambda = 5.0f] and [mbSize = 10]. *)
Lemma Main4_endBatch_update
    {F : Type} {FO : FloatOps F} (inputs : @Main4.Layer F)
    (n : Main4.FullyConnectedNeuron) (numTrainingImages size : Z)
    (a : Z -> Z -> F) (e w : Z -> F) :
  Main4.size inputs = Ok size ->
  (forall i j, 0 <= i < size -> 0 <= j < Main4.mbSize ->
     (let* input := Main4.getNeuron1 inputs i in arr_get (activations input) j)
     = Ok (a i j)) ->
  (forall j, 0 <= j < Main4.mbSize ->
     arr_get (errors (Main4.fcn_base n)) j = Ok (e j)) ->
  (forall i, 0 <= i < size -> arr_get (Main4.weights n) i = Ok (w i)) ->
  exists n',
    Main4.FullyConnectedNeuron_endBatch inputs n numTrainingImages = Ok n' /\
    (forall i, 0 <= i < size ->
       arr_get (Main4.weights n') i =
       Ok (fsub (fmul (fsub f1
                         (fmul Main4.learningRate
                               (fdiv Main4.lambda
                                     (of_unsigned numTrainingImages))))
                      (w i))
                (fmul (fdiv Main4.learningRate (of_unsigned Main4.mbSize))
                   (fsum (map (fun j => fmul (a i j) (e j))
                              (urange Main4.mbSize)))))) /\
    Main4.bias n' =
    fsub (Main4.bias n)
         (fmul (fdiv Main4.learningRate (of_unsigned Main4.mbSize))
               (fsum (map e (urange Main4.mbSize)))).
Proof.
  intros Hsize Ha He Hw.
  set (rate := batchRate Main4.mbSize Main4.learningRate).
  set (reg := regularisation Main4.learningRate Main4.lambda numTrainingImages).
  unfold Main4.FullyConnectedNeuron_endBatch. rewrite Hsize. cbn [bind].
  destruct (endBatch_weights_update _ (errors (Main4.fcn_base n)) rate reg
              Main4.mbSize size a e w Ha He (Main4.weights n) Hw)
    as (ws & Hws & Hlow & _).
  fold rate. fold reg. rewrite Hws. cbn [bind].
  rewrite (endBatch_bias_update (errors (Main4.fcn_base n)) rate Main4.mbSize
                                e He).
  cbn [bind]. eexists. split; [reflexivity |]. cbn. split; [exact Hlow |].
  reflexivity.
Qed.

(** ** The frame of a backward pass *)

Lemma bind_Ok {A B : Type} (m : result A) (k : A -> result B) (r : B) :
  bind m k = Ok r -> exists a, m = Ok a /\ k a = Ok r.
Proof. destruct m; cbn; intros E; try discriminate. eauto. Qed.

(** Splits a hypothesis [let* x := e in k = Ok r] into its steps. *)
Ltac bind_inv H :=
  cbv beta iota in H;
  repeat match type of H with
         | bind ?m ?k = Ok _ =>
             let a := fresh "v" in
             let E := fresh "E" in
             apply bind_Ok in H; destruct H as (a & E & H)
         end.

Lemma map_insert_same {A B : Type} (f : A -> B) (l : list A) (k : nat)
    (x y : A) :
  l !! k = Some x -> f y = f x -> map f (<[k := y]> l) = map f l.
Proof.
  revert k. induction l as [| a l IH]; intros k Hk Hf; [reflexivity |].
  destruct k as [| k]; cbn in *.
  - injection Hk as ->. rewrite Hf. reflexivity.
  - f_equal. apply IH; assumption.
Qed.

Lemma imap_insert_same {A B : Type} (f : nat -> A -> B) (l : list A)
    (k : nat) (y : A) (c : B) :
  (forall v, f k v = c) -> imap f (<[k := y]> l) = imap f l.
Proof.
  intros Hf. apply list_eq. intros i. rewrite !list_lookup_imap.
  destruct (Nat.eq_dec i k) as [-> | Hne].
  - destruct (l !! k) as [x |] eqn:Hx.
    + rewrite list_lookup_insert_eq by (eapply lookup_lt_Some; eassumption).
      cbn. rewrite !Hf. reflexivity.
    + rewrite list_insert_ge by (apply lookup_ge_None; assumption).
      rewrite Hx. reflexivity.
  - rewrite list_lookup_insert_ne by congruence. reflexivity.
Qed.

Section Frame.

Context {F : Type} {FO : FloatOps F} {RO : RandomOps F}.
Variable NDEBUG : bool.
Variable mb : Z.

Lemma UNREACHABLE_not_Ok {A : Type} (a : A) : UNREACHABLE NDEBUG <> Ok a.
Proof. unfold UNREACHABLE. destruct NDEBUG; discriminate. Qed.

Lemma BOOST_ASSERT_Ok (c : bool) : BOOST_ASSERT NDEBUG c = Ok tt -> c = true.
Proof. unfold BOOST_ASSERT. destruct c, NDEBUG; congruence. Qed.

(** *** Scratch arrays *)

Lemma erase_arr_set (a a' : list F) (v : F) :
  arr_set a mb v = Ok a' -> erase_arr mb a' = erase_arr mb a.
Proof.
  intros E. apply arr_set_Ok in E. destruct E as [Hb ->].
  apply in_bounds_spec in Hb. unfold erase_arr.
  destruct (Z.leb_spec 0 mb); [| lia].
  apply list_insert_insert_eq.
Qed.

Lemma erase_set_weightedInput (n n' : @Neuron F) (v : F) :
  set_weightedInput n mb v = Ok n' -> erase_neuron mb n' = erase_neuron mb n.
Proof.
  unfold set_weightedInput. intros E. bind_inv E. injection E as <-.
  unfold erase_neuron. cbn. rewrite (erase_arr_set _ _ _ E0). reflexivity.
Qed.

Lemma erase_set_activation (n n' : @Neuron F) (v : F) :
  set_activation n mb v = Ok n' -> erase_neuron mb n' = erase_neuron mb n.
Proof.
  unfold set_activation. intros E. bind_inv E. injection E as <-.
  unfold erase_neuron. cbn. rewrite (erase_arr_set _ _ _ E0). reflexivity.
Qed.

Lemma erase_set_error (n n' : @Neuron F) (v : F) :
  set_error n mb v = Ok n' -> erase_neuron mb n' = erase_neuron mb n.
Proof.
  unfold set_error. intros E. bind_inv E. injection E as <-.
  unfold erase_neuron. cbn. rewrite (erase_arr_set _ _ _ E0). reflexivity.
Qed.

(** *** Multi-dimensional arrays *)

Lemma ma_offset_range (exts idxs : list Z) (acc off : Z) :
  ma_offset NDEBUG exts idxs acc = Ok off ->
  0 < fold_right Z.mul 1 exts /\
  acc * fold_right Z.mul 1 exts <= off < (acc + 1) * fold_right Z.mul 1 exts.
Proof.
  revert idxs acc. induction exts as [| e exts IH]; intros idxs acc E.
  - destruct idxs; cbn in E; [| discriminate]. injection E as <-. cbn. lia.
  - destruct idxs as [| i idxs]; cbn in E; [discriminate |].
    bind_inv E. destruct v. apply BOOST_ASSERT_Ok, in_bounds_spec in E0.
    apply IH in E. cbn [fold_right]. nia.
Qed.

Lemma ma_set_elements {T : Type} (a a' : multi_array T) (idxs : list Z) (v : T) :
  ma_set NDEBUG a idxs v = Ok a' ->
  exists off,
    ma_offset NDEBUG (shape a) idxs 0 = Ok off /\
    in_bounds off (Z.of_nat (length (elements a))) = true /\
    a' = mkArray (shape a) (<[Z.to_nat off := v]> (elements a)).
Proof.
  unfold ma_set. intros E. bind_inv E. injection E as <-.
  apply arr_set_Ok in E1. destruct E1 as [Hb ->]. eauto.
Qed.

Lemma ma_get_elements {T : Type} (a : multi_array T) (idxs : list Z) (v : T) :
  ma_get NDEBUG a idxs = Ok v ->
  exists off,
    ma_offset NDEBUG (shape a) idxs 0 = Ok off /\
    elements a !! Z.to_nat off = Some v.
Proof.
  unfold ma_get. intros E. bind_inv E. apply arr_get_Ok in E. destruct E. eauto.
Qed.

(** Writing back an element that erases like the one read. *)
Lemma ma_map_set_same {A B : Type} (f : A -> B) (a a' : multi_array A)
    (idxs : list Z) (x y : A) :
  ma_get NDEBUG a idxs = Ok x -> ma_set NDEBUG a idxs y = Ok a' ->
  f y = f x -> ma_map f a' = ma_map f a.
Proof.
  intros Hget Hset Hf.
  apply ma_get_elements in Hget. destruct Hget as (off & Hoff & Hx).
  apply ma_set_elements in Hset. destruct Hset as (off' & Hoff' & _ & ->).
  assert (off' = off) by congruence. subst off'.
  unfold ma_map. cbn. f_equal. eapply map_insert_same; eassumption.
Qed.

(** A write into row [mb] of a backward-error buffer. *)
Lemma erase_rows_set (b b' : multi_array F) (idxs : list Z) (v : F) :
  ma_set NDEBUG b (mb :: idxs) v = Ok b' -> erase_rows mb b' = erase_rows mb b.
Proof.
  intros E. apply ma_set_elements in E. destruct E as (off & Hoff & Hb & ->).
  unfold erase_rows. cbn [shape elements]. f_equal.
  destruct (shape b) as [| e exts]; [discriminate |].
  cbn [ma_offset] in Hoff. bind_inv Hoff. destruct v0.
  apply BOOST_ASSERT_Ok, in_bounds_spec in E.
  apply ma_offset_range in Hoff. apply in_bounds_spec in Hb.
  apply imap_insert_same with (c := f0). intros x.
  unfold row_size. cbn [tail].
  replace (Z.of_nat (Z.to_nat off) / fold_right Z.mul 1 exts) with mb.
  - rewrite Z.eqb_refl. reflexivity.
  - rewrite Z2Nat.id by lia.
    apply Z.div_unique with (r := off - mb * fold_right Z.mul 1 exts);
      [left; nia | nia].
Qed.

(** *** Neurons *)

Ltac erase_steps :=
  repeat match goal with
         | H : set_weightedInput _ _ _ = Ok _ |- _ =>
             apply erase_set_weightedInput in H
         | H : set_activation _ _ _ = Ok _ |- _ =>
             apply erase_set_activation in H
         | H : set_error _ _ _ = Ok _ |- _ => apply erase_set_error in H
         end.

Lemma erase_FullyConnectedNeuron_feedForward (act : F -> F) (s : @Store F RO)
    (n n' : FullyConnectedNeuron) :
  FullyConnectedNeuron_feedForward NDEBUG act s n mb = Ok n' ->
  erase_fcn mb n' = erase_fcn mb n.
Proof.
  unfold FullyConnectedNeuron_feedForward. intros E. bind_inv E.
  injection E as <-. erase_steps. unfold erase_fcn, fcn_with_base. cbn.
  congruence.
Qed.

Lemma erase_FullyConnectedNeuron_backPropogate (deriv : F -> F)
    (s : @Store F RO) (n n' : FullyConnectedNeuron) :
  FullyConnectedNeuron_backPropogate NDEBUG deriv s n mb = Ok n' ->
  erase_fcn mb n' = erase_fcn mb n.
Proof.
  unfold FullyConnectedNeuron_backPropogate. intros E. bind_inv E.
  injection E as <-. erase_steps. unfold erase_fcn, fcn_with_base. cbn.
  congruence.
Qed.

Lemma erase_SoftMaxNeuron_feedForward (s : @Store F RO)
    (n n' : FullyConnectedNeuron) :
  SoftMaxNeuron_feedForward NDEBUG s n mb = Ok n' ->
  erase_fcn mb n' = erase_fcn mb n.
Proof.
  unfold SoftMaxNeuron_feedForward. intros E. bind_inv E.
  injection E as <-. erase_steps. unfold erase_fcn, fcn_with_base. cbn.
  congruence.
Qed.

Lemma erase_SoftMaxNeuron_computeOutputError (delta : F -> F -> F -> F)
    (n n' : FullyConnectedNeuron) (label : Z) :
  SoftMaxNeuron_computeOutputError delta n label mb = Ok n' ->
  erase_fcn mb n' = erase_fcn mb n.
Proof.
  unfold SoftMaxNeuron_computeOutputError. intros E. bind_inv E.
  injection E as <-. erase_steps. unfold erase_fcn, fcn_with_base. cbn.
  congruence.
Qed.

Lemma erase_ConvNeuron_feedForward (act : F -> F) (s : @Store F RO)
    (n n' : ConvNeuron) (weights bias : multi_array F) :
  ConvNeuron_feedForward NDEBUG act s n weights bias mb = Ok n' ->
  erase_cn mb n' = erase_cn mb n.
Proof.
  unfold ConvNeuron_feedForward. intros E. bind_inv E.
  injection E as <-. erase_steps. unfold erase_cn, cn_with_base. cbn.
  congruence.
Qed.

Lemma erase_ConvNeuron_backPropogate (deriv : F -> F) (s : @Store F RO)
    (n n' : ConvNeuron) :
  ConvNeuron_backPropogate NDEBUG deriv s n mb = Ok n' ->
  erase_cn mb n' = erase_cn mb n.
Proof.
  unfold ConvNeuron_backPropogate. intros E. bind_inv E.
  injection E as <-. erase_steps. unfold erase_cn, cn_with_base. cbn.
  congruence.
Qed.

(** *** Layers *)

Lemma this_FullyConnected_Ok (s : @Store F RO) (this : nat) l :
  this_FullyConnected s this = Ok l ->
  layers s !! this = Some (LFullyConnected l).
Proof.
  unfold this_FullyConnected.
  destruct (layers s !! this) as [[] |]; intros E; try discriminate.
  injection E as ->. reflexivity.
Qed.

Lemma this_SoftMax_Ok (s : @Store F RO) (this : nat) l :
  this_SoftMax s this = Ok l -> layers s !! this = Some (LSoftMax l).
Proof.
  unfold this_SoftMax.
  destruct (layers s !! this) as [[] |]; intros E; try discriminate.
  injection E as ->. reflexivity.
Qed.

Lemma this_Conv_Ok (s : @Store F RO) (this : nat) l :
  this_Conv s this = Ok l -> layers s !! this = Some (LConv l).
Proof.
  unfold this_Conv.
  destruct (layers s !! this) as [[] |]; intros E; try discriminate.
  injection E as ->. reflexivity.
Qed.

Lemma this_MaxPool_Ok (s : @Store F RO) (this : nat) l :
  this_MaxPool s this = Ok l -> layers s !! this = Some (LMaxPool l).
Proof.
  unfold this_MaxPool.
  destruct (layers s !! this) as [[] |]; intros E; try discriminate.
  injection E as ->. reflexivity.
Qed.

Lemma erase_put_layer (s : @Store F RO) (this : nat) (l l' : Layer) :
  layers s !! this = Some l ->
  erase_layer mb l' = erase_layer mb l ->
  erase_slot mb (put_layer s this l') = erase_slot mb s.
Proof.
  intros Hl Hsame. unfold erase_slot, put_layer, with_layers. cbn. f_equal.
  eapply map_insert_same; eassumption.
Qed.

Lemma vector_element {T : Type} (l : list T) (k : nat) (x : T) :
  arr_get l (Z.of_nat k) = Ok x -> l !! k = Some x.
Proof.
  intros E. apply arr_get_Ok in E. destruct E as [_ E].
  rewrite Nat2Z.id in E. exact E.
Qed.

Lemma erase_FullyConnectedLayer_for_each method (s s' : @Store F RO)
    (this : nat) :
  (forall l s n n', method l s n = Ok n' -> erase_fcn mb n' = erase_fcn mb n) ->
  FullyConnectedLayer_for_each method s this = Ok s' ->
  erase_slot mb s' = erase_slot mb s.
Proof.
  unfold FullyConnectedLayer_for_each. intros Hm E. bind_inv E.
  eapply (foldM_invariant (fun s1 => erase_slot mb s1 = erase_slot mb s));
    [| reflexivity | exact E].
  intros s1 k s2 HP Hb. bind_inv Hb. injection Hb as <-. rewrite <- HP.
  eapply erase_put_layer; [eapply this_FullyConnected_Ok; eassumption |].
  cbn. f_equal. f_equal.
  eapply map_insert_same; [eapply vector_element | eapply Hm]; eassumption.
Qed.

Lemma erase_SoftMaxLayer_for_each method (s s' : @Store F RO) (this : nat) :
  (forall l s n n', method l s n = Ok n' -> erase_fcn mb n' = erase_fcn mb n) ->
  SoftMaxLayer_for_each method s this = Ok s' ->
  erase_slot mb s' = erase_slot mb s.
Proof.
  unfold SoftMaxLayer_for_each. intros Hm E. bind_inv E.
  eapply (foldM_invariant (fun s1 => erase_slot mb s1 = erase_slot mb s));
    [| reflexivity | exact E].
  intros s1 k s2 HP Hb. bind_inv Hb. injection Hb as <-. rewrite <- HP.
  eapply erase_put_layer; [eapply this_SoftMax_Ok; eassumption |].
  cbn. f_equal. f_equal.
  eapply map_insert_same; [eapply vector_element | eapply Hm]; eassumption.
Qed.

Lemma erase_ConvLayer_for_each method (s s' : @Store F RO) (this : nat) :
  (forall l s n n', method l s n = Ok n' -> erase_cn mb n' = erase_cn mb n) ->
  ConvLayer_for_each NDEBUG method s this = Ok s' ->
  erase_slot mb s' = erase_slot mb s.
Proof.
  unfold ConvLayer_for_each. intros Hm E. bind_inv E.
  eapply (foldM_invariant (fun s1 => erase_slot mb s1 = erase_slot mb s));
    [| reflexivity | exact E].
  intros s1 [[fm x] y] s2 HP Hb. bind_inv Hb. injection Hb as <-.
  rewrite <- HP.
  eapply erase_put_layer; [eapply this_Conv_Ok; eassumption |].
  cbn. unfold cl_with_bwdErrors, cl_with_neurons. cbn. f_equal. f_equal.
  eapply ma_map_set_same; [eassumption | eassumption |].
  eapply Hm; eassumption.
Qed.

Lemma erase_calcBwdError_of (size : Z) (neurons : list FullyConnectedNeuron)
    (bwd bwd' : multi_array F) :
  calcBwdError_of NDEBUG size neurons bwd mb = Ok bwd' ->
  erase_rows mb bwd' = erase_rows mb bwd.
Proof.
  unfold calcBwdError_of. intros E.
  eapply (foldM_invariant (fun b => erase_rows mb b = erase_rows mb bwd));
    [| reflexivity | exact E].
  intros b i b' HP Hb. bind_inv Hb. rewrite <- HP.
  eapply erase_rows_set. eassumption.
Qed.

Lemma erase_FullyConnectedLayer_feedForward (s s' : @Store F RO) (this : nat) :
  FullyConnectedLayer_feedForward NDEBUG s this mb = Ok s' ->
  erase_slot mb s' = erase_slot mb s.
Proof.
  apply erase_FullyConnectedLayer_for_each. intros l s0 n n'.
  apply erase_FullyConnectedNeuron_feedForward.
Qed.

Lemma erase_FullyConnectedLayer_backPropogate (s s' : @Store F RO) (this : nat) :
  FullyConnectedLayer_backPropogate NDEBUG s this mb = Ok s' ->
  erase_slot mb s' = erase_slot mb s.
Proof.
  apply erase_FullyConnectedLayer_for_each. intros l s0 n n'.
  apply erase_FullyConnectedNeuron_backPropogate.
Qed.

Lemma erase_FullyConnectedLayer_calcBwdError (s s' : @Store F RO) (this : nat) :
  FullyConnectedLayer_calcBwdError NDEBUG s this mb = Ok s' ->
  erase_slot mb s' = erase_slot mb s.
Proof.
  unfold FullyConnectedLayer_calcBwdError. intros E. bind_inv E.
  injection E as <-.
  eapply erase_put_layer; [eapply this_FullyConnected_Ok; eassumption |].
  cbn. f_equal. f_equal. eapply erase_calcBwdError_of. eassumption.
Qed.

Lemma erase_SoftMaxLayer_calcBwdError (s s' : @Store F RO) (this : nat) :
  SoftMaxLayer_calcBwdError NDEBUG s this mb = Ok s' ->
  erase_slot mb s' = erase_slot mb s.
Proof.
  unfold SoftMaxLayer_calcBwdError. intros E. bind_inv E.
  injection E as <-.
  eapply erase_put_layer; [eapply this_SoftMax_Ok; eassumption |].
  cbn. f_equal. f_equal. eapply erase_calcBwdError_of. eassumption.
Qed.

Lemma erase_SoftMaxLayer_computeOutputError (s s' : @Store F RO) (this : nat)
    (label : Z) :
  SoftMaxLayer_computeOutputError s this label mb = Ok s' ->
  erase_slot mb s' = erase_slot mb s.
Proof.
  apply erase_SoftMaxLayer_for_each. intros l s0 n n'.
  apply erase_SoftMaxNeuron_computeOutputError.
Qed.

Lemma erase_SoftMaxLayer_backPropogate (s s' : @Store F RO) (this : nat) :
  SoftMaxLayer_backPropogate NDEBUG s this mb = Ok s' ->
  erase_slot mb s' = erase_slot mb s.
Proof.
  apply erase_SoftMaxLayer_for_each. intros l s0 n n' E.
  exfalso. exact (UNREACHABLE_not_Ok _ E).
Qed.

Lemma erase_SoftMaxLayer_feedForward (s s' : @Store F RO) (this : nat) :
  SoftMaxLayer_feedForward NDEBUG s this mb = Ok s' ->
  erase_slot mb s' = erase_slot mb s.
Proof.
  unfold SoftMaxLayer_feedForward. intros E. bind_inv E.
  destruct v0 as [s1 sum].
  assert (H1 : erase_slot mb s1 = erase_slot mb s).
  { eapply (foldM_invariant
              (fun st : Store * F => erase_slot mb (fst st) = erase_slot mb s))
      in E1; [exact E1 | | reflexivity].
    intros [s2 acc] k [s3 acc'] HP Hb. cbn [fst] in *. bind_inv Hb.
    injection Hb as <- <-. rewrite <- HP.
    eapply erase_put_layer; [eapply this_SoftMax_Ok; eassumption |].
    cbn. f_equal. f_equal.
    eapply map_insert_same; [eapply vector_element; eassumption |].
    eapply erase_SoftMaxNeuron_feedForward. eassumption. }
  rewrite <- H1.
  eapply (foldM_invariant (fun s2 => erase_slot mb s2 = erase_slot mb s1));
    [| reflexivity | exact E].
  intros s2 k s3 HP Hb. bind_inv Hb. injection Hb as <-. rewrite <- HP.
  eapply erase_put_layer; [eapply this_SoftMax_Ok; eassumption |].
  cbn. f_equal. f_equal.
  eapply map_insert_same; [eapply vector_element; eassumption |].
  erase_steps. unfold erase_fcn, fcn_with_base. cbn. congruence.
Qed.

Lemma erase_ConvLayer_feedForward (s s' : @Store F RO) (this : nat) :
  ConvLayer_feedForward NDEBUG s this mb = Ok s' ->
  erase_slot mb s' = erase_slot mb s.
Proof.
  apply erase_ConvLayer_for_each. intros l s0 n n'.
  apply erase_ConvNeuron_feedForward.
Qed.

Lemma erase_ConvLayer_backPropogate (s s' : @Store F RO) (this : nat) :
  ConvLayer_backPropogate NDEBUG s this mb = Ok s' ->
  erase_slot mb s' = erase_slot mb s.
Proof.
  apply erase_ConvLayer_for_each. intros l s0 n n'.
  apply erase_ConvNeuron_backPropogate.
Qed.

Lemma erase_ConvLayer_calcBwdError (s s' : @Store F RO) (this : nat) :
  ConvLayer_calcBwdError NDEBUG s this mb = Ok s' ->
  erase_slot mb s' = erase_slot mb s.
Proof.
  unfold ConvLayer_calcBwdError. intros E. bind_inv E. injection E as <-.
  eapply erase_put_layer; [eapply this_Conv_Ok; eassumption |].
  cbn. unfold cl_with_bwdErrors, cl_with_neurons. cbn. f_equal. f_equal.
  eapply (foldM_invariant
            (fun b => erase_rows mb b = erase_rows mb (cl_bwdErrors v)));
    [| reflexivity | exact E1].
  intros b [[x y] z] b' HP Hb. bind_inv Hb. rewrite <- HP.
  eapply erase_rows_set. eassumption.
Qed.

Lemma erase_MaxPoolLayer_feedForward (s s' : @Store F RO) (this : nat) :
  MaxPoolLayer_feedForward NDEBUG s this mb = Ok s' ->
  erase_slot mb s' = erase_slot mb s.
Proof.
  unfold MaxPoolLayer_feedForward. intros E. bind_inv E.
  eapply (foldM_invariant (fun s1 => erase_slot mb s1 = erase_slot mb s));
    [| reflexivity | exact E].
  intros s1 [[x y] z] s2 HP Hb. cbv beta iota in Hb. rewrite <- HP.
  eapply (foldM_invariant (fun s3 => erase_slot mb s3 = erase_slot mb s1));
    [| reflexivity | exact Hb].
  intros s3 [a b] s4 HP' Hb'. bind_inv Hb'. injection Hb' as <-.
  rewrite <- HP'.
  eapply erase_put_layer; [eapply this_MaxPool_Ok; eassumption |].
  cbn. unfold mp_with_neurons. cbn. f_equal. f_equal.
  eapply ma_map_set_same; [eassumption | eassumption |].
  eapply erase_set_activation. eassumption.
Qed.

(** *** Virtual calls and the network *)

Lemma dispatch_Ok {A : Type} (s : @Store F RO) (this : ptr)
    (fc sm cv mp : nat -> result A) (r : A) :
  dispatch s this (UNREACHABLE NDEBUG) fc sm cv mp = Ok r ->
  exists i, fc i = Ok r \/ sm i = Ok r \/ cv i = Ok r \/ mp i = Ok r.
Proof.
  unfold dispatch. destruct this as [| | i]; intros E.
  - discriminate.
  - exfalso. exact (UNREACHABLE_not_Ok _ E).
  - destruct (layers s !! i) as [[] |]; eauto 6; try discriminate.
    exfalso. exact (UNREACHABLE_not_Ok _ E).
Qed.

Lemma erase_Layer_feedForward (s s' : @Store F RO) (this : ptr) :
  Layer_feedForward NDEBUG s this mb = Ok s' ->
  erase_slot mb s' = erase_slot mb s.
Proof.
  unfold Layer_feedForward. intros E. apply dispatch_Ok in E.
  destruct E as (i & [E | [E | [E | E]]]).
  - eapply erase_FullyConnectedLayer_feedForward; eassumption.
  - eapply erase_SoftMaxLayer_feedForward; eassumption.
  - eapply erase_ConvLayer_feedForward; eassumption.
  - eapply erase_MaxPoolLayer_feedForward; eassumption.
Qed.

Lemma erase_Layer_backPropogate (s s' : @Store F RO) (this : ptr) :
  Layer_backPropogate NDEBUG s this mb = Ok s' ->
  erase_slot mb s' = erase_slot mb s.
Proof.
  unfold Layer_backPropogate. intros E. apply dispatch_Ok in E.
  destruct E as (i & [E | [E | [E | E]]]).
  - eapply erase_FullyConnectedLayer_backPropogate; eassumption.
  - eapply erase_SoftMaxLayer_backPropogate; eassumption.
  - eapply erase_ConvLayer_backPropogate; eassumption.
  - injection E as <-. reflexivity.
Qed.

Lemma erase_Layer_calcBwdError (s s' : @Store F RO) (this : ptr) :
  Layer_calcBwdError NDEBUG s this mb = Ok s' ->
  erase_slot mb s' = erase_slot mb s.
Proof.
  unfold Layer_calcBwdError. intros E. apply dispatch_Ok in E.
  destruct E as (i & [E | [E | [E | E]]]).
  - eapply erase_FullyConnectedLayer_calcBwdError; eassumption.
  - eapply erase_SoftMaxLayer_calcBwdError; eassumption.
  - eapply erase_ConvLayer_calcBwdError; eassumption.
  - injection E as <-. reflexivity.
Qed.

Lemma erase_InputLayer_setImage (l l' : InputLayer) (image : list F) :
  InputLayer_setImage NDEBUG l image mb = Ok l' ->
  il_imageX l' = il_imageX l /\ il_imageY l' = il_imageY l /\
  ma_map (erase_neuron mb) (il_neurons l') =
  ma_map (erase_neuron mb) (il_neurons l).
Proof.
  unfold InputLayer_setImage. intros E. bind_inv E.
  eapply (foldM_invariant
            (fun l1 => il_imageX l1 = il_imageX l /\
                       il_imageY l1 = il_imageY l /\
                       ma_map (erase_neuron mb) (il_neurons l1) =
                       ma_map (erase_neuron mb) (il_neurons l)));
    [| auto | exact E].
  intros l1 i l2 (HX & HY & HP) Hb. bind_inv Hb. injection Hb as <-. cbn.
  split; [exact HX |]. split; [exact HY |]. rewrite <- HP.
  eapply ma_map_set_same; [eassumption | eassumption |].
  eapply erase_set_activation. eassumption.
Qed.

Lemma erase_Network_feedForward (s s' : @Store F RO) :
  Network_feedForward NDEBUG s mb = Ok s' ->
  erase_slot mb s' = erase_slot mb s.
Proof.
  unfold Network_feedForward.
  apply (foldM_invariant (fun s1 => erase_slot mb s1 = erase_slot mb s));
    [| reflexivity].
  intros s1 i s2 HP Hb. rewrite <- HP.
  eapply erase_Layer_feedForward. eassumption.
Qed.

Lemma layer_parameters_erase (l : @Layer F) :
  layer_parameters (erase_layer mb l) = layer_parameters l.
Proof.
  destruct l; cbn; try reflexivity.
  - rewrite map_map. reflexivity.
  - rewrite map_map. reflexivity.
Qed.

Lemma layers_parameters_erase (ls : list (@Layer F)) :
  map layer_parameters (map (erase_layer mb) ls) = map layer_parameters ls.
Proof.
  induction ls as [| l ls IH]; cbn; [reflexivity |].
  rewrite layer_parameters_erase, IH. reflexivity.
Qed.

Lemma parameters_of_erased (s s' : @Store F RO) :
  erase_slot mb s' = erase_slot mb s ->
  map layer_parameters (layers s') = map layer_parameters (layers s).
Proof.
  intros E. apply (f_equal layers) in E. cbn in E.
  rewrite <- (layers_parameters_erase (layers s')), E.
  apply layers_parameters_erase.
Qed.

(** What equality under [erase_arr] and [erase_rows] says: the entries of
    every other slot agree. *)
Lemma erase_arr_agree (a a' : list F) (m' : Z) :
  erase_arr mb a = erase_arr mb a' -> m' <> mb -> arr_get a m' = arr_get a' m'.
Proof.
  unfold erase_arr. intros E Hne.
  assert (Hlen : length a = length a').
  { apply (f_equal length) in E.
    destruct (0 <=? mb); rewrite ?length_insert in E; exact E. }
  assert (Hlook : 0 <= m' -> a !! Z.to_nat m' = a' !! Z.to_nat m').
  { intros Hm. apply (f_equal (fun l => l !! Z.to_nat m')) in E.
    destruct (Z.leb_spec 0 mb); [| exact E].
    rewrite !list_lookup_insert_ne in E by lia. exact E. }
  unfold arr_get. rewrite <- Hlen.
  destruct (in_bounds m' (Z.of_nat (length a))) eqn:Hb; [| reflexivity].
  apply in_bounds_spec in Hb. rewrite Hlook by lia. reflexivity.
Qed.

Lemma erase_rows_agree (b b' : multi_array F) (off : nat) :
  erase_rows mb b = erase_rows mb b' ->
  shape b = shape b' /\
  (Z.of_nat off / row_size (shape b) <> mb ->
   elements b !! off = elements b' !! off).
Proof.
  unfold erase_rows. intros E. injection E as Hshape E.
  split; [exact Hshape |]. intros Hrow.
  apply (f_equal (fun l => l !! off)) in E. rewrite !list_lookup_imap in E.
  rewrite <- Hshape in E.
  destruct (Z.eqb_spec (Z.of_nat off / row_size (shape b)) mb); [contradiction |].
  destruct (elements b !! off), (elements b' !! off); cbn in E; congruence.
Qed.

(** C10: a backward pass for slot [mb] that returns leaves the store as
    it was outside slot [mb]: blanking entry [mb] of every neuron's
    weighted-input, activation and error arrays and row [mb] of every
    backward-error buffer makes the stores before and after equal, and
    the weights and biases of every layer are the same. *)
Theorem Network_backPropogate_frame (s s' : @Store F RO) (image : list F)
    (label : Z) :
  Network_backPropogate NDEBUG s image label mb = Ok s' ->
  erase_slot mb s' = erase_slot mb s /\
  map layer_parameters (layers s') = map layer_parameters (layers s).
Proof.
  intros E.
  assert (Hframe : erase_slot mb s' = erase_slot mb s).
  { unfold Network_backPropogate in E. bind_inv E.
    apply erase_Layer_backPropogate in E. rewrite E. clear E.
    assert (H4 : erase_slot mb v3 = erase_slot mb v2).
    { eapply (foldM_invariant (fun s1 => erase_slot mb s1 = erase_slot mb v2));
        [| reflexivity | exact E4].
      intros s1 i s2 HP Hb. bind_inv Hb.
      apply erase_Layer_calcBwdError in Hb.
      apply erase_Layer_backPropogate in E. congruence. }
    apply erase_SoftMaxLayer_calcBwdError in E3.
    apply erase_SoftMaxLayer_computeOutputError in E2.
    apply erase_Network_feedForward in E1.
    apply erase_InputLayer_setImage in E0. destruct E0 as (HX & HY & HN).
    rewrite H4, E3, E2, E1. unfold erase_slot, with_inputLayer. cbn.
    rewrite HX, HY, HN. reflexivity. }
  split; [exact Hframe | apply parameters_of_erased; exact Hframe].
Qed.

End Frame.

Lemma value_Ok {A : Type} (r : result A) (d : A) :
  outcome r = Ok tt -> r = Ok (value r d).
Proof. destruct r; cbn; intros E; try discriminate. reflexivity. Qed.

Lemma Network_backPropogate_frame_witness :
  erase_slot 1 cp_after = erase_slot 1 cp_store /\
  map layer_parameters (layers cp_after) =
  map layer_parameters (layers cp_store).
Proof.
  apply (Network_backPropogate_frame false 1 cp_store cp_after cp_image 1).
  apply value_Ok. vm_compute. reflexivity.
Defined.

(** ** Determinism of the initialisation *)

Lemma map_lookup {A B : Type} (f : A -> B) (l : list A) (i : nat) :
  map f l !! i = option_map f (l !! i).
Proof.
  revert i. induction l as [| a l IH]; intros [| i]; cbn; auto.
Qed.

Lemma map_insert {A B : Type} (f : A -> B) (l : list A) (i : nat) (x : A) :
  map f (<[i := x]> l) = <[i := f x]> (map f l).
Proof.
  revert i. induction l as [| a l IH]; intros [| i]; cbn; auto.
  rewrite IH. reflexivity.
Qed.



Section Determinism.

Context {F : Type} {FO : FloatOps F} {RO : RandomOps F}.
Variable NDEBUG : bool.
































End Determinism.



(** ** The size checks of network construction *)

Lemma foldM_visits {A S : Type} (P : S -> Prop)
    (body : S -> A -> result S) (l : list A) (s s' : S) (x : A) :
  (forall s x s', P s -> body s x = Ok s' -> P s') ->
  P s -> foldM body l s = Ok s' -> In x l ->
  exists sx sx', P sx /\ body sx x = Ok sx'.
Proof.
  intros Hbody. revert s. induction l as [| y l IH]; intros s HP E Hin.
  - destruct Hin.
  - cbn in E. destruct (body s y) as [s1 | | |] eqn:E1; cbn in E;
      try discriminate.
    destruct Hin as [-> | Hin]; [eauto |].
    eapply IH; [eapply Hbody | |]; eassumption.
Qed.

Section Geometry.

Context {F : Type} {FO : FloatOps F} {RO : RandomOps F}.
Variable NDEBUG : bool.

Lemma same_geometry_refl (s : @Store F RO) : same_geometry s s.
Proof. split; reflexivity. Qed.

Lemma same_geometry_trans (s1 s2 s3 : @Store F RO) :
  same_geometry s1 s2 -> same_geometry s2 s3 -> same_geometry s1 s3.
Proof. intros [H1 H2] [H3 H4]. split; congruence. Qed.

Lemma put_layer_geometry (s : @Store F RO) (this : nat) (l l' : Layer) :
  layers s !! this = Some l ->
  layer_geometry l' = layer_geometry l ->
  same_geometry s (put_layer s this l').
Proof.
  intros Hl Hsame. split; [reflexivity |]. cbn.
  eapply map_insert_same; eassumption.
Qed.

Lemma with_generator_geometry (s s' : @Store F RO) g :
  same_geometry s s' -> same_geometry s (with_generator s' g).
Proof. intros H. exact H. Qed.

Lemma Layer_size_geometry (s s' : @Store F RO) (p : ptr) :
  same_geometry s s' -> Layer_size s' p = Layer_size s p.
Proof.
  intros [Hin Hls]. unfold Layer_size, deref. destruct p as [| | i].
  - reflexivity.
  - rewrite Hin. reflexivity.
  - apply (f_equal (fun l => l !! i)) in Hls. rewrite !map_lookup in Hls.
    destruct (layers s' !! i) as [l' |], (layers s !! i) as [l |];
      cbn in Hls; try discriminate; [| reflexivity].
    injection Hls as Hsize _. cbn.
    transitivity (Ok (A := Z) (size_of l')); [destruct l'; reflexivity |].
    rewrite Hsize. destruct l; reflexivity.
Qed.

Lemma Layer_size_of (s : @Store F RO) (i : nat) (l : Layer) :
  layers s !! i = Some l -> Layer_size s (PLayer i) = Ok (size_of l).
Proof.
  intros Hl. unfold Layer_size, deref. rewrite Hl. destruct l; reflexivity.
Qed.

(** *** Every step of construction keeps the geometry *)

Lemma FullyConnectedLayer_setInputs_geometry (s s' : @Store F RO) this p :
  FullyConnectedLayer_setInputs s this p = Ok s' -> same_geometry s s'.
Proof.
  unfold FullyConnectedLayer_setInputs. intros E. bind_inv E.
  injection E as <-. apply this_FullyConnected_Ok in E0.
  eapply put_layer_geometry; [eassumption |].
  unfold layer_geometry. cbn. rewrite length_map. reflexivity.
Qed.

Lemma FullyConnectedLayer_setOutputs_geometry (s s' : @Store F RO) this p :
  FullyConnectedLayer_setOutputs s this p = Ok s' -> same_geometry s s'.
Proof.
  unfold FullyConnectedLayer_setOutputs. intros E. bind_inv E.
  injection E as <-. apply this_FullyConnected_Ok in E0.
  eapply put_layer_geometry; [eassumption |].
  unfold layer_geometry. cbn. rewrite length_map. reflexivity.
Qed.

Lemma SoftMaxLayer_setInputs_geometry (s s' : @Store F RO) this p :
  SoftMaxLayer_setInputs s this p = Ok s' -> same_geometry s s'.
Proof.
  unfold SoftMaxLayer_setInputs. intros E. bind_inv E.
  injection E as <-. apply this_SoftMax_Ok in E0.
  eapply put_layer_geometry; [eassumption |].
  unfold layer_geometry. cbn. rewrite length_map. reflexivity.
Qed.

Lemma ConvLayer_setInputs_geometry (s s' : @Store F RO) this p :
  ConvLayer_setInputs NDEBUG s this p = Ok s' -> same_geometry s s'.
Proof.
  unfold ConvLayer_setInputs. intros E. bind_inv E.
  injection E as <-. apply this_Conv_Ok in E0.
  eapply put_layer_geometry; [eassumption | reflexivity].
Qed.

Lemma ConvLayer_setOutputs_geometry (s s' : @Store F RO) this p :
  ConvLayer_setOutputs s this p = Ok s' -> same_geometry s s'.
Proof.
  unfold ConvLayer_setOutputs. intros E. bind_inv E.
  injection E as <-. apply this_Conv_Ok in E0.
  eapply put_layer_geometry; [eassumption | reflexivity].
Qed.

Lemma MaxPoolLayer_setInputs_geometry (s s' : @Store F RO) this p :
  MaxPoolLayer_setInputs NDEBUG s this p = Ok s' -> same_geometry s s'.
Proof.
  unfold MaxPoolLayer_setInputs. intros E. bind_inv E.
  injection E as <-. apply this_MaxPool_Ok in E0.
  eapply put_layer_geometry; [eassumption | reflexivity].
Qed.

Lemma MaxPoolLayer_setOutputs_geometry (s s' : @Store F RO) this p :
  MaxPoolLayer_setOutputs s this p = Ok s' -> same_geometry s s'.
Proof.
  unfold MaxPoolLayer_setOutputs. intros E. bind_inv E.
  injection E as <-. apply this_MaxPool_Ok in E0.
  eapply put_layer_geometry; [eassumption | reflexivity].
Qed.

Lemma ConvLayer_initialiseDefaultWeights_geometry (s s' : @Store F RO) this :
  ConvLayer_initialiseDefaultWeights NDEBUG s this = Ok s' -> same_geometry s s'.
Proof.
  unfold ConvLayer_initialiseDefaultWeights. intros E. bind_inv E.
  destruct v0 as [[[weights bias] d] gen]. injection E as <-.
  apply this_Conv_Ok in E0. apply with_generator_geometry.
  eapply put_layer_geometry; [eassumption | reflexivity].
Qed.

Lemma FullyConnectedLayer_initialiseDefaultWeights_geometry
    (s s' : @Store F RO) this :
  FullyConnectedLayer_initialiseDefaultWeights s this = Ok s' ->
  same_geometry s s'.
Proof.
  unfold FullyConnectedLayer_initialiseDefaultWeights. intros E. bind_inv E.
  revert E. apply (foldM_invariant (same_geometry s));
    [| apply same_geometry_refl].
  intros s1 k s2 Hs1 E. bind_inv E. destruct v2 as [n' gen].
  injection E as <-. apply this_FullyConnected_Ok in E1.
  eapply same_geometry_trans; [exact Hs1 |].
  apply with_generator_geometry.
  eapply put_layer_geometry; [eassumption |].
  unfold layer_geometry. cbn. rewrite length_insert. reflexivity.
Qed.

Lemma SoftMaxLayer_initialiseDefaultWeights_geometry
    (s s' : @Store F RO) this :
  SoftMaxLayer_initialiseDefaultWeights s this = Ok s' ->
  same_geometry s s'.
Proof.
  unfold SoftMaxLayer_initialiseDefaultWeights. intros E. bind_inv E.
  revert E. apply (foldM_invariant (same_geometry s));
    [| apply same_geometry_refl].
  intros s1 k s2 Hs1 E. bind_inv E. destruct v2 as [n' gen].
  injection E as <-. apply this_SoftMax_Ok in E1.
  eapply same_geometry_trans; [exact Hs1 |].
  apply with_generator_geometry.
  eapply put_layer_geometry; [eassumption |].
  unfold layer_geometry. cbn. rewrite length_insert. reflexivity.
Qed.

Lemma Layer_setInputs_geometry (s s' : @Store F RO) (this p : ptr) :
  Layer_setInputs NDEBUG s this p = Ok s' -> same_geometry s s'.
Proof.
  unfold Layer_setInputs. intros E. apply dispatch_Ok in E.
  destruct E as (i & [E | [E | [E | E]]]);
    eauto using FullyConnectedLayer_setInputs_geometry,
      SoftMaxLayer_setInputs_geometry, ConvLayer_setInputs_geometry,
      MaxPoolLayer_setInputs_geometry.
Qed.

Lemma Layer_setOutputs_geometry (s s' : @Store F RO) (this p : ptr) :
  Layer_setOutputs NDEBUG s this p = Ok s' -> same_geometry s s'.
Proof.
  unfold Layer_setOutputs. intros E. apply dispatch_Ok in E.
  destruct E as (i & [E | [E | [E | E]]]);
    eauto using FullyConnectedLayer_setOutputs_geometry,
      ConvLayer_setOutputs_geometry, MaxPoolLayer_setOutputs_geometry.
  exfalso. exact (UNREACHABLE_not_Ok _ _ E).
Qed.

Lemma Layer_initialiseDefaultWeights_geometry (s s' : @Store F RO) (this : ptr) :
  Layer_initialiseDefaultWeights NDEBUG s this = Ok s' -> same_geometry s s'.
Proof.
  unfold Layer_initialiseDefaultWeights. intros E. apply dispatch_Ok in E.
  destruct E as (i & [E | [E | [E | E]]]);
    eauto using FullyConnectedLayer_initialiseDefaultWeights_geometry,
      SoftMaxLayer_initialiseDefaultWeights_geometry,
      ConvLayer_initialiseDefaultWeights_geometry.
  injection E as <-. apply same_geometry_refl.
Qed.

End Geometry.

(** *** What [setInputs] checks when assertions are compiled in *)

Section SizeChecks.

Context {F : Type} {FO : FloatOps F} {RO : RandomOps F}.

Lemma Layer_setInputs_checks (s s' : @Store F RO) (i : nat) (p : ptr)
    (l : Layer) (d : Z) :
  layers s !! i = Some l ->
  declared_input_size l = Some d ->
  Layer_setInputs false s (PLayer i) p = Ok s' ->
  Layer_size s p = Ok d.
Proof.
  intros Hl Hd. unfold Layer_setInputs, dispatch. rewrite Hl.
  destruct l as [il | fc | sm | cv | mp]; try discriminate;
    injection Hd as <-.
  - unfold ConvLayer_setInputs, this_Conv. rewrite Hl. cbn [bind].
    destruct (Layer_size s p) as [size | | |]; cbn [bind]; try discriminate.
    unfold assert. destruct (Z.eqb_spec size
      (umul (umul (cl_inputX cv) (cl_inputY cv)) (cl_inputZ cv)));
      [congruence | discriminate].
  - unfold MaxPoolLayer_setInputs, this_MaxPool. rewrite Hl. cbn [bind].
    destruct (Layer_size s p) as [size | | |]; cbn [bind]; try discriminate.
    unfold assert. destruct (Z.eqb_spec size
      (umul (mp_poolX mp) (mp_poolY mp) * num_elements (mp_neurons mp)));
      [congruence | discriminate].
Qed.

(** The [assert] of [ConvLayer::setInputs] and [MaxPoolLayer::setInputs]
    stops the program at a predecessor of another size. *)
Lemma Layer_setInputs_halts_on_mismatch (s : @Store F RO) (i : nat) (p : ptr)
    (l : Layer) (d size : Z) :
  layers s !! i = Some l ->
  declared_input_size l = Some d ->
  Layer_size s p = Ok size ->
  size <> d ->
  Layer_setInputs false s (PLayer i) p = Fatal.
Proof.
  intros Hl Hd Hsize Hne. unfold Layer_setInputs, dispatch. rewrite Hl.
  destruct l as [il | fc | sm | cv | mp]; try discriminate;
    injection Hd as <-.
  - unfold ConvLayer_setInputs, this_Conv. rewrite Hl, Hsize. cbn [bind].
    unfold assert. apply Z.eqb_neq in Hne. rewrite Hne. reflexivity.
  - unfold MaxPoolLayer_setInputs, this_MaxPool. rewrite Hl, Hsize. cbn [bind].
    unfold assert. apply Z.eqb_neq in Hne. rewrite Hne. reflexivity.
Qed.

Lemma geometry_lookup (s s' : @Store F RO) (i : nat) (l : Layer) :
  same_geometry s s' -> layers s !! i = Some l ->
  exists l', layers s' !! i = Some l' /\ layer_geometry l' = layer_geometry l.
Proof.
  intros [_ Hls] Hl. apply (f_equal (fun ls => ls !! i)) in Hls.
  rewrite !map_lookup, Hl in Hls.
  destruct (layers s' !! i) as [l' |]; cbn in Hls; [| discriminate].
  exists l'. split; [reflexivity |]. unfold layer_geometry in *. congruence.
Qed.

(** The layers that do check: in a build without NDEBUG, network
    construction completes only if every convolutional and max-pooling
    layer declares the [size()] of its predecessor in the chain; at any
    other size the [assert] of its [setInputs] has stopped the program. *)
Theorem Network_new_checks_declared_input_size
    (mbSize : Z) (u : F) (inputX inputY softMaxSize lastLayerSize : Z)
    (costFn : F -> F -> F) (costDelta : F -> F -> F -> F)
    (p : Params) (chain : list Layer) (s : @Store F RO)
    (i : nat) (l : Layer) (d : Z) :
  Network_new false mbSize u inputX inputY softMaxSize lastLayerSize
              costFn costDelta p chain = Ok s ->
  chain !! i = Some l ->
  declared_input_size l = Some d ->
  predecessor_size (InputLayer_new mbSize u inputX inputY) chain i = Some d.
Proof.
  intros Hnew Hl Hd. unfold Network_new in Hnew.
  set (s0 := mkStore p (InputLayer_new mbSize u inputX inputY) _ _) in Hnew.
  assert (Hchain : forall j x, chain !! j = Some x -> layers s0 !! j = Some x).
  { intros j x Hx. unfold s0. cbn. apply lookup_app_l_Some. exact Hx. }
  assert (Hlen : (i < length chain)%nat) by (eapply lookup_lt_Some; eassumption).
  bind_inv Hnew. clear Hnew.
  destruct i as [| j].
  - apply (Layer_setInputs_checks _ _ _ _ _ _ (Hchain _ _ Hl) Hd) in E.
    cbn in E. cbn. congruence.
  - assert (Hs1 : same_geometry s0 v0).
    { eapply same_geometry_trans;
        [eapply Layer_setInputs_geometry | eapply Layer_initialiseDefaultWeights_geometry];
        eassumption. }
    assert (Hin : In (S j) (seq 1 (length (layers s0) - 1))).
    { apply in_seq. unfold s0. cbn. rewrite length_app. cbn. lia. }
    assert (Hstep : forall sa (x : nat) sb,
               same_geometry s0 sa ->
               (let* s := Layer_setInputs false sa (PLayer x) (PLayer (x - 1)) in
                Layer_initialiseDefaultWeights false s (PLayer x)) = Ok sb ->
               same_geometry s0 sb).
    { intros sa x sb Hsa Ebody. bind_inv Ebody.
      eapply same_geometry_trans; [exact Hsa |].
      eapply same_geometry_trans;
        [eapply Layer_setInputs_geometry
        | eapply Layer_initialiseDefaultWeights_geometry]; eassumption. }
    destruct (foldM_visits _ _ _ _ _ (S j) Hstep Hs1 E1 Hin)
      as (sx & sx' & Hsx & Ebody).
    bind_inv Ebody.
    destruct (geometry_lookup _ _ _ _ Hsx (Hchain _ _ Hl)) as (l' & Hl' & Hg).
    injection Hg as _ Hdecl.
    apply (Layer_setInputs_checks _ _ _ _ l' d Hl') in E2; [| congruence].
    rewrite (Layer_size_geometry _ _ _ Hsx) in E2.
    replace (S j - 1)%nat with j in E2 by lia.
    cbn [predecessor_size].
    destruct (chain !! j) as [x |] eqn:Hx.
    + rewrite (Layer_size_of _ _ _ (Hchain _ _ Hx)) in E2. cbn. congruence.
    + apply lookup_ge_None in Hx. lia.
Qed.

End SizeChecks.


Lemma Network_new_checks_declared_input_size_witness :
  predecessor_size (InputLayer_new 2 0%Q 4 4) cp_chain 1 = Some 4.
Proof.
  apply (Network_new_checks_declared_input_size
           2 0%Q 4 4 2 1 Q_Quadratic_compute Q_CrossEntropy_delta
           demo_params cp_chain cp_store 1
           (default (LInput (InputLayer_new 2 0%Q 4 4)) (cp_chain !! 1%nat)) 4).
  - unfold cp_store, cp_network. apply value_Ok. vm_compute. reflexivity.
  - vm_compute. reflexivity.
  - vm_compute. reflexivity.
Defined.

(** ** Index validation *)

Lemma foldM_total {A S : Type} (P : S -> Prop) (Q : A -> Prop)
    (body : S -> A -> result S) (l : list A) (s : S) :
  (forall s x, P s -> Q x -> exists s', body s x = Ok s' /\ P s') ->
  (forall x, In x l -> Q x) -> P s ->
  exists s', foldM body l s = Ok s' /\ P s'.
Proof.
  intros Hbody. revert s. induction l as [| x l IH]; intros s HQ HP; cbn.
  - eauto.
  - destruct (Hbody s x HP (HQ x (or_introl eq_refl))) as (s1 & -> & HP1).
    cbn. apply IH; [| exact HP1]. intros y Hy. apply HQ. right. exact Hy.
Qed.

Lemma in_loop3 (n1 n2 n3 a b c : Z) :
  In (a, b, c) (loop3 n1 n2 n3) ->
  0 <= a < n1 /\ 0 <= b < n2 /\ 0 <= c < n3.
Proof.
  unfold loop3. rewrite in_flat_map. intros (a' & Ha & H).
  rewrite in_flat_map in H. destruct H as (b' & Hb & H).
  rewrite in_map_iff in H. destruct H as (c' & E & Hc).
  injection E as -> -> ->. rewrite in_urange in Ha, Hb, Hc. auto.
Qed.

Section Bounds.

Context {F : Type} {FO : FloatOps F} {RO : RandomOps F}.
Variable NDEBUG : bool.

Lemma ma_zero_well_formed (exts : list Z) : well_formed (ma_zero (F := F) exts).
Proof. unfold well_formed, ma_zero, num_elements. cbn. apply repeat_length. Qed.

Lemma ma_offset_in_range (exts idxs : list Z) (acc : Z) :
  Forall2 (fun i e => 0 <= i < e) idxs exts ->
  exists off, ma_offset NDEBUG exts idxs acc = Ok off.
Proof.
  intros H. revert acc. induction H as [| i e idxs exts Hi _ IH]; intros acc.
  - cbn. eauto.
  - cbn [ma_offset]. apply in_bounds_spec in Hi. rewrite Hi. cbn. apply IH.
Qed.

(** A write at indices within the extents is a write within the array. *)
Lemma ma_set_in_range {T : Type} (a : multi_array T) (idxs : list Z) (v : T) :
  well_formed a ->
  Forall2 (fun i e => 0 <= i < e) idxs (shape a) ->
  exists a', ma_set NDEBUG a idxs v = Ok a' /\
             shape a' = shape a /\ well_formed a'.
Proof.
  intros Hwf Hidx. unfold ma_set.
  destruct (ma_offset_in_range _ _ 0 Hidx) as (off & Hoff). rewrite Hoff.
  cbn [bind]. pose proof (ma_offset_range _ _ _ _ _ Hoff) as Hrange.
  unfold arr_set.
  assert (Hb : in_bounds off (Z.of_nat (length (elements a))) = true).
  { apply in_bounds_spec. rewrite Hwf. unfold num_elements. lia. }
  rewrite Hb. cbn. eexists. split; [reflexivity |]. split; [reflexivity |].
  unfold well_formed, ma_with_elements, num_elements in *. cbn.
  rewrite length_insert. exact Hwf.
Qed.

(** Every write of [ConvLayer::initialiseDefaultWeights] into [weights] and
    [bias] is within the extents the constructor of Network.hpp gave them:
    the call returns, with the range check or without it. *)
Lemma ConvLayer_initialiseDefaultWeights_in_bounds
    (mbSize : Z) (u : F)
    (kernelX kernelY kernelZ inputX inputY inputZ numFMs : Z)
    (act deriv : F -> F) (p : Params) (l : ConvLayer)
    (s : @Store F RO) (this : nat) :
  ConvLayer_new mbSize u kernelX kernelY kernelZ inputX inputY inputZ numFMs
                act deriv p = Some l ->
  layers s !! this = Some (LConv l) ->
  exists s', ConvLayer_initialiseDefaultWeights NDEBUG s this = Ok s'.
Proof.
  intros Hnew Hl.
  assert (Hw : shape (cl_weights l) = [numFMs; kernelX; kernelY; kernelZ] /\
               well_formed (cl_weights l) /\
               shape (cl_bias l) = [numFMs] /\ well_formed (cl_bias l)).
  { unfold ConvLayer_new in Hnew. destruct (inputZ =? kernelZ); [| discriminate].
    injection Hnew as <-. cbn.
    auto using ma_zero_well_formed. }
  destruct Hw as (Hws & Hwwf & Hbs & Hbwf).
  unfold ConvLayer_initialiseDefaultWeights, this_Conv. rewrite Hl. cbn [bind].
  unfold extent. rewrite Hws. cbn [nth].
  set (P := fun st : multi_array F * multi_array F * normal_distribution *
                     default_random_engine =>
              let '(w, b, _, _) := st in
              shape w = [numFMs; kernelX; kernelY; kernelZ] /\ well_formed w /\
              shape b = [numFMs] /\ well_formed b).
  match goal with
  | |- context [foldM ?body ?lst ?init] =>
      destruct (foldM_total P (fun fm => 0 <= fm < numFMs) body lst init)
        as ([[[w b] d] g] & -> & _)
  end.
  - intros [[[w b] d] g] fm (Hw1 & Hw2 & Hb1 & Hb2) Hfm.
    set (P3 := fun st : multi_array F * normal_distribution *
                        default_random_engine =>
                 let '(w, _, _) := st in
                 shape w = [numFMs; kernelX; kernelY; kernelZ] /\
                 well_formed w).
    match goal with
    | |- context [foldM ?body ?lst ?init] =>
        destruct (foldM_total P3
                    (fun '(a, b, c) => 0 <= a < kernelX /\ 0 <= b < kernelY /\
                                       0 <= c < kernelZ)
                    body lst init)
          as ([[w' d'] g'] & -> & Hw1' & Hw2')
    end.
    + intros [[w0 d0] g0] [[a b0] c] (H1 & H2) (Ha & Hb & Hc).
      destruct (normal_draw d0 g0) as [[r d1] g1].
      destruct (ma_set_in_range w0 [fm; a; b0; c] (fdiv r
                  (fsqrt (of_unsigned (kernelX * kernelY * kernelZ)))) H2)
        as (w1 & -> & Hs1 & Hwf1).
      { rewrite H1. repeat constructor; lia. }
      cbn. eexists. split; [reflexivity |]. split; [congruence | exact Hwf1].
    + intros [[a b0] c] Hin. apply in_loop3 in Hin. exact Hin.
    + split; assumption.
    + cbn [bind]. destruct (normal_draw d' g') as [[r d1] g1].
      destruct (ma_set_in_range b [fm] r Hb2) as (b1 & -> & Hs1 & Hwf1).
      { rewrite Hb1. repeat constructor; lia. }
      cbn. eexists. split; [reflexivity |].
      repeat split; try assumption; congruence.
  - intros fm Hfm. apply in_urange in Hfm. exact Hfm.
  - repeat split; assumption.
  - cbn. eauto.
Qed.

(** Boost's range check stops a lookup at indices outside the extents. *)
Lemma ma_offset_rejects (exts idxs : list Z) (acc : Z) :
  length idxs = length exts ->
  ~ Forall2 (fun i e => 0 <= i < e) idxs exts ->
  ma_offset false exts idxs acc = Fatal.
Proof.
  revert idxs acc. induction exts as [| e exts IH]; intros [| i idxs] acc Hlen Hout;
    try discriminate.
  - exfalso. apply Hout. constructor.
  - cbn [ma_offset]. unfold BOOST_ASSERT.
    destruct (in_bounds i e) eqn:Hi; [| reflexivity].
    cbn [bind]. apply IH; [cbn in Hlen; lia |].
    intros Htail. apply Hout. constructor; [| exact Htail].
    apply in_bounds_spec. exact Hi.
Qed.

Lemma ma_get_rejects {T : Type} (a : multi_array T) (idxs : list Z) :
  length idxs = length (shape a) ->
  ~ Forall2 (fun i e => 0 <= i < e) idxs (shape a) ->
  ma_get false a idxs = Fatal.
Proof.
  intros Hlen Hout. unfold ma_get.
  rewrite (ma_offset_rejects _ _ 0 Hlen Hout). reflexivity.
Qed.

Lemma InputLayer_getNeuron1_rejects (l : @InputLayer F) (i : Z) :
  num_elements (il_neurons l) <= i -> InputLayer_getNeuron1 false l i = Fatal.
Proof.
  intros Hi. unfold InputLayer_getNeuron1, assert.
  destruct (Z.ltb_spec i (num_elements (il_neurons l))); [lia | reflexivity].
Qed.

Lemma vec_at_rejects {T : Type} (a : list T) (i : Z) :
  Z.of_nat (length a) <= i -> vec_at a i = Fatal.
Proof.
  intros Hi. unfold vec_at.
  destruct (in_bounds i (Z.of_nat (length a))) eqn:Hb; [| reflexivity].
  apply in_bounds_spec in Hb. lia.
Qed.

Lemma ConvLayer_getNeuron3_rejects (l : @ConvLayer F) (x y z : Z) :
  length (shape (cl_neurons l)) = 3%nat ->
  ~ Forall2 (fun i e => 0 <= i < e) [z; x; y] (shape (cl_neurons l)) ->
  ConvLayer_getNeuron3 false l x y z = Fatal.
Proof.
  intros Hlen Hout. unfold ConvLayer_getNeuron3.
  rewrite ma_get_rejects; [reflexivity | rewrite Hlen; reflexivity | exact Hout].
Qed.

Lemma MaxPoolLayer_getNeuron3_rejects (l : @MaxPoolLayer F) (x y z : Z) :
  length (shape (mp_neurons l)) = 3%nat ->
  ~ Forall2 (fun i e => 0 <= i < e) [x; y; z] (shape (mp_neurons l)) ->
  MaxPoolLayer_getNeuron3 false l x y z = Fatal.
Proof.
  intros Hlen Hout. unfold MaxPoolLayer_getNeuron3.
  rewrite ma_get_rejects; [reflexivity | rewrite Hlen; reflexivity | exact Hout].
Qed.

(** The sibling path: in Network.hpp every write into [weights] and
    [bias] made by the weight initialisation of a convolutional layer is
    within the extents its constructor allocated, in either build; and an
    index beyond the last neuron is rejected fatally by [getNeuron] of the
    input layer when assertions are compiled in, and by [getNeuron] of a
    fully-connected layer, which reads with [at()], in either build. *)
Theorem index_validation
    (mbSize : Z) (u : F)
    (kernelX kernelY kernelZ inputX inputY inputZ numFMs : Z)
    (act deriv : F -> F) (p : Params) (l : ConvLayer)
    (s : @Store F RO) (this : nat)
    (input : @InputLayer F) (fc : @FullyConnectedLayer F) (i : Z) :
  ConvLayer_new mbSize u kernelX kernelY kernelZ inputX inputY inputZ numFMs
                act deriv p = Some l ->
  layers s !! this = Some (LConv l) ->
  num_elements (il_neurons input) <= i ->
  Z.of_nat (length (fcl_neurons fc)) <= i ->
  (exists s', ConvLayer_initialiseDefaultWeights NDEBUG s this = Ok s') /\
  (forall fm, In fm (urange (extent (cl_weights l) 0)) ->
              in_bounds fm (extent (cl_bias l) 0) = true) /\
  InputLayer_getNeuron1 false input i = Fatal /\
  FullyConnectedLayer_getNeuron1 fc i = Fatal.
Proof.
  intros Hnew Hl Hinput Hfc. split; [| split; [| split]].
  - eapply ConvLayer_initialiseDefaultWeights_in_bounds; eassumption.
  - unfold ConvLayer_new in Hnew. destruct (inputZ =? kernelZ); [| discriminate].
    injection Hnew as <-. cbn. intros fm Hfm.
    apply in_bounds_spec. apply in_urange. exact Hfm.
  - apply InputLayer_getNeuron1_rejects. exact Hinput.
  - unfold FullyConnectedLayer_getNeuron1. rewrite vec_at_rejects by exact Hfc.
    reflexivity.
Qed.

End Bounds.

Lemma index_validation_witness :
  (exists s', ConvLayer_initialiseDefaultWeights true demo_store 2 = Ok s') /\
  (forall fm, In fm (urange (extent (cl_weights demo_conv) 0)) ->
              in_bounds fm (extent (cl_bias demo_conv) 0) = true) /\
  InputLayer_getNeuron1 false (inputLayer demo_store) 4 = Fatal /\
  FullyConnectedLayer_getNeuron1 demo_fc 4 = Fatal.
Proof.
  apply (index_validation true 2 0%Q 1 1 1 2 2 1 1 Q_ReLU_compute Q_ReLU_deriv
           demo_params demo_conv demo_store 2 (inputLayer demo_store)
           demo_fc 4).
  - reflexivity.
  - reflexivity.
  - vm_compute. discriminate.
  - vm_compute. discriminate.
Defined.

(** ** The fuel of the backward-error lookup

    In a chain in which every pooling layer points to the next position of
    [layers], the lookup passes at most the layers that are left, so the
    number of layers is fuel enough. *)

Lemma fueled_bind {A B : Type} (m : result A) (k : A -> result B) :
  fueled m -> (forall a, fueled (k a)) -> fueled (bind m k).
Proof. unfold fueled. destruct m; cbn; auto; congruence. Qed.

Lemma fueled_arr_get {T : Type} (a : list T) (i : Z) : fueled (arr_get a i).
Proof.
  unfold fueled, arr_get. destruct (in_bounds _ _); [| discriminate].
  destruct (a !! Z.to_nat i); discriminate.
Qed.

Lemma fueled_ma_offset (NDEBUG : bool) (exts idxs : list Z) (acc : Z) :
  fueled (ma_offset NDEBUG exts idxs acc).
Proof.
  revert idxs acc. induction exts as [| e exts IH]; intros [| i idxs] acc; cbn;
    try discriminate.
  apply fueled_bind; [| intros; apply IH].
  unfold fueled, BOOST_ASSERT. destruct (in_bounds i e), NDEBUG; discriminate.
Qed.

Lemma fueled_ma_get {T : Type} (NDEBUG : bool) (a : multi_array T)
    (idxs : list Z) : fueled (ma_get NDEBUG a idxs).
Proof.
  unfold ma_get. apply fueled_bind; [apply fueled_ma_offset |].
  intros off. apply fueled_arr_get.
Qed.

Lemma fueled_UNREACHABLE {A : Type} (NDEBUG : bool) :
  fueled (@UNREACHABLE NDEBUG A).
Proof. unfold fueled, UNREACHABLE. destruct NDEBUG; discriminate. Qed.

Lemma fueled_deref {F : Type} {RO : RandomOps F} (s : @Store F RO) (p : ptr) :
  fueled (deref s p).
Proof.
  unfold fueled, deref. destruct p as [| | i]; try discriminate.
  destruct (layers s !! i); discriminate.
Qed.

Lemma fueled_Layer_getBwdError1 {F : Type} {FO : FloatOps F} {RO : RandomOps F}
    (NDEBUG : bool) (s : @Store F RO) (p : ptr) (index mb : Z) :
  fueled (Layer_getBwdError1 NDEBUG s p index mb).
Proof.
  unfold Layer_getBwdError1. apply fueled_bind; [apply fueled_deref |].
  intros []; try apply fueled_UNREACHABLE; apply fueled_ma_get.
Qed.

Lemma chain_fuel_suffices {F : Type} {FO : FloatOps F} {RO : RandomOps F}
    (NDEBUG : bool) (s : @Store F RO) (fuel i : nat) (x y z mb : Z) :
  pooling_chain_wired s ->
  (length (layers s) - i <= fuel)%nat ->
  fueled (Layer_getBwdError3 NDEBUG fuel s (PLayer i) x y z mb).
Proof.
  intros Hwired. revert i x y z.
  induction fuel as [| fuel IH]; intros i x y z Hfuel.
  - unfold fueled. cbn.
    rewrite (proj2 (lookup_ge_None (layers s) i)) by lia. discriminate.
  - cbn [Layer_getBwdError3 deref].
    destruct (layers s !! i) as [l |] eqn:Hl; [| discriminate].
    cbn [bind].
    destruct l as [il | fc | sm | cv | mp];
      try apply fueled_UNREACHABLE; [apply fueled_ma_get |].
    unfold MaxPoolLayer_getBwdError. rewrite (Hwired i mp Hl).
    apply fueled_bind; [unfold fueled, udiv; destruct (_ =? 0); discriminate |].
    intros nX.
    apply fueled_bind; [unfold fueled, udiv; destruct (_ =? 0); discriminate |].
    intros nY.
    apply fueled_bind.
    { unfold Layer_getNumDims. apply fueled_bind; [apply fueled_deref |].
      intros []; discriminate. }
    intros dims. destruct (dims =? 1).
    + apply fueled_Layer_getBwdError1.
    + apply IH. lia.
Qed.

(** * Further properties of the engine *)

(** ** Multi-dimensional arrays: one offset per index tuple *)

Lemma ma_offset_Ok_in_range (NDEBUG : bool) (exts idxs : list Z) (acc off : Z) :
  ma_offset NDEBUG exts idxs acc = Ok off ->
  Forall2 (fun i e => 0 <= i < e) idxs exts.
Proof.
  revert idxs acc. induction exts as [| e exts IH]; intros [| i idxs] acc E;
    cbn in E; try discriminate.
  - constructor.
  - bind_inv E. destruct v. apply BOOST_ASSERT_Ok, in_bounds_spec in E0.
    constructor; [exact E0 | eapply IH; exact E].
Qed.

Lemma ma_offset_build (NDEBUG NDEBUG' : bool) (exts idxs : list Z) (acc off : Z) :
  ma_offset NDEBUG exts idxs acc = Ok off ->
  ma_offset NDEBUG' exts idxs acc = Ok off.
Proof.
  revert idxs acc. induction exts as [| e exts IH]; intros [| i idxs] acc E;
    cbn in E; try discriminate.
  - exact E.
  - bind_inv E. destruct v. apply BOOST_ASSERT_Ok in E0.
    cbn [ma_offset]. rewrite E0. cbn. apply IH. exact E.
Qed.

Lemma ma_offset_inj (NDEBUG : bool) (exts idxs idxs' : list Z)
    (acc acc' off : Z) :
  ma_offset NDEBUG exts idxs acc = Ok off ->
  ma_offset NDEBUG exts idxs' acc' = Ok off ->
  acc = acc' /\ idxs = idxs'.
Proof.
  revert idxs idxs' acc acc'.
  induction exts as [| e exts IH]; intros [| i idxs] [| i' idxs'] acc acc' E E';
    cbn in E, E'; try discriminate.
  - split; congruence.
  - bind_inv E. bind_inv E'. destruct v, v0.
    apply BOOST_ASSERT_Ok, in_bounds_spec in E0.
    apply BOOST_ASSERT_Ok, in_bounds_spec in E1.
    destruct (IH _ _ _ _ E E') as [Hacc ->].
    assert (acc = acc') by nia. subst acc'.
    split; [reflexivity |]. f_equal. lia.
Qed.

Lemma ma_get_set_same {T : Type} (NDEBUG : bool) (a a' : multi_array T)
    (idxs : list Z) (v : T) :
  ma_set NDEBUG a idxs v = Ok a' -> ma_get NDEBUG a' idxs = Ok v.
Proof.
  intros E. apply ma_set_elements in E. destruct E as (off & Hoff & Hb & ->).
  unfold ma_get. cbn [shape elements]. rewrite Hoff. cbn [bind].
  rewrite arr_get_insert by exact Hb. rewrite Z.eqb_refl. reflexivity.
Qed.

Lemma ma_get_set_other {T : Type} (NDEBUG : bool) (a a' : multi_array T)
    (idxs idxs' : list Z) (v : T) :
  ma_set NDEBUG a idxs v = Ok a' -> idxs' <> idxs ->
  ma_get NDEBUG a' idxs' = ma_get NDEBUG a idxs'.
Proof.
  intros E Hne. apply ma_set_elements in E.
  destruct E as (off & Hoff & Hb & ->).
  unfold ma_get. cbn [shape elements].
  destruct (ma_offset NDEBUG (shape a) idxs' 0) as [off' | | |] eqn:Hoff';
    try reflexivity.
  cbn [bind]. rewrite arr_get_insert by exact Hb.
  destruct (Z.eqb_spec off' off) as [-> | _]; [| reflexivity].
  destruct (ma_offset_inj _ _ _ _ _ _ _ Hoff' Hoff) as [_ ->]. contradiction.
Qed.

Lemma ma_set_shape {T : Type} (NDEBUG : bool) (a a' : multi_array T)
    (idxs : list Z) (v : T) :
  ma_set NDEBUG a idxs v = Ok a' ->
  shape a' = shape a /\ length (elements a') = length (elements a).
Proof.
  intros E. apply ma_set_elements in E. destruct E as (off & _ & _ & ->).
  cbn. rewrite length_insert. auto.
Qed.

(** *** Arrays filled by a constructor loop *)

Lemma urange_lookup (n : Z) (i : nat) :
  (i < Z.to_nat n)%nat -> urange n !! i = Some (Z.of_nat i).
Proof.
  intros Hi. unfold urange. rewrite list_lookup_fmap.
  rewrite lookup_seq_lt by exact Hi. reflexivity.
Qed.

Lemma length_urange (n : Z) : length (urange n) = Z.to_nat n.
Proof. unfold urange. rewrite length_map, length_seq. reflexivity. Qed.

Lemma length_flat_map_uniform {A B : Type} (g : A -> list B) (l : list A)
    (m : nat) :
  (forall x, length (g x) = m) -> length (flat_map g l) = (length l * m)%nat.
Proof.
  intros Hg. induction l as [| x l IH]; [reflexivity |].
  cbn. rewrite length_app, Hg, IH. reflexivity.
Qed.

Lemma lookup_flat_map_uniform {A B : Type} (g : A -> list B) (l : list A)
    (m i j : nat) (x : A) :
  (forall x, length (g x) = m) -> l !! i = Some x -> (j < m)%nat ->
  flat_map g l !! (i * m + j)%nat = g x !! j.
Proof.
  intros Hg. revert i. induction l as [| y l IH]; intros i Hi Hj; [discriminate |].
  cbn [flat_map]. destruct i as [| i]; cbn in Hi.
  - injection Hi as ->. cbn. apply lookup_app_l. rewrite Hg. exact Hj.
  - rewrite lookup_app_r by (rewrite Hg; lia).
    rewrite Hg. replace (S i * m + j - m)%nat with (i * m + j)%nat by lia.
    apply IH; assumption.
Qed.

Lemma length_tabulate3 {T : Type} (d0 d1 d2 : Z) (f : Z -> Z -> Z -> T) :
  length (tabulate3 d0 d1 d2 f) =
  (Z.to_nat d0 * (Z.to_nat d1 * Z.to_nat d2))%nat.
Proof.
  unfold tabulate3.
  rewrite (length_flat_map_uniform _ _ (Z.to_nat d1 * Z.to_nat d2)).
  - rewrite length_urange. reflexivity.
  - intros i. rewrite (length_flat_map_uniform _ _ (Z.to_nat d2)).
    + rewrite length_urange. reflexivity.
    + intros j. rewrite length_map, length_urange. reflexivity.
Qed.

Lemma tabulate3_lookup {T : Type} (d0 d1 d2 : Z) (f : Z -> Z -> Z -> T)
    (i j k : Z) :
  0 <= i < d0 -> 0 <= j < d1 -> 0 <= k < d2 ->
  tabulate3 d0 d1 d2 f !! Z.to_nat ((i * d1 + j) * d2 + k) = Some (f i j k).
Proof.
  intros Hi Hj Hk. unfold tabulate3.
  replace (Z.to_nat ((i * d1 + j) * d2 + k))
    with (Z.to_nat i * (Z.to_nat d1 * Z.to_nat d2)
          + (Z.to_nat j * Z.to_nat d2 + Z.to_nat k))%nat by nia.
  rewrite (lookup_flat_map_uniform _ _ (Z.to_nat d1 * Z.to_nat d2) _ _
             (Z.of_nat (Z.to_nat i))).
  - rewrite (lookup_flat_map_uniform _ _ (Z.to_nat d2) _ _
               (Z.of_nat (Z.to_nat j))).
    + rewrite list_lookup_fmap, urange_lookup by lia. cbn.
      rewrite !Z2Nat.id by lia. reflexivity.
    + intros y. rewrite length_map, length_urange. reflexivity.
    + apply urange_lookup. lia.
    + lia.
  - intros x. rewrite (length_flat_map_uniform _ _ (Z.to_nat d2)).
    + rewrite length_urange. reflexivity.
    + intros y. rewrite length_map, length_urange. reflexivity.
  - apply urange_lookup. lia.
  - nia.
Qed.

Lemma tabulate3_well_formed {T : Type} (d0 d1 d2 : Z) (f : Z -> Z -> Z -> T) :
  0 <= d0 -> 0 <= d1 -> 0 <= d2 ->
  well_formed (mkArray [d0; d1; d2] (tabulate3 d0 d1 d2 f)).
Proof.
  intros H0 H1 H2. unfold well_formed, num_elements. cbn.
  rewrite length_tabulate3. nia.
Qed.

Lemma ma_get_tabulate3 {T : Type} (NDEBUG : bool) (d0 d1 d2 : Z)
    (f : Z -> Z -> Z -> T) (i j k : Z) :
  0 <= i < d0 -> 0 <= j < d1 -> 0 <= k < d2 ->
  ma_get NDEBUG (mkArray [d0; d1; d2] (tabulate3 d0 d1 d2 f)) [i; j; k]
  = Ok (f i j k).
Proof.
  intros Hi Hj Hk. unfold ma_get. cbn [shape elements ma_offset].
  rewrite (proj2 (in_bounds_spec i d0)) by lia.
  rewrite (proj2 (in_bounds_spec j d1)) by lia.
  rewrite (proj2 (in_bounds_spec k d2)) by lia.
  unfold BOOST_ASSERT. cbn [bind].
  replace (((0 * d0 + i) * d1 + j) * d2 + k) with ((i * d1 + j) * d2 + k) by lia.
  apply arr_get_Ok. split.
  - apply in_bounds_spec. rewrite length_tabulate3.
    rewrite !Nat2Z.inj_mul, !Z2Nat.id by lia.
    assert (i * d1 + j + 1 <= d0 * d1) by nia.
    assert ((i * d1 + j + 1) * d2 <= (d0 * d1) * d2)
      by (apply Z.mul_le_mono_nonneg_r; lia).
    assert (0 <= (i * d1 + j) * d2) by (apply Z.mul_nonneg_nonneg; nia).
    lia.
  - apply tabulate3_lookup; assumption.
Qed.

(** ** Loops with a position-indexed invariant *)

Lemma foldM_steps {A S : Type} (P : nat -> S -> Prop)
    (body : S -> A -> result S) (l : list A) (s : S) :
  P O s ->
  (forall k x s, l !! k = Some x -> P k s ->
     exists s', body s x = Ok s' /\ P (Datatypes.S k) s') ->
  exists s', foldM body l s = Ok s' /\ P (length l) s'.
Proof.
  revert P s. induction l as [| x l IH]; intros P s H0 Hstep; cbn.
  - eauto.
  - destruct (Hstep O x s eq_refl H0) as (s1 & -> & H1). cbn [bind].
    apply (IH (fun k => P (Datatypes.S k))); [exact H1 |].
    intros k y s2 Hy HP. apply (Hstep (Datatypes.S k) y s2 Hy HP).
Qed.

Lemma ma_get_in_range {T : Type} (NDEBUG : bool) (a : multi_array T)
    (idxs : list Z) :
  well_formed a ->
  Forall2 (fun i e => 0 <= i < e) idxs (shape a) ->
  exists v, ma_get NDEBUG a idxs = Ok v /\ In v (elements a).
Proof.
  intros Hwf Hidx. unfold ma_get.
  destruct (ma_offset_in_range NDEBUG _ _ 0 Hidx) as (off & Hoff).
  rewrite Hoff. cbn [bind].
  pose proof (ma_offset_range _ _ _ _ _ Hoff) as Hrange.
  assert (Hlt : (Z.to_nat off < length (elements a))%nat).
  { rewrite Hwf. unfold num_elements. lia. }
  destruct (lookup_lt_is_Some_2 _ _ Hlt) as [v Hv].
  exists v. split.
  - apply arr_get_Ok. split; [| exact Hv].
    apply in_bounds_spec. rewrite Hwf. unfold num_elements. lia.
  - apply list_elem_of_In. eapply list_elem_of_lookup_2. exact Hv.
Qed.

Lemma In_insert {T : Type} (l : list T) (k : nat) (v x : T) :
  In x (<[k := v]> l) -> x = v \/ In x l.
Proof.
  revert k. induction l as [| y l IH]; intros k; [intros [] |].
  destruct k as [| k]; cbn.
  - intros [<- | H]; auto.
  - intros [<- | H]; auto. destruct (IH k H); auto.
Qed.

(** ** The image in the input layer *)

Section InputLayerImage.

Context {F : Type} {FO : FloatOps F}.
Variable NDEBUG : bool.
Variable mbSize : Z.

Lemma InputLayer_new_ok (u : F) (imageX imageY : Z) :
  0 <= imageX -> 0 <= imageY -> 0 <= mbSize ->
  InputLayer_ok mbSize (InputLayer_new mbSize u imageX imageY).
Proof.
  intros HX HY Hmb. unfold InputLayer_ok, InputLayer_new. cbn.
  split; [reflexivity |]. split; [apply tabulate3_well_formed; lia |].
  intros n Hn. unfold tabulate3 in Hn.
  apply in_flat_map in Hn. destruct Hn as (x & _ & Hn).
  apply in_flat_map in Hn. destruct Hn as (y & _ & Hn).
  apply in_map_iff in Hn. destruct Hn as (z & <- & _).
  cbn. unfold scratch. rewrite repeat_length. lia.
Qed.

Lemma setImage_step (l : @InputLayer F) (image : list F) (mb i : Z) (v : F) :
  InputLayer_ok mbSize l ->
  0 < il_imageX l ->
  0 <= i < il_imageX l * il_imageY l ->
  0 <= mb < mbSize ->
  arr_get image i = Ok v ->
  exists ns,
    (let* pixel := arr_get image i in
     let* x := umod i (il_imageX l) in
     let* y := udiv i (il_imageX l) in
     let* n := ma_get NDEBUG (il_neurons l) [x; y; 0] in
     let* n' := set_activation n mb pixel in
     let* ns := ma_set NDEBUG (il_neurons l) [x; y; 0] n' in
     Ok (mkInputLayer (il_imageX l) (il_imageY l) ns))
    = Ok (mkInputLayer (il_imageX l) (il_imageY l) ns) /\
    InputLayer_ok mbSize (mkInputLayer (il_imageX l) (il_imageY l) ns) /\
    InputLayer_pixel NDEBUG (mkInputLayer (il_imageX l) (il_imageY l) ns)
             (i mod il_imageX l) (i / il_imageX l) mb = Ok v /\
    forall x y, (x, y) <> (i mod il_imageX l, i / il_imageX l) ->
      InputLayer_pixel NDEBUG (mkInputLayer (il_imageX l) (il_imageY l) ns) x y mb =
      InputLayer_pixel NDEBUG l x y mb.
Proof.
  intros (Hshape & Hwf & Hlen) HX Hi Hmb Hv.
  set (X := il_imageX l) in *. set (Y := il_imageY l) in *.
  assert (Hx : 0 <= i mod X < X) by (apply Z.mod_pos_bound; lia).
  assert (Hy : 0 <= i / X < Y).
  { split; [apply Z.div_pos; lia |].
    apply Z.div_lt_upper_bound; [lia |]. lia. }
  rewrite Hv. cbn [bind]. rewrite umod_ok, udiv_ok by lia. cbn [bind].
  assert (Hidx : Forall2 (fun i e => 0 <= i < e) [i mod X; i / X; 0]
                         (shape (il_neurons l))).
  { rewrite Hshape. repeat constructor; lia. }
  destruct (ma_get_in_range NDEBUG _ _ Hwf Hidx) as (n & Hn & Hin).
  rewrite Hn. cbn [bind].
  assert (Hb : in_bounds mb (Z.of_nat (length (activations n))) = true).
  { apply in_bounds_spec. rewrite (Hlen n Hin). exact Hmb. }
  unfold set_activation. rewrite arr_set_in_bounds by exact Hb. cbn [bind].
  match goal with
  | |- context [ma_set NDEBUG _ _ ?n'] =>
      destruct (ma_set_in_range NDEBUG (il_neurons l) [i mod X; i / X; 0] n'
                  Hwf Hidx) as (ns & Hset & Hs & Hwf')
  end.
  rewrite Hset. cbn [bind]. exists ns. split; [reflexivity |].
  split; [| split].
  - split; [cbn; congruence |]. split; [exact Hwf' |].
    cbn [il_neurons]. intros m Hm.
    apply ma_set_elements in Hset. destruct Hset as (off & _ & _ & ->).
    cbn [elements] in Hm. apply In_insert in Hm. destruct Hm as [-> | Hm].
    + cbn. rewrite length_insert. apply Hlen. exact Hin.
    + apply Hlen. exact Hm.
  - unfold InputLayer_pixel. cbn [il_neurons]. rewrite (ma_get_set_same _ _ _ _ _ Hset).
    cbn [bind activations]. rewrite arr_get_insert by exact Hb.
    rewrite Z.eqb_refl. reflexivity.
  - intros x y Hne. unfold InputLayer_pixel. cbn [il_neurons].
    rewrite (ma_get_set_other _ _ _ _ [x; y; 0] _ Hset); [reflexivity |].
    intros E. apply Hne. congruence.
Qed.

Lemma setImage_loop (l : @InputLayer F) (image : list F) (mb : Z) :
  InputLayer_ok mbSize l ->
  0 < il_imageX l ->
  Z.of_nat (length image) = il_imageX l * il_imageY l ->
  0 <= mb < mbSize ->
  exists l',
    foldM (fun l i =>
             let* pixel := arr_get image i in
             let* x := umod i (il_imageX l) in
             let* y := udiv i (il_imageX l) in
             let* n := ma_get NDEBUG (il_neurons l) [x; y; 0] in
             let* n' := set_activation n mb pixel in
             let* ns := ma_set NDEBUG (il_neurons l) [x; y; 0] n' in
             Ok (mkInputLayer (il_imageX l) (il_imageY l) ns))
          (urange (Z.of_nat (length image))) l = Ok l' /\
    InputLayer_ok mbSize l' /\
    il_imageX l' = il_imageX l /\ il_imageY l' = il_imageY l /\
    forall i, 0 <= i < Z.of_nat (length image) ->
      InputLayer_pixel NDEBUG l' (i mod il_imageX l) (i / il_imageX l) mb = arr_get image i.
Proof.
  intros Hok HX Hsize Hmb.
  set (X := il_imageX l). set (Y := il_imageY l).
  set (P := fun (k : nat) (l1 : @InputLayer F) =>
              InputLayer_ok mbSize l1 /\ il_imageX l1 = X /\ il_imageY l1 = Y /\
              forall i, 0 <= i < Z.of_nat k ->
                InputLayer_pixel NDEBUG l1 (i mod X) (i / X) mb = arr_get image i).
  match goal with
  | |- exists l', foldM ?body ?lst l = Ok l' /\ _ =>
      destruct (foldM_steps P body lst l) as (l' & Hl' & HP)
  end.
  - repeat split; try apply Hok; try reflexivity. intros i Hi. lia.
  - intros k i l1 Hk (Hok1 & HX1 & HY1 & Hpix).
    assert (Hkn : (k < Z.to_nat (Z.of_nat (length image)))%nat).
    { apply lookup_lt_Some in Hk. rewrite length_urange in Hk. exact Hk. }
    rewrite urange_lookup in Hk by exact Hkn. injection Hk as <-.
    assert (Hv : exists v, arr_get image (Z.of_nat k) = Ok v).
    { destruct (lookup_lt_is_Some_2 image k) as [v Hv]; [lia |].
      exists v. apply arr_get_Ok. rewrite Nat2Z.id. split; [| exact Hv].
      apply in_bounds_spec. lia. }
    destruct Hv as (v & Hv).
    destruct (setImage_step l1 image mb (Z.of_nat k) v Hok1) as
      (ns & Hstep & Hok2 & Hsame & Hother);
      [rewrite HX1; exact HX | rewrite HX1, HY1; fold X Y; lia | exact Hmb
      | exact Hv |].
    eexists. split; [exact Hstep |].
    split; [exact Hok2 |]. split; [exact HX1 |]. split; [exact HY1 |].
    intros i Hi. cbn [il_imageX il_imageY].
    destruct (Z.eq_dec i (Z.of_nat k)) as [-> | Hne].
    + rewrite <- HX1. rewrite Hsame. symmetry. exact Hv.
    + rewrite <- (Hpix i) by lia. rewrite <- HX1. apply Hother.
      intros E. injection E as E1 E2. apply Hne.
      rewrite (Z.div_mod i (il_imageX l1)),
              (Z.div_mod (Z.of_nat k) (il_imageX l1)) by (rewrite HX1; unfold X; lia).
      rewrite E1, E2. reflexivity.
  - rewrite length_urange, Nat2Z.id in HP.
    destruct HP as (Hok' & HX' & HY' & Hpix).
    exists l'. repeat split; try assumption; try apply Hok'.
Qed.

(** X1: on an input layer in the state its constructor and earlier calls of
    [setImage] leave it, [setImage(image, mb)] with an image of
    [imageX * imageY] pixels returns, and afterwards the activation in slot
    [mb] of [getNeuron(i)] is [image[i]] and that of [getNeuron(x, y, 0)]
    is [image[y * imageX + x]]: the image is stored with [x] running
    fastest. *)
Theorem InputLayer_setImage_getNeuron (l : @InputLayer F) (image : list F)
    (mb : Z) :
  InputLayer_ok mbSize l ->
  0 < il_imageX l ->
  Z.of_nat (length image) = il_imageX l * il_imageY l ->
  il_imageX l * il_imageY l < UINT_MODULUS ->
  0 <= mb < mbSize ->
  exists l',
    InputLayer_setImage NDEBUG l image mb = Ok l' /\
    InputLayer_ok mbSize l' /\
    (forall i, 0 <= i < il_imageX l * il_imageY l ->
       InputLayer_activation1 NDEBUG l' i mb = arr_get image i) /\
    (forall x y, 0 <= x < il_imageX l -> 0 <= y < il_imageY l ->
       InputLayer_activation3 NDEBUG l' x y 0 mb =
       arr_get image (y * il_imageX l + x)).
Proof.
  intros Hok HX Hsize _ Hmb.
  destruct (setImage_loop l image mb Hok HX Hsize Hmb)
    as (l' & Hloop & Hok' & HX' & HY' & Hpix).
  assert (Hnum : num_elements (il_neurons l) = il_imageX l * il_imageY l).
  { destruct Hok as (Hs & _). unfold num_elements. rewrite Hs. cbn. lia. }
  assert (Hnum' : num_elements (il_neurons l') = il_imageX l * il_imageY l).
  { destruct Hok' as (Hs & _). unfold num_elements. rewrite Hs, HX', HY'.
    cbn. lia. }
  exists l'. split; [| split; [exact Hok' | split]].
  - unfold InputLayer_setImage. rewrite Hnum, Hsize, Z.eqb_refl.
    replace (assert NDEBUG true) with (Ok (A := unit) tt)
      by (unfold assert; destruct NDEBUG; reflexivity).
    cbn [bind]. rewrite <- Hsize. exact Hloop.
  - intros i Hi. unfold InputLayer_activation1, InputLayer_getNeuron1.
    rewrite Hnum'. rewrite (proj2 (Z.ltb_lt _ _)) by lia.
    replace (assert NDEBUG true) with (Ok (A := unit) tt)
      by (unfold assert; destruct NDEBUG; reflexivity).
    cbn [bind]. rewrite HX', umod_ok, udiv_ok by lia. cbn [bind].
    apply (Hpix i). lia.
  - intros x y Hx Hy. unfold InputLayer_activation3, InputLayer_getNeuron3.
    cbn [Z.eqb].
    replace (assert NDEBUG true) with (Ok (A := unit) tt)
      by (unfold assert; destruct NDEBUG; reflexivity).
    cbn [bind].
    assert (Hi : 0 <= y * il_imageX l + x < Z.of_nat (length image)) by nia.
    rewrite <- (Hpix _ Hi).
    replace ((y * il_imageX l + x) mod il_imageX l) with x.
    + replace ((y * il_imageX l + x) / il_imageX l) with y; [reflexivity |].
      rewrite Z.div_add_l by lia. rewrite Z.div_small by lia. lia.
    + rewrite Z.add_comm, Z.mod_add by lia. symmetry. apply Z.mod_small. lia.
Qed.

End InputLayerImage.

Lemma InputLayer_setImage_getNeuron_witness :
  exists l',
    InputLayer_setImage false (inputLayer demo_store) fc_image 0 = Ok l' /\
    InputLayer_ok 2 l' /\
    (forall i, 0 <= i < 2 * 2 ->
       InputLayer_activation1 false l' i 0 = arr_get fc_image i) /\
    (forall x y, 0 <= x < 2 -> 0 <= y < 2 ->
       InputLayer_activation3 false l' x y 0 0 = arr_get fc_image (y * 2 + x)).
Proof.
  apply (InputLayer_setImage_getNeuron false 2 (inputLayer demo_store)
           fc_image 0).
  - apply (InputLayer_new_ok 2 0%Q 2 2); lia.
  - reflexivity.
  - reflexivity.
  - reflexivity.
  - lia.
Defined.

(** ** The wiring network construction leaves *)

Lemma foldM_steps_Ok {A S : Type} (P : nat -> S -> Prop)
    (body : S -> A -> result S) (l : list A) (s s' : S) :
  P O s ->
  (forall k x s s', l !! k = Some x -> P k s -> body s x = Ok s' ->
     P (Datatypes.S k) s') ->
  foldM body l s = Ok s' -> P (length l) s'.
Proof.
  revert P s. induction l as [| x l IH]; intros P s H0 Hstep E; cbn in E.
  - injection E as <-. exact H0.
  - destruct (body s x) as [s1 | | |] eqn:E1; cbn in E; try discriminate.
    apply (IH (fun k => P (Datatypes.S k)) s1);
      [exact (Hstep O x s s1 eq_refl H0 E1) | | exact E].
    intros k y s2 s3 Hy HP Hb. exact (Hstep (Datatypes.S k) y s2 s3 Hy HP Hb).
Qed.

Section Wiring.

Context {F : Type} {FO : FloatOps F} {RO : RandomOps F}.
Variable NDEBUG : bool.

Local Abbreviation table := pointer_table (only parsing).

Lemma table_put_layer (s : @Store F RO) (this : nat) (l l' : Layer) :
  layers s !! this = Some l ->
  table (put_layer s this l') = <[this := Layer_pointers l']> (table s).
Proof. intros _. unfold pointer_table, put_layer. cbn. apply map_insert. Qed.

Lemma table_put_layer_same (s : @Store F RO) (this : nat) (l l' : Layer) :
  layers s !! this = Some l ->
  Layer_pointers l' = Layer_pointers l ->
  table (put_layer s this l') = table s.
Proof.
  intros Hl Hsame. unfold pointer_table, put_layer. cbn.
  eapply map_insert_same; eassumption.
Qed.

(** *** Weight initialisation moves no pointer *)

Lemma FullyConnectedNeuron_initialiseDefaultWeights_pointers
    (s : @Store F RO) (n n' : FullyConnectedNeuron) g g' :
  FullyConnectedNeuron_initialiseDefaultWeights s n g = Ok (n', g') ->
  fcn_inputs n' = fcn_inputs n /\ fcn_outputs n' = fcn_outputs n.
Proof.
  unfold FullyConnectedNeuron_initialiseDefaultWeights. intros E. bind_inv E.
  destruct v0 as [[w d] g1]. destruct (normal_draw d g1) as [[b d2] g2].
  injection E as <- <-. split; reflexivity.
Qed.

Lemma FullyConnectedLayer_initialiseDefaultWeights_pointers
    (s s' : @Store F RO) (this : nat) :
  FullyConnectedLayer_initialiseDefaultWeights s this = Ok s' ->
  table s' = table s.
Proof.
  unfold FullyConnectedLayer_initialiseDefaultWeights. intros E. bind_inv E.
  revert E. apply (foldM_invariant (fun s1 => table s1 = table s));
    [| reflexivity].
  intros s1 k s2 Hs1 E. bind_inv E. destruct v2 as [n' gen].
  injection E as <-. apply this_FullyConnected_Ok in E1.
  apply vector_element in E2.
  apply FullyConnectedNeuron_initialiseDefaultWeights_pointers in E3.
  destruct E3 as [Hi Ho]. rewrite <- Hs1.
  change (table (with_generator ?s ?g)) with (table s).
  eapply table_put_layer_same; [eassumption |].
  cbn. f_equal. eapply map_insert_same; [eassumption |]. congruence.
Qed.

Lemma SoftMaxLayer_initialiseDefaultWeights_pointers
    (s s' : @Store F RO) (this : nat) :
  SoftMaxLayer_initialiseDefaultWeights s this = Ok s' ->
  table s' = table s.
Proof.
  unfold SoftMaxLayer_initialiseDefaultWeights. intros E. bind_inv E.
  revert E. apply (foldM_invariant (fun s1 => table s1 = table s));
    [| reflexivity].
  intros s1 k s2 Hs1 E. bind_inv E. destruct v2 as [n' gen].
  injection E as <-. apply this_SoftMax_Ok in E1.
  apply vector_element in E2.
  apply FullyConnectedNeuron_initialiseDefaultWeights_pointers in E3.
  destruct E3 as [Hi Ho]. rewrite <- Hs1.
  change (table (with_generator ?s ?g)) with (table s).
  eapply table_put_layer_same; [eassumption |].
  cbn. f_equal. eapply map_insert_same; [eassumption |]. congruence.
Qed.

Lemma ConvLayer_initialiseDefaultWeights_pointers
    (s s' : @Store F RO) (this : nat) :
  ConvLayer_initialiseDefaultWeights NDEBUG s this = Ok s' ->
  table s' = table s.
Proof.
  unfold ConvLayer_initialiseDefaultWeights. intros E. bind_inv E.
  destruct v0 as [[[weights bias] d] gen]. injection E as <-.
  apply this_Conv_Ok in E0.
  change (table (with_generator ?s ?g)) with (table s).
  eapply table_put_layer_same; [eassumption | reflexivity].
Qed.

Lemma Layer_initialiseDefaultWeights_pointers (s s' : @Store F RO) (this : ptr) :
  Layer_initialiseDefaultWeights NDEBUG s this = Ok s' -> table s' = table s.
Proof.
  unfold Layer_initialiseDefaultWeights. intros E. apply dispatch_Ok in E.
  destruct E as (i & [E | [E | [E | E]]]);
    eauto using FullyConnectedLayer_initialiseDefaultWeights_pointers,
      SoftMaxLayer_initialiseDefaultWeights_pointers,
      ConvLayer_initialiseDefaultWeights_pointers.
  injection E as <-. reflexivity.
Qed.

(** *** [setInputs] and [setOutputs] rewrite one row *)

Lemma Layer_setInputs_pointers (s s' : @Store F RO) (i : nat) (p : ptr) :
  Layer_setInputs NDEBUG s (PLayer i) p = Ok s' ->
  exists row, table s !! i = Some row /\
              table s' = <[i := with_first p row]> (table s).
Proof.
  unfold Layer_setInputs, dispatch. intros E.
  destruct (layers s !! i) as [l |] eqn:Hl; [| discriminate].
  exists (Layer_pointers l). split.
  { unfold pointer_table. rewrite map_lookup, Hl. reflexivity. }
  destruct l as [il | fc | sm | cv | mp].
  - exfalso. exact (UNREACHABLE_not_Ok _ _ E).
  - unfold FullyConnectedLayer_setInputs, this_FullyConnected in E.
    rewrite Hl in E. cbn in E. injection E as <-.
    rewrite (table_put_layer _ _ _ _ Hl). f_equal. cbn.
    unfold with_first. cbn. f_equal. rewrite !map_map. reflexivity.
  - unfold SoftMaxLayer_setInputs, this_SoftMax in E.
    rewrite Hl in E. cbn in E. injection E as <-.
    rewrite (table_put_layer _ _ _ _ Hl). f_equal. cbn.
    unfold with_first. cbn. f_equal. rewrite !map_map. reflexivity.
  - unfold ConvLayer_setInputs, this_Conv in E. rewrite Hl in E. cbn [bind] in E.
    bind_inv E. injection E as <-.
    rewrite (table_put_layer _ _ _ _ Hl). f_equal. cbn.
    unfold with_first. cbn. f_equal. rewrite !map_map. reflexivity.
  - unfold MaxPoolLayer_setInputs, this_MaxPool in E. rewrite Hl in E.
    cbn [bind] in E. bind_inv E. injection E as <-.
    rewrite (table_put_layer _ _ _ _ Hl). reflexivity.
Qed.

Lemma Layer_setOutputs_pointers (s s' : @Store F RO) (i : nat) (p : ptr) :
  Layer_setOutputs NDEBUG s (PLayer i) p = Ok s' ->
  exists row, table s !! i = Some row /\
              table s' = <[i := with_second p row]> (table s).
Proof.
  unfold Layer_setOutputs, dispatch. intros E.
  destruct (layers s !! i) as [l |] eqn:Hl; [| discriminate].
  exists (Layer_pointers l). split.
  { unfold pointer_table. rewrite map_lookup, Hl. reflexivity. }
  destruct l as [il | fc | sm | cv | mp].
  - exfalso. exact (UNREACHABLE_not_Ok _ _ E).
  - unfold FullyConnectedLayer_setOutputs, this_FullyConnected in E.
    rewrite Hl in E. cbn in E. injection E as <-.
    rewrite (table_put_layer _ _ _ _ Hl). f_equal. cbn.
    unfold with_second. cbn. f_equal. rewrite !map_map. reflexivity.
  - exfalso. exact (UNREACHABLE_not_Ok _ _ E).
  - unfold ConvLayer_setOutputs, this_Conv in E. rewrite Hl in E. cbn in E.
    injection E as <-.
    rewrite (table_put_layer _ _ _ _ Hl). f_equal. cbn.
    unfold with_second. cbn. f_equal. rewrite !map_map. reflexivity.
  - unfold MaxPoolLayer_setOutputs, this_MaxPool in E. rewrite Hl in E.
    cbn in E. injection E as <-.
    rewrite (table_put_layer _ _ _ _ Hl). reflexivity.
Qed.

(** *** The two loops of the constructor *)

Lemma inputs_wired_insert (k : nat) (t : list (list (ptr * ptr)))
    (row : list (ptr * ptr)) :
  inputs_wired k t -> t !! k = Some row ->
  inputs_wired (S k) (<[k := with_first (predecessor k) row]> t).
Proof.
  intros Hw Hrow j r Hj Hlt.
  destruct (Nat.eq_dec j k) as [-> | Hne].
  - rewrite list_lookup_insert_eq in Hj by (eapply lookup_lt_Some; eassumption).
    injection Hj as <-. unfold with_first. apply Forall_map.
    apply Forall_forall. intros pq _. reflexivity.
  - rewrite list_lookup_insert_ne in Hj by congruence.
    apply (Hw j r Hj). lia.
Qed.

Lemma outputs_wired_insert (k n : nat) (t : list (list (ptr * ptr)))
    (row : list (ptr * ptr)) :
  inputs_wired n t -> outputs_wired k t -> t !! k = Some row ->
  inputs_wired n (<[k := with_second (PLayer (S k)) row]> t) /\
  outputs_wired (S k) (<[k := with_second (PLayer (S k)) row]> t).
Proof.
  intros Hin Hout Hrow. split; intros j r Hj Hlt.
  - destruct (Nat.eq_dec j k) as [-> | Hne].
    + rewrite list_lookup_insert_eq in Hj by (eapply lookup_lt_Some; eassumption).
      injection Hj as <-. unfold with_second. apply Forall_map.
      pose proof (Hin k row Hrow Hlt) as Hk.
      eapply Forall_impl; [exact Hk |]. intros pq Hpq. exact Hpq.
    + rewrite list_lookup_insert_ne in Hj by congruence.
      apply (Hin j r Hj Hlt).
  - destruct (Nat.eq_dec j k) as [-> | Hne].
    + rewrite list_lookup_insert_eq in Hj by (eapply lookup_lt_Some; eassumption).
      injection Hj as <-. unfold with_second. apply Forall_map.
      apply Forall_forall. intros pq _. reflexivity.
    + rewrite list_lookup_insert_ne in Hj by congruence.
      apply (Hout j r Hj). lia.
Qed.

Lemma Network_new_pointers
    (mbSize : Z) (u : F) (inputX inputY softMaxSize lastLayerSize : Z)
    (costFn : F -> F -> F) (costDelta : F -> F -> F -> F)
    (p : Params) (chain : list Layer) (s : @Store F RO) :
  Network_new NDEBUG mbSize u inputX inputY softMaxSize lastLayerSize
              costFn costDelta p chain = Ok s ->
  length (pointer_table s) = S (length chain) /\
  inputs_wired (S (length chain)) (pointer_table s) /\
  outputs_wired (length chain) (pointer_table s).
Proof.
  intros Hnew. unfold Network_new in Hnew.
  set (s0 := mkStore p (InputLayer_new mbSize u inputX inputY) _ _) in Hnew.
  assert (Hsize : length (layers s0) = S (length chain)).
  { unfold s0. cbn. rewrite length_app. cbn. lia. }
  rewrite Hsize in Hnew. cbn [Nat.sub] in Hnew.
  rewrite Nat.sub_0_r in Hnew.
  bind_inv Hnew.
  (* layers[0] *)
  destruct (Layer_setInputs_pointers _ _ _ _ E) as (row0 & Hrow0 & Ht1).
  apply Layer_initialiseDefaultWeights_pointers in E0.
  assert (H2 : length (pointer_table v0) = S (length chain) /\
               inputs_wired 1 (pointer_table v0)).
  { rewrite E0, Ht1. split.
    - rewrite length_insert. unfold pointer_table. rewrite length_map.
      exact Hsize.
    - apply (inputs_wired_insert 0); [| exact Hrow0]. intros j r _ Hlt. lia. }
  (* layers[1..] *)
  assert (H3 : length (pointer_table v1) = S (length chain) /\
               inputs_wired (S (length chain)) (pointer_table v1)).
  { pose (P := fun (k : nat) (s1 : @Store F RO) =>
                 length (pointer_table s1) = S (length chain) /\
                 inputs_wired (S k) (pointer_table s1)).
    pose proof (fun Hst => foldM_steps_Ok P _ _ _ _ H2 Hst E1) as Hloop.
    rewrite length_seq in Hloop. apply Hloop.
    intros k x s1 s2 Hx (Hlen & Hw) Hb.
    apply lookup_seq in Hx. destruct Hx as [-> _].
    bind_inv Hb.
    destruct (Layer_setInputs_pointers _ _ _ _ E2) as (row & Hrow & Ht).
    apply Layer_initialiseDefaultWeights_pointers in Hb.
    unfold P. rewrite Hb, Ht. split; [rewrite length_insert; exact Hlen |].
    replace (1 + k - 1)%nat with k by lia.
    apply (inputs_wired_insert (1 + k)); assumption. }
  (* outputs *)
  pose (R := fun (k : nat) (s1 : @Store F RO) =>
               length (pointer_table s1) = S (length chain) /\
               inputs_wired (S (length chain)) (pointer_table s1) /\
               outputs_wired k (pointer_table s1)).
  assert (HR0 : R O v1).
  { split; [apply H3 |]. split; [apply H3 |]. intros j r _ Hlt. lia. }
  pose proof (fun Hst => foldM_steps_Ok R _ _ _ _ HR0 Hst Hnew) as Hloop.
  rewrite length_seq in Hloop. apply Hloop.
  intros k x s1 s2 Hx (Hlen & Hin & Hout) Hb.
  apply lookup_seq in Hx. destruct Hx as [-> _]. cbn [Nat.add] in Hb.
  destruct (Layer_setOutputs_pointers _ _ _ _ Hb) as (row & Hrow & Ht).
  unfold R. rewrite Ht. split; [rewrite length_insert; exact Hlen |].
  replace (k + 1)%nat with (S k) by lia.
  apply outputs_wired_insert; assumption.
Qed.

(** X2: in a network that construction returns, the layer at position [i]
    and each of its neurons hold as [inputs] the input layer ([i = 0]) or
    the layer at position [i - 1], and, for every layer but the appended
    softmax layer, as [outputs] the layer at position [i + 1]. *)
Theorem Network_new_wires_the_chain
    (mbSize : Z) (u : F) (inputX inputY softMaxSize lastLayerSize : Z)
    (costFn : F -> F -> F) (costDelta : F -> F -> F -> F)
    (p : Params) (chain : list Layer) (s : @Store F RO) (i : nat) (l : Layer) :
  Network_new NDEBUG mbSize u inputX inputY softMaxSize lastLayerSize
              costFn costDelta p chain = Ok s ->
  layers s !! i = Some l ->
  length (layers s) = S (length chain) /\
  Forall (fun pq => fst pq = predecessor i /\
                    ((i < length chain)%nat -> snd pq = PLayer (S i)))
         (Layer_pointers l).
Proof.
  intros Hnew Hl.
  destruct (Network_new_pointers _ _ _ _ _ _ _ _ _ _ _ Hnew)
    as (Hlen & Hin & Hout).
  unfold pointer_table in Hlen. rewrite length_map in Hlen.
  split; [exact Hlen |].
  assert (Hrow : pointer_table s !! i = Some (Layer_pointers l)).
  { unfold pointer_table. rewrite map_lookup, Hl. reflexivity. }
  assert (Hi : (i < S (length chain))%nat).
  { rewrite <- Hlen. eapply lookup_lt_Some. exact Hl. }
  pose proof (Hin i _ Hrow Hi) as H1.
  apply Forall_forall. intros pq Hpq. split.
  - rewrite Forall_forall in H1. apply H1. exact Hpq.
  - intros Hlt. pose proof (Hout i _ Hrow Hlt) as H2.
    rewrite Forall_forall in H2. apply H2. exact Hpq.
Qed.

End Wiring.

Lemma Network_new_wires_the_chain_witness :
  length (layers cp_store) = 3%nat /\
  Forall (fun pq => fst pq = predecessor 1 /\
                    ((1 < length cp_chain)%nat -> snd pq = PLayer 2))
         (Layer_pointers
            (default (LInput (inputLayer cp_store)) (layers cp_store !! 1%nat))).
Proof.
  apply (Network_new_wires_the_chain false 2 0%Q 4 4 2 1 Q_Quadratic_compute
           Q_CrossEntropy_delta demo_params cp_chain cp_store 1).
  - unfold cp_store, cp_network. apply value_Ok. vm_compute. reflexivity.
  - vm_compute. reflexivity.
Defined.

(** ** The forwarding of backward errors ends *)

Section Forwarding.

Context {F : Type} {FO : FloatOps F} {RO : RandomOps F}.
Variable NDEBUG : bool.

Lemma Network_new_geometry
    (mbSize : Z) (u : F) (inputX inputY softMaxSize lastLayerSize : Z)
    (costFn : F -> F -> F) (costDelta : F -> F -> F -> F)
    (p : Params) (chain : list Layer) (s : @Store F RO) :
  Network_new NDEBUG mbSize u inputX inputY softMaxSize lastLayerSize
              costFn costDelta p chain = Ok s ->
  same_geometry
    (mkStore p (InputLayer_new mbSize u inputX inputY)
       (chain ++ [LSoftMax (SoftMaxLayer_new mbSize u softMaxSize lastLayerSize
                              costFn costDelta (learningRate p) (lambda p))])
       (engine_seed (seed p)))
    s.
Proof.
  intros Hnew. unfold Network_new in Hnew.
  set (s0 := mkStore p (InputLayer_new mbSize u inputX inputY) _ _) in *.
  bind_inv Hnew.
  apply Layer_setInputs_geometry in E.
  apply Layer_initialiseDefaultWeights_geometry in E0.
  assert (H1 : same_geometry s0 v1).
  { revert E1. apply foldM_invariant.
    - intros s1 i s2 Hs1 Hb. bind_inv Hb.
      apply Layer_setInputs_geometry in E1.
      apply Layer_initialiseDefaultWeights_geometry in Hb.
      eauto using same_geometry_trans.
    - eauto using same_geometry_trans. }
  revert Hnew. apply foldM_invariant; [| exact H1].
  intros s1 i s2 Hs1 Hb. apply Layer_setOutputs_geometry in Hb.
  eauto using same_geometry_trans.
Qed.

Lemma Network_new_pooling_chain_wired
    (mbSize : Z) (u : F) (inputX inputY softMaxSize lastLayerSize : Z)
    (costFn : F -> F -> F) (costDelta : F -> F -> F -> F)
    (p : Params) (chain : list Layer) (s : @Store F RO) :
  Network_new NDEBUG mbSize u inputX inputY softMaxSize lastLayerSize
              costFn costDelta p chain = Ok s ->
  pooling_chain_wired s.
Proof.
  intros Hnew i l Hl.
  destruct (Network_new_pointers _ _ _ _ _ _ _ _ _ _ _ _ Hnew)
    as (Hlen & _ & Hout).
  pose proof (Network_new_geometry _ _ _ _ _ _ _ _ _ _ _ Hnew) as [_ Hgeo].
  assert (Hi : (i < S (length chain))%nat).
  { rewrite <- Hlen. unfold pointer_table. rewrite length_map.
    eapply lookup_lt_Some. exact Hl. }
  assert (Hlt : (i < length chain)%nat).
  { destruct (Nat.eq_dec i (length chain)) as [-> | Hne]; [| lia].
    exfalso. apply (f_equal (fun t => t !! length chain)) in Hgeo.
    rewrite !map_lookup, Hl in Hgeo. cbn [layers] in Hgeo.
    rewrite lookup_app_r in Hgeo by lia. rewrite Nat.sub_diag in Hgeo.
    cbn in Hgeo. discriminate. }
  assert (Hrow : pointer_table s !! i = Some (Layer_pointers (LMaxPool l))).
  { unfold pointer_table. rewrite map_lookup, Hl. reflexivity. }
  pose proof (Hout i _ Hrow Hlt) as H. cbn in H.
  apply Forall_inv in H. exact H.
Qed.

(** X3: in a network that construction returns, a request
    [getBwdError(x, y, z, mb)] that pooling layers hand on from successor to
    successor reaches a layer that answers it or stops the program: the
    chain of forwarding calls never outlasts the number of layers. *)
Theorem Network_new_getBwdError_forwarding_ends
    (mbSize : Z) (u : F) (inputX inputY softMaxSize lastLayerSize : Z)
    (costFn : F -> F -> F) (costDelta : F -> F -> F -> F)
    (p : Params) (chain : list Layer) (s : @Store F RO)
    (q : ptr) (x y z mb : Z) :
  Network_new NDEBUG mbSize u inputX inputY softMaxSize lastLayerSize
              costFn costDelta p chain = Ok s ->
  Layer_getBwdError3 NDEBUG (chain_fuel s) s q x y z mb <> OutOfFuel.
Proof.
  intros Hnew. destruct q as [| | i].
  - destruct (chain_fuel s); discriminate.
  - destruct (chain_fuel s); cbn; apply fueled_UNREACHABLE.
  - apply chain_fuel_suffices.
    + eapply Network_new_pooling_chain_wired. exact Hnew.
    + unfold chain_fuel. lia.
Qed.

End Forwarding.

Lemma Network_new_getBwdError_forwarding_ends_witness :
  Layer_getBwdError3 false (chain_fuel cp_store) cp_store (PLayer 1) 1 1 0 0
  <> OutOfFuel.
Proof.
  apply (Network_new_getBwdError_forwarding_ends false 2 0%Q 4 4 2 1
           Q_Quadratic_compute Q_CrossEntropy_delta demo_params cp_chain).
  unfold cp_store, cp_network. apply value_Ok. vm_compute. reflexivity.
Defined.

(** ** The frame of a gradient step *)

Lemma map_const_insert {A B : Type} (c : B) (l : list A) (k : nat) (v : A) :
  map (fun _ => c) (<[k := v]> l) = map (fun _ => c) l.
Proof.
  revert k. induction l as [| x l IH]; intros k; [reflexivity |].
  destruct k as [| k]; cbn; [reflexivity |]. rewrite IH. reflexivity.
Qed.

Section EndBatchFrame.

Context {F : Type} {FO : FloatOps F} {RO : RandomOps F}.
Variable NDEBUG : bool.
Variable mbSize : Z.

Lemma arr_set_blank (a a' : list F) (i : Z) (v : F) :
  arr_set a i v = Ok a' -> map (fun _ => f0) a' = map (fun _ => f0) a.
Proof.
  intros E. apply arr_set_Ok in E. destruct E as [_ ->].
  apply map_const_insert.
Qed.

Lemma ma_set_blank (a a' : multi_array F) (idxs : list Z) (v : F) :
  ma_set NDEBUG a idxs v = Ok a' ->
  ma_map (fun _ => f0) a' = ma_map (fun _ => f0) a.
Proof.
  intros E. apply ma_set_elements in E. destruct E as (off & _ & _ & ->).
  unfold ma_map. cbn. f_equal. apply map_const_insert.
Qed.

Lemma endBatch_weights_blank (input : Z -> Z -> result F) (errors : list F)
    (rate reg : F) (size : Z) (ws ws' : list F) :
  endBatch_weights input errors rate reg mbSize size ws = Ok ws' ->
  map (fun _ => f0) ws' = map (fun _ => f0) ws.
Proof.
  unfold endBatch_weights.
  apply (foldM_invariant
           (fun w => map (fun _ : F => f0) w = map (fun _ : F => f0) ws));
    [| reflexivity].
  intros w i w' Hw E. bind_inv E.
  repeat match goal with
         | H : arr_set _ _ _ = Ok _ |- _ => apply arr_set_blank in H
         end.
  congruence.
Qed.

Lemma FullyConnectedNeuron_endBatch_blank (s : @Store F RO)
    (n n' : FullyConnectedNeuron) (numTrainingImages : Z) :
  FullyConnectedNeuron_endBatch NDEBUG mbSize s n numTrainingImages = Ok n' ->
  blank_fcn n' = blank_fcn n.
Proof.
  unfold FullyConnectedNeuron_endBatch. intros E. bind_inv E.
  injection E as <-. apply endBatch_weights_blank in E1.
  unfold blank_fcn, fcn_with_weights. cbn. rewrite E1. reflexivity.
Qed.

Lemma blank_put_layer (s : @Store F RO) (this : nat) (l l' : Layer) :
  layers s !! this = Some l ->
  blank_layer l' = blank_layer l ->
  blank_parameters (put_layer s this l') = blank_parameters s.
Proof.
  intros Hl Hsame. unfold blank_parameters, put_layer, with_layers. cbn.
  f_equal. eapply map_insert_same; eassumption.
Qed.

Lemma FullyConnectedLayer_endBatch_blank (s s' : @Store F RO) (this : nat)
    (numTrainingImages : Z) :
  FullyConnectedLayer_endBatch NDEBUG mbSize s this numTrainingImages = Ok s' ->
  blank_parameters s' = blank_parameters s.
Proof.
  unfold FullyConnectedLayer_endBatch, FullyConnectedLayer_for_each.
  intros E. bind_inv E. revert E.
  apply (foldM_invariant (fun s1 => blank_parameters s1 = blank_parameters s));
    [| reflexivity].
  intros s1 k s2 HP Hb. bind_inv Hb. injection Hb as <-. rewrite <- HP.
  eapply blank_put_layer; [eapply this_FullyConnected_Ok; eassumption |].
  cbn. unfold fcl_with_neurons. cbn. f_equal. f_equal.
  eapply map_insert_same; [eapply vector_element; eassumption |].
  eapply FullyConnectedNeuron_endBatch_blank. eassumption.
Qed.

Lemma SoftMaxLayer_endBatch_blank (s s' : @Store F RO) (this : nat)
    (numTrainingImages : Z) :
  SoftMaxLayer_endBatch NDEBUG mbSize s this numTrainingImages = Ok s' ->
  blank_parameters s' = blank_parameters s.
Proof.
  unfold SoftMaxLayer_endBatch, SoftMaxLayer_for_each.
  intros E. bind_inv E. revert E.
  apply (foldM_invariant (fun s1 => blank_parameters s1 = blank_parameters s));
    [| reflexivity].
  intros s1 k s2 HP Hb. bind_inv Hb. injection Hb as <-. rewrite <- HP.
  eapply blank_put_layer; [eapply this_SoftMax_Ok; eassumption |].
  cbn. unfold sml_with_neurons. cbn. f_equal. f_equal.
  eapply map_insert_same; [eapply vector_element; eassumption |].
  eapply FullyConnectedNeuron_endBatch_blank. eassumption.
Qed.

Lemma ConvLayer_endBatch_blank (s s' : @Store F RO) (this : nat)
    (numTrainingImages : Z) :
  ConvLayer_endBatch NDEBUG mbSize s this numTrainingImages = Ok s' ->
  blank_parameters s' = blank_parameters s.
Proof.
  unfold ConvLayer_endBatch. intros E. bind_inv E.
  destruct v0 as [weights bias]. injection E as <-.
  apply this_Conv_Ok in E0.
  eapply blank_put_layer; [eassumption |].
  assert (H : ma_map (fun _ => f0) weights = ma_map (fun _ => f0) (cl_weights v) /\
              ma_map (fun _ => f0) bias = ma_map (fun _ => f0) (cl_bias v)).
  { revert E1.
    apply (foldM_invariant
             (fun wb : multi_array F * multi_array F =>
                ma_map (fun _ => f0) (fst wb) = ma_map (fun _ => f0) (cl_weights v) /\
                ma_map (fun _ => f0) (snd wb) = ma_map (fun _ => f0) (cl_bias v))
             _ _ (cl_weights v, cl_bias v) (weights, bias));
      [| split; reflexivity].
    intros [w b] fm [w' b'] [Hw Hb] E. cbn [fst snd] in *. bind_inv E.
    injection E as <- <-. split.
    - rewrite <- Hw. revert E1.
      apply (foldM_invariant
               (fun w1 => ma_map (fun _ : F => f0) w1 = ma_map (fun _ : F => f0) w));
        [| reflexivity].
      intros w1 [[a b0] c] w2 Hw1 E. bind_inv E.
      repeat match goal with
             | H : ma_set _ _ _ _ = Ok _ |- _ => apply ma_set_blank in H
             end.
      congruence.
    - repeat match goal with
             | H : ma_set _ _ _ _ = Ok _ |- _ => apply ma_set_blank in H
             end.
      congruence. }
  destruct H as [Hw Hb]. cbn. unfold cl_with_weights. cbn.
  rewrite Hw, Hb. reflexivity.
Qed.

Lemma Layer_endBatch_blank (s s' : @Store F RO) (this : ptr)
    (numTrainingImages : Z) :
  Layer_endBatch NDEBUG mbSize s this numTrainingImages = Ok s' ->
  blank_parameters s' = blank_parameters s.
Proof.
  unfold Layer_endBatch. intros E. apply dispatch_Ok in E.
  destruct E as (i & [E | [E | [E | E]]]);
    eauto using FullyConnectedLayer_endBatch_blank,
      SoftMaxLayer_endBatch_blank, ConvLayer_endBatch_blank.
  injection E as <-. reflexivity.
Qed.

(** X4: the gradient step of [updateMiniBatch], [endBatch] on every layer
    from the last to the first, changes at most the values of weights and
    biases: every neuron's weighted inputs, activations and errors, every
    backward-error buffer, every pointer, the input layer, the generator and
    the number of weights of every neuron are as before. *)
Theorem Network_endBatch_frame (s s' : @Store F RO) (numTrainingImages : Z) :
  Network_endBatch NDEBUG mbSize s numTrainingImages = Ok s' ->
  blank_parameters s' = blank_parameters s.
Proof.
  unfold Network_endBatch.
  apply (foldM_invariant (fun s1 => blank_parameters s1 = blank_parameters s));
    [| reflexivity].
  intros s1 i s2 HP E. apply Layer_endBatch_blank in E. congruence.
Qed.

End EndBatchFrame.

Lemma Network_endBatch_frame_witness :
  blank_parameters fc_updated = blank_parameters fc_trained.
Proof.
  apply (Network_endBatch_frame false 2 fc_trained fc_updated 100).
  unfold fc_updated. apply value_Ok. vm_compute. reflexivity.
Defined.

(** ** The index [readOutput] returns *)

Lemma foldM_ext {A S : Type} (body body' : S -> A -> result S) (l : list A)
    (s : S) :
  (forall s x, body s x = body' s x) -> foldM body l s = foldM body' l s.
Proof.
  intros H. revert s. induction l as [| x l IH]; intros s; cbn; [reflexivity |].
  rewrite H. destruct (body' s x); cbn; auto.
Qed.

Section ReadOutput.

Context {F : Type} {FO : FloatOps F}.

(** [operator<] on floats is irreflexive and transitive, NaN included. *)
Hypothesis flt_irrefl : forall x : F, flt x x = false.
Hypothesis flt_trans :
  forall x y z : F, flt x y = true -> flt y z = true -> flt x z = true.

Lemma argmax_loop_spec (get : Z -> result F) (a : Z -> F) (n : Z) (init : F) :
  (forall i, 0 <= i < n -> get i = Ok (a i)) ->
  exists r m,
    argmax_loop get n init = Ok (r, m) /\
    (forall i, 0 <= i < n -> flt m (a i) = false) /\
    ((r = 0 /\ m = init) \/
     (0 <= r < n /\ m = a r /\ flt init (a r) = true)).
Proof.
  intros Hget. unfold argmax_loop.
  set (P := fun (k : nat) (st : Z * F) =>
              (forall i, 0 <= i < Z.of_nat k -> flt (snd st) (a i) = false) /\
              ((fst st = 0 /\ snd st = init) \/
               (0 <= fst st < Z.of_nat k /\ snd st = a (fst st) /\
                flt init (a (fst st)) = true))).
  match goal with
  | |- exists r m, foldM ?body ?lst ?st = _ /\ _ =>
      destruct (foldM_steps P body lst st) as ([r m] & Hrun & HP)
  end.
  - split; [intros i Hi; lia | left; split; reflexivity].
  - intros k i [r m] Hk (Hmax & Hr). cbn [fst snd] in *.
    assert (Hkn : (k < Z.to_nat n)%nat).
    { apply lookup_lt_Some in Hk. rewrite length_urange in Hk. exact Hk. }
    rewrite urange_lookup in Hk by exact Hkn. injection Hk as <-.
    rewrite Hget by lia. cbn [bind].
    destruct (flt m (a (Z.of_nat k))) eqn:Hlt.
    + eexists. split; [reflexivity |]. unfold P. cbn [fst snd]. split.
      * intros i Hi. destruct (Z.eq_dec i (Z.of_nat k)) as [-> | Hne];
          [apply flt_irrefl |].
        destruct (flt (a (Z.of_nat k)) (a i)) eqn:Hki; [| reflexivity].
        rewrite <- (Hmax i) by lia. symmetry.
        eapply flt_trans; eassumption.
      * right. split; [lia |]. split; [reflexivity |].
        destruct Hr as [[_ ->] | (_ & -> & Hinit)]; [exact Hlt |].
        eapply flt_trans; eassumption.
    + eexists. split; [reflexivity |]. unfold P. cbn [fst snd]. split.
      * intros i Hi. destruct (Z.eq_dec i (Z.of_nat k)) as [-> | Hne];
          [exact Hlt | apply Hmax; lia].
      * destruct Hr as [Hr | (Hr & Hm & Hinit)]; [left; exact Hr |].
        right. split; [lia |]. split; assumption.
  - rewrite length_urange in HP. destruct HP as (Hmax & Hr).
    cbn [fst snd] in *. exists r, m. split; [exact Hrun |].
    destruct (Z_le_gt_dec 0 n) as [Hn | Hn].
    + rewrite Z2Nat.id in Hmax, Hr by lia. split; assumption.
    + split; [intros i Hi; lia |].
      destruct Hr as [Hr | (Hr & _)]; [left; exact Hr | lia].
Qed.

(** X5: [SoftMaxLayer::readOutput(mb)] returns the index of an activation
    that exceeds [FLT_MIN] and that no activation of slot [mb] exceeds; when
    no activation exceeds [FLT_MIN], the smallest positive float, it returns
    0. *)
Theorem SoftMaxLayer_readOutput_maximal (l : @SoftMaxLayer F) (mb : Z)
    (a : Z -> F) :
  (forall i, 0 <= i < Z.of_nat (length (sml_neurons l)) ->
     SoftMaxLayer_activation l i mb = Ok (a i)) ->
  exists r,
    SoftMaxLayer_readOutput l mb = Ok r /\
    ((forall i, 0 <= i < Z.of_nat (length (sml_neurons l)) ->
        flt FLT_MIN (a i) = false) -> r = 0) /\
    ((exists i, 0 <= i < Z.of_nat (length (sml_neurons l)) /\
                flt FLT_MIN (a i) = true) ->
     0 <= r < Z.of_nat (length (sml_neurons l)) /\
     flt FLT_MIN (a r) = true /\
     forall i, 0 <= i < Z.of_nat (length (sml_neurons l)) ->
       flt (a r) (a i) = false).
Proof.
  intros Hget.
  destruct (argmax_loop_spec _ a _ FLT_MIN Hget) as (r & m & Hrun & Hmax & Hr).
  exists r. split; [| split].
  - unfold SoftMaxLayer_readOutput.
    erewrite foldM_ext; [unfold argmax_loop in Hrun; rewrite Hrun; reflexivity |].
    intros [r1 m1] i. unfold SoftMaxLayer_activation.
    destruct (arr_get (sml_neurons l) i); reflexivity.
  - intros Hnone. destruct Hr as [[-> _] | (Hr & _ & Hinit)]; [reflexivity |].
    rewrite (Hnone r Hr) in Hinit. discriminate.
  - intros (i & Hi & Hsome).
    destruct Hr as [[_ ->] | (Hr & -> & Hinit)].
    + rewrite (Hmax i Hi) in Hsome. discriminate.
    + split; [exact Hr |]. split; [exact Hinit | exact Hmax].
Qed.

(** X6: [FullyConnectedLayer::readOutput()] of main4.cpp reads slot 0
    whatever slot was processed, and returns the index of an activation
    above [0.0f] that no activation of slot 0 exceeds; when no activation
    is above [0.0f] it returns 0. *)
Theorem Main4_readOutput_maximal
    (neurons : list (@Main4.FullyConnectedNeuron F)) (a : Z -> F) :
  (forall i, 0 <= i < Z.of_nat (length neurons) ->
     (let* n := arr_get neurons i in
      arr_get (activations (Main4.fcn_base n)) 0) = Ok (a i)) ->
  exists r,
    Main4_FullyConnectedLayer_readOutput neurons = Ok r /\
    ((forall i, 0 <= i < Z.of_nat (length neurons) -> flt f0 (a i) = false) ->
     r = 0) /\
    ((exists i, 0 <= i < Z.of_nat (length neurons) /\ flt f0 (a i) = true) ->
     0 <= r < Z.of_nat (length neurons) /\
     flt f0 (a r) = true /\
     forall i, 0 <= i < Z.of_nat (length neurons) -> flt (a r) (a i) = false).
Proof.
  intros Hget.
  destruct (argmax_loop_spec _ a _ f0 Hget) as (r & m & Hrun & Hmax & Hr).
  exists r. split; [| split].
  - unfold Main4_FullyConnectedLayer_readOutput.
    erewrite foldM_ext; [unfold argmax_loop in Hrun; rewrite Hrun; reflexivity |].
    intros [r1 m1] i. destruct (arr_get neurons i); reflexivity.
  - intros Hnone. destruct Hr as [[-> _] | (Hr & _ & Hinit)]; [reflexivity |].
    rewrite (Hnone r Hr) in Hinit. discriminate.
  - intros (i & Hi & Hsome).
    destruct Hr as [[_ ->] | (Hr & -> & Hinit)].
    + rewrite (Hmax i Hi) in Hsome. discriminate.
    + split; [exact Hr |]. split; [exact Hinit | exact Hmax].
Qed.

End ReadOutput.

Lemma Q_flt_irrefl (x : Q) : flt x x = false.
Proof.
  cbn. unfold Q_lt_bool. apply negb_false_iff. apply Qle_bool_iff. apply Qle_refl.
Qed.

Lemma Q_flt_trans (x y z : Q) :
  flt x y = true -> flt y z = true -> flt x z = true.
Proof.
  cbn. unfold Q_lt_bool. rewrite !negb_true_iff. intros Hxy Hyz.
  destruct (Qle_bool z x) eqn:Hzx; [| reflexivity].
  apply Qle_bool_iff in Hzx.
  assert (Hyx : ~ (y <= x)%Q) by (rewrite <- Qle_bool_iff; congruence).
  assert (Hzy : ~ (z <= y)%Q) by (rewrite <- Qle_bool_iff; congruence).
  exfalso. apply Hyx. apply Qlt_le_weak.
  eapply Qlt_le_trans; [apply Qnot_le_lt; exact Hzy | exact Hzx].
Qed.

Lemma SoftMaxLayer_readOutput_maximal_witness :
  exists r,
    SoftMaxLayer_readOutput fc_softmax 0 = Ok r /\
    ((forall i, 0 <= i < Z.of_nat (length (sml_neurons fc_softmax)) ->
        flt FLT_MIN (fc_out i) = false) -> r = 0) /\
    ((exists i, 0 <= i < Z.of_nat (length (sml_neurons fc_softmax)) /\
                flt FLT_MIN (fc_out i) = true) ->
     0 <= r < Z.of_nat (length (sml_neurons fc_softmax)) /\
     flt FLT_MIN (fc_out r) = true /\
     forall i, 0 <= i < Z.of_nat (length (sml_neurons fc_softmax)) ->
       flt (fc_out r) (fc_out i) = false).
Proof.
  apply (SoftMaxLayer_readOutput_maximal Q_flt_irrefl Q_flt_trans
           fc_softmax 0 fc_out).
  intros i Hi.
  assert (Hlen : length (sml_neurons fc_softmax) = 2%nat)
    by (vm_compute; reflexivity).
  rewrite Hlen in Hi.
  assert (Ei : i = 0 \/ i = 1) by lia.
  destruct Ei as [-> | ->]; vm_compute; reflexivity.
Defined.

Lemma Main4_readOutput_maximal_witness :
  exists r,
    Main4_FullyConnectedLayer_readOutput main4_outputs = Ok r /\
    ((forall i, 0 <= i < Z.of_nat (length main4_outputs) ->
        flt f0 (main4_out i) = false) -> r = 0) /\
    ((exists i, 0 <= i < Z.of_nat (length main4_outputs) /\
                flt f0 (main4_out i) = true) ->
     0 <= r < Z.of_nat (length main4_outputs) /\
     flt f0 (main4_out r) = true /\
     forall i, 0 <= i < Z.of_nat (length main4_outputs) ->
       flt (main4_out r) (main4_out i) = false).
Proof.
  apply (Main4_readOutput_maximal Q_flt_irrefl Q_flt_trans
           main4_outputs main4_out).
  intros i Hi.
  assert (Ei : i = 0 \/ i = 1 \/ i = 2) by (cbn in Hi; lia).
  destruct Ei as [-> | [-> | ->]]; vm_compute; reflexivity.
Defined.

(** ** The forward pass of a fully-connected layer *)

Section ForEach.

Context {F : Type} {FO : FloatOps F} {RO : RandomOps F}.
Variable NDEBUG : bool.

Lemma put_layer_put_layer (s : @Store F RO) (this : nat) (l1 l2 : Layer) :
  put_layer (put_layer s this l1) this l2 = put_layer s this l2.
Proof.
  unfold put_layer, with_layers. cbn. f_equal. apply list_insert_insert_eq.
Qed.

Lemma put_layer_same (s : @Store F RO) (this : nat) (l : Layer) :
  layers s !! this = Some l -> put_layer s this l = s.
Proof.
  intros Hl. unfold put_layer, with_layers. destruct s as [p il ls g]. cbn in *.
  f_equal. apply list_insert_id. exact Hl.
Qed.

Lemma put_layer_lookup (s : @Store F RO) (this : nat) (l0 l : Layer) :
  layers s !! this = Some l0 -> layers (put_layer s this l) !! this = Some l.
Proof.
  intros Hl. unfold put_layer. cbn. apply list_lookup_insert_eq.
  eapply lookup_lt_Some. exact Hl.
Qed.

(** A layer that does not read itself reads the same through a store that
    differs in this layer only. *)
Lemma deref_put_layer (s : @Store F RO) (this : nat) (l : Layer) (p : ptr) :
  p <> PLayer this -> deref (put_layer s this l) p = deref s p.
Proof.
  intros Hp. destruct p as [| | j]; try reflexivity. unfold deref, put_layer.
  cbn. rewrite list_lookup_insert_ne by congruence. reflexivity.
Qed.

Lemma Layer_size_put_layer (s : @Store F RO) (this : nat) (l : Layer) (p : ptr) :
  p <> PLayer this -> Layer_size (put_layer s this l) p = Layer_size s p.
Proof. intros Hp. unfold Layer_size. rewrite deref_put_layer by exact Hp. reflexivity. Qed.

Lemma Layer_getNeuron1_put_layer (s : @Store F RO) (this : nat) (l : Layer)
    (p : ptr) (i : Z) :
  p <> PLayer this ->
  Layer_getNeuron1 NDEBUG (put_layer s this l) p i = Layer_getNeuron1 NDEBUG s p i.
Proof.
  intros Hp. unfold Layer_getNeuron1. rewrite deref_put_layer by exact Hp.
  reflexivity.
Qed.

(** [for (auto &neuron : neurons) neuron.method(..)] on a fully-connected
    layer, when the method relates each neuron to its successor state
    whatever the neurons processed before it have become. *)
Lemma FullyConnectedLayer_for_each_spec
    (method : FullyConnectedLayer -> @Store F RO -> FullyConnectedNeuron ->
              result FullyConnectedNeuron)
    (R : nat -> FullyConnectedNeuron -> FullyConnectedNeuron -> Prop)
    (s : @Store F RO) (this : nat) (l : FullyConnectedLayer) :
  layers s !! this = Some (LFullyConnected l) ->
  (forall ns1 k n,
     fcl_neurons l !! k = Some n ->
     exists n',
       method (fcl_with_neurons l ns1)
              (put_layer s this (LFullyConnected (fcl_with_neurons l ns1))) n
       = Ok n' /\ R k n n') ->
  exists ns',
    FullyConnectedLayer_for_each method s this
    = Ok (put_layer s this (LFullyConnected (fcl_with_neurons l ns'))) /\
    length ns' = length (fcl_neurons l) /\
    forall k n, fcl_neurons l !! k = Some n ->
      exists n', ns' !! k = Some n' /\ R k n n'.
Proof.
  intros Hl Hm. unfold FullyConnectedLayer_for_each, this_FullyConnected.
  rewrite Hl. cbn [bind].
  set (ns := fcl_neurons l).
  set (P := fun (k : nat) (s1 : @Store F RO) =>
              exists ns1,
                s1 = put_layer s this (LFullyConnected (fcl_with_neurons l ns1)) /\
                length ns1 = length ns /\
                (forall j n, ns !! j = Some n -> (j < k)%nat ->
                   exists n', ns1 !! j = Some n' /\ R j n n') /\
                (forall j, (k <= j)%nat -> ns1 !! j = ns !! j)).
  match goal with
  | |- exists ns', foldM ?body ?lst s = _ /\ _ =>
      destruct (foldM_steps P body lst s) as (s' & Hrun & HP)
  end.
  - exists ns. split; [| split; [reflexivity | split]].
    + symmetry. replace (fcl_with_neurons l ns) with l by (destruct l; reflexivity).
      apply put_layer_same. exact Hl.
    + intros j n _ Hlt. lia.
    + reflexivity.
  - intros k x s1 Hx (ns1 & -> & Hlen & Hdone & Htodo).
    apply lookup_seq in Hx. destruct Hx as [-> Hk]. cbn [Nat.add] in *.
    rewrite (put_layer_lookup _ _ _ _ Hl). cbn [bind].
    change (fcl_neurons (fcl_with_neurons l ns1)) with ns1.
    destruct (lookup_lt_is_Some_2 ns k Hk) as [n Hn].
    assert (Hn1 : ns1 !! k = Some n) by (rewrite Htodo by lia; exact Hn).
    replace (arr_get ns1 (Z.of_nat k)) with (Ok n).
    2:{ symmetry. apply arr_get_Ok. rewrite Nat2Z.id. split; [| exact Hn1].
        apply in_bounds_spec. apply lookup_lt_Some in Hn1. lia. }
    cbn [bind].
    destruct (Hm ns1 k n Hn) as (n' & Hmeth & HR).
    rewrite Hmeth. cbn [bind].
    eexists. split; [reflexivity |].
    exists (<[k := n']> ns1). split; [| split; [| split]].
    + rewrite put_layer_put_layer. reflexivity.
    + rewrite length_insert. exact Hlen.
    + intros j m Hj Hlt. destruct (Nat.eq_dec j k) as [-> | Hne].
      * exists n'. rewrite list_lookup_insert_eq by lia.
        split; [reflexivity |]. congruence.
      * rewrite list_lookup_insert_ne by congruence. apply Hdone; [exact Hj | lia].
    + intros j Hj. rewrite list_lookup_insert_ne by lia. apply Htodo. lia.
  - rewrite length_seq in HP. destruct HP as (ns' & -> & Hlen & Hdone & _).
    exists ns'. split; [exact Hrun |]. split; [exact Hlen |].
    intros k n Hn. apply Hdone; [exact Hn |]. eapply lookup_lt_Some. exact Hn.
Qed.

End ForEach.

Section FeedForward.

Context {F : Type} {FO : FloatOps F} {RO : RandomOps F}.
Variable NDEBUG : bool.

Lemma weightedInput_of_sum (s : @Store F RO) (n : FullyConnectedNeuron)
    (mb size : Z) (a w : Z -> F) :
  Layer_size s (fcn_inputs n) = Ok size ->
  (forall i, 0 <= i < size ->
     input_activation NDEBUG s (fcn_inputs n) i mb = Ok (a i)) ->
  (forall i, 0 <= i < size -> arr_get (weights n) i = Ok (w i)) ->
  weightedInput_of NDEBUG s n mb = Ok (weighted_sum a w size (bias n)).
Proof.
  intros Hsize Ha Hw. unfold weightedInput_of. rewrite Hsize. cbn [bind].
  replace (foldM _ (urange size) f0)
    with (Ok (fsum (map (fun i => fmul (a i) (w i)) (urange size)))).
  - reflexivity.
  - symmetry. unfold fsum. rewrite <- fold_left_fadd_map.
    apply foldM_pure. intros acc i Hi. apply in_urange in Hi.
    specialize (Ha i Hi). unfold input_activation in Ha.
    destruct (Layer_getNeuron1 NDEBUG s (fcn_inputs n) i) as [inp | | |];
      cbn [bind] in *; try discriminate.
    rewrite Ha. cbn [bind]. rewrite (Hw i Hi). reflexivity.
Qed.

Lemma FullyConnectedNeuron_feedForward_spec (act : F -> F) (s : @Store F RO)
    (n : FullyConnectedNeuron) (mb size : Z) (a w : Z -> F) :
  Layer_size s (fcn_inputs n) = Ok size ->
  (forall i, 0 <= i < size ->
     input_activation NDEBUG s (fcn_inputs n) i mb = Ok (a i)) ->
  (forall i, 0 <= i < size -> arr_get (weights n) i = Ok (w i)) ->
  0 <= mb < Z.of_nat (length (weightedInputs (fcn_base n))) ->
  0 <= mb < Z.of_nat (length (activations (fcn_base n))) ->
  exists n',
    FullyConnectedNeuron_feedForward NDEBUG act s n mb = Ok n' /\
    arr_get (weightedInputs (fcn_base n')) mb
    = Ok (weighted_sum a w size (bias n)) /\
    arr_get (activations (fcn_base n')) mb
    = Ok (act (weighted_sum a w size (bias n))) /\
    weights n' = weights n /\ bias n' = bias n /\
    fcn_inputs n' = fcn_inputs n.
Proof.
  intros Hsize Ha Hw Hz Hact. unfold FullyConnectedNeuron_feedForward.
  rewrite (weightedInput_of_sum s n mb size a w Hsize Ha Hw). cbn [bind].
  apply in_bounds_spec in Hz. apply in_bounds_spec in Hact.
  unfold set_weightedInput. rewrite arr_set_in_bounds by exact Hz. cbn [bind].
  unfold set_activation. cbn [activations].
  rewrite arr_set_in_bounds by exact Hact. cbn [bind].
  eexists. split; [reflexivity |]. cbn.
  rewrite !arr_get_insert by assumption. rewrite Z.eqb_refl. auto.
Qed.

(** X7: [FullyConnectedLayer::feedForward(mb)] on a layer whose neurons
    read a predecessor other than the layer itself returns, and leaves in
    slot [mb] of neuron [k] the weighted input
    [a 0 * w k 0 + ... + a (size-1) * w k (size-1) + bias], accumulated in
    this order from [0.0f], and as activation the layer's activation
    function of it; weights, biases and the other layers are as before. *)
Theorem FullyConnectedLayer_feedForward_values
    (s : @Store F RO) (this : nat) (l : FullyConnectedLayer) (p : ptr)
    (mb size : Z) (a : Z -> F) (w : nat -> Z -> F) :
  layers s !! this = Some (LFullyConnected l) ->
  p <> PLayer this ->
  Layer_size s p = Ok size ->
  (forall i, 0 <= i < size -> input_activation NDEBUG s p i mb = Ok (a i)) ->
  (forall k n, fcl_neurons l !! k = Some n ->
     fcn_inputs n = p /\
     (forall i, 0 <= i < size -> arr_get (weights n) i = Ok (w k i)) /\
     0 <= mb < Z.of_nat (length (weightedInputs (fcn_base n))) /\
     0 <= mb < Z.of_nat (length (activations (fcn_base n)))) ->
  exists s' l',
    FullyConnectedLayer_feedForward NDEBUG s this mb = Ok s' /\
    layers s' !! this = Some (LFullyConnected l') /\
    (forall j, j <> this -> layers s' !! j = layers s !! j) /\
    inputLayer s' = inputLayer s /\
    length (fcl_neurons l') = length (fcl_neurons l) /\
    forall k n, fcl_neurons l !! k = Some n ->
      exists n',
        fcl_neurons l' !! k = Some n' /\
        arr_get (weightedInputs (fcn_base n')) mb
        = Ok (weighted_sum a (w k) size (bias n)) /\
        arr_get (activations (fcn_base n')) mb
        = Ok (fcl_activationFn l (weighted_sum a (w k) size (bias n))) /\
        weights n' = weights n /\ bias n' = bias n.
Proof.
  intros Hl Hp Hsize Ha Hn. unfold FullyConnectedLayer_feedForward.
  destruct (FullyConnectedLayer_for_each_spec
              (fun l s n =>
                 FullyConnectedNeuron_feedForward NDEBUG (fcl_activationFn l) s n mb)
              (fun k n n' =>
                 arr_get (weightedInputs (fcn_base n')) mb
                 = Ok (weighted_sum a (w k) size (bias n)) /\
                 arr_get (activations (fcn_base n')) mb
                 = Ok (fcl_activationFn l (weighted_sum a (w k) size (bias n))) /\
                 weights n' = weights n /\ bias n' = bias n)
              s this l Hl) as (ns' & Hrun & Hlen & Hall).
  - intros ns1 k n Hk. destruct (Hn k n Hk) as (Hin & Hw & Hz & Hact).
    cbn [fcl_activationFn fcl_with_neurons].
    destruct (FullyConnectedNeuron_feedForward_spec (fcl_activationFn l)
                (put_layer s this (LFullyConnected (fcl_with_neurons l ns1)))
                n mb size a (w k)) as (n' & Hrun & Hz' & Hact' & Hw' & Hb' & _);
      try assumption.
    + rewrite Hin. rewrite Layer_size_put_layer by exact Hp. exact Hsize.
    + intros i Hi. rewrite Hin. unfold input_activation.
      rewrite Layer_getNeuron1_put_layer by exact Hp. apply (Ha i Hi).
    + exists n'. auto.
  - eexists. exists (fcl_with_neurons l ns'). split; [exact Hrun |].
    split; [apply (put_layer_lookup _ _ _ _ Hl) |].
    split; [| split; [reflexivity | split; [exact Hlen | exact Hall]]].
    intros j Hj. unfold put_layer. cbn.
    apply list_lookup_insert_ne. congruence.
Qed.

End FeedForward.

Lemma FullyConnectedLayer_feedForward_values_witness :
  exists s' l',
    FullyConnectedLayer_feedForward false fc_loaded 0 0 = Ok s' /\
    layers s' !! 0%nat = Some (LFullyConnected l') /\
    (forall j, j <> 0%nat -> layers s' !! j = layers fc_loaded !! j) /\
    inputLayer s' = inputLayer fc_loaded /\
    length (fcl_neurons l') = length (fcl_neurons fc_layer0) /\
    forall k n, fcl_neurons fc_layer0 !! k = Some n ->
      exists n',
        fcl_neurons l' !! k = Some n' /\
        arr_get (weightedInputs (fcn_base n')) 0
        = Ok (weighted_sum fc_in (fc_weight k) 4 (bias n)) /\
        arr_get (activations (fcn_base n')) 0
        = Ok (fcl_activationFn fc_layer0
                (weighted_sum fc_in (fc_weight k) 4 (bias n))) /\
        weights n' = weights n /\ bias n' = bias n.
Proof.
  apply (FullyConnectedLayer_feedForward_values false fc_loaded 0 fc_layer0
           PInput 0 4 fc_in fc_weight).
  - vm_compute. reflexivity.
  - discriminate.
  - vm_compute. reflexivity.
  - intros i Hi.
    assert (Ei : i = 0 \/ i = 1 \/ i = 2 \/ i = 3) by lia.
    destruct Ei as [-> | [-> | [-> | ->]]]; vm_compute; reflexivity.
  - intros k n Hk.
    assert (Hlen : length (fcl_neurons fc_layer0) = 2%nat)
      by (vm_compute; reflexivity).
    assert (Ek : k = 0%nat \/ k = 1%nat)
      by (apply lookup_lt_Some in Hk; lia).
    destruct Ek as [-> | ->]; vm_compute in Hk; injection Hk as <-;
      (split; [reflexivity |]); (split; [| split; vm_compute; split; congruence]);
      intros i Hi;
      assert (Ei : i = 0 \/ i = 1 \/ i = 2 \/ i = 3) by lia;
      destruct Ei as [-> | [-> | [-> | ->]]]; vm_compute; reflexivity.
Defined.

(** ** The backward-error buffer of a fully-connected layer *)

Section CalcBwdError.

Context {F : Type} {FO : FloatOps F} {RO : RandomOps F}.
Variable NDEBUG : bool.

Lemma calcBwdError_of_spec (size : Z) (neurons : list FullyConnectedNeuron)
    (bwd : multi_array F) (mb rows cols : Z)
    (w : FullyConnectedNeuron -> Z -> F) (e : FullyConnectedNeuron -> F) :
  shape bwd = [rows; cols] -> well_formed bwd ->
  0 <= mb < rows -> size <= cols ->
  (forall n i, In n neurons -> 0 <= i < size ->
     FullyConnectedNeuron_getWeight n i = Ok (w n i)) ->
  (forall n, In n neurons -> arr_get (errors (fcn_base n)) mb = Ok (e n)) ->
  exists bwd',
    calcBwdError_of NDEBUG size neurons bwd mb = Ok bwd' /\
    shape bwd' = shape bwd /\ well_formed bwd' /\
    (forall i, 0 <= i < size ->
       ma_get NDEBUG bwd' [mb; i]
       = Ok (fsum (map (fun n => fmul (w n i) (e n)) neurons))) /\
    (forall m i, m <> mb \/ ~ 0 <= i < size ->
       ma_get NDEBUG bwd' [m; i] = ma_get NDEBUG bwd [m; i]).
Proof.
  intros Hshape Hwf Hmb Hcols Hw He. unfold calcBwdError_of.
  set (P := fun (k : nat) (b : multi_array F) =>
              shape b = shape bwd /\ well_formed b /\
              (forall i, 0 <= i < Z.of_nat k ->
                 ma_get NDEBUG b [mb; i]
                 = Ok (fsum (map (fun n => fmul (w n i) (e n)) neurons))) /\
              (forall m i, m <> mb \/ ~ 0 <= i < Z.of_nat k ->
                 ma_get NDEBUG b [m; i] = ma_get NDEBUG bwd [m; i])).
  match goal with
  | |- exists b, foldM ?body ?lst bwd = _ /\ _ =>
      destruct (foldM_steps P body lst bwd) as (b' & Hrun & HP)
  end.
  - split; [reflexivity |]. split; [exact Hwf |].
    split; [intros i Hi; lia | reflexivity].
  - intros k i b Hk (Hs & Hwfb & Hdone & Hrest).
    assert (Hkn : (k < Z.to_nat size)%nat).
    { apply lookup_lt_Some in Hk. rewrite length_urange in Hk. exact Hk. }
    rewrite urange_lookup in Hk by exact Hkn. injection Hk as <-.
    replace (foldM _ neurons f0)
      with (Ok (fsum (map (fun n => fmul (w n (Z.of_nat k)) (e n)) neurons))).
    2:{ symmetry. unfold fsum. rewrite <- fold_left_fadd_map.
        apply foldM_pure. intros acc n Hn.
        rewrite (Hw n (Z.of_nat k) Hn) by lia. cbn [bind].
        rewrite (He n Hn). reflexivity. }
    cbn [bind].
    match goal with
    | |- context [ma_set NDEBUG b ?idxs ?v] =>
        destruct (ma_set_in_range NDEBUG b idxs v Hwfb) as (b1 & Hset & Hs1 & Hwf1)
    end.
    { rewrite Hs, Hshape. repeat constructor; lia. }
    exists b1. split; [exact Hset |]. split; [congruence |].
    split; [exact Hwf1 |]. split.
    + intros i Hi. destruct (Z.eq_dec i (Z.of_nat k)) as [-> | Hne].
      * apply (ma_get_set_same _ _ _ _ _ Hset).
      * rewrite (ma_get_set_other _ _ _ _ [mb; i] _ Hset) by congruence.
        apply Hdone. lia.
    + intros m i Hmi.
      rewrite (ma_get_set_other _ _ _ _ [m; i] _ Hset).
      * apply Hrest. destruct Hmi as [Hm | Hi]; [left; exact Hm | right; lia].
      * intros E. injection E as -> ->. destruct Hmi as [Hm | Hi]; [congruence | lia].
  - rewrite length_urange in HP. destruct HP as (Hs & Hwf' & Hdone & Hrest).
    exists b'. split; [exact Hrun |]. split; [exact Hs |]. split; [exact Hwf' |].
    split.
    + intros i Hi. apply Hdone. lia.
    + intros m i Hmi. apply Hrest.
      destruct Hmi as [Hm | Hi]; [left; exact Hm | right; lia].
Qed.

(** X8: [FullyConnectedLayer::calcBwdError(mb)] on a layer whose buffer
    has a row for slot [mb] and a column for each neuron of the predecessor
    returns, and leaves in [bwdErrors[mb][i]] the sum over the layer's
    neurons, in order and from [0.0f], of [getWeight(i) * errors[mb]]; every
    other entry of the buffer is as before. *)
Theorem FullyConnectedLayer_calcBwdError_values
    (s : @Store F RO) (this : nat) (l : FullyConnectedLayer)
    (mb size rows cols : Z)
    (w : FullyConnectedNeuron -> Z -> F) (e : FullyConnectedNeuron -> F) :
  layers s !! this = Some (LFullyConnected l) ->
  Layer_size s (fcl_inputs l) = Ok size ->
  shape (fcl_bwdErrors l) = [rows; cols] -> well_formed (fcl_bwdErrors l) ->
  0 <= mb < rows -> size <= cols ->
  (forall n i, In n (fcl_neurons l) -> 0 <= i < size ->
     FullyConnectedNeuron_getWeight n i = Ok (w n i)) ->
  (forall n, In n (fcl_neurons l) ->
     arr_get (errors (fcn_base n)) mb = Ok (e n)) ->
  exists s',
    FullyConnectedLayer_calcBwdError NDEBUG s this mb = Ok s' /\
    (forall i, 0 <= i < size ->
       Layer_getBwdError1 NDEBUG s' (PLayer this) i mb
       = Ok (fsum (map (fun n => fmul (w n i) (e n)) (fcl_neurons l)))) /\
    (forall m i, m <> mb \/ ~ 0 <= i < size ->
       Layer_getBwdError1 NDEBUG s' (PLayer this) i m
       = Layer_getBwdError1 NDEBUG s (PLayer this) i m).
Proof.
  intros Hl Hsize Hshape Hwf Hmb Hcols Hw He.
  destruct (calcBwdError_of_spec size (fcl_neurons l) (fcl_bwdErrors l)
              mb rows cols w e Hshape Hwf Hmb Hcols Hw He)
    as (bwd' & Hrun & _ & _ & Hdone & Hrest).
  unfold FullyConnectedLayer_calcBwdError, this_FullyConnected.
  rewrite Hl. cbn [bind]. rewrite Hsize. cbn [bind]. rewrite Hrun. cbn [bind].
  eexists. split; [reflexivity |].
  unfold Layer_getBwdError1, deref.
  rewrite (put_layer_lookup _ _ _ _ Hl), Hl. cbn [bind fcl_bwdErrors fcl_with_bwdErrors].
  split; assumption.
Qed.

End CalcBwdError.

(** Turns [forall n, In n l -> P n] over a computed list into its cases. *)
Ltac each_element :=
  apply List.Forall_forall;
  match goal with
  | |- List.Forall ?P ?l =>
      let l' := eval vm_compute in l in change (List.Forall P l')
  end;
  repeat constructor.

Lemma FullyConnectedLayer_calcBwdError_values_witness :
  exists s',
    FullyConnectedLayer_calcBwdError false fc_trained 0 0 = Ok s' /\
    (forall i, 0 <= i < 4 ->
       Layer_getBwdError1 false s' (PLayer 0) i 0
       = Ok (fsum (map (fun n => fmul (fc_trained_weight n i)
                                      (fc_trained_error n))
                       (fcl_neurons fc_trained_layer0)))) /\
    (forall m i, m <> 0 \/ ~ 0 <= i < 4 ->
       Layer_getBwdError1 false s' (PLayer 0) i m
       = Layer_getBwdError1 false fc_trained (PLayer 0) i m).
Proof.
  apply (FullyConnectedLayer_calcBwdError_values false fc_trained 0
           fc_trained_layer0 0 4 2 4 fc_trained_weight fc_trained_error).
  - vm_compute. reflexivity.
  - vm_compute. reflexivity.
  - vm_compute. reflexivity.
  - vm_compute. reflexivity.
  - lia.
  - lia.
  - intros n i Hn Hi. revert n Hn.
    assert (Ei : i = 0 \/ i = 1 \/ i = 2 \/ i = 3) by lia.
    destruct Ei as [-> | [-> | [-> | ->]]]; each_element; vm_compute; reflexivity.
  - each_element; vm_compute; reflexivity.
Defined.

(** ** The cost of an image *)

(** X9: [Network::imageCost], when it returns, returns
    [0.0f / numImages + regularisation] whatever the image and the label:
    the output cost it divides is the one [computeOutputCost] never
    accumulates. *)
Theorem Network_imageCost_ignores_the_image
    {F : Type} {FO : FloatOps F} {RO : RandomOps F} (NDEBUG : bool)
    (s s' : @Store F RO) (image : list F) (label numImages : Z)
    (regularisation cost : F) (mb : Z) :
  Network_imageCost NDEBUG s image label numImages regularisation mb
  = Ok (cost, s') ->
  cost = fadd (fdiv f0 (of_unsigned numImages)) regularisation.
Proof.
  unfold Network_imageCost. intros E. bind_inv E. injection E as <- _.
  match goal with
  | H : SoftMaxLayer_computeOutputCost _ _ _ = Ok _ |- _ =>
      apply SoftMaxLayer_computeOutputCost_is_zero in H; rewrite H
  end.
  reflexivity.
Qed.

Lemma value_Ok_pair {A B : Type} (r : result (A * B)) (d : A * B) :
  outcome r = Ok tt -> r = Ok (fst (value r d), snd (value r d)).
Proof. destruct r as [[a b] | | |]; cbn; intros E; try discriminate. reflexivity. Qed.

Lemma Network_imageCost_ignores_the_image_witness :
  fst fc_imageCost = fadd (fdiv f0 (of_unsigned 100)) (3 # 7)%Q.
Proof.
  apply (Network_imageCost_ignores_the_image false fc_fresh (snd fc_imageCost)
           fc_image 1 100 (3 # 7)%Q (fst fc_imageCost) 0).
  unfold fc_imageCost. apply value_Ok_pair. vm_compute. reflexivity.
Defined.

(** ** One-dimensional and three-dimensional neuron lookup *)

Section FlatIndex.

Context {F : Type} {FO : FloatOps F} {RO : RandomOps F}.
Variable NDEBUG : bool.

(** X10: in a convolutional layer as its constructor builds it, with a
    volume that fits an [unsigned], [getNeuron(index)] returns the neuron
    [getNeuron(x, y, z)] at [x = index mod dimX], [y = (index / dimX) mod
    dimY], [z = index / (dimX * dimY)], and the index that this neuron's
    [backPropogate] computes from its own coordinates for a one-dimensional
    successor is [index] again. *)
Theorem ConvLayer_getNeuron_flat_index
    (mbSize : Z) (u : F)
    (kernelX kernelY kernelZ inputX inputY inputZ numFMs : Z)
    (act deriv : F -> F) (p : Params) (l : ConvLayer) (index : Z) :
  ConvLayer_new mbSize u kernelX kernelY kernelZ inputX inputY inputZ numFMs
                act deriv p = Some l ->
  0 < numFMs ->
  0 < extent (cl_neurons l) 1 -> 0 < extent (cl_neurons l) 2 ->
  num_elements (cl_neurons l) < UINT_MODULUS ->
  0 <= index < num_elements (cl_neurons l) ->
  exists n,
    ma_get NDEBUG (cl_neurons l)
           [index / (extent (cl_neurons l) 1 * extent (cl_neurons l) 2);
            index mod extent (cl_neurons l) 1;
            (index / extent (cl_neurons l) 1) mod extent (cl_neurons l) 2]
    = Ok n /\
    ConvLayer_getNeuron1 NDEBUG l index = Ok (cn_base n) /\
    ConvLayer_getNeuron3 NDEBUG l (n_x (cn_base n)) (n_y (cn_base n))
                         (n_z (cn_base n)) = Ok (cn_base n) /\
    n_x (cn_base n) = index mod extent (cl_neurons l) 1 /\
    n_y (cn_base n)
    = (index / extent (cl_neurons l) 1) mod extent (cl_neurons l) 2 /\
    n_z (cn_base n)
    = index / (extent (cl_neurons l) 1 * extent (cl_neurons l) 2) /\
    getIndex (n_x (cn_base n)) (n_y (cn_base n)) (n_z (cn_base n))
             (cn_dimX n) (cn_dimY n) = index.
Proof.
  unfold ConvLayer_new. destruct (inputZ =? kernelZ); [| discriminate].
  intros E. injection E as <-. unfold extent, num_elements. cbn [cl_neurons shape nth fold_right].
  set (dimX := uadd (usub inputX kernelX) 1).
  set (dimY := uadd (usub inputY kernelY) 1).
  intros HFM HX HY Hfit Hindex.
  assert (Hvol : numFMs * (dimX * (dimY * 1)) = dimX * dimY * numFMs) by ring.
  rewrite Hvol in Hfit, Hindex.
  pose proof (plane_fits dimX dimY numFMs HX HY HFM Hfit) as Hplane.
  assert (Hx : 0 <= index mod dimX < dimX) by (apply Z.mod_pos_bound; lia).
  assert (Hy : 0 <= (index / dimX) mod dimY < dimY) by (apply Z.mod_pos_bound; lia).
  assert (Hz : 0 <= index / (dimX * dimY) < numFMs).
  { split; [apply Z.div_pos; lia |]. apply Z.div_lt_upper_bound; lia. }
  eexists. split; [apply ma_get_tabulate3; assumption |].
  assert (Hget3 : ConvLayer_getNeuron3 NDEBUG
            {| cl_inputX := inputX; cl_inputY := inputY; cl_inputZ := inputZ;
               cl_numFMs := numFMs; cl_activationFn := act;
               cl_activationFnDeriv := deriv; cl_learningRate := learningRate p;
               cl_lambda := lambda p; cl_inputs := Null; cl_outputs := Null;
               cl_bias := ma_zero [numFMs];
               cl_weights := ma_zero [numFMs; kernelX; kernelY; kernelZ];
               cl_neurons :=
                 mkArray [numFMs; dimX; dimY]
                   (tabulate3 numFMs dimX dimY
                      (fun fm x y => ConvNeuron_new mbSize u x y fm dimX dimY));
               cl_bwdErrors := ma_zero [mbSize; inputX; inputY; inputZ] |}
            (index mod dimX) ((index / dimX) mod dimY) (index / (dimX * dimY))
          = Ok (Neuron_xyz mbSize u (index mod dimX) ((index / dimX) mod dimY)
                           (index / (dimX * dimY)))).
  { unfold ConvLayer_getNeuron3. cbn [cl_neurons].
    rewrite ma_get_tabulate3 by assumption. reflexivity. }
  split; [| split; [exact Hget3 |]].
  - unfold ConvLayer_getNeuron1, getX, getY, getZ, extent.
    cbn [cl_neurons shape nth].
    rewrite !(wrap_small dimX), !(wrap_small dimY) by nia.
    unfold umul. rewrite (wrap_small (dimX * dimY)) by lia.
    rewrite umod_ok, !udiv_ok by lia. cbn [bind]. rewrite umod_ok by lia.
    cbn [bind]. exact Hget3.
  - cbn. repeat split.
    rewrite (getIndex_exact dimX dimY numFMs) by assumption.
    apply index_decompose; lia.
Qed.

(** X11: the same for a max-pooling layer, whose neurons are stored as
    [neurons[x][y][z]]: [getNeuron(index)] is [getNeuron(x, y, z)] at the
    coordinates of [index], and [getIndex] of the neuron's coordinates over
    the layer's first two extents is [index]. *)
Theorem MaxPoolLayer_getNeuron_flat_index
    (mbSize : Z) (u : F) (poolX poolY inputX inputY inputZ : Z)
    (l : MaxPoolLayer) (index : Z) :
  MaxPoolLayer_new mbSize u poolX poolY inputX inputY inputZ = Some l ->
  0 < extent (mp_neurons l) 0 -> 0 < extent (mp_neurons l) 1 ->
  0 < inputZ ->
  num_elements (mp_neurons l) < UINT_MODULUS ->
  0 <= index < num_elements (mp_neurons l) ->
  exists n,
    MaxPoolLayer_getNeuron1 NDEBUG l index = Ok n /\
    MaxPoolLayer_getNeuron3 NDEBUG l (n_x n) (n_y n) (n_z n) = Ok n /\
    n_x n = index mod extent (mp_neurons l) 0 /\
    n_y n = (index / extent (mp_neurons l) 0) mod extent (mp_neurons l) 1 /\
    n_z n = index / (extent (mp_neurons l) 0 * extent (mp_neurons l) 1) /\
    getIndex (n_x n) (n_y n) (n_z n)
             (extent (mp_neurons l) 0) (extent (mp_neurons l) 1) = index.
Proof.
  unfold MaxPoolLayer_new.
  destruct (negb (poolX =? 0) && negb (poolY =? 0) && (inputX mod poolX =? 0)
            && (inputY mod poolY =? 0)); [| discriminate].
  intros E. injection E as <-. unfold extent, num_elements.
  cbn [mp_neurons shape nth fold_right].
  set (dimX := inputX / poolX). set (dimY := inputY / poolY).
  intros HX HY HZ Hfit Hindex.
  assert (Hvol : dimX * (dimY * (inputZ * 1)) = dimX * dimY * inputZ) by ring.
  rewrite Hvol in Hfit, Hindex.
  pose proof (plane_fits dimX dimY inputZ HX HY HZ Hfit) as Hplane.
  assert (Hx : 0 <= index mod dimX < dimX) by (apply Z.mod_pos_bound; lia).
  assert (Hy : 0 <= (index / dimX) mod dimY < dimY) by (apply Z.mod_pos_bound; lia).
  assert (Hz : 0 <= index / (dimX * dimY) < inputZ).
  { split; [apply Z.div_pos; lia |]. apply Z.div_lt_upper_bound; lia. }
  exists (Neuron_xyz mbSize u (index mod dimX) ((index / dimX) mod dimY)
                     (index / (dimX * dimY))).
  assert (Hget3 : MaxPoolLayer_getNeuron3 NDEBUG
            (mkMPL poolX poolY Null Null
               (mkArray [dimX; dimY; inputZ]
                  (tabulate3 dimX dimY inputZ (Neuron_xyz mbSize u))))
            (index mod dimX) ((index / dimX) mod dimY) (index / (dimX * dimY))
          = Ok (Neuron_xyz mbSize u (index mod dimX) ((index / dimX) mod dimY)
                           (index / (dimX * dimY)))).
  { unfold MaxPoolLayer_getNeuron3. cbn [mp_neurons].
    apply ma_get_tabulate3; assumption. }
  split; [| split; [exact Hget3 |]].
  - unfold MaxPoolLayer_getNeuron1, getX, getY, getZ, extent.
    cbn [mp_neurons shape nth].
    rewrite !(wrap_small dimX), !(wrap_small dimY) by nia.
    unfold umul. rewrite (wrap_small (dimX * dimY)) by lia.
    rewrite umod_ok, !udiv_ok by lia. cbn [bind]. rewrite umod_ok by lia.
    cbn [bind]. exact Hget3.
  - cbn. repeat split.
    rewrite (getIndex_exact dimX dimY inputZ) by assumption.
    apply index_decompose; lia.
Qed.

End FlatIndex.

Lemma ConvLayer_getNeuron_flat_index_witness :
  exists n,
    ma_get false (cl_neurons demo_conv)
           [3 / (extent (cl_neurons demo_conv) 1 * extent (cl_neurons demo_conv) 2);
            3 mod extent (cl_neurons demo_conv) 1;
            (3 / extent (cl_neurons demo_conv) 1) mod extent (cl_neurons demo_conv) 2]
    = Ok n /\
    ConvLayer_getNeuron1 false demo_conv 3 = Ok (cn_base n) /\
    ConvLayer_getNeuron3 false demo_conv (n_x (cn_base n)) (n_y (cn_base n))
                         (n_z (cn_base n)) = Ok (cn_base n) /\
    n_x (cn_base n) = 3 mod extent (cl_neurons demo_conv) 1 /\
    n_y (cn_base n)
    = (3 / extent (cl_neurons demo_conv) 1) mod extent (cl_neurons demo_conv) 2 /\
    n_z (cn_base n)
    = 3 / (extent (cl_neurons demo_conv) 1 * extent (cl_neurons demo_conv) 2) /\
    getIndex (n_x (cn_base n)) (n_y (cn_base n)) (n_z (cn_base n))
             (cn_dimX n) (cn_dimY n) = 3.
Proof.
  apply (ConvLayer_getNeuron_flat_index false 2 0%Q 1 1 1 2 2 1 1
           Q_ReLU_compute Q_ReLU_deriv demo_params demo_conv 3).
  - reflexivity.
  - lia.
  - reflexivity.
  - reflexivity.
  - reflexivity.
  - split; [discriminate | reflexivity].
Defined.

Lemma MaxPoolLayer_getNeuron_flat_index_witness :
  exists n,
    MaxPoolLayer_getNeuron1 false demo_pool 3 = Ok n /\
    MaxPoolLayer_getNeuron3 false demo_pool (n_x n) (n_y n) (n_z n) = Ok n /\
    n_x n = 3 mod extent (mp_neurons demo_pool) 0 /\
    n_y n = (3 / extent (mp_neurons demo_pool) 0) mod extent (mp_neurons demo_pool) 1 /\
    n_z n = 3 / (extent (mp_neurons demo_pool) 0 * extent (mp_neurons demo_pool) 1) /\
    getIndex (n_x n) (n_y n) (n_z n)
             (extent (mp_neurons demo_pool) 0) (extent (mp_neurons demo_pool) 1) = 3.
Proof.
  apply (MaxPoolLayer_getNeuron_flat_index false 2 0%Q 2 2 4 4 1 demo_pool 3).
  - reflexivity.
  - reflexivity.
  - reflexivity.
  - lia.
  - reflexivity.
  - split; [discriminate | reflexivity].
Defined.

(** ** Loading the MNIST files *)

Lemma byte_value_range (b : Byte.byte) : 0 <= byte_value b < 2 ^ 8.
Proof.
  unfold byte_value. pose proof (Byte.to_N_bounded b) as H.
  change (2 ^ 8) with 256. lia.
Qed.

(** A word read on the little-endian host and byte-swapped is the
    big-endian value of the four bytes. *)
Lemma bswap32_load32 (b0 b1 b2 b3 : Byte.byte) :
  bswap32 (load32 b0 b1 b2 b3) = be32 b0 b1 b2 b3.
Proof.
  pose proof (byte_value_range b0) as H0.
  pose proof (byte_value_range b1) as H1.
  pose proof (byte_value_range b2) as H2.
  pose proof (byte_value_range b3) as H3.
  unfold bswap32, load32, be32.
  set (v0 := byte_value b0) in *. set (v1 := byte_value b1) in *.
  set (v2 := byte_value b2) in *. set (v3 := byte_value b3) in *.
  change (2 ^ 8) with 256 in *. change (2 ^ 16) with 65536.
  change (2 ^ 24) with 16777216.
  assert (E0 : (v0 + 256 * v1 + 65536 * v2 + 16777216 * v3) mod 256 = v0).
  { symmetry. apply (Z.mod_unique_pos _ _ (v1 + 256 * v2 + 65536 * v3)); lia. }
  assert (E1 : ((v0 + 256 * v1 + 65536 * v2 + 16777216 * v3) / 256) mod 256 = v1).
  { replace ((v0 + 256 * v1 + 65536 * v2 + 16777216 * v3) / 256)
      with (v1 + 256 * v2 + 65536 * v3)
      by (apply (Z.div_unique_pos _ _ _ v0); lia).
    symmetry. apply (Z.mod_unique_pos _ _ (v2 + 256 * v3)); lia. }
  assert (E2 : ((v0 + 256 * v1 + 65536 * v2 + 16777216 * v3) / 65536) mod 256 = v2).
  { replace ((v0 + 256 * v1 + 65536 * v2 + 16777216 * v3) / 65536)
      with (v2 + 256 * v3)
      by (apply (Z.div_unique_pos _ _ _ (v0 + 256 * v1)); lia).
    symmetry. apply (Z.mod_unique_pos _ _ v3); lia. }
  assert (E3 : ((v0 + 256 * v1 + 65536 * v2 + 16777216 * v3) / 16777216) mod 256 = v3).
  { replace ((v0 + 256 * v1 + 65536 * v2 + 16777216 * v3) / 16777216)
      with v3
      by (apply (Z.div_unique_pos _ _ _ (v0 + 256 * v1 + 65536 * v2)); lia).
    apply Z.mod_small. lia. }
  rewrite E0, E1, E2, E3. reflexivity.
Qed.

Lemma be32_range (b0 b1 b2 b3 : Byte.byte) : 0 <= be32 b0 b1 b2 b3 < UINT_MODULUS.
Proof.
  pose proof (byte_value_range b0). pose proof (byte_value_range b1).
  pose proof (byte_value_range b2). pose proof (byte_value_range b3).
  unfold be32, UINT_MODULUS. change (2 ^ 8) with 256 in *.
  change (2 ^ 16) with 65536. change (2 ^ 24) with 16777216.
  change (2 ^ 32) with 4294967296. lia.
Qed.

(** The label loop: one label per turn, indeterminate once the stream is
    exhausted. *)
Lemma readLabels_loop {A : Type} (turns : list A)
    (stream : list Byte.byte) (labels : list (option Byte.byte)) :
  foldM (fun '(stream, labels) (_ : A) =>
           match stream with
           | label :: stream => Ok (stream, labels ++ [Some label])
           | [] => Ok ([], labels ++ [None])
           end)
        turns (stream, labels)
  = Ok (drop (length turns) stream,
        labels ++ map Some (take (length turns) stream)
               ++ repeat None (length turns - length stream)).
Proof.
  revert stream labels. induction turns as [| t turns IH]; intros stream labels.
  - cbn. rewrite drop_0, Nat.sub_0_l. cbn. rewrite !app_nil_r. reflexivity.
  - cbn [foldM length]. destruct stream as [| b stream]; cbn [bind].
    + rewrite IH. cbn. rewrite <- app_assoc. rewrite Nat.sub_0_r. cbn.
      rewrite take_nil, drop_nil. cbn. reflexivity.
    + rewrite IH. cbn. rewrite <- app_assoc. reflexivity.
Qed.

(** X12: [readLabels] exits with status 1 on a file that cannot be opened.
    On a file of at least eight bytes it returns; it reads the number of
    items from bytes 4 to 7, most significant first, never looks at the
    magic number, and appends exactly that many labels: the bytes after the
    header, in order, and indeterminate values for the labels the file is
    too short to hold.  Bytes after the last label are ignored. *)
Theorem readLabels_returns_numItems_labels
    (m0 m1 m2 m3 c0 c1 c2 c3 : Byte.byte) (data : list Byte.byte)
    (labels : list (option Byte.byte)) :
  readLabels None labels = Exited 1 /\
  readLabels (Some (m0 :: m1 :: m2 :: m3 :: c0 :: c1 :: c2 :: c3 :: data)) labels
  = Returned
      (Ok (labels
           ++ map Some (take (Z.to_nat (be32 c0 c1 c2 c3)) data)
           ++ repeat None (Z.to_nat (be32 c0 c1 c2 c3) - length data))).
Proof.
  split; [reflexivity |]. unfold readLabels, read32. cbn [bind].
  rewrite bswap32_load32. rewrite readLabels_loop. cbn [bind].
  rewrite length_urange. reflexivity.
Qed.

Lemma loop2_lookup (n1 n2 : Z) (t : nat) :
  (t < Z.to_nat n1 * Z.to_nat n2)%nat ->
  loop2 n1 n2 !! t
  = Some (Z.of_nat (t / Z.to_nat n2), Z.of_nat (t mod Z.to_nat n2)).
Proof.
  intros Ht. unfold loop2.
  assert (Hn2 : (0 < Z.to_nat n2)%nat) by lia.
  pose proof (Nat.div_mod_eq t (Z.to_nat n2)) as Hdm.
  pose proof (Nat.mod_upper_bound t (Z.to_nat n2) ltac:(lia)) as Hmod.
  assert (Hdiv : (t / Z.to_nat n2 < Z.to_nat n1)%nat)
    by (apply Nat.Div0.div_lt_upper_bound; lia).
  replace (flat_map _ (urange n1) !! t)
    with (flat_map (fun a => map (fun b => (a, b)) (urange n2)) (urange n1)
          !! (t / Z.to_nat n2 * Z.to_nat n2 + t mod Z.to_nat n2)%nat)
    by (f_equal; lia).
  rewrite (lookup_flat_map_uniform _ _ (Z.to_nat n2) _ _
             (Z.of_nat (t / Z.to_nat n2))).
  - rewrite list_lookup_fmap, urange_lookup by exact Hmod. reflexivity.
  - intros a. rewrite length_map, length_urange. reflexivity.
  - apply urange_lookup. exact Hdiv.
  - exact Hmod.
Qed.

Lemma length_loop2 (n1 n2 : Z) :
  length (loop2 n1 n2) = (Z.to_nat n1 * Z.to_nat n2)%nat.
Proof.
  unfold loop2. rewrite (length_flat_map_uniform _ _ (Z.to_nat n2)).
  - rewrite length_urange. reflexivity.
  - intros a. rewrite length_map, length_urange. reflexivity.
Qed.

Section ReadImages.

Context {F : Type} {FO : FloatOps F}.
Variable pixel_value : Z -> F.

Local Abbreviation pv := (byte_pixel pixel_value) (only parsing).

(** The pixel loop of one square image: with as many rows as columns the
    index [j * numRows + k] runs through the image in file order. *)
Lemma readImages_pixels (R : Z) (stream : list Byte.byte) :
  0 <= R -> R * R < UINT_MODULUS ->
  (Z.to_nat (R * R) <= length stream)%nat ->
  foldM (fun '(stream, image) '(j, k) =>
           match stream with
           | pixel :: stream =>
               let* image :=
                 arr_set image (uadd (umul j R) k)
                         (pixel_value (byte_value pixel)) in
               Ok (stream, image)
           | [] => Undefined
           end)
        (loop2 R R) (stream, repeat f0 (Z.to_nat (R * R)))
  = Ok (drop (Z.to_nat (R * R)) stream,
        map pv (take (Z.to_nat (R * R)) stream)).
Proof.
  intros HR Hfit Hlen.
  set (N := Z.to_nat (R * R)) in *.
  assert (HN : N = (Z.to_nat R * Z.to_nat R)%nat) by (unfold N; nia).
  set (P := fun (t : nat) (st : list Byte.byte * list F) =>
              fst st = drop t stream /\
              snd st = map pv (take t stream) ++ repeat f0 (N - t)).
  match goal with
  | |- foldM ?body ?lst ?st = _ =>
      destruct (foldM_steps P body lst st) as ([st' img'] & Hrun & HP)
  end.
  - split; [rewrite drop_0; reflexivity |].
    cbn. rewrite take_0, Nat.sub_0_r. reflexivity.
  - intros t jk [st img] Ht [Hst Himg]. cbn [fst snd] in *. subst st img.
    assert (Hlt : (t < N)%nat).
    { apply lookup_lt_Some in Ht. rewrite length_loop2 in Ht. lia. }
    rewrite loop2_lookup in Ht by lia. injection Ht as <-.
    destruct (drop t stream) as [| b rest] eqn:Hdrop.
    { apply (f_equal length) in Hdrop. rewrite length_drop in Hdrop.
      cbn in Hdrop. lia. }
    assert (Hidx : uadd (umul (Z.of_nat (t / Z.to_nat R)) R)
                        (Z.of_nat (t mod Z.to_nat R)) = Z.of_nat t).
    { pose proof (Nat.div_mod_eq t (Z.to_nat R)) as Hdm.
      assert (0 < Z.to_nat R)%nat by lia.
      pose proof (Nat.mod_upper_bound t (Z.to_nat R) ltac:(lia)) as Hmod.
      assert (Hsum : Z.of_nat (t / Z.to_nat R) * R + Z.of_nat (t mod Z.to_nat R)
                     = Z.of_nat t) by nia.
      assert (0 <= Z.of_nat (t / Z.to_nat R) * R) by nia.
      unfold uadd, umul. rewrite (wrap_small (_ * R)) by nia.
      rewrite Hsum. apply wrap_small. nia. }
    rewrite Hidx. rewrite arr_set_in_bounds.
    2:{ apply in_bounds_spec. rewrite length_app, length_map, length_take,
          repeat_length. lia. }
    cbn [bind]. eexists. split; [reflexivity |]. unfold P. cbn [fst snd].
    assert (Hb : stream !! t = Some b).
    { rewrite <- (Nat.add_0_r t). rewrite <- lookup_drop. rewrite Hdrop.
      reflexivity. }
    rewrite (drop_S _ _ _ Hb) in Hdrop. injection Hdrop as <-.
    split; [reflexivity |].
    rewrite Nat2Z.id.
    rewrite (take_S_r _ _ _ Hb). rewrite map_app. cbn [map].
    replace (N - t)%nat with (S (N - S t)) by lia. cbn [repeat].
    rewrite insert_app_r_alt
      by (rewrite length_map, length_take; lia).
    rewrite length_map, length_take.
    replace (t - t `min` length stream)%nat with O by lia.
    cbn. rewrite <- app_assoc. reflexivity.
  - rewrite length_loop2, <- HN in HP. destruct HP as [Hst Himg].
    cbn [fst snd] in *. subst. rewrite Hrun. rewrite Nat.sub_diag. cbn.
    rewrite app_nil_r. reflexivity.
Qed.

(** The image loop for square images. *)
Lemma readImages_images {A : Type} (R : Z) (turns : list A)
    (stream : list Byte.byte) (images : list (list F)) :
  0 <= R -> R * R < UINT_MODULUS ->
  (length turns * Z.to_nat (R * R) <= length stream)%nat ->
  foldM (fun '(stream, images) (_ : A) =>
           let image := repeat f0 (Z.to_nat (umul R R)) in
           let* (stream, image) :=
             foldM (fun '(stream, image) '(j, k) =>
                      match stream with
                      | pixel :: stream =>
                          let value := pixel_value (byte_value pixel) in
                          let* image :=
                            arr_set image (uadd (umul j R) k) value in
                          Ok (stream, image)
                      | [] => Undefined
                      end)
                   (loop2 R R) (stream, image) in
           Ok (stream, images ++ [image]))
        turns (stream, images)
  = Ok (drop (length turns * Z.to_nat (R * R)) stream,
        images
        ++ map (fun i => map pv (take (Z.to_nat (R * R))
                                      (drop (i * Z.to_nat (R * R)) stream)))
               (seq 0 (length turns))).
Proof.
  intros HR Hfit.
  assert (Humul : umul R R = R * R) by (apply wrap_small; nia).
  rewrite Humul. revert stream images.
  induction turns as [| t turns IH]; intros stream images Hlen.
  - cbn. rewrite drop_0, app_nil_r. reflexivity.
  - cbn [foldM length] in *. cbv zeta.
    rewrite (readImages_pixels R stream HR Hfit) by lia.
    cbn [bind]. rewrite IH by (rewrite length_drop; lia).
    f_equal. apply pair_equal_spec. split.
    + rewrite drop_drop. f_equal; lia.
    + rewrite <- app_assoc. f_equal. cbn [seq map app]. f_equal.
      rewrite <- seq_shift, map_map. apply map_ext. intros i.
      rewrite drop_drop. do 3 f_equal; lia.
Qed.

(** X13: on a file whose header announces 28 rows and 28 columns and that
    holds all the pixels it announces, [readImages] returns, in either
    build, and appends one image of 784 floats per announced image: image
    [i] holds, in file order, the values of bytes [784 i] to [784 i + 783]
    after the sixteen-byte header.  The magic number is never looked at. *)
Theorem readImages_loads_square_images (NDEBUG : bool)
    (m0 m1 m2 m3 c0 c1 c2 c3 r0 r1 r2 r3 k0 k1 k2 k3 : Byte.byte)
    (data : list Byte.byte) (images : list (list F)) :
  be32 r0 r1 r2 r3 = 28 -> be32 k0 k1 k2 k3 = 28 ->
  784 * be32 c0 c1 c2 c3 <= Z.of_nat (length data) ->
  readImages NDEBUG pixel_value
    (Some (m0 :: m1 :: m2 :: m3 :: c0 :: c1 :: c2 :: c3
           :: r0 :: r1 :: r2 :: r3 :: k0 :: k1 :: k2 :: k3 :: data))
    images
  = Returned
      (Ok (images
           ++ map (fun i => map (byte_pixel pixel_value)
                                (take 784 (drop (i * 784) data)))
                  (seq 0 (Z.to_nat (be32 c0 c1 c2 c3))))).
Proof.
  intros Hrows Hcols Hdata. unfold readImages, read32. cbn [bind]. cbv zeta.
  rewrite !bswap32_load32, Hrows, Hcols. cbn [Z.eqb Pos.eqb andb].
  replace (assert NDEBUG (_ && _)) with (Ok (A := unit) tt)
    by (unfold assert; destruct NDEBUG; reflexivity).
  cbn [bind].
  pose proof (be32_range c0 c1 c2 c3) as Hn.
  rewrite (readImages_images 28) by
    (try (unfold UINT_MODULUS; lia); rewrite length_urange;
     change (Z.to_nat (28 * 28)) with 784%nat; lia).
  cbn [bind]. rewrite length_urange. reflexivity.
Qed.

End ReadImages.

(** One image of 784 bytes 255 behind a header announcing one image of 28
    by 28, read into rationals. *)
Lemma readImages_loads_square_images_witness :
  readImages (F := Q) false (fun v => inject_Z v / 255)%Q
    (Some (Byte.x00 :: Byte.x00 :: Byte.x08 :: Byte.x03
           :: Byte.x00 :: Byte.x00 :: Byte.x00 :: Byte.x01
           :: Byte.x00 :: Byte.x00 :: Byte.x00 :: Byte.x1c
           :: Byte.x00 :: Byte.x00 :: Byte.x00 :: Byte.x1c
           :: repeat Byte.xff 784))
    []
  = Returned
      (Ok ([] ++ map (fun i => map (byte_pixel (fun v => inject_Z v / 255)%Q)
                                   (take 784 (drop (i * 784)
                                                   (repeat Byte.xff 784))))
                     (seq 0 (Z.to_nat (be32 Byte.x00 Byte.x00 Byte.x00
                                            Byte.x01))))).
Proof.
  apply (readImages_loads_square_images (F := Q)).
  - reflexivity.
  - reflexivity.
  - apply Z.leb_le. vm_compute. reflexivity.
Defined.

Lemma foldM_Undefined {A S : Type} (P : S -> Prop) (body : S -> A -> result S)
    (l1 l2 : list A) (x : A) (s : S) :
  (forall s y, P s ->
     body s y = Undefined \/ exists s', body s y = Ok s' /\ P s') ->
  (forall s, P s -> body s x = Undefined) ->
  P s -> foldM body (l1 ++ x :: l2) s = Undefined.
Proof.
  intros Hany Hx. revert s. induction l1 as [| y l1 IH]; intros s HP; cbn.
  - rewrite (Hx s HP). reflexivity.
  - destruct (Hany s y HP) as [-> | (s' & -> & HP')]; [reflexivity |].
    cbn. apply IH. exact HP'.
Qed.

Section ReadImagesBounds.

Context {F : Type} {FO : FloatOps F}.
Variable pixel_value : Z -> F.

(** X14: a file that announces at least one image with more rows than
    columns (fewer than 65536 rows, at least one column) stops
    [readImages] at its [assert].  With NDEBUG the call is undefined
    whatever follows the header: the pixel loop, whose index is
    [j * numRows + k], writes outside the image of [numRows * numCols]
    floats when it reaches row [numCols], unless the file ran out of
    pixels before. *)
Theorem readImages_more_rows_than_columns (NDEBUG : bool)
    (m0 m1 m2 m3 c0 c1 c2 c3 r0 r1 r2 r3 k0 k1 k2 k3 : Byte.byte)
    (data : list Byte.byte) (images : list (list F)) :
  1 <= be32 c0 c1 c2 c3 ->
  1 <= be32 k0 k1 k2 k3 ->
  be32 k0 k1 k2 k3 < be32 r0 r1 r2 r3 ->
  be32 r0 r1 r2 r3 < 2 ^ 16 ->
  readImages NDEBUG pixel_value
    (Some (m0 :: m1 :: m2 :: m3 :: c0 :: c1 :: c2 :: c3
           :: r0 :: r1 :: r2 :: r3 :: k0 :: k1 :: k2 :: k3 :: data))
    images
  = Returned (if NDEBUG then Undefined else Fatal).
Proof.
  intros Hn Hcols Hrows Hsmall. unfold readImages, read32. cbn [bind]. cbv zeta.
  rewrite !bswap32_load32.
  set (n := be32 c0 c1 c2 c3) in *. set (R := be32 r0 r1 r2 r3) in *.
  set (C := be32 k0 k1 k2 k3) in *.
  change (2 ^ 16) with 65536 in Hsmall.
  assert (Hcheck : (R =? imageHeight) && (C =? imageWidth) = false).
  { unfold imageHeight, imageWidth.
    destruct (Z.eqb_spec R 28), (Z.eqb_spec C 28); try reflexivity. lia. }
  rewrite Hcheck. unfold assert. destruct NDEBUG; [| reflexivity]. cbn [bind].
  f_equal.
  assert (Hturns : urange n = 0 :: map Z.of_nat (seq 1 (Z.to_nat n - 1))).
  { unfold urange. replace (Z.to_nat n) with (S (Z.to_nat n - 1)) by lia.
    cbn [seq map]. replace (S (Z.to_nat n - 1) - 1)%nat with (Z.to_nat n - 1)%nat
      by lia. reflexivity. }
  rewrite Hturns. cbn [foldM].
  assert (Humul : umul R C = R * C).
  { apply wrap_small. unfold UINT_MODULUS. change (2 ^ 32) with 4294967296. nia. }
  rewrite Humul.
  assert (Hpos : (Z.to_nat C * Z.to_nat C < Z.to_nat R * Z.to_nat C)%nat) by nia.
  pose proof (loop2_lookup R C (Z.to_nat C * Z.to_nat C) Hpos) as Hat.
  rewrite Nat.div_mul, Nat.Div0.mod_mul in Hat by lia.
  rewrite Z2Nat.id in Hat by lia.
  rewrite <- (take_drop_middle _ _ _ Hat).
  rewrite (foldM_Undefined
             (fun st : list Byte.byte * list F =>
                length (snd st) = Z.to_nat (R * C))).
  - reflexivity.
  - intros [st img] [j k] Himg. cbn [snd] in Himg.
    destruct st as [| pixel st]; [left; reflexivity |].
    unfold arr_set. destruct (in_bounds _ _); cbn [bind]; [| left; reflexivity].
    right. eexists. split; [reflexivity |]. cbn [snd].
    rewrite length_insert. exact Himg.
  - intros [st img] Himg. cbn [snd] in Himg.
    destruct st as [| pixel st]; [reflexivity |].
    unfold arr_set.
    replace (in_bounds _ _) with false; [reflexivity |].
    symmetry. apply in_bounds_false. rewrite Himg.
    unfold uadd, umul. rewrite (wrap_small (C * R)), Z.add_0_r
      by (unfold UINT_MODULUS; change (2 ^ 32) with 4294967296; nia).
    rewrite wrap_small
      by (unfold UINT_MODULUS; change (2 ^ 32) with 4294967296; nia).
    nia.
  - cbn [snd]. apply repeat_length.
Qed.

End ReadImagesBounds.

(** A header announcing one image of two rows and one column, in a build
    with NDEBUG. *)
Lemma readImages_more_rows_than_columns_witness :
  readImages (F := Q) true (fun v => inject_Z v / 255)%Q
    (Some (Byte.x00 :: Byte.x00 :: Byte.x08 :: Byte.x03
           :: Byte.x00 :: Byte.x00 :: Byte.x00 :: Byte.x01
           :: Byte.x00 :: Byte.x00 :: Byte.x00 :: Byte.x02
           :: Byte.x00 :: Byte.x00 :: Byte.x00 :: Byte.x01
           :: [Byte.x07; Byte.x09]))
    []
  = Returned Undefined.
Proof.
  apply (readImages_more_rows_than_columns (F := Q) _ true);
    apply Z.leb_le || apply Z.ltb_lt; vm_compute; reflexivity.
Defined.

Lemma softmax_sum_snoc {F : Type} {FO : FloatOps F} (zs : list F) (z : F) :
  softmax_sum (zs ++ [z]) = fadd (softmax_sum zs) (fexp z).
Proof. unfold softmax_sum. rewrite fold_left_app. reflexivity. Qed.

Section SoftMaxForward.

Context {F : Type} {FO : FloatOps F} {RO : RandomOps F}.
Variable NDEBUG : bool.

(** A loop over the neurons of a softmax layer that replaces neuron [k] by
    [method .. n], whatever the neurons before it have become. *)
Lemma SoftMaxLayer_loop_spec
    (method : SoftMaxLayer -> @Store F RO -> FullyConnectedNeuron ->
              result FullyConnectedNeuron)
    (R : nat -> FullyConnectedNeuron -> FullyConnectedNeuron -> Prop)
    (s : @Store F RO) (this : nat) (l : SoftMaxLayer) :
  layers s !! this = Some (LSoftMax l) ->
  (forall ns1 k n,
     sml_neurons l !! k = Some n ->
     exists n',
       method (sml_with_neurons l ns1)
              (put_layer s this (LSoftMax (sml_with_neurons l ns1))) n
       = Ok n' /\ R k n n') ->
  exists ns',
    foldM (fun s k =>
             let* l := this_SoftMax s this in
             let* n := arr_get (sml_neurons l) (Z.of_nat k) in
             let* n' := method l s n in
             Ok (put_layer s this
                   (LSoftMax (sml_with_neurons l (<[k := n']> (sml_neurons l))))))
          (seq 0 (length (sml_neurons l))) s
    = Ok (put_layer s this (LSoftMax (sml_with_neurons l ns'))) /\
    length ns' = length (sml_neurons l) /\
    forall k n, sml_neurons l !! k = Some n ->
      exists n', ns' !! k = Some n' /\ R k n n'.
Proof.
  intros Hl Hm.
  set (ns := sml_neurons l).
  set (P := fun (k : nat) (s1 : @Store F RO) =>
              exists ns1,
                s1 = put_layer s this (LSoftMax (sml_with_neurons l ns1)) /\
                length ns1 = length ns /\
                (forall j n, ns !! j = Some n -> (j < k)%nat ->
                   exists n', ns1 !! j = Some n' /\ R j n n') /\
                (forall j, (k <= j)%nat -> ns1 !! j = ns !! j)).
  match goal with
  | |- exists ns', foldM ?body ?lst s = _ /\ _ =>
      destruct (foldM_steps P body lst s) as (s' & Hrun & HP)
  end.
  - exists ns. split; [| split; [reflexivity | split]].
    + symmetry. replace (sml_with_neurons l ns) with l by (destruct l; reflexivity).
      apply put_layer_same. exact Hl.
    + intros j n _ Hlt. lia.
    + reflexivity.
  - intros k x s1 Hx (ns1 & -> & Hlen & Hdone & Htodo).
    apply lookup_seq in Hx. destruct Hx as [-> Hk]. cbn [Nat.add] in *.
    unfold this_SoftMax. rewrite (put_layer_lookup _ _ _ _ Hl). cbn [bind].
    change (sml_neurons (sml_with_neurons l ns1)) with ns1.
    destruct (lookup_lt_is_Some_2 ns k Hk) as [n Hn].
    assert (Hn1 : ns1 !! k = Some n) by (rewrite Htodo by lia; exact Hn).
    replace (arr_get ns1 (Z.of_nat k)) with (Ok n).
    2:{ symmetry. apply arr_get_Ok. rewrite Nat2Z.id. split; [| exact Hn1].
        apply in_bounds_spec. apply lookup_lt_Some in Hn1. lia. }
    cbn [bind].
    destruct (Hm ns1 k n Hn) as (n' & Hmeth & HR).
    rewrite Hmeth. cbn [bind].
    eexists. split; [reflexivity |].
    exists (<[k := n']> ns1). split; [| split; [| split]].
    + rewrite put_layer_put_layer. reflexivity.
    + rewrite length_insert. exact Hlen.
    + intros j m Hj Hlt. destruct (Nat.eq_dec j k) as [-> | Hne].
      * exists n'. rewrite list_lookup_insert_eq by lia.
        split; [reflexivity |]. congruence.
      * rewrite list_lookup_insert_ne by congruence. apply Hdone; [exact Hj | lia].
    + intros j Hj. rewrite list_lookup_insert_ne by lia. apply Htodo. lia.
  - rewrite length_seq in HP. destruct HP as (ns' & -> & Hlen & Hdone & _).
    exists ns'. split; [exact Hrun |]. split; [exact Hlen |].
    intros k n Hn. apply Hdone; [exact Hn |]. eapply lookup_lt_Some. exact Hn.
Qed.

(** The first loop of [SoftMaxLayer::feedForward]: the weighted inputs and
    the running sum of their exponentials. *)
Lemma SoftMaxLayer_feedForward_sums
    (s : @Store F RO) (this : nat) (l : SoftMaxLayer) (p : ptr)
    (mb size : Z) (a : Z -> F) (w : nat -> Z -> F) :
  layers s !! this = Some (LSoftMax l) ->
  p <> PLayer this ->
  Layer_size s p = Ok size ->
  (forall i, 0 <= i < size -> input_activation NDEBUG s p i mb = Ok (a i)) ->
  (forall k n, sml_neurons l !! k = Some n ->
     fcn_inputs n = p /\
     (forall i, 0 <= i < size -> arr_get (weights n) i = Ok (w k i)) /\
     0 <= mb < Z.of_nat (length (weightedInputs (fcn_base n)))) ->
  exists ns',
    foldM (fun '(s, sum) k =>
             let* l := this_SoftMax s this in
             let* n := arr_get (sml_neurons l) (Z.of_nat k) in
             let* n' := SoftMaxNeuron_feedForward NDEBUG s n mb in
             let* z := arr_get (weightedInputs (fcn_base n')) mb in
             Ok (put_layer s this
                   (LSoftMax
                      (sml_with_neurons l (<[k := n']> (sml_neurons l)))),
                 fadd sum (fexp z)))
          (seq 0 (length (sml_neurons l))) (s, f0)
    = Ok (put_layer s this (LSoftMax (sml_with_neurons l ns')),
          softmax_sum (softmax_inputs a w size (sml_neurons l))) /\
    length ns' = length (sml_neurons l) /\
    forall k n, sml_neurons l !! k = Some n ->
      exists n', ns' !! k = Some n' /\
        arr_get (weightedInputs (fcn_base n')) mb
        = Ok (weighted_sum a (w k) size (bias n)) /\
        activations (fcn_base n') = activations (fcn_base n) /\
        weights n' = weights n /\ bias n' = bias n.
Proof.
  intros Hl Hp Hsize Ha Hn.
  set (ns := sml_neurons l).
  set (zs := softmax_inputs a w size ns).
  set (R := fun (k : nat) (n n' : @FullyConnectedNeuron F) =>
              arr_get (weightedInputs (fcn_base n')) mb
              = Ok (weighted_sum a (w k) size (bias n)) /\
              activations (fcn_base n') = activations (fcn_base n) /\
              weights n' = weights n /\ bias n' = bias n).
  set (P := fun (k : nat) (st : @Store F RO * F) =>
              exists ns1,
                fst st = put_layer s this (LSoftMax (sml_with_neurons l ns1)) /\
                length ns1 = length ns /\
                (forall j n, ns !! j = Some n -> (j < k)%nat ->
                   exists n', ns1 !! j = Some n' /\ R j n n') /\
                (forall j, (k <= j)%nat -> ns1 !! j = ns !! j) /\
                snd st = softmax_sum (take k zs)).
  match goal with
  | |- exists ns', foldM ?body ?lst ?st = _ /\ _ =>
      destruct (foldM_steps P body lst st) as ([s' sum'] & Hrun & HP)
  end.
  - exists ns. cbn [fst snd]. split; [| split; [reflexivity | split; [| split]]].
    + symmetry. replace (sml_with_neurons l ns) with l by (destruct l; reflexivity).
      apply put_layer_same. exact Hl.
    + intros j n _ Hlt. lia.
    + reflexivity.
    + reflexivity.
  - intros k x [s1 sum1] Hx (ns1 & Hs1 & Hlen & Hdone & Htodo & Hsum).
    cbn [fst snd] in Hs1, Hsum. subst s1.
    apply lookup_seq in Hx. destruct Hx as [-> Hk]. cbn [Nat.add] in *.
    unfold this_SoftMax. rewrite (put_layer_lookup _ _ _ _ Hl). cbn [bind].
    change (sml_neurons (sml_with_neurons l ns1)) with ns1.
    destruct (lookup_lt_is_Some_2 ns k Hk) as [n Hnk].
    assert (Hn1 : ns1 !! k = Some n) by (rewrite Htodo by lia; exact Hnk).
    replace (arr_get ns1 (Z.of_nat k)) with (Ok n).
    2:{ symmetry. apply arr_get_Ok. rewrite Nat2Z.id. split; [| exact Hn1].
        apply in_bounds_spec. apply lookup_lt_Some in Hn1. lia. }
    cbn [bind].
    destruct (Hn k n Hnk) as (Hin & Hw & Hz).
    unfold SoftMaxNeuron_feedForward.
    rewrite (weightedInput_of_sum NDEBUG _ n mb size a (w k)).
    2:{ rewrite Hin. rewrite Layer_size_put_layer by exact Hp. exact Hsize. }
    2:{ intros i Hi. rewrite Hin. unfold input_activation.
        rewrite Layer_getNeuron1_put_layer by exact Hp. apply (Ha i Hi). }
    2:{ exact Hw. }
    cbn [bind]. apply in_bounds_spec in Hz.
    unfold set_weightedInput. rewrite arr_set_in_bounds by exact Hz.
    cbn [bind fcn_base fcn_with_base weightedInputs].
    rewrite arr_get_insert by exact Hz. rewrite Z.eqb_refl. cbn [bind].
    eexists. split; [reflexivity |].
    eexists (<[k := _]> ns1). cbn [fst snd]. split; [| split; [| split; [| split]]].
    + rewrite put_layer_put_layer. reflexivity.
    + rewrite length_insert. exact Hlen.
    + intros j m Hj Hlt. destruct (Nat.eq_dec j k) as [-> | Hne].
      * eexists. rewrite list_lookup_insert_eq by lia.
        split; [reflexivity |].
        assert (m = n) by congruence. subst m. unfold R. cbn.
        rewrite arr_get_insert by exact Hz. rewrite Z.eqb_refl. auto.
      * rewrite list_lookup_insert_ne by congruence. apply Hdone; [exact Hj | lia].
    + intros j Hj. rewrite list_lookup_insert_ne by lia. apply Htodo. lia.
    + assert (Hzk : zs !! k = Some (weighted_sum a (w k) size (bias n))).
      { unfold zs, softmax_inputs. rewrite list_lookup_imap. rewrite Hnk.
        reflexivity. }
      rewrite (take_S_r _ _ _ Hzk), softmax_sum_snoc, <- Hsum. reflexivity.
  - rewrite length_seq in HP.
    destruct HP as (ns' & Hs' & Hlen & Hdone & _ & Hsum).
    cbn [fst snd] in Hs', Hsum. subst s'.
    rewrite firstn_all2 in Hsum
      by (unfold zs, softmax_inputs; rewrite length_imap; reflexivity).
    subst sum'.
    exists ns'. split; [exact Hrun |]. split; [exact Hlen |].
    intros k n Hk. apply Hdone; [exact Hk |]. eapply lookup_lt_Some. exact Hk.
Qed.

(** X15: [SoftMaxLayer::feedForward(mb)] on a layer whose neurons read a
    predecessor other than the layer itself returns, and leaves in slot
    [mb] of neuron [k] its weighted input [z k] and the activation
    [exp (z k) / sum], where [sum] is [0.0f + exp (z 0) + exp (z 1) + ...]
    over all the neurons of the layer in order; weights, biases and the
    other layers are as before. *)
Theorem SoftMaxLayer_feedForward_values
    (s : @Store F RO) (this : nat) (l : SoftMaxLayer) (p : ptr)
    (mb size : Z) (a : Z -> F) (w : nat -> Z -> F) :
  layers s !! this = Some (LSoftMax l) ->
  p <> PLayer this ->
  Layer_size s p = Ok size ->
  (forall i, 0 <= i < size -> input_activation NDEBUG s p i mb = Ok (a i)) ->
  (forall k n, sml_neurons l !! k = Some n ->
     fcn_inputs n = p /\
     (forall i, 0 <= i < size -> arr_get (weights n) i = Ok (w k i)) /\
     0 <= mb < Z.of_nat (length (weightedInputs (fcn_base n))) /\
     0 <= mb < Z.of_nat (length (activations (fcn_base n)))) ->
  exists s' l',
    SoftMaxLayer_feedForward NDEBUG s this mb = Ok s' /\
    layers s' !! this = Some (LSoftMax l') /\
    (forall j, j <> this -> layers s' !! j = layers s !! j) /\
    inputLayer s' = inputLayer s /\
    length (sml_neurons l') = length (sml_neurons l) /\
    forall k n, sml_neurons l !! k = Some n ->
      exists n',
        sml_neurons l' !! k = Some n' /\
        arr_get (weightedInputs (fcn_base n')) mb
        = Ok (weighted_sum a (w k) size (bias n)) /\
        arr_get (activations (fcn_base n')) mb
        = Ok (fdiv (fexp (weighted_sum a (w k) size (bias n)))
                   (softmax_sum (softmax_inputs a w size (sml_neurons l)))) /\
        weights n' = weights n /\ bias n' = bias n.
Proof.
  intros Hl Hp Hsize Ha Hn. unfold SoftMaxLayer_feedForward.
  assert (Hthis : this_SoftMax s this = Ok l)
    by (unfold this_SoftMax; rewrite Hl; reflexivity).
  rewrite Hthis. cbn [bind]. cbv zeta.
  destruct (SoftMaxLayer_feedForward_sums s this l p mb size a w Hl Hp Hsize Ha)
    as (ns1 & Hrun1 & Hlen1 & Hall1).
  { intros k n Hk. destruct (Hn k n Hk) as (H1 & H2 & H3 & _). auto. }
  rewrite Hrun1. cbn [bind].
  set (total := softmax_sum (softmax_inputs a w size (sml_neurons l))).
  set (s1 := put_layer s this (LSoftMax (sml_with_neurons l ns1))).
  assert (Hl1 : layers s1 !! this = Some (LSoftMax (sml_with_neurons l ns1)))
    by apply (put_layer_lookup _ _ _ _ Hl).
  destruct (SoftMaxLayer_loop_spec
              (fun _ _ n =>
                 let* z := arr_get (weightedInputs (fcn_base n)) mb in
                 let* b := set_activation (fcn_base n) mb (fdiv (fexp z) total) in
                 Ok (fcn_with_base n b))
              (fun k n1 n' =>
                 weightedInputs (fcn_base n') = weightedInputs (fcn_base n1) /\
                 (forall n, sml_neurons l !! k = Some n ->
                    arr_get (activations (fcn_base n')) mb
                    = Ok (fdiv (fexp (weighted_sum a (w k) size (bias n))) total)) /\
                 weights n' = weights n1 /\ bias n' = bias n1)
              s1 this (sml_with_neurons l ns1) Hl1) as (ns2 & Hrun2 & Hlen2 & Hall2).
  - intros ns k n1 Hk1. change (sml_neurons (sml_with_neurons l ns1)) with ns1 in Hk1.
    assert (Hk : is_Some (sml_neurons l !! k)).
    { apply lookup_lt_is_Some_2. rewrite <- Hlen1. eapply lookup_lt_Some.
      exact Hk1. }
    destruct Hk as [n Hk].
    destruct (Hall1 k n Hk) as (n1' & Hk1' & Hz & Hact & Hw & Hb).
    assert (n1' = n1) by congruence. subst n1'.
    destruct (Hn k n Hk) as (_ & _ & _ & Hmb).
    rewrite Hz. cbn [bind]. rewrite <- Hact in Hmb. apply in_bounds_spec in Hmb.
    unfold set_activation. rewrite arr_set_in_bounds by exact Hmb. cbn [bind].
    eexists. split; [reflexivity |]. cbn.
    split; [reflexivity |]. split; [| auto].
    intros n0 Hn0. assert (n0 = n) by congruence. subst n0.
    rewrite arr_get_insert by exact Hmb. rewrite Z.eqb_refl. reflexivity.
  - change (sml_neurons (sml_with_neurons l ns1)) with ns1 in *.
    rewrite Hlen1 in Hrun2.
    match goal with
    | |- exists s' l', ?run = _ /\ _ =>
        match type of Hrun2 with
        | ?run2 = _ => replace run with run2
        end
    end.
    2:{ apply foldM_ext. intros s2 k.
        destruct (this_SoftMax s2 this) as [l2 | | |]; cbn [bind]; try reflexivity.
        destruct (arr_get (sml_neurons l2) (Z.of_nat k)) as [n2 | | |];
          cbn [bind]; try reflexivity.
        destruct (arr_get (weightedInputs (fcn_base n2)) mb) as [z | | |];
          cbn [bind]; try reflexivity.
        destruct (set_activation (fcn_base n2) mb (fdiv (fexp z) total))
          as [b | | |]; cbn [bind]; reflexivity. }
    eexists. exists (sml_with_neurons l ns2). split; [exact Hrun2 |].
    unfold s1. rewrite put_layer_put_layer.
    split; [apply (put_layer_lookup _ _ _ _ Hl) |].
    split; [| split; [reflexivity | split]].
    + intros j Hj. unfold put_layer. cbn.
      apply list_lookup_insert_ne. congruence.
    + cbn. lia.
    + intros k n Hk. destruct (Hall1 k n Hk) as (n1 & Hk1 & Hz & Hact & Hw & Hb).
      destruct (Hall2 k n1 Hk1) as (n2 & Hk2 & Hz2 & Hact2 & Hw2 & Hb2).
      exists n2. cbn. split; [exact Hk2 |]. rewrite Hz2.
      split; [exact Hz |]. split; [apply (Hact2 n Hk) |]. split; congruence.
Qed.

End SoftMaxForward.

Lemma SoftMaxLayer_feedForward_values_witness :
  exists s' l',
    SoftMaxLayer_feedForward false fc_fed 1 0 = Ok s' /\
    layers s' !! 1%nat = Some (LSoftMax l') /\
    (forall j, j <> 1%nat -> layers s' !! j = layers fc_fed !! j) /\
    inputLayer s' = inputLayer fc_fed /\
    length (sml_neurons l') = length (sml_neurons fc_fed_softmax) /\
    forall k n, sml_neurons fc_fed_softmax !! k = Some n ->
      exists n',
        sml_neurons l' !! k = Some n' /\
        arr_get (weightedInputs (fcn_base n')) 0
        = Ok (weighted_sum fc_hidden (fc_fed_weight k) 2 (bias n)) /\
        arr_get (activations (fcn_base n')) 0
        = Ok (fdiv (fexp (weighted_sum fc_hidden (fc_fed_weight k) 2 (bias n)))
                   (softmax_sum (softmax_inputs fc_hidden fc_fed_weight 2
                                   (sml_neurons fc_fed_softmax)))) /\
        weights n' = weights n /\ bias n' = bias n.
Proof.
  apply (SoftMaxLayer_feedForward_values false fc_fed 1 fc_fed_softmax
           (PLayer 0) 0 2 fc_hidden fc_fed_weight).
  - vm_compute. reflexivity.
  - discriminate.
  - vm_compute. reflexivity.
  - intros i Hi.
    assert (Ei : i = 0 \/ i = 1) by lia.
    destruct Ei as [-> | ->]; vm_compute; reflexivity.
  - intros k n Hk.
    assert (Hlen : length (sml_neurons fc_fed_softmax) = 2%nat)
      by (vm_compute; reflexivity).
    assert (Ek : k = 0%nat \/ k = 1%nat)
      by (apply lookup_lt_Some in Hk; lia).
    destruct Ek as [-> | ->]; vm_compute in Hk; injection Hk as <-;
      (split; [reflexivity |]); (split; [| split; vm_compute; split; congruence]);
      intros i Hi;
      assert (Ei : i = 0 \/ i = 1) by lia;
      destruct Ei as [-> | ->]; vm_compute; reflexivity.
Defined.

Section OutputError.

Context {F : Type} {FO : FloatOps F} {RO : RandomOps F}.

(** X16: [SoftMaxLayer::computeOutputError(label, mb)] returns when slot
    [mb] exists in every neuron, and stores in [errors[mb]] of each neuron
    the layer's cost derivative of its weighted input, its activation and
    the one-hot target: [1.0f] for the neuron whose index is [label],
    [0.0f] for the others.  Weighted inputs, activations, weights, biases
    and the other layers are as before. *)
Theorem SoftMaxLayer_computeOutputError_one_hot
    (s : @Store F RO) (this : nat) (l : SoftMaxLayer) (label mb : Z)
    (z a : nat -> F) :
  layers s !! this = Some (LSoftMax l) ->
  (forall k n, sml_neurons l !! k = Some n ->
     arr_get (weightedInputs (fcn_base n)) mb = Ok (z k) /\
     arr_get (activations (fcn_base n)) mb = Ok (a k) /\
     0 <= mb < Z.of_nat (length (errors (fcn_base n)))) ->
  exists s' l',
    SoftMaxLayer_computeOutputError s this label mb = Ok s' /\
    layers s' !! this = Some (LSoftMax l') /\
    (forall j, j <> this -> layers s' !! j = layers s !! j) /\
    inputLayer s' = inputLayer s /\
    length (sml_neurons l') = length (sml_neurons l) /\
    forall k n, sml_neurons l !! k = Some n ->
      exists n',
        sml_neurons l' !! k = Some n' /\
        arr_get (errors (fcn_base n')) mb
        = Ok (sml_costDelta l (z k) (a k)
                (if label =? n_index (fcn_base n) then f1 else f0)) /\
        weightedInputs (fcn_base n') = weightedInputs (fcn_base n) /\
        activations (fcn_base n') = activations (fcn_base n) /\
        weights n' = weights n /\ bias n' = bias n.
Proof.
  intros Hl Hn. unfold SoftMaxLayer_computeOutputError, SoftMaxLayer_for_each.
  assert (Hthis : this_SoftMax s this = Ok l)
    by (unfold this_SoftMax; rewrite Hl; reflexivity).
  rewrite Hthis. cbn [bind].
  destruct (SoftMaxLayer_loop_spec
              (fun l _ n =>
                 SoftMaxNeuron_computeOutputError (sml_costDelta l) n label mb)
              (fun k n n' =>
                 arr_get (errors (fcn_base n')) mb
                 = Ok (sml_costDelta l (z k) (a k)
                         (if label =? n_index (fcn_base n) then f1 else f0)) /\
                 weightedInputs (fcn_base n') = weightedInputs (fcn_base n) /\
                 activations (fcn_base n') = activations (fcn_base n) /\
                 weights n' = weights n /\ bias n' = bias n)
              s this l Hl) as (ns' & Hrun & Hlen & Hall).
  - intros ns1 k n Hk. destruct (Hn k n Hk) as (Hz & Ha & Hmb).
    unfold SoftMaxNeuron_computeOutputError. cbv zeta.
    rewrite Hz, Ha. cbn [bind]. apply in_bounds_spec in Hmb.
    unfold set_error. rewrite arr_set_in_bounds by exact Hmb. cbn [bind].
    eexists. split; [reflexivity |]. cbn.
    rewrite arr_get_insert by exact Hmb. rewrite Z.eqb_refl. auto.
  - eexists. exists (sml_with_neurons l ns'). split; [exact Hrun |].
    split; [apply (put_layer_lookup _ _ _ _ Hl) |].
    split; [| split; [reflexivity | split; [exact Hlen | exact Hall]]].
    intros j Hj. unfold put_layer. cbn.
    apply list_lookup_insert_ne. congruence.
Qed.

End OutputError.

Lemma SoftMaxLayer_computeOutputError_one_hot_witness :
  exists s' l',
    SoftMaxLayer_computeOutputError fc_forwarded 1 1 0 = Ok s' /\
    layers s' !! 1%nat = Some (LSoftMax l') /\
    (forall j, j <> 1%nat -> layers s' !! j = layers fc_forwarded !! j) /\
    inputLayer s' = inputLayer fc_forwarded /\
    length (sml_neurons l') = length (sml_neurons fc_softmax) /\
    forall k n, sml_neurons fc_softmax !! k = Some n ->
      exists n',
        sml_neurons l' !! k = Some n' /\
        arr_get (errors (fcn_base n')) 0
        = Ok (sml_costDelta fc_softmax
                (fc_z k) (fc_act k)
                (if 1 =? n_index (fcn_base n) then f1 else f0)) /\
        weightedInputs (fcn_base n') = weightedInputs (fcn_base n) /\
        activations (fcn_base n') = activations (fcn_base n) /\
        weights n' = weights n /\ bias n' = bias n.
Proof.
  apply (SoftMaxLayer_computeOutputError_one_hot fc_forwarded 1 fc_softmax 1 0
           fc_z fc_act).
  - vm_compute. reflexivity.
  - intros k n Hk.
    assert (Hlen : length (sml_neurons fc_softmax) = 2%nat)
      by (vm_compute; reflexivity).
    assert (Ek : k = 0%nat \/ k = 1%nat)
      by (apply lookup_lt_Some in Hk; lia).
    destruct Ek as [-> | ->]; vm_compute in Hk; injection Hk as <-;
      (split; [vm_compute; reflexivity |]);
      (split; [vm_compute; reflexivity |]); vm_compute; split; congruence.
Defined.

Lemma loop3_In (n1 n2 n3 a b c : Z) :
  0 <= a < n1 -> 0 <= b < n2 -> 0 <= c < n3 -> In (a, b, c) (loop3 n1 n2 n3).
Proof.
  intros Ha Hb Hc. unfold loop3. apply in_flat_map. exists a.
  split; [apply in_urange; exact Ha |].
  apply in_flat_map. exists b. split; [apply in_urange; exact Hb |].
  apply (in_map (fun c => (a, b, c))). apply in_urange. exact Hc.
Qed.

Lemma in_loop2 (n1 n2 a b : Z) :
  In (a, b) (loop2 n1 n2) -> 0 <= a < n1 /\ 0 <= b < n2.
Proof.
  unfold loop2. intros H. apply in_flat_map in H. destruct H as (a' & Ha & H).
  apply in_map_iff in H. destruct H as (b' & E & Hb). injection E as -> ->.
  split; apply in_urange; assumption.
Qed.

(** The last turn of [for a < n1: for b < n2]. *)
Lemma loop2_last (n1 n2 : Z) :
  1 <= n1 -> 1 <= n2 ->
  loop2 n1 n2
  = take (Z.to_nat n1 * Z.to_nat n2 - 1) (loop2 n1 n2) ++ [(n1 - 1, n2 - 1)].
Proof.
  intros H1 H2. set (t := (Z.to_nat n1 * Z.to_nat n2 - 1)%nat).
  assert (Ht : (t < Z.to_nat n1 * Z.to_nat n2)%nat) by (unfold t; nia).
  pose proof (loop2_lookup n1 n2 t Ht) as Hat.
  assert (Hq : (t / Z.to_nat n2 = Z.to_nat n1 - 1)%nat).
  { symmetry. apply (Nat.div_unique _ _ _ (Z.to_nat n2 - 1)); [lia |].
    unfold t. nia. }
  assert (Hr : (t mod Z.to_nat n2 = Z.to_nat n2 - 1)%nat).
  { symmetry. apply (Nat.mod_unique _ _ (Z.to_nat n1 - 1)); [lia |].
    unfold t. nia. }
  rewrite Hq, Hr in Hat.
  replace (Z.of_nat (Z.to_nat n1 - 1)) with (n1 - 1) in Hat by lia.
  replace (Z.of_nat (Z.to_nat n2 - 1)) with (n2 - 1) in Hat by lia.
  rewrite <- (take_drop_middle _ _ _ Hat) at 1. f_equal. f_equal.
  apply drop_ge. rewrite length_loop2. lia.
Qed.

(** A loop whose every turn keeps [Inv], that establishes [Q] at the turn
    for [x] and keeps it afterwards. *)
Lemma foldM_reaches {A S : Type} (Inv Q : S -> Prop) (body : S -> A -> result S)
    (l : list A) (x : A) (s : S) :
  (forall s y, In y l -> Inv s ->
     exists s', body s y = Ok s' /\ Inv s' /\ (y = x \/ Q s -> Q s')) ->
  In x l -> Inv s ->
  exists s', foldM body l s = Ok s' /\ Inv s' /\ Q s'.
Proof.
  intros Hstep Hin HInv.
  assert (Hgen : In x l \/ Q s) by (left; exact Hin). clear Hin.
  revert s HInv Hgen. induction l as [| y l IH]; intros s HInv Hgen; cbn.
  - destruct Hgen as [[] | HQ]. eauto.
  - destruct (Hstep s y (or_introl eq_refl) HInv) as (s1 & -> & HInv1 & HQ1).
    cbn [bind]. apply IH.
    + intros s2 y2 Hy2. apply Hstep. right. exact Hy2.
    + exact HInv1.
    + destruct Hgen as [[Hy | Hin] | HQ].
      * right. apply HQ1. left. exact Hy.
      * left. exact Hin.
      * right. apply HQ1. right. exact HQ.
Qed.

Section MaxPoolForward.

Context {F : Type} {FO : FloatOps F} {RO : RandomOps F}.
Variable NDEBUG : bool.

Lemma Layer_getNeuron3_put_layer (s : @Store F RO) (this : nat) (l : Layer)
    (p : ptr) (x y z : Z) :
  p <> PLayer this ->
  Layer_getNeuron3 NDEBUG (put_layer s this l) p x y z
  = Layer_getNeuron3 NDEBUG s p x y z.
Proof.
  intros Hp. unfold Layer_getNeuron3. rewrite deref_put_layer by exact Hp.
  reflexivity.
Qed.

Variable s : @Store F RO.
Variable this : nat.
Variable l : @MaxPoolLayer F.
Variable mb dx dy dz : Z.
Variable a : Z -> Z -> Z -> F.

Hypothesis Hl : layers s !! this = Some (LMaxPool l).
Hypothesis Hp : mp_inputs l <> PLayer this.
Hypothesis Hshape : shape (mp_neurons l) = [dx; dy; dz].
Hypothesis HpoolX : 1 <= mp_poolX l.
Hypothesis HpoolY : 1 <= mp_poolY l.
Hypothesis HfitX : dx * mp_poolX l < UINT_MODULUS.
Hypothesis HfitY : dy * mp_poolY l < UINT_MODULUS.
Hypothesis Ha : forall X Y z,
  0 <= X < dx * mp_poolX l -> 0 <= Y < dy * mp_poolY l -> 0 <= z < dz ->
  activation_at NDEBUG s (mp_inputs l) X Y z mb = Ok (a X Y z).

(** One turn of the window loop for the neuron at [(x, y, z)]. *)
Lemma MaxPoolLayer_feedForward_turn (x y z ia ib : Z) (s1 : @Store F RO) :
  0 <= x < dx -> 0 <= y < dy -> 0 <= z < dz ->
  0 <= ia < mp_poolX l -> 0 <= ib < mp_poolY l ->
  pool_state s this l mb s1 ->
  exists s2,
    (let* l := this_MaxPool s1 this in
     let* inp := Layer_getNeuron3 NDEBUG s1 (mp_inputs l)
                   (uadd (umul x (mp_poolX l)) ia)
                   (uadd (umul y (mp_poolY l)) ib) z in
     let* input := arr_get (activations inp) mb in
     let* n := ma_get NDEBUG (mp_neurons l) [x; y; z] in
     let* n' := set_activation n mb (fmax FLT_MIN input) in
     let* ns' := ma_set NDEBUG (mp_neurons l) [x; y; z] n' in
     Ok (put_layer s1 this (LMaxPool (mp_with_neurons l ns')))) = Ok s2 /\
    pool_state s this l mb s2 /\
    pooled_at NDEBUG s2 this [x; y; z] mb
      (fmax FLT_MIN (a (x * mp_poolX l + ia) (y * mp_poolY l + ib) z)) /\
    forall c v, c <> [x; y; z] ->
      pooled_at NDEBUG s1 this c mb v -> pooled_at NDEBUG s2 this c mb v.
Proof.
  intros Hx Hy Hz Hia Hib (ns1 & -> & Hsh1 & Hwf1 & Hmb1).
  assert (Hl1 : layers (put_layer s this (LMaxPool (mp_with_neurons l ns1))) !! this
                = Some (LMaxPool (mp_with_neurons l ns1)))
    by apply (put_layer_lookup _ _ _ _ Hl).
  unfold this_MaxPool. rewrite Hl1. cbn [bind].
  cbn [mp_inputs mp_poolX mp_poolY mp_neurons mp_with_neurons].
  rewrite Layer_getNeuron3_put_layer by exact Hp.
  assert (HX : uadd (umul x (mp_poolX l)) ia = x * mp_poolX l + ia).
  { unfold uadd, umul. rewrite (wrap_small (x * mp_poolX l)) by nia.
    apply wrap_small. nia. }
  assert (HY : uadd (umul y (mp_poolY l)) ib = y * mp_poolY l + ib).
  { unfold uadd, umul. rewrite (wrap_small (y * mp_poolY l)) by nia.
    apply wrap_small. nia. }
  rewrite HX, HY.
  pose proof (Ha (x * mp_poolX l + ia) (y * mp_poolY l + ib) z) as Hin.
  unfold activation_at in Hin.
  destruct (Layer_getNeuron3 NDEBUG s (mp_inputs l) (x * mp_poolX l + ia)
              (y * mp_poolY l + ib) z) as [inp | | |];
    cbn [bind] in Hin |- *; try (discriminate Hin; nia).
  rewrite Hin by nia. cbn [bind].
  assert (Hrange : Forall2 (fun i e => 0 <= i < e) [x; y; z] (shape ns1)).
  { rewrite Hsh1, Hshape. repeat constructor; lia. }
  destruct (ma_get_in_range NDEBUG ns1 [x; y; z] Hwf1 Hrange) as (n & Hget & Hn).
  rewrite Hget. cbn [bind].
  pose proof (Hmb1 n Hn) as Hmb. apply in_bounds_spec in Hmb.
  unfold set_activation. rewrite arr_set_in_bounds by exact Hmb. cbn [bind].
  match goal with
  | |- context [ma_set NDEBUG ns1 [x; y; z] ?n1] =>
      destruct (ma_set_in_range NDEBUG ns1 [x; y; z] n1 Hwf1 Hrange)
        as (ns2 & Hset & Hsh2 & Hwf2); set (n' := n1) in *
  end.
  rewrite Hset. cbn [bind]. rewrite put_layer_put_layer.
  eexists. split; [reflexivity |]. split; [| split].
  - exists ns2. split; [reflexivity |]. split; [congruence |].
    split; [exact Hwf2 |].
    intros m Hm. destruct (ma_set_elements NDEBUG _ _ _ _ Hset) as (off & _ & _ & ->).
    cbn [elements] in Hm. apply In_insert in Hm. destruct Hm as [-> | Hm].
    + unfold n'. cbn [activations]. rewrite length_insert.
      apply in_bounds_spec. exact Hmb.
    + apply (Hmb1 m Hm).
  - exists (mp_with_neurons l ns2), n'.
    split; [apply (put_layer_lookup _ _ _ _ Hl) |].
    split; [apply (ma_get_set_same _ _ _ _ _ Hset) |].
    unfold n'. cbn [activations]. rewrite arr_get_insert by exact Hmb.
    rewrite Z.eqb_refl. reflexivity.
  - intros c v Hc (l2 & m & Hl2 & Hget2 & Hv).
    rewrite Hl1 in Hl2. injection Hl2 as <-.
    cbn [mp_neurons mp_with_neurons] in Hget2.
    exists (mp_with_neurons l ns2), m.
    split; [apply (put_layer_lookup _ _ _ _ Hl) |].
    split; [| exact Hv]. cbn [mp_neurons mp_with_neurons].
    rewrite (ma_get_set_other _ _ _ _ _ _ Hset Hc). exact Hget2.
Qed.

(** The window loop for the neuron at [(x, y, z)]: what the last turn
    writes is what stays. *)
Lemma MaxPoolLayer_feedForward_window (x y z : Z) (s1 : @Store F RO) :
  0 <= x < dx -> 0 <= y < dy -> 0 <= z < dz ->
  pool_state s this l mb s1 ->
  exists s2,
    foldM (fun s '(a, b) =>
             let* l := this_MaxPool s this in
             let* inp := Layer_getNeuron3 NDEBUG s (mp_inputs l)
                           (uadd (umul x (mp_poolX l)) a)
                           (uadd (umul y (mp_poolY l)) b) z in
             let* input := arr_get (activations inp) mb in
             let* n := ma_get NDEBUG (mp_neurons l) [x; y; z] in
             let* n' := set_activation n mb (fmax FLT_MIN input) in
             let* ns' := ma_set NDEBUG (mp_neurons l) [x; y; z] n' in
             Ok (put_layer s this (LMaxPool (mp_with_neurons l ns'))))
          (loop2 (mp_poolX l) (mp_poolY l)) s1 = Ok s2 /\
    pool_state s this l mb s2 /\
    pooled_at NDEBUG s2 this [x; y; z] mb
      (fmax FLT_MIN (a (x * mp_poolX l + (mp_poolX l - 1))
                       (y * mp_poolY l + (mp_poolY l - 1)) z)) /\
    forall c v, c <> [x; y; z] ->
      pooled_at NDEBUG s1 this c mb v -> pooled_at NDEBUG s2 this c mb v.
Proof.
  intros Hx Hy Hz Hst. rewrite (loop2_last _ _ HpoolX HpoolY), foldM_app.
  match goal with
  | |- exists s2, bind (foldM ?body ?front s1) _ = _ /\ _ =>
      destruct (foldM_total
                  (fun s' => pool_state s this l mb s' /\
                             forall c v, c <> [x; y; z] ->
                               pooled_at NDEBUG s1 this c mb v ->
                               pooled_at NDEBUG s' this c mb v)
                  (fun ab : Z * Z => 0 <= fst ab < mp_poolX l /\
                                     0 <= snd ab < mp_poolY l)
                  body front s1) as (s' & Hrun & Hst' & Hframe)
  end.
  - intros s' [ia ib] [Hst' Hframe] [Hia Hib]. cbn [fst snd] in Hia, Hib.
    destruct (MaxPoolLayer_feedForward_turn x y z ia ib s' Hx Hy Hz Hia Hib Hst')
      as (s2 & Hrun & Hst2 & _ & Hframe2).
    exists s2. split; [exact Hrun |]. split; [exact Hst2 |].
    intros c v Hc Hv. apply (Hframe2 c v Hc). apply (Hframe c v Hc Hv).
  - intros [ia ib] Hin. cbn [fst snd]. apply in_loop2.
    rewrite <- (take_drop (Z.to_nat (mp_poolX l) * Z.to_nat (mp_poolY l) - 1)
                  (loop2 (mp_poolX l) (mp_poolY l))).
    apply in_or_app. left. exact Hin.
  - split; [exact Hst | auto].
  - rewrite Hrun. cbn [bind foldM].
    destruct (MaxPoolLayer_feedForward_turn x y z (mp_poolX l - 1)
                (mp_poolY l - 1) s' Hx Hy Hz ltac:(lia) ltac:(lia) Hst')
      as (s2 & Hrun2 & Hst2 & Hat & Hframe2).
    exists s2. rewrite Hrun2. cbn [bind]. split; [reflexivity |].
    split; [exact Hst2 |]. split; [exact Hat |].
    intros c v Hc Hv. apply (Hframe2 c v Hc). apply (Hframe c v Hc Hv).
Qed.

(** X17: [MaxPoolLayer::feedForward(mb)], on a layer of [dx * dy * dz]
    neurons whose predecessor supplies an activation at every coordinate
    of the pooled volume, returns and leaves as activation of the neuron
    at [(x, y, z)] the larger of [FLT_MIN] and the activation at the last
    corner of its window, [(x * poolX + poolX - 1, y * poolY + poolY - 1,
    z)]: the other elements of the window do not count.  The other layers
    and the input layer are as before. *)
Theorem MaxPoolLayer_feedForward_keeps_the_last_corner :
  well_formed (mp_neurons l) ->
  (forall n, In n (elements (mp_neurons l)) ->
     0 <= mb < Z.of_nat (length (activations n))) ->
  exists s' l',
    MaxPoolLayer_feedForward NDEBUG s this mb = Ok s' /\
    layers s' !! this = Some (LMaxPool l') /\
    (forall j, j <> this -> layers s' !! j = layers s !! j) /\
    inputLayer s' = inputLayer s /\
    forall x y z, 0 <= x < dx -> 0 <= y < dy -> 0 <= z < dz ->
      exists n',
        MaxPoolLayer_getNeuron3 NDEBUG l' x y z = Ok n' /\
        arr_get (activations n') mb
        = Ok (fmax FLT_MIN (a (x * mp_poolX l + (mp_poolX l - 1))
                              (y * mp_poolY l + (mp_poolY l - 1)) z)).
Proof.
  intros Hwf Hmb. unfold MaxPoolLayer_feedForward.
  assert (Hthis : this_MaxPool s this = Ok l)
    by (unfold this_MaxPool; rewrite Hl; reflexivity).
  rewrite Hthis. cbn [bind]. cbv zeta. unfold extent. rewrite Hshape. cbn [nth].
  assert (Hst0 : pool_state s this l mb s).
  { exists (mp_neurons l). split; [| split; [reflexivity | split; assumption]].
    symmetry. replace (mp_with_neurons l (mp_neurons l)) with l
      by (destruct l; reflexivity).
    apply put_layer_same. exact Hl. }
  match goal with
  | |- exists s' l', foldM ?body ?coords s = _ /\ _ =>
      set (B := body); set (run := foldM B coords s);
      assert (Hturn : forall s1 c, In c coords -> pool_state s this l mb s1 ->
                exists s2, B s1 c = Ok s2 /\ pool_state s this l mb s2 /\
                  (let '(x, y, z) := c in
                   pooled_at NDEBUG s2 this [x; y; z] mb
                     (fmax FLT_MIN (a (x * mp_poolX l + (mp_poolX l - 1))
                                      (y * mp_poolY l + (mp_poolY l - 1)) z)) /\
                   forall c' v, c' <> [x; y; z] ->
                     pooled_at NDEBUG s1 this c' mb v ->
                     pooled_at NDEBUG s2 this c' mb v))
  end.
  { intros s1 [[x y] z] Hin Hst. apply in_loop3 in Hin.
    destruct Hin as (Hx & Hy & Hz). unfold B.
    apply (MaxPoolLayer_feedForward_window x y z s1 Hx Hy Hz Hst). }
  assert (Htotal : exists s', run = Ok s' /\ pool_state s this l mb s').
  { unfold run.
    apply (foldM_total (pool_state s this l mb)
             (fun c => In c (loop3 dx dy dz))); [| auto | exact Hst0].
    intros s1 c Hst Hin. destruct (Hturn s1 c Hin Hst) as (s2 & Hrun & Hst2 & _).
    eauto. }
  destruct Htotal as (s' & Hrun & (ns' & -> & Hsh' & Hwf' & Hmb')).
  eexists. exists (mp_with_neurons l ns'). split; [exact Hrun |].
  split; [apply (put_layer_lookup _ _ _ _ Hl) |].
  split; [| split; [reflexivity |]].
  { intros j Hj. unfold put_layer. cbn. apply list_lookup_insert_ne. congruence. }
  intros x y z Hx Hy Hz.
  destruct (foldM_reaches (pool_state s this l mb)
              (fun s2 => pooled_at NDEBUG s2 this [x; y; z] mb
                 (fmax FLT_MIN (a (x * mp_poolX l + (mp_poolX l - 1))
                                  (y * mp_poolY l + (mp_poolY l - 1)) z)))
              B (loop3 dx dy dz) (x, y, z) s) as (s2 & Hrun2 & _ & Hat).
  - intros s1 [[x1 y1] z1] Hin Hst.
    destruct (Hturn s1 (x1, y1, z1) Hin Hst) as (s2 & Hrun2 & Hst2 & Hat & Hframe).
    exists s2. split; [exact Hrun2 |]. split; [exact Hst2 |].
    intros [E | HQ].
    + injection E as -> -> ->. exact Hat.
    + destruct (decide ([x; y; z] = [x1; y1; z1])) as [E | Hne].
      * injection E as -> -> ->. exact Hat.
      * apply (Hframe _ _ Hne HQ).
  - apply loop3_In; assumption.
  - exact Hst0.
  - fold run in Hrun2. rewrite Hrun in Hrun2. injection Hrun2 as <-.
    destruct Hat as (l2 & n' & Hl2 & Hget & Hv).
    rewrite (put_layer_lookup _ _ _ _ Hl) in Hl2. injection Hl2 as <-.
    exists n'. split; [exact Hget | exact Hv].
Qed.

End MaxPoolForward.

Lemma MaxPoolLayer_feedForward_keeps_the_last_corner_witness :
  exists s' l',
    MaxPoolLayer_feedForward false pool_loaded 0 0 = Ok s' /\
    layers s' !! 0%nat = Some (LMaxPool l') /\
    (forall j, j <> 0%nat -> layers s' !! j = layers pool_loaded !! j) /\
    inputLayer s' = inputLayer pool_loaded /\
    forall x y z, 0 <= x < 1 -> 0 <= y < 1 -> 0 <= z < 1 ->
      exists n',
        MaxPoolLayer_getNeuron3 false l' x y z = Ok n' /\
        arr_get (activations n') 0
        = Ok (fmax FLT_MIN
                (pool_in (x * mp_poolX pool_layer + (mp_poolX pool_layer - 1))
                         (y * mp_poolY pool_layer + (mp_poolY pool_layer - 1))
                         z)).
Proof.
  assert (EX : mp_poolX pool_layer = 2) by (vm_compute; reflexivity).
  assert (EY : mp_poolY pool_layer = 2) by (vm_compute; reflexivity).
  apply (MaxPoolLayer_feedForward_keeps_the_last_corner false pool_loaded 0
           pool_layer 0 1 1 1 pool_in).
  - vm_compute. reflexivity.
  - vm_compute. discriminate.
  - vm_compute. reflexivity.
  - rewrite EX. lia.
  - rewrite EY. lia.
  - rewrite EX. reflexivity.
  - rewrite EY. reflexivity.
  - intros X Y z HX HY Hz. rewrite EX in HX. rewrite EY in HY.
    assert (CX : X = 0 \/ X = 1) by lia. assert (CY : Y = 0 \/ Y = 1) by lia.
    assert (Cz : z = 0) by lia. subst z.
    destruct CX as [-> | ->], CY as [-> | ->]; vm_compute; reflexivity.
  - vm_compute. reflexivity.
  - apply List.Forall_forall.
    match goal with
    | |- List.Forall ?P ?l =>
        let l' := eval vm_compute in l in change (List.Forall P l')
    end.
    repeat (apply List.Forall_cons || apply List.Forall_nil);
      vm_compute; split; [discriminate | reflexivity].
Defined.

Lemma fold_left_fadd_map3 {F : Type} {FO : FloatOps F}
    (f : Z -> Z -> Z -> F) (l : list (Z * Z * Z)) (acc : F) :
  fold_left (fun acc '(a, b, c) => fadd acc (f a b c)) l acc
  = fold_left fadd (map (fun '(a, b, c) => f a b c) l) acc.
Proof.
  revert acc. induction l as [| [[a b] c] l IH]; intros acc; cbn;
    [reflexivity | apply IH].
Qed.

Section ConvForward.

Context {F : Type} {FO : FloatOps F} {RO : RandomOps F}.
Variable NDEBUG : bool.

(** [ConvNeuron::feedForward]: the convolution at the neuron's own
    coordinates. *)
Lemma ConvNeuron_feedForward_spec (act : F -> F) (s1 : @Store F RO)
    (n : ConvNeuron) (weights bias : multi_array F) (mb fms kx ky kz : Z)
    (a w : Z -> Z -> Z -> F) (b : F) :
  shape weights = [fms; kx; ky; kz] ->
  (forall ia ib ic, 0 <= ia < kx -> 0 <= ib < ky -> 0 <= ic < kz ->
     activation_at NDEBUG s1 (cn_inputs n) (uadd (n_x (cn_base n)) ia)
                   (uadd (n_y (cn_base n)) ib) ic mb = Ok (a ia ib ic)) ->
  (forall ia ib ic, 0 <= ia < kx -> 0 <= ib < ky -> 0 <= ic < kz ->
     ma_get NDEBUG weights [n_z (cn_base n); ia; ib; ic] = Ok (w ia ib ic)) ->
  ma_get NDEBUG bias [n_z (cn_base n)] = Ok b ->
  0 <= mb < Z.of_nat (length (weightedInputs (cn_base n))) ->
  0 <= mb < Z.of_nat (length (activations (cn_base n))) ->
  exists n',
    ConvNeuron_feedForward NDEBUG act s1 n weights bias mb = Ok n' /\
    arr_get (weightedInputs (cn_base n')) mb = Ok (conv_sum a w kx ky kz b) /\
    arr_get (activations (cn_base n')) mb = Ok (act (conv_sum a w kx ky kz b)) /\
    n_x (cn_base n') = n_x (cn_base n) /\ n_y (cn_base n') = n_y (cn_base n) /\
    n_z (cn_base n') = n_z (cn_base n) /\ cn_inputs n' = cn_inputs n /\
    length (weightedInputs (cn_base n')) = length (weightedInputs (cn_base n)) /\
    length (activations (cn_base n')) = length (activations (cn_base n)).
Proof.
  intros Hshape Ha Hw Hb Hz Hact. unfold ConvNeuron_feedForward. cbv zeta.
  unfold extent. rewrite Hshape. cbn [nth].
  replace (foldM _ (loop3 kx ky kz) f0)
    with (Ok (fsum (map (fun '(ia, ib, ic) => fmul (a ia ib ic) (w ia ib ic))
                        (loop3 kx ky kz)))).
  2:{ symmetry. unfold fsum.
      rewrite <- (fold_left_fadd_map3 (fun ia ib ic => fmul (a ia ib ic) (w ia ib ic))).
      apply foldM_pure. intros acc [[ia ib] ic] Hin. apply in_loop3 in Hin.
      destruct Hin as (Hia & Hib & Hic).
      specialize (Ha ia ib ic Hia Hib Hic). unfold activation_at in Ha.
      destruct (Layer_getNeuron3 NDEBUG s1 (cn_inputs n) _ _ ic) as [inp | | |];
        cbn [bind] in *; try discriminate.
      rewrite Ha. cbn [bind]. rewrite (Hw ia ib ic Hia Hib Hic). reflexivity. }
  cbn [bind]. rewrite Hb. cbn [bind].
  fold (conv_sum a w kx ky kz b).
  apply in_bounds_spec in Hz. apply in_bounds_spec in Hact.
  unfold set_weightedInput. rewrite arr_set_in_bounds by exact Hz. cbn [bind].
  unfold set_activation. cbn [activations].
  rewrite arr_set_in_bounds by exact Hact. cbn [bind].
  eexists. split; [reflexivity |]. cbn.
  rewrite !arr_get_insert by assumption. rewrite Z.eqb_refl.
  rewrite !length_insert. auto 10.
Qed.

Variable s : @Store F RO.
Variable this : nat.
Variable l : @ConvLayer F.
Variable mb fms dx dy kx ky kz : Z.
Variable a : Z -> Z -> Z -> F.
Variable w : Z -> Z -> Z -> Z -> F.
Variable b : Z -> F.

Hypothesis Hl : layers s !! this = Some (LConv l).
Hypothesis Hp : cl_inputs l <> PLayer this.
Hypothesis Hneurons : shape (cl_neurons l) = [fms; dx; dy].
Hypothesis Hweights : shape (cl_weights l) = [fms; kx; ky; kz].
Hypothesis HfitX : dx + kx <= UINT_MODULUS.
Hypothesis HfitY : dy + ky <= UINT_MODULUS.
Hypothesis Ha : forall X Y c,
  0 <= X < dx + kx - 1 -> 0 <= Y < dy + ky - 1 -> 0 <= c < kz ->
  activation_at NDEBUG s (cl_inputs l) X Y c mb = Ok (a X Y c).
Hypothesis Hw : forall fm ia ib ic,
  0 <= fm < fms -> 0 <= ia < kx -> 0 <= ib < ky -> 0 <= ic < kz ->
  ma_get NDEBUG (cl_weights l) [fm; ia; ib; ic] = Ok (w fm ia ib ic).
Hypothesis Hb : forall fm,
  0 <= fm < fms -> ma_get NDEBUG (cl_bias l) [fm] = Ok (b fm).

(** One turn of the neuron loop. *)
Lemma ConvLayer_feedForward_turn (fm x y : Z) (s1 : @Store F RO) :
  0 <= fm < fms -> 0 <= x < dx -> 0 <= y < dy ->
  conv_state NDEBUG s this l mb s1 ->
  exists s2,
    (let* l := this_Conv s1 this in
     let* n := ma_get NDEBUG (cl_neurons l) [fm; x; y] in
     let* n' := ConvNeuron_feedForward NDEBUG (cl_activationFn l) s1 n
                  (cl_weights l) (cl_bias l) mb in
     let* ns' := ma_set NDEBUG (cl_neurons l) [fm; x; y] n' in
     Ok (put_layer s1 this (LConv (cl_with_neurons l ns')))) = Ok s2 /\
    conv_state NDEBUG s this l mb s2 /\
    conv_at NDEBUG s2 this [fm; x; y] mb
      (conv_sum (fun ia ib ic => a (x + ia) (y + ib) ic) (w fm) kx ky kz (b fm))
      (cl_activationFn l
         (conv_sum (fun ia ib ic => a (x + ia) (y + ib) ic) (w fm) kx ky kz (b fm))) /\
    forall c z v, c <> [fm; x; y] ->
      conv_at NDEBUG s1 this c mb z v -> conv_at NDEBUG s2 this c mb z v.
Proof.
  intros Hfm Hx Hy (ns1 & -> & Hsh1 & Hwf1 & Hready1).
  assert (Hl1 : layers (put_layer s this (LConv (cl_with_neurons l ns1))) !! this
                = Some (LConv (cl_with_neurons l ns1)))
    by apply (put_layer_lookup _ _ _ _ Hl).
  unfold this_Conv. rewrite Hl1. cbn [bind].
  cbn [cl_neurons cl_weights cl_bias cl_activationFn cl_with_neurons].
  assert (He : extent ns1 0 = fms /\ extent ns1 1 = dx /\ extent ns1 2 = dy).
  { unfold extent. rewrite Hsh1, Hneurons. auto. }
  destruct He as (He0 & He1 & He2).
  destruct (Hready1 fm x y) as (n & Hget & Hnx & Hny & Hnz & Hin & Hzr & Har);
    try lia.
  rewrite Hget. cbn [bind].
  destruct (ConvNeuron_feedForward_spec (cl_activationFn l)
              (put_layer s this (LConv (cl_with_neurons l ns1))) n
              (cl_weights l) (cl_bias l) mb fms kx ky kz
              (fun ia ib ic => a (x + ia) (y + ib) ic) (w fm) (b fm))
    as (n' & Hrun & Hz' & Ha' & Hnx' & Hny' & Hnz' & Hin' & Hlz' & Hla');
    try assumption.
  { intros ia ib ic Hia Hib Hic. rewrite Hin, Hnx, Hny. unfold activation_at.
    rewrite Layer_getNeuron3_put_layer by exact Hp.
    unfold uadd. rewrite !wrap_small by lia. apply Ha; lia. }
  { intros ia ib ic Hia Hib Hic. rewrite Hnz. apply Hw; assumption. }
  { rewrite Hnz. apply Hb. exact Hfm. }
  rewrite Hrun. cbn [bind].
  assert (Hrange : Forall2 (fun i e => 0 <= i < e) [fm; x; y] (shape ns1)).
  { rewrite Hsh1, Hneurons. repeat constructor; lia. }
  destruct (ma_set_in_range NDEBUG ns1 [fm; x; y] n' Hwf1 Hrange)
    as (ns2 & Hset & Hsh2 & Hwf2).
  rewrite Hset. cbn [bind]. rewrite put_layer_put_layer.
  eexists. split; [reflexivity |]. split; [| split].
  - exists ns2. split; [reflexivity |]. split; [congruence |].
    split; [exact Hwf2 |].
    assert (He' : extent ns2 0 = fms /\ extent ns2 1 = dx /\ extent ns2 2 = dy).
    { unfold extent. rewrite Hsh2, Hsh1, Hneurons. auto. }
    destruct He' as (-> & -> & ->).
    intros fm1 x1 y1 Hfm1 Hx1 Hy1.
    destruct (decide ([fm1; x1; y1] = [fm; x; y])) as [E | Hne].
    + injection E as -> -> ->. exists n'.
      split; [apply (ma_get_set_same _ _ _ _ _ Hset) |].
      unfold conv_neuron_ready. rewrite Hnx', Hny', Hnz', Hin', Hlz', Hla'.
      auto 10.
    + rewrite (ma_get_set_other _ _ _ _ _ _ Hset Hne).
      apply Hready1; lia.
  - exists (cl_with_neurons l ns2), n'.
    split; [apply (put_layer_lookup _ _ _ _ Hl) |].
    split; [apply (ma_get_set_same _ _ _ _ _ Hset) |]. auto.
  - intros c z v Hc (l2 & m & Hl2 & Hget2 & Hv).
    rewrite Hl1 in Hl2. injection Hl2 as <-.
    cbn [cl_neurons cl_with_neurons] in Hget2.
    exists (cl_with_neurons l ns2), m.
    split; [apply (put_layer_lookup _ _ _ _ Hl) |].
    split; [| exact Hv]. cbn [cl_neurons cl_with_neurons].
    rewrite (ma_get_set_other _ _ _ _ _ _ Hset Hc). exact Hget2.
Qed.

(** X18: [ConvLayer::feedForward(mb)], on a layer of [fms * dx * dy]
    neurons that sit at their own coordinates and read a predecessor
    supplying an activation at every coordinate the kernels reach,
    returns and leaves in slot [mb] of the neuron at [(x, y)] of feature
    map [fm] the weighted input
    [sum over (ia, ib, ic) of input (x + ia, y + ib, ic) * weights[fm][ia][ib][ic]],
    accumulated from [0.0f] with [ic] running fastest, plus [bias[fm]],
    and as activation the layer's activation function of it.  Weights,
    biases, the other layers and the input layer are as before. *)
Theorem ConvLayer_feedForward_values :
  well_formed (cl_neurons l) ->
  (forall fm x y, 0 <= fm < fms -> 0 <= x < dx -> 0 <= y < dy ->
     exists n, ma_get NDEBUG (cl_neurons l) [fm; x; y] = Ok n /\
               conv_neuron_ready l mb fm x y n) ->
  exists s' l',
    ConvLayer_feedForward NDEBUG s this mb = Ok s' /\
    layers s' !! this = Some (LConv l') /\
    (forall j, j <> this -> layers s' !! j = layers s !! j) /\
    inputLayer s' = inputLayer s /\
    cl_weights l' = cl_weights l /\ cl_bias l' = cl_bias l /\
    forall fm x y, 0 <= fm < fms -> 0 <= x < dx -> 0 <= y < dy ->
      exists n',
        ConvLayer_getNeuron3 NDEBUG l' x y fm = Ok n' /\
        arr_get (weightedInputs n') mb
        = Ok (conv_sum (fun ia ib ic => a (x + ia) (y + ib) ic) (w fm)
                       kx ky kz (b fm)) /\
        arr_get (activations n') mb
        = Ok (cl_activationFn l
                (conv_sum (fun ia ib ic => a (x + ia) (y + ib) ic) (w fm)
                          kx ky kz (b fm))).
Proof.
  intros Hwf Hready. unfold ConvLayer_feedForward, ConvLayer_for_each.
  assert (Hthis : this_Conv s this = Ok l)
    by (unfold this_Conv; rewrite Hl; reflexivity).
  rewrite Hthis. cbn [bind]. cbv zeta. unfold extent. rewrite Hneurons. cbn [nth].
  assert (Hst0 : conv_state NDEBUG s this l mb s).
  { exists (cl_neurons l). split; [| split; [reflexivity | split; [exact Hwf |]]].
    - symmetry. replace (cl_with_neurons l (cl_neurons l)) with l
        by (destruct l; reflexivity).
      apply put_layer_same. exact Hl.
    - unfold extent. rewrite Hneurons. cbn [nth]. exact Hready. }
  match goal with
  | |- exists s' l', foldM ?body ?coords s = _ /\ _ =>
      set (B := body); set (run := foldM B coords s);
      assert (Hturn : forall s1 c, In c coords ->
                conv_state NDEBUG s this l mb s1 ->
                exists s2, B s1 c = Ok s2 /\ conv_state NDEBUG s this l mb s2 /\
                  (let '(fm, x, y) := c in
                   conv_at NDEBUG s2 this [fm; x; y] mb
                     (conv_sum (fun ia ib ic => a (x + ia) (y + ib) ic) (w fm)
                               kx ky kz (b fm))
                     (cl_activationFn l
                        (conv_sum (fun ia ib ic => a (x + ia) (y + ib) ic) (w fm)
                                  kx ky kz (b fm))) /\
                   forall c' z v, c' <> [fm; x; y] ->
                     conv_at NDEBUG s1 this c' mb z v ->
                     conv_at NDEBUG s2 this c' mb z v))
  end.
  { intros s1 [[fm x] y] Hin Hst. apply in_loop3 in Hin.
    destruct Hin as (Hfm & Hx & Hy). unfold B.
    apply (ConvLayer_feedForward_turn fm x y s1 Hfm Hx Hy Hst). }
  assert (Htotal : exists s', run = Ok s' /\ conv_state NDEBUG s this l mb s').
  { unfold run.
    apply (foldM_total (conv_state NDEBUG s this l mb)
             (fun c => In c (loop3 fms dx dy))); [| auto | exact Hst0].
    intros s1 c Hst Hin. destruct (Hturn s1 c Hin Hst) as (s2 & Hrun & Hst2 & _).
    eauto. }
  destruct Htotal as (s' & Hrun & (ns' & -> & Hsh' & Hwf' & Hready')).
  eexists. exists (cl_with_neurons l ns'). split; [exact Hrun |].
  split; [apply (put_layer_lookup _ _ _ _ Hl) |].
  split; [| split; [reflexivity | split; [reflexivity | split; [reflexivity |]]]].
  { intros j Hj. unfold put_layer. cbn. apply list_lookup_insert_ne. congruence. }
  intros fm x y Hfm Hx Hy.
  destruct (foldM_reaches (conv_state NDEBUG s this l mb)
              (fun s2 => conv_at NDEBUG s2 this [fm; x; y] mb
                 (conv_sum (fun ia ib ic => a (x + ia) (y + ib) ic) (w fm)
                           kx ky kz (b fm))
                 (cl_activationFn l
                    (conv_sum (fun ia ib ic => a (x + ia) (y + ib) ic) (w fm)
                              kx ky kz (b fm))))
              B (loop3 fms dx dy) (fm, x, y) s) as (s2 & Hrun2 & _ & Hat).
  - intros s1 [[fm1 x1] y1] Hin Hst.
    destruct (Hturn s1 (fm1, x1, y1) Hin Hst) as (s2 & Hrun2 & Hst2 & Hat & Hframe).
    exists s2. split; [exact Hrun2 |]. split; [exact Hst2 |].
    intros [E | HQ].
    + injection E as -> -> ->. exact Hat.
    + destruct (decide ([fm; x; y] = [fm1; x1; y1])) as [E | Hne].
      * injection E as -> -> ->. exact Hat.
      * apply (Hframe _ _ _ Hne HQ).
  - apply loop3_In; assumption.
  - exact Hst0.
  - fold run in Hrun2. rewrite Hrun in Hrun2. injection Hrun2 as <-.
    destruct Hat as (l2 & n' & Hl2 & Hget & Hz & Hv).
    rewrite (put_layer_lookup _ _ _ _ Hl) in Hl2. injection Hl2 as <-.
    exists (cn_base n'). unfold ConvLayer_getNeuron3. rewrite Hget. cbn [bind].
    auto.
Qed.

End ConvForward.

Lemma ConvLayer_feedForward_values_witness :
  exists s' l',
    ConvLayer_feedForward false conv_loaded 0 0 = Ok s' /\
    layers s' !! 0%nat = Some (LConv l') /\
    (forall j, j <> 0%nat -> layers s' !! j = layers conv_loaded !! j) /\
    inputLayer s' = inputLayer conv_loaded /\
    cl_weights l' = cl_weights conv_layer /\ cl_bias l' = cl_bias conv_layer /\
    forall fm x y, 0 <= fm < 1 -> 0 <= x < 1 -> 0 <= y < 2 ->
      exists n',
        ConvLayer_getNeuron3 false l' x y fm = Ok n' /\
        arr_get (weightedInputs n') 0
        = Ok (conv_sum (fun ia ib ic => conv_in (x + ia) (y + ib) ic)
                       (conv_weight fm) 2 1 1 (conv_bias fm)) /\
        arr_get (activations n') 0
        = Ok (cl_activationFn conv_layer
                (conv_sum (fun ia ib ic => conv_in (x + ia) (y + ib) ic)
                          (conv_weight fm) 2 1 1 (conv_bias fm))).
Proof.
  apply (ConvLayer_feedForward_values false conv_loaded 0 conv_layer 0
           1 1 2 2 1 1 conv_in conv_weight conv_bias).
  - vm_compute. reflexivity.
  - vm_compute. discriminate.
  - vm_compute. reflexivity.
  - vm_compute. reflexivity.
  - vm_compute. discriminate.
  - vm_compute. discriminate.
  - intros X Y c HX HY Hc.
    assert (CX : X = 0 \/ X = 1) by lia. assert (CY : Y = 0 \/ Y = 1) by lia.
    assert (Cc : c = 0) by lia. subst c.
    destruct CX as [-> | ->], CY as [-> | ->]; vm_compute; reflexivity.
  - intros fm ia ib ic Hfm Hia Hib Hic.
    assert (Cfm : fm = 0) by lia. assert (Cia : ia = 0 \/ ia = 1) by lia.
    assert (Cib : ib = 0) by lia. assert (Cic : ic = 0) by lia. subst fm ib ic.
    destruct Cia as [-> | ->]; vm_compute; reflexivity.
  - intros fm Hfm. assert (Cfm : fm = 0) by lia. subst fm.
    vm_compute. reflexivity.
  - vm_compute. reflexivity.
  - intros fm x y Hfm Hx Hy.
    assert (Cfm : fm = 0) by lia. assert (Cx : x = 0) by lia.
    assert (Cy : y = 0 \/ y = 1) by lia. subst fm x.
    destruct Cy as [-> | ->]; eexists;
      (split; [vm_compute; reflexivity |]);
      vm_compute; repeat split; (discriminate || reflexivity).
Defined.
